(* ===== verification/_CoqProject ===== *)
-Q . S2P
Prelude.v
Ring.v
Binary64.v
Text.v
Console.v
Metrics.v
Optional.v
Message.v
MessageSerializer.v
MessageParser.v
MessageBuffer.v
CircularBuffer.v
VwapSpec.v
VwapCalculator.v
DecisionEngine.v
TradingSpec.v
OrderManager.v
TcpClient.v
OrderClient.v
Layout.v
MarketDataClient.v
NetworkManager.v
Reports.v
Trader.v
TraderConsole.v
MemoryPool.v
CsvReader.v
Simulator.v
SimulatorThreads.v
Benchmark.v
ToolReports.v
RepositoryTests.v
