(* ===== verification/Prelude.v ===== *)
(** * Verification of the VWAP trading system

    The program under [src/] is a C++ trading client.  It subscribes to a
    binary feed of quotes and trades, keeps the volume-weighted average price
    (VWAP) of the trades of a sliding window, and sends an order when a quote
    is better than that average.  Beside the client the repository holds a
    simulator that produces such a feed, a CSV reader for recorded days, two
    object pools and a benchmark.  This library models these parts in Rocq and
    proves what they do.

    ** How the program is put together

    [main.cpp] parses the command line, builds an [OrderManager] and a
    [NetworkManager], and turns the event loop until a signal arrives.  In
    each turn [NetworkManager::processEvents] asks [select] which of two
    sockets is ready.  The market socket is a [MarketDataClient]: a
    [TcpClient] whose bytes go into a [MessageBuffer], from which whole
    messages are cut, parsed by [MessageParser], validated, and handed to the
    callback of [main].  The callback passes a trade of the configured symbol
    to [OrderManager::processTrade], and so to [VwapCalculator::addTrade]; a
    quote goes to [OrderManager::processQuote], which reads the average and
    asks the [DecisionEngine].  An order is recorded and serialized by
    [OrderClient::sendOrder] onto the order socket, or into its queue, which
    [processSendQueue] empties in later turns.  [GlobalMetrics] counts on the
    side.

    ** The files

    - [Prelude] (this file): record update, machine integers with their wrap,
      automation, list lemmas, byte strings.
    - [Ring]: the arithmetic the three ring buffers share.
    - [Binary64]: [double] as the standard library's executable [SpecFloat],
      with the bounds on rounding that the prices need.
    - [Text]: [strtoul], [stoul], [stoi], [stod] and stream extraction, as the
      program uses them.
    - [Console]: output streams: insertion, manipulators, and the text of a
      [double] in fixed and default notation.
    - [Metrics] ([metrics.h]): the counters; the minimum and maximum loops of
      [updateLatency] also as steps of several threads.
    - [Optional] ([optional.h]): the optional value, with object lifetimes; the
      other files take it for [option].
    - [Message], [MessageSerializer], [MessageParser]: the wire format
      ([wire_format.h], [message.h], [endian_converter.h]) and both directions
      of the conversion.
    - [MessageBuffer] ([message_buffer.cpp]): the 64 KiB byte ring, framing and
      resynchronisation.
    - [CircularBuffer] ([circular_buffer.h]): the overwriting ring, and the
      class [Deque], the interface the calculator is verified against.
    - [VwapSpec], [VwapCalculator] ([vwap_calculator.cpp]): the sliding window
      as a filtered list, and the code that implements it with running sums,
      prefix arrays and binary search.
    - [TradingSpec]: the reference trader, which decides in exact arithmetic.
    - [DecisionEngine], [OrderManager] ([decision_engine.cpp],
      [order_manager.cpp]): when an order is made, and the components' owner,
      which follows the reference.
    - [TcpClient], [OrderClient], [MarketDataClient], [NetworkManager] (the
      files of the same names, and [config.h]): connections, reconnection, the
      order queue, the feed, the event loop.
    - [Layout] ([message.h], [metrics.h], [constants.h]): how the structs lie
      in memory, the headers' assertions, and the constants no file includes.
    - [Reports]: what the components print, a module per component: the
      decision engine, the calculator and the manager, the connections, the
      metrics.
    - [Trader] ([main.cpp]): command line, callbacks, signals, main loop, the
      program.
    - [TraderConsole] ([main.cpp]): the same program with [std::cout] and
      [std::cerr].
    - [MemoryPool] ([memory_pool.h]): both pools, the lock-free one
      sequentially and as interleaved atomic steps.
    - [CsvReader] ([csv_reader.cpp]): files, records, replay.
    - [Simulator] ([simulator.cpp], [simulator_main.cpp]): the feed's source,
      turn by turn.
    - [SimulatorThreads] ([simulator.cpp]): its two threads as interleaved
      steps on the shared list of sockets, its mutex and the descriptors.
    - [Benchmark] ([benchmark.cpp]): test data, loops, statistics.
    - [ToolReports]: what the CSV reader, the simulator and the benchmark
      print.
    - [RepositoryTests] ([tests/]): the repository's deterministic tests,
      evaluated on the model; those the program does not pass are marked.

    ** How code becomes a definition

    A class is a record with the members of the same names; a method is a
    function from the state (and the global metrics, where it counts) to its
    result and the new state.  An unsigned integer is a [Z] with its wrap
    written out ([u32], [u64], ...), an [int32_t] a [Z] with [i32].  Undefined
    behaviour -- a conversion of a [double] outside the target type, an index
    outside its array -- is [None], and the theorems prove that it is not
    reached where they say so.  Whatever comes from outside -- answers of
    system calls, clock readings, random draws, the initial contents of
    uninitialised memory -- is an argument: a theorem holds for all of them,
    or names the restriction.  [errno] is threaded through the socket calls.
    What the kernel takes is logged, so that the theorems can speak of what
    the other side receives.  One thing comes from the C++ library: what a
    [std::string] holds after it was moved from, which [Reports.MovedString]
    leaves open, because the program prints such a string.

    ** The groups of theorems

    - The whole program: [Trader.trader_session] composes the feed, the
      manager and the order client: from the bytes of the market socket to
      the bytes of the order socket, which are those of the reference
      trader's orders.  It and the theorems on the feed say which messages
      come through: those [MessageBuffer.arrived], whose last byte is among
      the bytes read.  [Trader.shutdown] is its life from the command line
      to the exit code.
    - What the user sees: the lemma [TraderConsole.console_is_silent] carries
      the other theorems over to the program with its output; [quote_output] and [stats_report] give the text of an
      order and of the periodic report, [Reports.history_report] the table of
      past orders, with prices exact to the cent; [ToolReports.sent_lines] and
      [verdict_is_fixed] are about the tools.
    - The average: [VwapCalculator.addTrade_refines] is the simulation with
      the specification; [vwap_exact] and [vwap_within_prices] follow from it,
      and so do two properties that the code does not intend:
      [window_completes_iff] and [overwritten_volume_stays].
    - Trading: [DecisionEngine.evaluateQuote_decides] gives every branch of a
      decision; [engine_books] and [orders_respect_cooldown] are invariants of
      sequences of quotes; [OrderManager.manager_runs] is the refinement of
      the reference trader by the composed component, and
      [order_beats_average] what an order means.
    - The wire: [MessageParser.wire_roundtrip],
      [MessageBuffer.stream_reassembly], [MarketDataClient.feed_delivery].
    - Connections: the state machines of [TcpClient] ([connect_state_machine],
      [transfer_state_machine], [backoff_grows]), the queue of
      [OrderClient], the safety of [NetworkManager.event_loop_safe], and the
      ways in which a connection is lost ([deaf_for_good],
      [corrupt_header_stalls], [order_split_by_next]).
    - Configuration: [Trader.command_line_roundtrip] and
      [symbol_filter_is_prefix].
    - Results: [Optional.optional_is_option].
    - Threads: [Layout.groups_apart], [Metrics.updateLatency_min_contended],
      [MemoryPool.concurrent_allocation] and [aba_hands_out_twice]; for the
      simulator [SimulatorThreads.descriptors_safe] and [stop_joins], and the
      lemma [turns_are_interleavings], which relates the steps to the turns of
      [Simulator].
    - Recorded and simulated data: [CsvReader.csv_file_roundtrip],
      [records_well_typed] and [replay_thousandfold];
      [Simulator.simulator_feeds_buffer] composes the simulator with the
      client's receive buffer, up to the first price that does not fit an
      [int32_t]; [replay_diluted] and [duration_never_ends].
    - Measurement: [Benchmark.percentiles], [vwap_benchmark_reads] and
      [order_benchmark_is_idle].

    Where a theorem describes behaviour the code does not intend, its comment
    says so.

    ** Bounds and fuel

    Loops that are not structural take fuel: the binary search the length of
    the window (it halves the interval each turn), [trim_history] one turn per
    element, the message loop of [processIncomingData] the buffered bytes
    plus one (each turn but the last consumes a header or stops), the scan of
    [resync] the buffered bytes, [popAll] the queue's length.  The lemmas
    [lower_bound_spec], [trim_history_spec], [process_loop_drain] and
    [processSendQueue_drains] show that this is enough: the result is the one
    the loop reaches by itself.  Every other recursion is on the data, or on
    the list of turns the environment grants.

    The exactness theorems on prices assume that the sum of price times
    quantity stays below [2 ^ 51] or [2 ^ 53] cents, where integers convert to
    [double] exactly; capacities are parameters of the proofs, so that the
    examples evaluate on small buffers while the theorems cover the
    program's.

    ** What is not modelled

    - [handlePeriodicTasks], which updates a local clock value that nothing
      reads.
    - Preemption by a signal: a handler runs, and prints, at the end of the
      turn in which the signal arrives; the turns of the program's single
      thread do not depend on when within a turn the flag is set.
    - Memory ordering: atomics are sequentially consistent in the step
      relations.  Insertions of the simulator's threads into one stream are
      not interleaved.
    - [parseValue] of the CSV reader, a template without instances; the move
      variant of the circular buffer, which writes the same slots (what it
      leaves of the record it moves from is in [Reports.recorded_text]); accessors
      that return a member; of the benchmark's allocation loop, which frees
      what it allocates, all but its time.
    - The test programs themselves, the [Makefile] and
      [simple_order_server.py]. *)
From Stdlib Require Export ZArith Lia Bool.
From stdpp Require Export base tactics numbers list option relations sorting.

Declare Scope vwap_scope.
Delimit Scope vwap_scope with vwap.
#[global] Open Scope vwap_scope.
#[global] Open Scope Z_scope.

Create HintDb vwap.
Create Rewrite HintDb vwap.

(** ** Record update

    [r <| p := v |>] and [r <| p ::= f |>] rebuild the record [r] with one
    field changed.  A record opts in with a [Settable] instance, its eta
    expansion; the setter for a projection is computed from it. *)

Class Settable (R : Type) := eta : R → R.
#[global] Hint Mode Settable ! : typeclass_instances.

Class Setter {R T : Type} (proj : R → T) := set : (T → T) → R → R.
Arguments set {R T} proj {_} _ _ /.

Ltac build_setter proj :=
  match type of proj with
  | ?R → ?T =>
      let E := eval hnf in (_ : Settable R) in
      match eval pattern proj in E with
      | ?abstracted _ => exact (fun f => abstracted (fun r => f (proj r)))
      end
  end.

#[global] Hint Extern 0 (Setter ?proj) => build_setter proj : typeclass_instances.

Notation "r <| p ::= f |>" := (set p f r)
  (at level 12, p at level 11, left associativity) : vwap_scope.
Notation "r <| p := v |>" := (set p (fun _ => v) r)
  (at level 12, p at level 11, left associativity) : vwap_scope.

(** ** Machine integers

    A C++ integer of width [w] is the [Z] it denotes.  Unsigned arithmetic
    wraps modulo [2 ^ w]; a conversion to [int32_t] takes the two's
    complement representative. *)

Definition wrap (w x : Z) : Z := x mod 2 ^ w.
Definition u8 (x : Z) : Z := wrap 8 x.
Definition u16 (x : Z) : Z := wrap 16 x.
Definition u32 (x : Z) : Z := wrap 32 x.
Definition u64 (x : Z) : Z := wrap 64 x.
Definition i32 (x : Z) : Z := let y := wrap 32 x in if y <? 2 ^ 31 then y else y - 2 ^ 32.

Definition UINT64_MAX : Z := 2 ^ 64 - 1.

Abbreviation is_u8 x := (0 ≤ x < 2 ^ 8).
Abbreviation is_u16 x := (0 ≤ x < 2 ^ 16).
Abbreviation is_u32 x := (0 ≤ x < 2 ^ 32).
Abbreviation is_u64 x := (0 ≤ x < 2 ^ 64).
Abbreviation is_i32 x := (- 2 ^ 31 ≤ x < 2 ^ 31).

Lemma wrap_range w x : 0 ≤ w → 0 ≤ wrap w x < 2 ^ w.
Proof. intros Hw. apply Z.mod_pos_bound, Z.pow_pos_nonneg; lia. Qed.

Lemma wrap_small w x : 0 ≤ x < 2 ^ w → wrap w x = x.
Proof. apply Z.mod_small. Qed.

Lemma u8_small x : is_u8 x → u8 x = x.
Proof. apply wrap_small. Qed.
Lemma u16_small x : is_u16 x → u16 x = x.
Proof. apply wrap_small. Qed.
Lemma u32_small x : is_u32 x → u32 x = x.
Proof. apply wrap_small. Qed.
Lemma u64_small x : is_u64 x → u64 x = x.
Proof. apply wrap_small. Qed.
Lemma u8_range x : is_u8 (u8 x).
Proof. apply wrap_range; lia. Qed.
Lemma u16_range x : is_u16 (u16 x).
Proof. apply wrap_range; lia. Qed.
Lemma u32_range x : is_u32 (u32 x).
Proof. apply wrap_range; lia. Qed.
Lemma u64_range x : is_u64 (u64 x).
Proof. apply wrap_range; lia. Qed.
Lemma u64_u64_add a b : u64 (u64 a + b) = u64 (a + b).
Proof. apply Z.add_mod_idemp_l. done. Qed.

Lemma i32_range x : is_i32 (i32 x).
Proof.
  unfold i32. pose proof (wrap_range 32 x ltac:(lia)).
  destruct (Z.ltb_spec (wrap 32 x) (2 ^ 31)); lia.
Qed.

Lemma i32_u32 x : is_i32 x → i32 (u32 x) = x.
Proof.
  intros H. unfold i32, u32, wrap. rewrite Zmod_mod.
  destruct (Z.le_gt_cases 0 x).
  - rewrite Z.mod_small by lia. destruct (Z.ltb_spec x (2 ^ 31)); lia.
  - replace (x mod 2 ^ 32) with (x + 2 ^ 32)
      by (rewrite <- (Z.mod_add x 1) by lia; rewrite Z.mod_small; lia).
    destruct (Z.ltb_spec (x + 2 ^ 32) (2 ^ 31)); lia.
Qed.

Lemma i32_small x : is_i32 x → i32 x = x.
Proof.
  intros H. rewrite <- (i32_u32 x H) at 2. unfold i32, u32, wrap. by rewrite Zmod_mod.
Qed.

Lemma u32_i32 x : is_u32 x → u32 (i32 x) = x.
Proof.
  intros H. unfold i32, u32. rewrite !(wrap_small 32 x) by lia.
  destruct (Z.ltb_spec x (2 ^ 31)); [by apply wrap_small; lia|].
  unfold wrap. rewrite <- (Z.mod_add (x - 2 ^ 32) 1) by lia. rewrite Z.mod_small; lia.
Qed.

#[export] Hint Resolve u8_range u16_range u32_range u64_range i32_range : vwap.
#[export] Hint Rewrite u8_small u16_small u32_small u64_small i32_small using lia : vwap.

(** ** Case analysis on boolean guards *)

(** [guards] turns every boolean comparison among the hypotheses into the
    proposition it decides, and splits conjunctions. *)
Ltac guards :=
  repeat match goal with
    | H : _ && _ = true |- _ => apply andb_true_iff in H; destruct H
    | H : _ || _ = false |- _ => apply orb_false_iff in H; destruct H
    | H : negb _ = true |- _ => apply negb_true_iff in H
    | H : negb _ = false |- _ => apply negb_false_iff in H
    | H : (_ <? _) = true |- _ => apply Z.ltb_lt in H
    | H : (_ <? _) = false |- _ => apply Z.ltb_ge in H
    | H : (_ <=? _) = true |- _ => apply Z.leb_le in H
    | H : (_ <=? _) = false |- _ => apply Z.leb_gt in H
    | H : (_ =? _) = true |- _ => apply Z.eqb_eq in H
    | H : (_ =? _) = false |- _ => apply Z.eqb_neq in H
    | H : (_ =? _)%nat = true |- _ => apply Nat.eqb_eq in H
    | H : (_ =? _)%nat = false |- _ => apply Nat.eqb_neq in H
    | H : (_ <? _)%nat = true |- _ => apply Nat.ltb_lt in H
    | H : (_ <? _)%nat = false |- _ => apply Nat.ltb_ge in H
    end.

(** [branch] splits on the first conditional of the goal and reads off what
    its guard says; [branch as H] names the equation instead. *)
Tactic Notation "branch" "as" ident(H) :=
  match goal with
  | |- context [ if ?b then _ else _ ] => destruct b eqn:H
  end.
Tactic Notation "branch" := let H := fresh "Hguard" in branch as H; guards.
Tactic Notation "branch" "in" hyp(H0) :=
  let H := fresh "Hguard" in
  match type of H0 with
  | context [ if ?b then _ else _ ] => destruct b eqn:H; guards
  end.

(** [concrete] proves a decidable statement about closed terms by running
    its decision procedure. *)
Ltac concrete := apply (bool_decide_unpack _); vm_compute; exact I.

(** ** Lists *)

Definition Zsum (l : list Z) : Z := foldr Z.add 0 l.

Lemma Zsum_app l k : Zsum (l ++ k) = Zsum l + Zsum k.
Proof. unfold Zsum. induction l; simpl; lia. Qed.

Lemma Zsum_cons x l : Zsum (x :: l) = x + Zsum l.
Proof. done. Qed.

Lemma Zsum_nonneg l : Forall (λ x, 0 ≤ x) l → 0 ≤ Zsum l.
Proof. unfold Zsum. induction 1; simpl; lia. Qed.

#[export] Hint Rewrite Zsum_app Zsum_cons : vwap.

(** [n] bytes (or elements) read at offset [off]; the source side of a
    [memcpy].  The destination side is stdpp's [list_inserts]. *)
Definition slice {A} (off n : nat) (l : list A) : list A := take n (drop off l).

Lemma length_slice {A} off n (l : list A) :
  (off + n ≤ length l)%nat → length (slice off n l) = n.
Proof. intros. unfold slice. rewrite length_take, length_drop. lia. Qed.

Lemma lookup_slice {A} off n (l : list A) i :
  (i < n)%nat → slice off n l !! i = l !! (off + i)%nat.
Proof. intros. unfold slice. by rewrite lookup_take_lt, lookup_drop. Qed.

Lemma slice_inserts {A} off (k l : list A) :
  (off + length k ≤ length l)%nat → slice off (length k) (list_inserts off k l) = k.
Proof.
  intros H. apply list_eq_same_length with (n := length k); try done.
  - apply length_slice. rewrite length_inserts. lia.
  - intros i x y Hi. rewrite lookup_slice by done.
    rewrite list_lookup_inserts by lia. replace (off + i - off)%nat with i by lia.
    intros ??; congruence.
Qed.

Lemma slice_inserts_disjoint {A} off n off' (k l : list A) :
  (off + n ≤ off' ∨ off' + length k ≤ off)%nat →
  (off + n ≤ length l)%nat →
  slice off n (list_inserts off' k l) = slice off n l.
Proof.
  intros Hd H. apply list_eq_same_length with (n := n).
  - apply length_slice; lia.
  - apply length_slice. by rewrite length_inserts.
  - intros i x y Hi. rewrite !lookup_slice by done.
    destruct Hd.
    + rewrite list_lookup_inserts_lt by lia. intros ??; congruence.
    + rewrite list_lookup_inserts_ge by lia. intros ??; congruence.
Qed.

Lemma slice_all {A} (l : list A) : slice 0 (length l) l = l.
Proof. unfold slice. by rewrite drop_0, firstn_all. Qed.

Lemma slice_slice {A} a n b m (l : list A) :
  (b + m ≤ n)%nat → slice b m (slice a n l) = slice (a + b) m l.
Proof.
  intros H. unfold slice. rewrite skipn_firstn_comm, drop_drop, take_take.
  by rewrite Nat.min_l by lia.
Qed.

Lemma slice_inserts_at {A} off n (k l : list A) :
  n = length k → (off + n ≤ length l)%nat → slice off n (list_inserts off k l) = k.
Proof. intros ->. apply slice_inserts. Qed.

Lemma inserts_prefix {A} (k l : list A) :
  (length k ≤ length l)%nat → list_inserts 0 k l = k ++ drop (length k) l.
Proof.
  intros H. apply list_eq_same_length with (n := length l).
  - rewrite length_app, length_drop. lia.
  - apply length_inserts.
  - intros i x y Hi. destruct (decide (i < length k)%nat).
    + rewrite list_lookup_inserts, lookup_app_l by lia.
      rewrite Nat.sub_0_r. intros ??; congruence.
    + rewrite list_lookup_inserts_ge, lookup_app_r, lookup_drop by lia.
      replace (length k + (i - length k))%nat with i by lia. intros ??; congruence.
Qed.

(** A [memcpy] right behind an already written prefix. *)
Lemma memcpy_next {A} off (p k l : list A) :
  off = length p → (length k ≤ length l)%nat →
  list_inserts off k (p ++ l) = (p ++ k) ++ drop (length k) l.
Proof.
  intros -> H. rewrite <- (Nat.add_0_r (length p)), list_inserts_app_r, inserts_prefix by done.
  by rewrite app_assoc.
Qed.

Lemma slice_app_l {A} off n (p l : list A) :
  (off + n ≤ length p)%nat → slice off n (p ++ l) = slice off n p.
Proof.
  intros H. unfold slice. rewrite drop_app_le by lia. rewrite take_app_le; [done|].
  rewrite length_drop. lia.
Qed.

Lemma slice_app_at {A} off n (p k l : list A) :
  off = length p → n = length k → slice off n (p ++ k ++ l) = k.
Proof. intros -> ->. unfold slice. by rewrite drop_app_length, take_app_length. Qed.

Lemma slice_split {A} off n m (l : list A) :
  slice off (n + m) l = slice off n l ++ slice (off + n) m l.
Proof. unfold slice. rewrite <- drop_drop. symmetry. apply take_take_drop. Qed.

Lemma length_omap_le {A B} (f : A → option B) l : (length (omap f l) ≤ length l)%nat.
Proof. induction l as [|x l IH]; [done|]. cbn. destruct (f x); simpl; lia. Qed.

Lemma last_drop {A} k (l : list A) : (k < length l)%nat → last (drop k l) = last l.
Proof.
  intros Hk. rewrite !last_lookup, lookup_drop, length_drop. f_equal. lia.
Qed.

(** ** Little-endian byte strings *)

Fixpoint le_bytes (n : nat) (v : Z) : list Z :=
  match n with
  | O => []
  | S n => v mod 256 :: le_bytes n (v / 256)
  end.

Fixpoint le_value (bs : list Z) : Z :=
  match bs with
  | [] => 0
  | b :: bs => b + 256 * le_value bs
  end.

Abbreviation bytes_ok bs := (Forall (λ b, 0 ≤ b < 2 ^ 8) bs).

Lemma length_le_bytes n v : length (le_bytes n v) = n.
Proof. revert v. induction n; intros; simpl; auto. Qed.

Lemma le_bytes_ok n v : bytes_ok (le_bytes n v).
Proof.
  revert v. induction n; intros; simpl; constructor; auto.
  apply Z.mod_pos_bound; lia.
Qed.

Lemma le_value_range bs : bytes_ok bs → 0 ≤ le_value bs < 2 ^ (8 * Z.of_nat (length bs)).
Proof.
  induction 1 as [|b bs Hb _ IH]; [simpl; lia|]. cbn [le_value length].
  replace (8 * Z.of_nat (S (length bs))) with (8 + 8 * Z.of_nat (length bs)) by lia.
  rewrite Z.pow_add_r by lia. lia.
Qed.

Lemma le_value_bytes n v : le_value (le_bytes n v) = v mod 2 ^ (8 * Z.of_nat n).
Proof.
  revert v. induction n as [|n IH]; intros v; cbn [le_value le_bytes].
  { by rewrite Z.mod_1_r. }
  rewrite IH. replace (8 * Z.of_nat (S n)) with (8 + 8 * Z.of_nat n) by lia.
  rewrite Z.pow_add_r by lia. change (2 ^ 8) with 256.
  rewrite Z.rem_mul_r; [done | lia | apply Z.pow_pos_nonneg; lia].
Qed.

Lemma le_bytes_value bs : bytes_ok bs → le_bytes (length bs) (le_value bs) = bs.
Proof.
  induction 1 as [|b bs Hb _ IH]; [done|]. cbn [le_value le_bytes length].
  f_equal.
  - rewrite Z.mul_comm, Z.mod_add by lia. apply Z.mod_small; lia.
  - rewrite Z.mul_comm, Z.div_add by lia. rewrite Z.div_small by lia. by rewrite Z.add_0_l.
Qed.

Lemma le_value_bytes_u32 v : is_u32 v → le_value (le_bytes 4 v) = v.
Proof. intros. rewrite le_value_bytes. by apply Z.mod_small. Qed.

Lemma le_value_bytes_u64 v : is_u64 v → le_value (le_bytes 8 v) = v.
Proof. intros. rewrite le_value_bytes. by apply Z.mod_small. Qed.

#[export] Hint Resolve le_bytes_ok : vwap.
#[export] Hint Rewrite length_le_bytes @length_inserts : vwap.
