(* ===== verification/Ring.v ===== *)
(** * Ring-buffer arithmetic

    The three ring buffers of the program (the byte buffer of
    [MessageBuffer], the template [CircularBuffer] and the send queue of
    [OrderClient]) keep a fixed array, a head position and a length.  This
    file holds what they share: the list a ring stores, read off from the
    head, and how writes behind the tail and moves of the head change it. *)
From S2P Require Import Prelude.

Section ring.
Context {A : Type} `{!Inhabited A} (cap : nat) (Hcap : (0 < cap)%nat).
Implicit Types (buf l : list A) (h n i : nat).

(** The [n] elements stored from position [h] on, in order. *)
Definition ring_view buf h n : list A :=
  (λ i, buf !!! ((h + i) mod cap)%nat) <$> seq 0 n.

Lemma ring_pos h i :
  (h < cap)%nat → (i ≤ cap)%nat →
  ((h + i) mod cap = if decide (h + i < cap) then h + i else h + i - cap)%nat.
Proof using Hcap.
  intros Hh Hi. case_decide; [by apply Nat.mod_small|].
  replace (h + i)%nat with ((h + i - cap) + 1 * cap)%nat at 1 by lia.
  rewrite Nat.Div0.mod_add. apply Nat.mod_small. lia.
Qed.

Lemma ring_pos_lt h i : ((h + i) mod cap < cap)%nat.
Proof using Hcap. apply Nat.mod_upper_bound. lia. Qed.

Lemma ring_pos_inj h i j :
  (h < cap)%nat → (i < cap)%nat → (j < cap)%nat →
  ((h + i) mod cap = (h + j) mod cap)%nat → i = j.
Proof using Hcap. intros. rewrite !ring_pos in * by lia. repeat case_decide; lia. Qed.

Lemma length_ring_view buf h n : length (ring_view buf h n) = n.
Proof. unfold ring_view. by rewrite length_fmap, length_seq. Qed.

Lemma ring_view_lookup buf h n i :
  (i < n)%nat → ring_view buf h n !! i = Some (buf !!! ((h + i) mod cap)%nat).
Proof.
  intros Hi. unfold ring_view. rewrite list_lookup_fmap, lookup_seq_lt by done. done.
Qed.

Lemma ring_view_total buf h n i :
  (i < n)%nat → ring_view buf h n !!! i = buf !!! ((h + i) mod cap)%nat.
Proof. intros Hi. apply list_lookup_total_correct. by apply ring_view_lookup. Qed.

(** Two equal-length lists are equal when they agree position by position. *)
Lemma ring_view_ext buf h n l :
  length l = n →
  (∀ i, (i < n)%nat → l !! i = Some (buf !!! ((h + i) mod cap)%nat)) →
  ring_view buf h n = l.
Proof.
  intros Hl Heq. apply list_eq. intros i. destruct (decide (i < n)%nat) as [Hi|Hi].
  - by rewrite ring_view_lookup, Heq.
  - rewrite !lookup_ge_None_2; [done| lia |]. rewrite length_ring_view. lia.
Qed.

(** Moving the head forward drops the oldest elements. *)
Lemma ring_view_drop buf h n k :
  (k ≤ n)%nat → ring_view buf ((h + k) mod cap) (n - k) = drop k (ring_view buf h n).
Proof using Hcap.
  intros Hk. apply ring_view_ext.
  - rewrite length_drop, length_ring_view. lia.
  - intros i Hi. rewrite lookup_drop, ring_view_lookup by lia. do 2 f_equal.
    rewrite Nat.Div0.add_mod_idemp_l. f_equal. lia.
Qed.

Lemma ring_view_take buf h n k :
  (k ≤ n)%nat → ring_view buf h k = take k (ring_view buf h n).
Proof.
  intros Hk. apply ring_view_ext.
  - rewrite length_take, length_ring_view. lia.
  - intros i Hi. by rewrite lookup_take_lt, ring_view_lookup by lia.
Qed.

(** Writing behind the last element appends. *)
Lemma ring_view_snoc buf h n x :
  (h < cap)%nat → (n < cap)%nat → length buf = cap →
  ring_view (<[((h + n) mod cap)%nat := x]> buf) h (S n) = ring_view buf h n ++ [x].
Proof using Hcap.
  intros Hh Hn Hlen. apply ring_view_ext.
  - rewrite length_app, length_ring_view. simpl. lia.
  - intros i Hi. destruct (decide (i = n)) as [->|Hne].
    + rewrite lookup_app_r by (rewrite length_ring_view; lia).
      rewrite length_ring_view, Nat.sub_diag. simpl. f_equal.
      symmetry. apply list_lookup_total_insert_eq. rewrite Hlen. apply ring_pos_lt.
    + rewrite lookup_app_l by (rewrite length_ring_view; lia).
      rewrite ring_view_lookup by lia. f_equal.
      symmetry. apply list_lookup_total_insert_ne.
      intros Heq%ring_pos_inj; lia.
Qed.

(** Writing over the oldest element of a full ring and moving the head on
    replaces it by a new youngest one. *)
Lemma ring_view_overwrite buf h x :
  (h < cap)%nat → length buf = cap →
  ring_view (<[h := x]> buf) ((h + 1) mod cap) cap
  = drop 1 (ring_view buf h cap) ++ [x].
Proof using Hcap.
  intros Hh Hlen.
  rewrite <- ring_view_drop by lia.
  replace cap with (S (cap - 1)) at 2 by lia.
  rewrite <- ring_view_snoc; [| apply ring_pos_lt | lia | done].
  do 2 f_equal. symmetry.
  rewrite Nat.Div0.add_mod_idemp_l.
  replace (h + 1 + (cap - 1))%nat with (h + 1 * cap)%nat by lia.
  rewrite Nat.Div0.mod_add. by apply Nat.mod_small.
Qed.

(** Writing inside the stored range updates one element. *)
Lemma ring_view_insert buf h n i x :
  (h < cap)%nat → (i < n)%nat → (n ≤ cap)%nat → length buf = cap →
  ring_view (<[((h + i) mod cap)%nat := x]> buf) h n = <[i := x]> (ring_view buf h n).
Proof using Hcap.
  intros Hh Hi Hn Hlen. apply ring_view_ext.
  - by rewrite length_insert, length_ring_view.
  - intros j Hj. destruct (decide (i = j)) as [->|Hne].
    + rewrite list_lookup_insert_eq by (by rewrite length_ring_view).
      f_equal. symmetry. apply list_lookup_total_insert_eq. rewrite Hlen. apply ring_pos_lt.
    + rewrite list_lookup_insert_ne, ring_view_lookup by done. f_equal.
      symmetry. apply list_lookup_total_insert_ne. intros Heq%ring_pos_inj; lia.
Qed.

(** The two-part [memcpy] behind the tail appends a whole block. *)
Lemma ring_view_append buf h n l :
  (h < cap)%nat → (n + length l ≤ cap)%nat → length buf = cap →
  let t := ((h + n) mod cap)%nat in
  let first := Nat.min (length l) (cap - t) in
  ring_view (list_inserts 0 (drop first l) (list_inserts t (take first l) buf))
    h (n + length l)
  = ring_view buf h n ++ l.
Proof using Hcap.
  intros Hh Hn Hlen t first. apply ring_view_ext.
  { rewrite length_app, length_ring_view. lia. }
  assert (Ht : (t < cap)%nat) by apply ring_pos_lt.
  assert (Hf1 : length (take first l) = first) by (rewrite length_take; unfold first; lia).
  assert (Hf2 : length (drop first l) = (length l - first)%nat) by apply length_drop.
  intros i Hi. pose proof (ring_pos_lt h i) as Hp.
  assert (Hpos := ring_pos h i ltac:(lia) ltac:(lia)).
  assert (Htpos := ring_pos h n ltac:(lia) ltac:(lia)). fold t in Htpos.
  rewrite <- list_lookup_lookup_total_lt by (rewrite !length_inserts; lia).
  destruct (decide (i < n)%nat) as [Hin|Hin].
  - rewrite lookup_app_l by (rewrite length_ring_view; lia).
    rewrite ring_view_lookup by done.
    rewrite <- list_lookup_lookup_total_lt by lia.
    repeat case_decide;
      first [ rewrite list_lookup_inserts_ge by lia | rewrite list_lookup_inserts_lt by lia ];
      first [ rewrite list_lookup_inserts_lt by lia | rewrite list_lookup_inserts_ge by lia ];
      done.
  - rewrite lookup_app_r by (rewrite length_ring_view; lia).
    rewrite length_ring_view.
    destruct (decide (i - n < first)%nat) as [Hif|Hif].
    + rewrite list_lookup_inserts_ge by (repeat case_decide; lia).
      rewrite list_lookup_inserts by (rewrite ?Hlen; repeat case_decide; lia).
      rewrite lookup_take_lt by (repeat case_decide; lia).
      f_equal. repeat case_decide; lia.
    + rewrite list_lookup_inserts by (rewrite ?length_inserts; repeat case_decide; lia).
      rewrite lookup_drop. f_equal. repeat case_decide; lia.
Qed.

(** A stored block read back: contiguous, or split at the end of the array. *)
Lemma ring_view_slices buf h n :
  (h < cap)%nat → (n ≤ cap)%nat → length buf = cap →
  let first := Nat.min n (cap - h) in
  ring_view buf h n = slice h first buf ++ slice 0 (n - first) buf.
Proof using Hcap.
  intros Hh Hn Hlen first. apply ring_view_ext.
  { rewrite length_app, !length_slice; unfold first; lia. }
  intros i Hi. rewrite ring_pos by lia.
  destruct (decide (i < first)%nat) as [Hif|Hif].
  - rewrite lookup_app_l by (rewrite length_slice; lia).
    rewrite lookup_slice by done. case_decide; [|lia].
    apply list_lookup_lookup_total_lt. lia.
  - rewrite lookup_app_r by (rewrite length_slice; lia).
    rewrite length_slice by lia. rewrite lookup_slice by lia. case_decide; [lia|].
    replace (0 + (i - first))%nat with (h + i - cap)%nat by lia.
    apply list_lookup_lookup_total_lt. lia.
Qed.
End ring.

#[export] Hint Rewrite @length_ring_view : vwap.
