(* ===== verification/Binary64.v ===== *)
(** * IEEE 754 double precision

    The program computes prices in [double].  This file fixes the binary64
    instance of the executable specification of floating-point arithmetic in
    the standard library ([SpecFloat]: round to nearest, ties to even) as the
    model of that type, and proves what the trading logic relies on: small
    integers convert exactly, division is monotone with respect to every
    representable bound, and therefore comparing an integer price with a
    quotient of integers decides the exact cross-multiplied inequality. *)
From Stdlib Require Import SpecFloat.
From S2P Require Import Prelude.

Definition double : Type := spec_float.

Definition dzero : double := S754_zero false.
(** [static_cast<double>(n)] of an integer. *)
Definition d_of_Z (n : Z) : double := binary_normalize 53 1024 n 0 false.
Definition d_add : double → double → double := SFadd 53 1024.
Definition d_sub : double → double → double := SFsub 53 1024.
Definition d_mul : double → double → double := SFmul 53 1024.
Definition d_div : double → double → double := SFdiv 53 1024.
Definition d_lt : double → double → bool := SFltb.
Definition d_le : double → double → bool := SFleb.

(** Truncation towards zero; [None] for infinities and NaN. *)
Definition d_trunc (x : double) : option Z :=
  match x with
  | S754_zero _ => Some 0
  | S754_finite s m e =>
      let a := if 0 <=? e then Zpos m * 2 ^ e else Zpos m / 2 ^ (- e) in
      Some (if s then - a else a)
  | _ => None
  end.

(** [static_cast<int32_t>(x)]: undefined behaviour, here [None], when the
    truncated value does not fit. *)
Definition d_to_i32 (x : double) : option Z :=
  v ← d_trunc x; if (- 2 ^ 31 <=? v) && (v <? 2 ^ 31) then Some v else None.

Lemma d_to_i32_range x v : d_to_i32 x = Some v → is_i32 v.
Proof.
  unfold d_to_i32. destruct (d_trunc x) as [t|]; cbn [mbind option_bind]; [|done].
  branch as H; [|done]. apply andb_true_iff in H as [H1%Z.leb_le H2%Z.ltb_lt]. intros [= <-]. lia.
Qed.

(** ** Significant digits *)

Lemma digits2_pos_spec p :
  2 ^ (Zpos (digits2_pos p) - 1) ≤ Zpos p < 2 ^ Zpos (digits2_pos p).
Proof.
  induction p as [p IH|p IH|]; simpl digits2_pos; [| |simpl; lia].
  all: rewrite Pos2Z.inj_succ; replace (Z.succ (Zpos (digits2_pos p)) - 1)
         with (Z.succ (Zpos (digits2_pos p) - 1)) by lia;
       rewrite !Z.pow_succ_r by lia; lia.
Qed.

Lemma Zdigits2_spec m : 0 < m → 2 ^ (Zdigits2 m - 1) ≤ m < 2 ^ Zdigits2 m.
Proof. destruct m; [lia| intros _; apply digits2_pos_spec | lia]. Qed.

Lemma Zdigits2_pos m : 0 < m → 0 < Zdigits2 m.
Proof. destruct m; simpl; lia. Qed.

Lemma Zdigits2_unique m d : 0 < d → 2 ^ (d - 1) ≤ m < 2 ^ d → Zdigits2 m = d.
Proof.
  intros Hd Hm. assert (0 < m) by (pose proof (Z.pow_pos_nonneg 2 (d - 1)); lia).
  pose proof (Zdigits2_spec m ltac:(done)). pose proof (Zdigits2_pos m ltac:(done)).
  destruct (Z.lt_trichotomy (Zdigits2 m) d) as [Hlt|[?|Hlt]]; [|done|].
  - assert (2 ^ Zdigits2 m ≤ 2 ^ (d - 1)) by (apply Z.pow_le_mono_r; lia). lia.
  - assert (2 ^ d ≤ 2 ^ (Zdigits2 m - 1)) by (apply Z.pow_le_mono_r; lia). lia.
Qed.

Lemma Zdigits2_ge m k : 0 ≤ k → 2 ^ k ≤ m → k < Zdigits2 m.
Proof.
  intros Hk Hm. assert (0 < m) by (pose proof (Z.pow_pos_nonneg 2 k); lia).
  pose proof (Zdigits2_spec m ltac:(done)).
  destruct (Z.lt_ge_cases k (Zdigits2 m)); [done|].
  assert (2 ^ Zdigits2 m ≤ 2 ^ k) by (apply Z.pow_le_mono_r; lia). lia.
Qed.

(** ** Locations and right shifts

    [inb m l X D] states that the rational [X / D] lies in [[m, m + 1)] at
    the position [l] records. *)
Definition inb (m : Z) (l : location) (X D : Z) : Prop :=
  match l with
  | loc_Exact => X = m * D
  | loc_Inexact Lt => m * D < X ∧ 2 * X < (2 * m + 1) * D
  | loc_Inexact Eq => 2 * X = (2 * m + 1) * D
  | loc_Inexact Gt => (2 * m + 1) * D < 2 * X ∧ X < (m + 1) * D
  end.

Definition inb_rec (mrs : shr_record) (X D : Z) : Prop :=
  0 ≤ shr_m mrs ∧ inb (shr_m mrs) (loc_of_shr_record mrs) X D.

Lemma loc_of_record_of m l : loc_of_shr_record (shr_record_of_loc m l) = l.
Proof. by destruct l as [|[]]. Qed.

Lemma shr_m_record_of m l : shr_m (shr_record_of_loc m l) = m.
Proof. by destruct l as [|[]]. Qed.

Lemma shr_1_m mrs : 0 ≤ shr_m mrs → shr_m (shr_1 mrs) = shr_m mrs / 2.
Proof.
  destruct mrs as [m r s]; simpl. intros Hm.
  destruct m as [|[p|p|]|p]; [done | | | done | lia]; simpl.
  - apply Z.div_unique with 1; lia.
  - apply Z.div_unique with 0; lia.
Qed.

Lemma shr_1_inb mrs X D : 0 < D → inb_rec mrs X D → inb_rec (shr_1 mrs) X (2 * D).
Proof.
  unfold inb_rec. destruct mrs as [m r s]; simpl. intros HD [Hm Hin].
  destruct m as [|[p|p|]|p]; [| | | | lia]; destruct r, s; cbn in *; lia.
Qed.

Lemma shr_iter_inb p mrs X D :
  0 < D → inb_rec mrs X D →
  inb_rec (SpecFloat.iter_pos shr_1 p mrs) X (D * 2 ^ Zpos p) ∧
  shr_m (SpecFloat.iter_pos shr_1 p mrs) = shr_m mrs / 2 ^ Zpos p.
Proof.
  revert mrs D. induction p as [p IH|p IH|]; intros mrs D HD Hin; cbn [SpecFloat.iter_pos];
    try (assert (HP : 0 < 2 ^ Zpos p) by (apply Z.pow_pos_nonneg; lia)).
  - assert (H1 := shr_1_inb _ _ _ HD Hin).
    destruct (IH _ (2 * D) ltac:(lia) H1) as [H2 E2].
    destruct (IH _ (2 * D * 2 ^ Zpos p) ltac:(nia) H2) as [H3 E3].
    replace (Zpos p~1) with (1 + Zpos p + Zpos p) by lia.
    rewrite !Z.pow_add_r by lia. change (2 ^ 1) with 2.
    replace (D * (2 * 2 ^ Zpos p * 2 ^ Zpos p)) with (2 * D * 2 ^ Zpos p * 2 ^ Zpos p) by ring.
    split; [done|]. rewrite E3, E2, shr_1_m by apply Hin.
    rewrite !Z.div_div by nia. f_equal; ring.
  - destruct (IH _ _ HD Hin) as [H2 E2].
    destruct (IH _ (D * 2 ^ Zpos p) ltac:(nia) H2) as [H3 E3].
    replace (Zpos p~0) with (Zpos p + Zpos p) by lia.
    rewrite !Z.pow_add_r by lia.
    replace (D * (2 ^ Zpos p * 2 ^ Zpos p)) with (D * 2 ^ Zpos p * 2 ^ Zpos p) by ring.
    split; [done|]. rewrite E3, E2. by rewrite Z.div_div by nia.
  - split; [|apply shr_1_m, Hin]. replace (D * 2 ^ 1) with (2 * D) by lia. by apply shr_1_inb.
Qed.

(** ** Rounding to nearest *)

Lemma rne_le m l X D A :
  0 < D → inb m l X D → X ≤ A * D → round_nearest_even m l ≤ A.
Proof.
  intros HD Hin HX. destruct l as [|[]]; cbn in *; try destruct (Z.even m);
    apply Z.nlt_ge; intros HA; nia.
Qed.

Lemma rne_ge m l X D A :
  0 < D → inb m l X D → A * D ≤ X → A ≤ round_nearest_even m l.
Proof.
  intros HD Hin HX. destruct l as [|[]]; cbn in *; try destruct (Z.even m);
    apply Z.nlt_ge; intros HA; nia.
Qed.

Lemma rne_bounds m l : m ≤ round_nearest_even m l ≤ m + 1.
Proof. destruct l as [|[]]; simpl; try destruct (Z.even m); lia. Qed.

(** The first shift brings a mantissa to 53 bits. *)
Lemma shr_to_53 m e l X D :
  2 ^ 52 ≤ m → -1074 ≤ e → 0 < D → inb m l X D →
  let n := Zdigits2 m - 53 in
  0 ≤ n ∧ ∃ mrs, shr_fexp 53 1024 m e l = (mrs, e + n) ∧
    inb_rec mrs X (D * 2 ^ n) ∧ 2 ^ 52 ≤ shr_m mrs < 2 ^ 53.
Proof.
  intros Hm He HD Hin n. assert (Hd : 52 < Zdigits2 m) by (apply Zdigits2_ge; lia).
  assert (Hds := Zdigits2_spec m ltac:(lia)). assert (Hn : 0 ≤ n) by lia.
  assert (HPn := Z.pow_pos_nonneg 2 n ltac:(lia) Hn). split; [done|].
  unfold shr_fexp, fexp, emin.
  rewrite Z.max_l by lia. replace (Zdigits2 m + e - 53 - e) with n by lia.
  assert (Hrec : inb_rec (shr_record_of_loc m l) X D).
  { split; [rewrite shr_m_record_of; lia|]. by rewrite shr_m_record_of, loc_of_record_of. }
  assert (Hdig : 2 ^ 52 * 2 ^ n ≤ m < 2 ^ 53 * 2 ^ n).
  { rewrite <- !Z.pow_add_r by lia. unfold n.
    replace (52 + (Zdigits2 m - 53)) with (Zdigits2 m - 1) by lia.
    by replace (53 + (Zdigits2 m - 53)) with (Zdigits2 m) by lia. }
  unfold shr. destruct n as [|p|p] eqn:Hnp; [ | | lia].
  - exists (shr_record_of_loc m l). rewrite !Z.add_0_r, Z.mul_1_r.
    split; [done|]. split; [done|]. rewrite shr_m_record_of. lia.
  - destruct (shr_iter_inb p _ _ _ HD Hrec) as [H1 H2].
    eexists. split; [done|]. split; [done|]. rewrite H2, shr_m_record_of. split.
    + apply Z.div_le_lower_bound; lia.
    + apply Z.div_lt_upper_bound; lia.
Qed.

(** [binary_round_aux] on a mantissa of at least 53 bits that does not
    overflow: the result is a normal number on the grid [2 ^ e1], and it is
    the largest (smallest) grid point not exceeding (not below) every grid
    point on that side of [X / D]. *)
Lemma round_aux_grid m e l X D :
  2 ^ 52 ≤ m → -1074 ≤ e → 0 < D → inb m l X D → Zdigits2 m + e ≤ 1023 →
  ∃ M E n N,
    binary_round_aux 53 1024 false m e l = S754_finite false M E ∧
    2 ^ 52 ≤ Zpos M < 2 ^ 53 ∧ 0 ≤ n ∧ e + n ≤ E ∧
    Zpos M * 2 ^ (E - (e + n)) = N ∧ 2 ^ 52 ≤ N ∧ 2 ^ 52 * (D * 2 ^ n) ≤ X ∧
    (∀ A, X ≤ A * (D * 2 ^ n) → N ≤ A) ∧ (∀ A, A * (D * 2 ^ n) ≤ X → A ≤ N).
Proof.
  intros Hm He HD Hin Hov.
  assert (Hds := Zdigits2_spec m ltac:(lia)).
  destruct (shr_to_53 m e l X D Hm He HD Hin) as (Hn & mrs & Hs1 & [_ Hin1] & Hm1). set (n := Zdigits2 m - 53) in *.
  assert (HPn : 0 < 2 ^ n) by (apply Z.pow_pos_nonneg; lia).
  unfold binary_round_aux. rewrite Hs1.
  set (N := round_nearest_even (shr_m mrs) (loc_of_shr_record mrs)).
  assert (HN : shr_m mrs ≤ N ≤ shr_m mrs + 1) by apply rne_bounds.
  assert (HD1 : 0 < D * 2 ^ n) by nia.
  assert (HX : 2 ^ 52 * (D * 2 ^ n) ≤ X).
  { destruct (loc_of_shr_record mrs) as [|[]]; cbn [inb] in Hin1; nia. }
  assert (Hle : ∀ A, X ≤ A * (D * 2 ^ n) → N ≤ A) by (intros A; by apply rne_le).
  assert (Hge : ∀ A, A * (D * 2 ^ n) ≤ X → A ≤ N) by (intros A; by apply rne_ge).
  clearbody N.
  (* the second shift renormalises when rounding reached 2 ^ 53 *)
  unfold shr_fexp, fexp, emin. cbn [shr_record_of_loc].
  destruct (Z.eq_dec N (2 ^ 53)) as [HN53|HN53].
  - rewrite (Zdigits2_unique N 54) by lia. rewrite Z.max_l by lia.
    replace (54 + (e + n) - 53 - (e + n)) with 1 by lia. subst N.
    cbn -[Z.leb Z.sub Z.add Z.pow].
    destruct (Z.leb_spec (e + n + 1) (1024 - 53)); [|lia].
    eexists _, _, n, (2 ^ 53). split; [done|]. repeat split; try lia; auto.
    replace (e + n + 1 - (e + n)) with 1 by lia. done.
  - rewrite (Zdigits2_unique N 53) by lia. rewrite Z.max_l by lia.
    replace (53 + (e + n) - 53 - (e + n)) with 0 by lia. cbn [shr shr_m].
    destruct N as [|M|M]; [lia| |lia].
    destruct (Z.leb_spec (e + n) (1024 - 53)); [|lia].
    eexists _, _, n, (Zpos M). split; [done|]. repeat split; try lia; auto.
    rewrite Z.sub_diag. lia.
Qed.

(** ** Values

    A finite double is an integer multiple of [2 ^ -1100]; [sval] is that
    integer, so that comparing doubles is comparing integers. *)
Definition sval (x : double) : Z :=
  match x with
  | S754_finite s m e => (if s then -1 else 1) * (Zpos m * 2 ^ (e + 1100))
  | _ => 0
  end.

(** Positive normal numbers. *)
Definition pnormal (x : double) : Prop :=
  match x with
  | S754_finite false m e => 2 ^ 52 ≤ Zpos m < 2 ^ 53 ∧ -1074 ≤ e
  | _ => False
  end.

Lemma pnormal_pos x : pnormal x → 0 < sval x.
Proof.
  destruct x as [|[]| |[] m e]; try done. cbn. intros [Hm He].
  assert (0 < 2 ^ (e + 1100)) by (apply Z.pow_pos_nonneg; lia). lia.
Qed.

(** A mantissa of 53 bits on a coarser grid is the larger number. *)
Lemma coarser_larger a b k d :
  0 ≤ k → 0 < d → a < 2 ^ 53 → 2 ^ 52 ≤ b → a * 2 ^ k < b * 2 ^ (k + d).
Proof.
  intros Hk Hd Ha Hb. rewrite Z.pow_add_r by lia.
  assert (0 < 2 ^ k) by (apply Z.pow_pos_nonneg; lia).
  assert (2 ^ 1 ≤ 2 ^ d) by (apply Z.pow_le_mono_r; lia).
  apply Z.lt_le_trans with (2 ^ 53 * 2 ^ k); [nia|].
  transitivity (b * 2 * 2 ^ k); nia.
Qed.

Lemma d_lt_sval x y : pnormal x → pnormal y → d_lt x y = (sval x <? sval y).
Proof.
  destruct x as [|[]| |[] m e], y as [|[]| |[] m' e']; try done.
  intros [Hm He] [Hm' He']. unfold d_lt, SFltb, SFcompare, sval.
  change (Pos.compare_cont Eq m m') with (Pos.compare m m').
  destruct (Z.compare_spec e e') as [<-|Hlt|Hgt].
  - assert (0 < 2 ^ (e + 1100)) by (apply Z.pow_pos_nonneg; lia).
    destruct (Pos.compare_spec m m'); symmetry;
      [apply Z.ltb_ge | apply Z.ltb_lt | apply Z.ltb_ge]; nia.
  - symmetry. apply Z.ltb_lt. replace (e' + 1100) with (e + 1100 + (e' - e)) by lia.
    rewrite !Z.mul_1_l. apply coarser_larger; lia.
  - symmetry. apply Z.ltb_ge. replace (e + 1100) with (e' + 1100 + (e - e')) by lia.
    rewrite !Z.mul_1_l. apply Z.lt_le_incl, coarser_larger; lia.
Qed.

Lemma pow2_pos k : 0 ≤ k → 0 < 2 ^ k.
Proof. intros. apply Z.pow_pos_nonneg; lia. Qed.

(** [rounds R V W]: the double [R] is the value of [V / W], rounded so that
    no representable number separates the two.  [V] and [W] are scaled like
    [sval]. *)
Definition rounds (R : double) (V W : Z) : Prop :=
  pnormal R ∧
  (∀ z, pnormal z → V ≤ sval z * W → sval R ≤ sval z) ∧
  (∀ z, pnormal z → sval z * W ≤ V → sval z ≤ sval R).

Lemma round_aux_rounds m e l X D :
  2 ^ 52 ≤ m → -1074 ≤ e → 0 < D → inb m l X D → Zdigits2 m + e ≤ 1023 →
  rounds (binary_round_aux 53 1024 false m e l) (X * 2 ^ (e + 1100)) D.
Proof.
  intros Hm He HD Hin Hov.
  destruct (round_aux_grid m e l X D) as (M & E & n & N & -> & HM & Hn & HE & HN & HN52 & HX & Hle & Hge);
    try done.
  assert (HR : sval (S754_finite false M E) = N * 2 ^ (e + n + 1100)).
  { cbn -[Z.pow Z.mul]. rewrite <- HN, <- Z.mul_assoc, <- Z.pow_add_r by lia.
    rewrite Z.mul_1_l. do 2 f_equal. lia. }
  assert (HPe := pow2_pos (e + 1100) ltac:(lia)).
  assert (HPn := pow2_pos n Hn).
  split; [cbn -[Z.pow]; lia|].
  (* a normal number is on the grid, or below its smallest 53-bit point *)
  assert (Hgrid : ∀ z, pnormal z →
            (∃ A, sval z = A * 2 ^ (e + n + 1100)) ∨ sval z < 2 ^ 52 * 2 ^ (e + n + 1100)).
  { intros [|[]| |[] zm ze] Hz; try done. destruct Hz as [Hzm Hze]. cbn -[Z.pow Z.mul].
    rewrite Z.mul_1_l. destruct (Z.le_gt_cases (e + n) ze).
    - left. exists (Zpos zm * 2 ^ (ze - (e + n))).
      rewrite <- Z.mul_assoc, <- Z.pow_add_r by lia. do 2 f_equal. lia.
    - right. replace (e + n + 1100) with (ze + 1100 + (e + n - ze)) by lia.
      apply coarser_larger; lia. }
  replace (e + n + 1100) with (n + (e + 1100)) in * by lia. rewrite Z.pow_add_r in * by lia.
  split; intros z Hz Hcmp; rewrite HR; destruct (Hgrid z Hz) as [[A HA]|Hlow].
  - rewrite HA. apply Z.mul_le_mono_nonneg_r; [lia|]. apply Hle. rewrite HA in Hcmp. nia.
  - exfalso. nia.
  - rewrite HA. apply Z.mul_le_mono_nonneg_r; [lia|]. apply Hge. rewrite HA in Hcmp. nia.
  - nia.
Qed.

(** ** Conversion of integers *)

Lemma shl_pos m d : Zpos (Pos.iter xO m d) = Zpos m * 2 ^ Zpos d.
Proof.
  induction d as [|d IH] using Pos.peano_ind; [simpl; lia|].
  rewrite Pos.iter_succ, Pos2Z.inj_succ, Z.pow_succ_r by lia.
  change (Zpos (xO (Pos.iter xO m d))) with (2 * Zpos (Pos.iter xO m d)). rewrite IH. ring.
Qed.

Lemma d_of_Z_rounds n : 0 < n < 2 ^ 65 → rounds (d_of_Z n) (n * 2 ^ 1100) 1.
Proof.
  intros [Hn Hn']. destruct n as [|p|p]; [lia| |lia].
  assert (Hd := digits2_pos_spec p). set (d := Zpos (digits2_pos p)) in *.
  assert (Hd0 : 0 < d) by (unfold d; lia).
  assert (Hd65 : d ≤ 65).
  { apply Z.nlt_ge. intros Hlt.
    assert (2 ^ 65 ≤ 2 ^ (d - 1)) by (apply Z.pow_le_mono_r; lia). lia. }
  unfold d_of_Z, binary_normalize, binary_round, shl_align, fexp, emin. fold d.
  rewrite Z.max_l by lia.
  destruct (Z.lt_ge_cases d 53) as [Hlt|Hge].
  - destruct (d + 0 - 53 - 0) as [|k|k] eqn:Hk; [lia|lia|].
    assert (Hpow : 2 ^ 52 ≤ Zpos (Pos.iter xO p k) < 2 ^ 53).
    { rewrite shl_pos. replace 52 with (d - 1 + Zpos k) by lia.
      replace 53 with (d + Zpos k) by lia. rewrite !Z.pow_add_r by lia.
      assert (HP := pow2_pos (Zpos k) ltac:(lia)). nia. }
    rewrite <- (Z.mul_1_r (Zpos p * 2 ^ 1100)).
    replace (Zpos p * 2 ^ 1100 * 1)
      with (Zpos (Pos.iter xO p k) * 2 ^ (d + 0 - 53 + 1100)).
    + apply round_aux_rounds; [lia|lia|lia|cbn [inb]; lia|].
      rewrite (Zdigits2_unique _ 53); lia.
    + rewrite shl_pos, <- Z.mul_assoc, <- Z.pow_add_r by lia. rewrite Z.mul_1_r.
      do 2 f_equal. lia.
  - replace (d + 0 - 53 - 0) with (d - 53) by lia.
    assert (2 ^ 52 ≤ 2 ^ (d - 1)) by (apply Z.pow_le_mono_r; lia).
    assert (Hr : rounds (binary_round_aux 53 1024 false (Zpos p) 0 loc_Exact)
                   (Zpos p * 2 ^ (0 + 1100)) 1).
    { apply round_aux_rounds; [lia|lia|lia|cbn [inb]; lia|].
      change (Zdigits2 (Zpos p)) with d. lia. }
    destruct (d - 53) eqn:?; [done|done|lia].
Qed.

(** Integers below [2 ^ 53] have a representation. *)
Lemma small_representable n : 0 < n < 2 ^ 53 → ∃ z, pnormal z ∧ sval z = n * 2 ^ 1100.
Proof.
  intros [Hn Hn']. destruct n as [|p|p]; [lia| |lia].
  assert (Hd := digits2_pos_spec p). set (d := Zpos (digits2_pos p)) in *.
  assert (Hd0 : 0 < d) by (unfold d; lia).
  assert (Hd53 : d ≤ 53).
  { apply Z.nlt_ge. intros Hlt.
    assert (2 ^ 53 ≤ 2 ^ (d - 1)) by (apply Z.pow_le_mono_r; lia). lia. }
  assert (HP := pow2_pos (53 - d) ltac:(lia)).
  assert (Hm : 2 ^ 52 ≤ Zpos p * 2 ^ (53 - d) < 2 ^ 53).
  { assert (2 ^ 52 = 2 ^ (d - 1) * 2 ^ (53 - d)) as -> by (rewrite <- Z.pow_add_r by lia; f_equal; lia).
    assert (2 ^ 53 = 2 ^ d * 2 ^ (53 - d)) as -> by (rewrite <- Z.pow_add_r by lia; f_equal; lia).
    nia. }
  exists (S754_finite false (Z.to_pos (Zpos p * 2 ^ (53 - d))) (d - 53)).
  cbn -[Z.pow Z.mul]. rewrite Z2Pos.id by lia. split; [lia|].
  rewrite Z.mul_1_l, <- Z.mul_assoc, <- Z.pow_add_r by lia. do 2 f_equal. lia.
Qed.

Lemma d_of_Z_exact n : 0 < n < 2 ^ 53 → pnormal (d_of_Z n) ∧ sval (d_of_Z n) = n * 2 ^ 1100.
Proof.
  intros Hn. destruct (d_of_Z_rounds n ltac:(lia)) as (HR & Hle & Hge).
  destruct (small_representable n Hn) as (z & Hz & Hv).
  specialize (Hle z Hz ltac:(lia)). specialize (Hge z Hz ltac:(lia)). split; [done|lia].
Qed.

(** Doubles between 1 and [2 ^ 64]: what the volume sums convert to. *)
Definition in_range (x : double) : Prop :=
  pnormal x ∧ 2 ^ 1100 ≤ sval x ≤ 2 ^ 64 * 2 ^ 1100.

Lemma d_of_Z_in_range n : 0 < n < 2 ^ 64 → in_range (d_of_Z n).
Proof.
  intros Hn. destruct (d_of_Z_rounds n ltac:(lia)) as (HR & Hle & Hge). split; [done|]. split.
  - destruct (small_representable 1 ltac:(lia)) as (z & Hz & Hv).
    specialize (Hge z Hz). nia.
  - specialize (Hle (S754_finite false (2 ^ 52) 12)). cbn [sval] in Hle.
    change (2 ^ 52)%positive with (Z.to_pos (2 ^ 52)) in Hle.
    rewrite Z2Pos.id in Hle by lia. change (12 + 1100) with (12 + 1100) in Hle.
    replace (1 * (2 ^ 52 * 2 ^ (12 + 1100))) with (2 ^ 64 * 2 ^ 1100) in Hle
      by (rewrite Z.mul_1_l, <- !Z.pow_add_r by lia; f_equal; lia).
    apply Hle; [cbn; lia|]. nia.
Qed.

Lemma in_range_exponent m e :
  in_range (S754_finite false m e) → 2 ^ 52 ≤ Zpos m < 2 ^ 53 ∧ -53 ≤ e ≤ 12.
Proof.
  intros [[Hm He] [Hlo Hhi]]. cbn -[Z.pow Z.mul] in Hlo, Hhi. rewrite Z.mul_1_l in *.
  split; [done|]. split; apply Z.nlt_ge; intros Hlt.
  - assert (Zpos m * 2 ^ (e + 1100) < 1 * 2 ^ 1100); [|lia].
    assert (HP := pow2_pos (e + 1100) ltac:(lia)).
    assert (HQ := pow2_pos (- 53 - e) ltac:(lia)).
    assert (Heq : 2 ^ 1100 = 2 ^ 53 * 2 ^ (e + 1100) * 2 ^ (- 53 - e))
      by (rewrite <- !Z.pow_add_r by lia; f_equal; lia).
    rewrite Heq. nia.
  - assert (HP := pow2_pos 1100 ltac:(lia)). assert (HQ := pow2_pos (e - 13) ltac:(lia)).
    assert (Heq : 2 ^ (e + 1100) = 2 ^ 13 * 2 ^ 1100 * 2 ^ (e - 13))
      by (rewrite <- !Z.pow_add_r by lia; f_equal; lia).
    rewrite Heq in Hhi. set (P := 2 ^ 1100) in *. clearbody P. nia.
Qed.

(** ** Division *)

Lemma new_location_inb q r my :
  0 < my → 0 ≤ r < my → inb q (new_location my r) (q * my + r) my.
Proof.
  intros Hmy Hr. unfold new_location. destruct (Z.even my) eqn:He.
  - unfold new_location_even. destruct (Z.eqb_spec r 0); [cbn; lia|].
    destruct (Z.compare_spec (2 * r) my); cbn; lia.
  - rewrite <- Z.negb_odd in He. apply negb_false_iff in He.
    apply Z.odd_spec in He as [k Hk].
    unfold new_location_odd. destruct (Z.eqb_spec r 0); [cbn; lia|].
    destruct (Z.compare_spec (2 * r + 1) my); cbn; lia.
Qed.

Lemma d_div_rounds x y :
  in_range x → in_range y → rounds (d_div x y) (sval x * 2 ^ 1100) (sval y).
Proof.
  intros Hx Hy. assert (Hxn := Hx). assert (Hyn := Hy).
  destruct x as [|[]| |[] mx ex], y as [|[]| |[] my ey];
    try (by destruct Hx as [[] _]); try (by destruct Hy as [[] _]).
  apply in_range_exponent in Hxn as [Hmx Hex]. apply in_range_exponent in Hyn as [Hmy Hey].
  unfold d_div, SFdiv, SFdiv_core_binary, fexp, emin. cbn [xorb].
  rewrite (Zdigits2_unique (Zpos mx) 53), (Zdigits2_unique (Zpos my) 53) by lia.
  rewrite Z.max_l by lia. rewrite Z.min_l by lia.
  replace (ex - ey - (53 + ex - (53 + ey) - 53)) with 53 by lia.
  replace (53 + ex - (53 + ey) - 53) with (ex - ey - 53) by lia.
  rewrite Z.shiftl_mul_pow2 by lia.
  destruct (Z.div_eucl (Zpos mx * 2 ^ 53) (Zpos my)) as [q r] eqn:Hqr.
  assert (Hdiv := Z_div_mod (Zpos mx * 2 ^ 53) (Zpos my) ltac:(lia)).
  rewrite Hqr in Hdiv. destruct Hdiv as [Heq Hr].
  assert (Hq : 2 ^ 52 ≤ q < 2 ^ 54) by (split; nia).
  assert (Hround := round_aux_rounds q (ex - ey - 53) (new_location (Zpos my) r)
                      (Zpos mx * 2 ^ 53) (Zpos my)).
  destruct Hround as (HR & Hle & Hge); [lia|lia|lia| | |].
  { rewrite Heq, (Z.mul_comm (Zpos my) q). by apply new_location_inb. }
  { apply Z.le_trans with (54 + (ex - ey - 53)); [|lia].
    apply Z.add_le_mono_r. apply Z.nlt_ge. intros Hlt.
    assert (Hds := Zdigits2_spec q ltac:(lia)).
    assert (2 ^ 54 ≤ 2 ^ (Zdigits2 q - 1)) by (apply Z.pow_le_mono_r; lia). lia. }
  assert (Hscale : sval (S754_finite false mx ex) * 2 ^ 1100
                   = Zpos mx * 2 ^ 53 * 2 ^ (ex - ey - 53 + 1100) * 2 ^ (ey + 1100)).
  { cbn -[Z.pow Z.mul]. rewrite Z.mul_1_l, <- !Z.mul_assoc, <- !Z.pow_add_r by lia.
    do 2 f_equal. lia. }
  assert (Hy' : sval (S754_finite false my ey) = Zpos my * 2 ^ (ey + 1100))
    by (cbn -[Z.pow Z.mul]; lia).
  assert (HP := pow2_pos (ey + 1100) ltac:(lia)).
  split; [done|]. rewrite Hscale, Hy'. set (V := _ * 2 ^ (ex - ey - 53 + 1100)) in *.
  set (P := 2 ^ (ey + 1100)) in *. clearbody P V.
  split; intros z Hz Hcmp; [apply Hle | apply Hge]; try done; nia.
Qed.

Lemma d_le_sval x y : pnormal x → pnormal y → d_le x y = (sval x <=? sval y).
Proof.
  intros Hx Hy. rewrite Z.leb_antisym, <- (d_lt_sval y x Hy Hx).
  destruct x as [|[]| |[] m e], y as [|[]| |[] m' e']; try done.
  unfold d_le, d_lt, SFleb, SFltb, SFcompare.
  change (Pos.compare_cont Eq m m') with (Pos.compare m m').
  change (Pos.compare_cont Eq m' m) with (Pos.compare m' m).
  rewrite (Z.compare_antisym e e'), (Pos.compare_antisym m m').
  by destruct (Z.compare e e'), (Pos.compare m m').
Qed.

(** ** Comparing an integer with a quotient of integers *)

Lemma d_of_Z_sval_exact n : 0 < n < 2 ^ 53 → sval (d_of_Z n) = n * 2 ^ 1100.
Proof. intros. by apply d_of_Z_exact. Qed.

Lemma d_div_pnormal n d :
  0 < n < 2 ^ 64 → 0 < d < 2 ^ 64 → pnormal (d_div (d_of_Z n) (d_of_Z d)).
Proof. intros. apply d_div_rounds; by apply d_of_Z_in_range. Qed.

(** Exactness of the rounding with respect to integers: an integer bound on
    the exact quotient is a bound on the computed one. *)
Lemma d_div_le n d a :
  0 < n < 2 ^ 53 → 0 < d < 2 ^ 53 → 0 < a < 2 ^ 53 →
  n ≤ a * d → sval (d_div (d_of_Z n) (d_of_Z d)) ≤ a * 2 ^ 1100.
Proof.
  intros Hn Hd Ha Hle.
  destruct (d_div_rounds (d_of_Z n) (d_of_Z d)) as (_ & H & _);
    [apply d_of_Z_in_range; lia|apply d_of_Z_in_range; lia|].
  destruct (small_representable a Ha) as (z & Hz & Hv). rewrite <- Hv.
  apply H; [done|]. rewrite Hv, !d_of_Z_sval_exact by lia.
  set (P := 2 ^ 1100). assert (0 < P) by (by apply pow2_pos). clearbody P. nia.
Qed.

Lemma d_div_ge n d a :
  0 < n < 2 ^ 53 → 0 < d < 2 ^ 53 → 0 < a < 2 ^ 53 →
  a * d ≤ n → a * 2 ^ 1100 ≤ sval (d_div (d_of_Z n) (d_of_Z d)).
Proof.
  intros Hn Hd Ha Hle.
  destruct (d_div_rounds (d_of_Z n) (d_of_Z d)) as (_ & _ & H);
    [apply d_of_Z_in_range; lia|apply d_of_Z_in_range; lia|].
  destruct (small_representable a Ha) as (z & Hz & Hv). rewrite <- Hv.
  apply H; [done|]. rewrite Hv, !d_of_Z_sval_exact by lia.
  set (P := 2 ^ 1100). assert (0 < P) by (by apply pow2_pos). clearbody P. nia.
Qed.

(** A representable number just above an integer, and one just below. *)
Lemma representable_above a :
  0 < a < 2 ^ 52 →
  ∃ z, pnormal z ∧ a * 2 ^ 1100 < sval z ∧ (sval z - a * 2 ^ 1100) * 2 ^ 52 ≤ a * 2 ^ 1100.
Proof.
  intros [Ha Ha']. assert (Hds := Zdigits2_spec a Ha). set (k := Zdigits2 a) in *.
  assert (Hk0 : 0 < k) by (by apply Zdigits2_pos).
  assert (Hk : k ≤ 52).
  { apply Z.nlt_ge. intros Hlt. assert (2 ^ 52 ≤ 2 ^ (k - 1)) by (apply Z.pow_le_mono_r; lia). lia. }
  assert (HP := pow2_pos (k - 53 + 1100) ltac:(lia)).
  assert (E1 : 2 ^ 1100 = 2 ^ (53 - k) * 2 ^ (k - 53 + 1100))
    by (rewrite <- Z.pow_add_r by lia; f_equal; lia).
  assert (E2 : 2 ^ 53 = 2 ^ k * 2 ^ (53 - k)) by (rewrite <- Z.pow_add_r by lia; f_equal; lia).
  assert (E3 : 2 ^ 52 = 2 ^ (k - 1) * 2 ^ (53 - k)) by (rewrite <- Z.pow_add_r by lia; f_equal; lia).
  assert (E4 : 2 ^ (53 - k) = 2 * 2 ^ (52 - k))
    by (rewrite <- Z.pow_succ_r by lia; f_equal; lia).
  assert (HQ := pow2_pos (52 - k) ltac:(lia)).
  assert (Hm : 2 ^ 52 ≤ a * 2 ^ (53 - k) + 1 < 2 ^ 53) by nia.
  exists (S754_finite false (Z.to_pos (a * 2 ^ (53 - k) + 1)) (k - 53)).
  cbn -[Z.pow Z.mul]. rewrite Z2Pos.id by lia. rewrite Z.mul_1_l, E1.
  split; [split; [done|lia]|]. split; [nia|].
  rewrite Z.mul_add_distr_r, Z.mul_1_l. rewrite E3. nia.
Qed.

Lemma representable_below b :
  0 < b < 2 ^ 53 →
  ∃ z, pnormal z ∧ sval z < b * 2 ^ 1100 ∧ (b * 2 ^ 1100 - sval z) * 2 ^ 52 ≤ b * 2 ^ 1100.
Proof.
  intros [Hb Hb']. assert (Hds := Zdigits2_spec b Hb). set (k := Zdigits2 b) in *.
  assert (Hk0 : 0 < k) by (by apply Zdigits2_pos).
  assert (Hk : k ≤ 53).
  { apply Z.nlt_ge. intros Hlt. assert (2 ^ 53 ≤ 2 ^ (k - 1)) by (apply Z.pow_le_mono_r; lia). lia. }
  assert (HP := pow2_pos (k - 54 + 1100) ltac:(lia)).
  assert (E1 : 2 ^ 1100 = 2 ^ (53 - k) * 2 ^ (k - 53 + 1100))
    by (rewrite <- Z.pow_add_r by lia; f_equal; lia).
  assert (E2 : 2 ^ 53 = 2 ^ k * 2 ^ (53 - k)) by (rewrite <- Z.pow_add_r by lia; f_equal; lia).
  assert (E3 : 2 ^ 52 = 2 ^ (k - 1) * 2 ^ (53 - k)) by (rewrite <- Z.pow_add_r by lia; f_equal; lia).
  assert (E4 : 2 ^ (k - 53 + 1100) = 2 * 2 ^ (k - 54 + 1100))
    by (rewrite <- Z.pow_succ_r by lia; f_equal; lia).
  assert (HQ := pow2_pos (53 - k) ltac:(lia)).
  assert (Hm : 2 ^ 52 ≤ b * 2 ^ (53 - k) < 2 ^ 53) by nia.
  destruct (Z.eq_dec (b * 2 ^ (53 - k)) (2 ^ 52)) as [Heq|Hne].
  - exists (S754_finite false (Z.to_pos (2 ^ 53 - 1)) (k - 54)).
    cbn -[Z.pow Z.mul Z.sub]. rewrite Z2Pos.id by lia. rewrite Z.mul_1_l, E1.
    split; [split; [done|lia]|].
    rewrite (Z.mul_assoc b), Heq, E4. split; lia.
  - exists (S754_finite false (Z.to_pos (b * 2 ^ (53 - k) - 1)) (k - 53)).
    cbn -[Z.pow Z.mul Z.sub]. rewrite Z2Pos.id by lia. rewrite Z.mul_1_l, E1.
    split; [split; [lia|lia]|]. rewrite (Z.mul_assoc b).
    assert (HP' := pow2_pos (k - 53 + 1100) ltac:(lia)).
    set (B := b * 2 ^ (53 - k)) in *. set (Q := 2 ^ (k - 53 + 1100)) in *.
    clearbody B Q. split; nia.
Qed.

(** An integer is below the computed quotient exactly when it is below the
    exact one, as long as the operands stay below [2 ^ 51]. *)
Lemma int_lt_quot_pos a n d :
  0 < a < 2 ^ 53 → 0 < n ≤ 2 ^ 51 → 0 < d ≤ 2 ^ 51 →
  d_lt (d_of_Z a) (d_div (d_of_Z n) (d_of_Z d)) = (a * d <? n).
Proof.
  intros Ha Hn Hd.
  rewrite d_lt_sval by (try apply d_of_Z_exact; try apply d_div_pnormal; lia).
  rewrite (d_of_Z_sval_exact a) by lia.
  destruct (Z.ltb_spec (a * d) n) as [Hlt|Hge].
  - apply Z.ltb_lt. destruct (representable_above a) as (z & Hz & Hgt & Hgap); [assert (a ≤ a * d) by nia; lia|].
    eapply Z.lt_le_trans; [exact Hgt|].
    destruct (d_div_rounds (d_of_Z n) (d_of_Z d)) as (_ & _ & H);
      [apply d_of_Z_in_range; lia|apply d_of_Z_in_range; lia|].
    apply H; [done|]. rewrite !d_of_Z_sval_exact by lia.
    set (P := 2 ^ 1100) in *. assert (0 < P) by (by apply pow2_pos). clearbody P.
    set (v := sval z) in *. clearbody v.
    assert ((v - a * P) * d * 2 ^ 52 ≤ a * d * P) by nia.
    assert (a * d * P ≤ 2 ^ 51 * P) by nia.
    assert (v * d ≤ n * P) by nia. nia.
  - apply Z.ltb_ge. apply d_div_le; lia.
Qed.

Lemma quot_lt_int_pos b n d :
  0 < b < 2 ^ 53 → 0 < n ≤ 2 ^ 51 → 0 < d ≤ 2 ^ 51 →
  d_lt (d_div (d_of_Z n) (d_of_Z d)) (d_of_Z b) = (n <? b * d).
Proof.
  intros Hb Hn Hd.
  rewrite d_lt_sval by (try apply d_of_Z_exact; try apply d_div_pnormal; lia).
  rewrite (d_of_Z_sval_exact b) by lia.
  destruct (Z.ltb_spec n (b * d)) as [Hlt|Hge].
  - apply Z.ltb_lt.
    (* the least integer above the quotient, whose product with [d] is small *)
    assert (Hdm := Z.div_mod n d ltac:(lia)). assert (Hmod := Z.mod_pos_bound n d ltac:(lia)).
    assert (Hq : 0 ≤ n / d) by (apply Z.div_pos; lia).
    set (b0 := n / d + 1) in *.
    assert (Hb0 : b0 ≤ b) by (unfold b0; nia).
    assert (Hb0d : n < b0 * d ≤ n + d) by (unfold b0; nia).
    assert (Hb0pos : 0 < b0) by (unfold b0; lia). clearbody b0.
    destruct (representable_below b0) as (z & Hz & Hltz & Hgap); [assert (b0 ≤ b0 * d) by nia; lia|].
    apply Z.le_lt_trans with (sval z); [|assert (HP := pow2_pos 1100 ltac:(lia)); nia].
    destruct (d_div_rounds (d_of_Z n) (d_of_Z d)) as (_ & H & _);
      [apply d_of_Z_in_range; lia|apply d_of_Z_in_range; lia|].
    apply H; [done|]. rewrite !d_of_Z_sval_exact by lia.
    set (P := 2 ^ 1100) in *. assert (0 < P) by (by apply pow2_pos). clearbody P.
    set (v := sval z) in *. clearbody v.
    assert ((b0 * P - v) * d * 2 ^ 52 ≤ b0 * d * P) by nia.
    assert (b0 * d * P ≤ 2 ^ 52 * P) by nia.
    assert (n * P ≤ v * d) by nia. nia.
  - apply Z.ltb_ge. apply d_div_ge; lia.
Qed.

Lemma binary_round_aux_opp m e l :
  binary_round_aux 53 1024 true m e l = SFopp (binary_round_aux 53 1024 false m e l).
Proof.
  unfold binary_round_aux. destruct (shr_fexp 53 1024 m e l) as [mrs e'].
  destruct (shr_fexp 53 1024 _ e' loc_Exact) as [mrs' e''].
  destruct (shr_m mrs'); [done| |done]. by destruct (e'' <=? _).
Qed.

Lemma d_of_Z_neg n : 0 < n < 2 ^ 65 → ∃ m e, d_of_Z (- n) = S754_finite true m e.
Proof.
  intros Hn. destruct (d_of_Z_rounds n Hn) as (HR & _ & _).
  destruct n as [|p|p]; [lia| |lia].
  change (pnormal (binary_round 53 1024 false p 0)) in HR.
  change (d_of_Z (- Zpos p)) with (binary_round 53 1024 true p 0).
  revert HR. unfold binary_round.
  destruct (shl_align p 0 _) as [mz ez]. rewrite binary_round_aux_opp.
  destruct (binary_round_aux 53 1024 false (Zpos mz) ez loc_Exact) as [|[]| |[] m e]; try done.
  by exists m, e.
Qed.

(** The comparison of an integer price with a volume-weighted quotient, for
    every integer: the double comparison decides the exact inequality. *)
Lemma int_lt_quot a n d :
  - 2 ^ 53 < a < 2 ^ 53 → 0 < n ≤ 2 ^ 51 → 0 < d ≤ 2 ^ 51 →
  d_lt (d_of_Z a) (d_div (d_of_Z n) (d_of_Z d)) = (a * d <? n).
Proof.
  intros Ha Hn Hd. assert (Hq := d_div_pnormal n d ltac:(lia) ltac:(lia)).
  destruct (Z.lt_trichotomy a 0) as [Hneg|[->|Hpos]]; [| |by apply int_lt_quot_pos; lia].
  - destruct (d_of_Z_neg (- a) ltac:(lia)) as (m & e & He). rewrite Z.opp_involutive in He.
    rewrite He. destruct (d_div _ _) as [|[]| |[] m' e']; try done.
    symmetry. apply Z.ltb_lt. nia.
  - destruct (d_div _ _) as [|[]| |[] m' e']; try done. symmetry. apply Z.ltb_lt. lia.
Qed.

Lemma quot_lt_int b n d :
  - 2 ^ 53 < b < 2 ^ 53 → 0 < n ≤ 2 ^ 51 → 0 < d ≤ 2 ^ 51 →
  d_lt (d_div (d_of_Z n) (d_of_Z d)) (d_of_Z b) = (n <? b * d).
Proof.
  intros Hb Hn Hd. assert (Hq := d_div_pnormal n d ltac:(lia) ltac:(lia)).
  destruct (Z.lt_trichotomy b 0) as [Hneg|[->|Hpos]]; [| |by apply quot_lt_int_pos; lia].
  - destruct (d_of_Z_neg (- b) ltac:(lia)) as (m & e & He). rewrite Z.opp_involutive in He.
    rewrite He. destruct (d_div _ _) as [|[]| |[] m' e']; try done.
    symmetry. apply Z.ltb_ge. nia.
  - destruct (d_div _ _) as [|[]| |[] m' e']; try done. symmetry. apply Z.ltb_ge. lia.
Qed.

Lemma quot_not_le_zero n d :
  0 < n < 2 ^ 64 → 0 < d < 2 ^ 64 → d_le (d_div (d_of_Z n) (d_of_Z d)) dzero = false.
Proof.
  intros Hn Hd. assert (Hq := d_div_pnormal n d Hn Hd).
  by destruct (d_div _ _) as [|[]| |[] m' e'].
Qed.

(** ** Truncation *)

Lemma d_trunc_pnormal x : pnormal x → d_trunc x = Some (sval x / 2 ^ 1100).
Proof.
  destruct x as [|[]| |[] m e]; try done. intros [Hm He]. cbn -[Z.pow Z.mul Z.div Z.leb].
  f_equal. rewrite Z.mul_1_l. destruct (Z.leb_spec 0 e) as [He0|He0].
  - rewrite Z.pow_add_r, Z.mul_assoc, Z.div_mul by lia. done.
  - assert (HP := pow2_pos (- e) ltac:(lia)). assert (HQ := pow2_pos (e + 1100) ltac:(lia)).
    replace (2 ^ 1100) with (2 ^ (- e) * 2 ^ (e + 1100))
      by (rewrite <- Z.pow_add_r by lia; f_equal; lia).
    rewrite Z.div_mul_cancel_r by lia. done.
Qed.

(** An integer upper bound on the exact quotient bounds its truncation. *)
Lemma quot_to_i32 n d a :
  0 < n < 2 ^ 53 → 0 < d < 2 ^ 53 → 0 < a < 2 ^ 31 → n ≤ a * d →
  ∃ v, d_to_i32 (d_div (d_of_Z n) (d_of_Z d)) = Some v ∧ 0 ≤ v ≤ a.
Proof.
  intros Hn Hd Ha Hle. assert (Hq := d_div_pnormal n d ltac:(lia) ltac:(lia)).
  assert (Hub := d_div_le n d a Hn Hd ltac:(lia) Hle). assert (Hpos := pnormal_pos _ Hq).
  unfold d_to_i32. rewrite d_trunc_pnormal by done. simpl.
  assert (HP := pow2_pos 1100 ltac:(lia)). set (P := 2 ^ 1100) in *. clearbody P.
  assert (0 ≤ sval (d_div (d_of_Z n) (d_of_Z d)) / P) by (apply Z.div_pos; lia).
  assert (sval (d_div (d_of_Z n) (d_of_Z d)) / P ≤ a) by (apply Z.div_le_upper_bound; lia).
  exists (sval (d_div (d_of_Z n) (d_of_Z d)) / P). split; [|lia].
  case_match eqn:Hg; [done|]. apply andb_false_iff in Hg as [Hg|Hg]; guards; lia.
Qed.

(** ** Multiplication *)

(** A lower bound on a double bounds its exponent from below, an upper bound
    from above. *)
Lemma exponent_low m e L : 0 ≤ e + 1100 → 0 < m < 2 ^ 53 → 2 ^ L ≤ m * 2 ^ (e + 1100) → L - 53 < e + 1100.
Proof.
  intros He Hm HL. apply Z.nle_gt. intros Hle.
  assert (2 ^ (e + 1100) ≤ 2 ^ (L - 53)) by (apply Z.pow_le_mono_r; lia).
  assert (2 ^ L = 2 ^ 53 * 2 ^ (L - 53)) by (rewrite <- Z.pow_add_r by lia; f_equal; lia).
  assert (HP := pow2_pos (e + 1100) He). nia.
Qed.

Lemma exponent_high m e U : 0 ≤ e + 1100 → 52 ≤ U → 2 ^ 52 ≤ m → m * 2 ^ (e + 1100) ≤ 2 ^ U → e + 1100 ≤ U - 52.
Proof.
  intros He HU Hm Hle. apply Z.nlt_ge. intros Hlt.
  assert (2 ^ Z.succ (U - 52) ≤ 2 ^ (e + 1100)) by (apply Z.pow_le_mono_r; lia).
  assert (2 ^ U = 2 ^ 52 * 2 ^ (U - 52)) by (rewrite <- Z.pow_add_r by lia; f_equal; lia).
  rewrite Z.pow_succ_r in * by lia. assert (HP := pow2_pos (U - 52) ltac:(lia)).
  assert (2 ^ 52 * 2 ^ (e + 1100) ≤ m * 2 ^ (e + 1100)) by (apply Z.mul_le_mono_nonneg_r; lia). lia.
Qed.

Lemma d_mul_comm x y : d_mul x y = d_mul y x.
Proof.
  unfold d_mul, SFmul. destruct x as [[]|[]| |[] mx ex], y as [[]|[]| |[] my ey]; try done; cbn [xorb];
    by rewrite (Pos.mul_comm mx), (Z.add_comm ex).
Qed.

(** The product of two doubles between [2 ^ -50] and [2 ^ 64]. *)
Lemma d_mul_rounds x y :
  pnormal x → pnormal y → 2 ^ 1050 ≤ sval x ≤ 2 ^ 1164 → 2 ^ 1050 ≤ sval y ≤ 2 ^ 1164 →
  rounds (d_mul x y) (sval x * sval y) (2 ^ 1100).
Proof.
  destruct x as [|[]| |[] mx ex], y as [|[]| |[] my ey]; try done.
  intros [Hmx Hex] [Hmy Hey]. cbn [sval]. rewrite !Z.mul_1_l. intros [Hx1 Hx2] [Hy1 Hy2].
  assert (H1 := exponent_low (Zpos mx) ex 1050 ltac:(lia) ltac:(lia) Hx1).
  assert (H2 := exponent_low (Zpos my) ey 1050 ltac:(lia) ltac:(lia) Hy1).
  assert (H3 := exponent_high _ ex 1164 ltac:(lia) ltac:(lia) (proj1 Hmx) Hx2).
  assert (H4 := exponent_high _ ey 1164 ltac:(lia) ltac:(lia) (proj1 Hmy) Hy2).
  unfold d_mul, SFmul. cbn [xorb].
  change (Zpos (mx * my)) with (Zpos mx * Zpos my).
  assert (Hm : 2 ^ 104 ≤ Zpos mx * Zpos my < 2 ^ 106) by nia.
  destruct (round_aux_rounds (Zpos mx * Zpos my) (ex + ey) loc_Exact (Zpos mx * Zpos my) 1)
    as (HR & Hle & Hge); [lia|lia|lia|cbn [inb]; lia| |].
  { assert (Zdigits2 (Zpos mx * Zpos my) ≤ 106); [|lia]. apply Z.nlt_ge. intros Hlt.
    assert (Hds := Zdigits2_spec (Zpos mx * Zpos my) ltac:(lia)).
    assert (2 ^ 106 ≤ 2 ^ (Zdigits2 (Zpos mx * Zpos my) - 1)) by (apply Z.pow_le_mono_r; lia). lia. }
  assert (Hscale : Zpos mx * 2 ^ (ex + 1100) * (Zpos my * 2 ^ (ey + 1100))
                   = Zpos mx * Zpos my * 2 ^ (ex + ey + 1100) * 2 ^ 1100).
  { transitivity (Zpos mx * Zpos my * (2 ^ (ex + 1100) * 2 ^ (ey + 1100))); [ring|].
    rewrite <- (Z.mul_assoc (Zpos mx * Zpos my)), <- !Z.pow_add_r by lia. do 2 f_equal. lia. }
  split; [done|]. rewrite Hscale. assert (HP := pow2_pos 1100 ltac:(lia)).
  set (V := _ * 2 ^ (ex + ey + 1100)) in *. set (P := 2 ^ 1100) in *. clearbody P V.
  split; intros z Hz Hcmp; [apply Hle|apply Hge]; try done; nia.
Qed.

(** ** Relative error *)

(** A rounded value is within one part in [2 ^ 52] of the exact one. *)
Lemma rounds_error R V W :
  0 < W → 2 ^ 1000 ≤ sval R → rounds R V W →
  sval R * W * (2 ^ 52 - 1) ≤ V * 2 ^ 52 ≤ sval R * W * (2 ^ 52 + 1).
Proof.
  intros HW Hbig (HR & Hle & Hge). destruct R as [|[]| |[] m e]; try done. destruct HR as [Hm He].
  cbn [sval] in *. rewrite !Z.mul_1_l in *.
  assert (Hlow := exponent_low (Zpos m) e 1000 ltac:(lia) ltac:(lia) Hbig).
  assert (HP := pow2_pos (e + 1099) ltac:(lia)).
  assert (Heq : 2 ^ (e + 1100) = 2 * 2 ^ (e + 1099))
    by (rewrite <- Z.pow_succ_r by lia; f_equal; lia).
  assert (Heq2 : 2 ^ (e + 1 + 1100) = 4 * 2 ^ (e + 1099)).
  { replace (e + 1 + 1100) with (Z.succ (Z.succ (e + 1099))) by lia. rewrite !Z.pow_succ_r by lia. lia. }
  set (u := 2 ^ (e + 1099)) in *. rewrite Heq in *. split.
  - (* the predecessor is below the exact value *)
    destruct (Z.lt_ge_cases (Zpos m) (2 ^ 52 + 1)) as [Hedge|Hin].
    + assert (Zpos m = 2 ^ 52) as Hm1 by lia.
      specialize (Hle (S754_finite false (Z.to_pos (2 ^ 53 - 1)) (e - 1))). cbn [sval pnormal] in Hle.
      rewrite Z2Pos.id in Hle by lia. replace (e - 1 + 1100) with (e + 1099) in Hle by lia. fold u in Hle.
      destruct (Z.le_gt_cases V (1 * ((2 ^ 53 - 1) * u) * W)) as [H|H]; [specialize (Hle ltac:(lia) H)|]; nia.
    + specialize (Hle (S754_finite false (Z.to_pos (Zpos m - 1)) e)). cbn [sval pnormal] in Hle.
      rewrite Z2Pos.id in Hle by lia. rewrite Heq in Hle.
      destruct (Z.le_gt_cases V (1 * ((Zpos m - 1) * (2 * u)) * W)) as [H|H]; [specialize (Hle ltac:(lia) H); nia|].
      assert (Zpos m * (2 * u) * W * (2 ^ 52 - 1) ≤ (Zpos m - 1) * (2 * u) * W * 2 ^ 52); [|nia].
      assert (0 < 2 * u * W) by nia. set (k := 2 * u * W) in *. nia.
  - (* and below its successor *)
    assert (V ≤ (Zpos m + 1) * (2 * u) * W).
    { apply Z.nlt_ge. intros Hlt. destruct (Z.lt_ge_cases (Zpos m + 1) (2 ^ 53)) as [Hin|Hedge].
      - specialize (Hge (S754_finite false (Z.to_pos (Zpos m + 1)) e)). cbn [sval pnormal] in Hge.
        rewrite Z2Pos.id in Hge by lia. rewrite Heq in Hge. specialize (Hge ltac:(lia) ltac:(lia)). nia.
      - specialize (Hge (S754_finite false (Z.to_pos (2 ^ 52)) (e + 1))). cbn [sval pnormal] in Hge.
        rewrite Z2Pos.id, Heq2 in Hge by lia. specialize (Hge ltac:(lia) ltac:(nia)). nia. }
    assert (0 < 2 * u * W) by nia. set (k := 2 * u * W) in *. nia.
Qed.

(** [c / d], rounded, times [k], rounded, and truncated: never above the exact
    product, and at most one below it. *)
Lemma scaled_truncation R c d k :
  0 < c < 2 ^ 31 → 0 < d ≤ 128 → 0 < k → c * k < 2 ^ 50 → rounds R (c * 2 ^ 1100) d →
  ∃ v, d_trunc (d_mul R (d_of_Z k)) = Some v ∧ c * k - d ≤ d * v ≤ c * k.
Proof.
  intros Hc Hd Hk Hck HR. assert (HRn := proj1 HR).
  assert (Hk50 : k < 2 ^ 50) by nia.
  assert (Hlow : 2 ^ 1050 ≤ sval R).
  { assert (2 ^ 1093 ≤ sval R); [|assert (2 ^ 1050 ≤ 2 ^ 1093) by (apply Z.pow_le_mono_r; lia); lia].
    destruct HR as (_ & _ & Hge). specialize (Hge (S754_finite false (Z.to_pos (2 ^ 52)) (-59))).
    cbn [sval pnormal] in Hge. rewrite Z2Pos.id in Hge by lia.
    replace (1 * (2 ^ 52 * 2 ^ (-59 + 1100))) with (2 ^ 1093) in Hge by (rewrite Z.mul_1_l, <- Z.pow_add_r by lia; f_equal; lia).
    apply Hge; [lia|]. assert (2 ^ 1100 = 2 ^ 7 * 2 ^ 1093) by (rewrite <- Z.pow_add_r by lia; f_equal; lia).
    assert (0 < 2 ^ 1093) by (apply pow2_pos; lia). nia. }
  assert (HP := pow2_pos 1100 ltac:(lia)).
  assert (HP1 : 2 ^ 1164 = 2 ^ 64 * 2 ^ 1100) by (rewrite <- Z.pow_add_r by lia; f_equal; lia).
  assert (HP2 : 2 ^ 1100 = 2 ^ 50 * 2 ^ 1050) by (rewrite <- Z.pow_add_r by lia; f_equal; lia).
  assert (HP3 : 2 ^ 1050 = 2 ^ 50 * 2 ^ 1000) by (rewrite <- Z.pow_add_r by lia; f_equal; lia).
  assert (HP4 : 0 < 2 ^ 1000) by (apply pow2_pos; lia).
  destruct (rounds_error R (c * 2 ^ 1100) d ltac:(lia) ltac:(lia) HR) as [HR1 HR2].
  destruct (d_of_Z_exact k ltac:(lia)) as [Hkn Hkv].
  assert (Hprod := d_mul_rounds R (d_of_Z k) HRn Hkn). rewrite Hkv in Hprod.
  assert (HRup : sval R ≤ c * 2 ^ 1100 * 2).
  { assert (sval R * d * (2 ^ 52 - 1) ≤ c * 2 ^ 1100 * 2 ^ 52) by exact HR1.
    assert (sval R * (2 ^ 52 - 1) ≤ sval R * d * (2 ^ 52 - 1)) by nia. lia. }
  specialize (Hprod ltac:(split; [done|nia]) ltac:(split; nia)).
  set (p := d_mul R (d_of_Z k)) in *. assert (Hpn := proj1 Hprod).
  assert (Hplow : 2 ^ 1000 ≤ sval p).
  { destruct Hprod as (_ & _ & Hge). specialize (Hge R HRn ltac:(nia)). lia. }
  destruct (rounds_error p _ _ HP Hplow Hprod) as [Hp1 Hp2].
  exists (sval p / 2 ^ 1100). rewrite d_trunc_pnormal by done. split; [done|].
  set (P := 2 ^ 1100) in *. set (r := sval R) in *. set (v := sval p) in *.
  assert (Hv1 : v * (2 ^ 52 - 1) ≤ r * k * 2 ^ 52) by nia.
  assert (Hv2 : r * k * 2 ^ 52 ≤ v * (2 ^ 52 + 1)) by nia.
  clearbody P r v. clear - Hc Hd Hk Hck HP HR1 HR2 Hv1 Hv2.
  assert (Hqr := Z_div_mod_eq_full v P). assert (Hrem := Z.mod_pos_bound v P HP).
  set (q := v / P) in *. set (e := v mod P) in *. clearbody q e.
  assert (Hup : d * v * ((2 ^ 52 - 1) * (2 ^ 52 - 1)) ≤ c * k * P * 2 ^ 104) by nia.
  assert (Hdown : c * k * P * 2 ^ 104 ≤ d * v * ((2 ^ 52 + 1) * (2 ^ 52 + 1))) by nia.
  clear HR1 HR2 Hv1 Hv2. set (ck := c * k) in *. assert (0 < ck) by nia. clearbody ck.
  split; apply Z.nlt_ge; intros Hlt.
  - assert (d * v ≤ (ck - 1) * P) by nia. nia.
  - assert ((ck + 1) * P ≤ d * v) by nia. nia.
Qed.

(** An amount in cents survives the division by 100 and the multiplication
    back, up to the truncation: it comes out whole or one cent short. *)
Lemma cents_truncation R c :
  0 < c < 2 ^ 31 → rounds R (c * 2 ^ 1100) 100 →
  ∃ v, d_to_i32 (d_mul R (d_of_Z 100)) = Some v ∧ c - 1 ≤ v ≤ c.
Proof.
  intros Hc HR. destruct (scaled_truncation R c 100 100) as (v & Hv & H); [lia..|done|].
  exists v. unfold d_to_i32. rewrite Hv. cbn [mbind option_bind].
  destruct (Z.leb_spec (- 2 ^ 31) v); [|lia]. destruct (Z.ltb_spec v (2 ^ 31)); [|lia].
  split; [done|lia].
Qed.
