(* ===== verification/Text.v ===== *)
(** * Numbers as text

    What the program uses of the C and C++ libraries to read numbers:
    [std::strtoul], the throwing conversions [std::stoul], [std::stoull],
    [std::stoi] and [std::stod], and the extraction of an [int] or a [char]
    from an [istringstream], in the default locale.  Strings are the lists of
    their bytes. *)
From Stdlib Require Import SpecFloat.
From Stdlib Require Strings.String Strings.Ascii.
From S2P Require Import Prelude Binary64.
Export Strings.String.StringSyntax.

(** The bytes of a string literal. *)
Definition bytes (s : String.string) : list Z :=
  (λ c, Z.of_nat (Ascii.nat_of_ascii c)) <$> String.list_ascii_of_string s.
Arguments bytes s%_string_scope.

Definition ULONG_MAX : Z := 2 ^ 64 - 1.
Definition is_space (b : Z) : bool := (b =? 32) || ((9 <=? b) && (b <=? 13)).
Definition is_digit (b : Z) : bool := (48 <=? b) && (b <=? 57).

Fixpoint skip_spaces (s : list Z) : list Z :=
  match s with b :: s' => if is_space b then skip_spaces s' else s | [] => [] end.
Fixpoint span_digits (s : list Z) : list Z * list Z :=
  match s with
  | b :: s' => if is_digit b then let '(ds, r) := span_digits s' in (b :: ds, r) else ([], s)
  | [] => ([], [])
  end.
Definition digits_value (ds : list Z) : Z := foldl (λ v d, v * 10 + (d - 48)) 0 ds.

(** An optional sign: 45 is the minus, 43 the plus. *)
Definition scan_sign (s : list Z) : bool * list Z :=
  match s with 45 :: s' => (true, s') | 43 :: s' => (false, s') | _ => (false, s) end.

(** [std::strtoul(s, &endptr, 10)]: the value and the rest of the string.
    Without digits nothing is consumed; an overflow gives [ULONG_MAX]; a
    minus sign negates in the unsigned type. *)
Definition strtoul (s : list Z) : Z * list Z :=
  let t := skip_spaces s in
  let '(neg, t) := scan_sign t in
  let '(ds, rest) := span_digits t in
  match ds with
  | [] => (0, s)
  | _ =>
      let v := digits_value ds in
      (if v >? ULONG_MAX then ULONG_MAX else if neg then u64 (- v) else v, rest)
  end.

(** ** Decimal numerals *)

(** The digits of [n], most significant first, in front of [acc]. *)
Fixpoint decimal_onto (fuel : nat) (n : Z) (acc : list Z) : list Z :=
  match fuel with
  | O => acc
  | S fuel =>
      let acc := (48 + n mod 10) :: acc in
      if n <? 10 then acc else decimal_onto fuel (n / 10) acc
  end.
Definition decimal (n : Z) : list Z := decimal_onto 20 n [].

Lemma decimal_onto_value fuel n acc v0 :
  0 ≤ n < 10 ^ Z.of_nat fuel → 
  ∃ ds, decimal_onto fuel n acc = ds ++ acc ∧ Forall (λ b, is_digit b = true) ds ∧ (fuel ≠ 0%nat → ds ≠ []) ∧
    foldl (λ v d, v * 10 + (d - 48)) v0 ds = v0 * 10 ^ Z.of_nat (length ds) + n.
Proof.
  revert n acc. induction fuel as [|fuel IH]; intros n acc Hn.
  { exists []. cbn in *. repeat split; try done. lia. }
  assert (Hmod := Z.mod_pos_bound n 10 ltac:(lia)).
  assert (Hd : is_digit (48 + n mod 10) = true) by (apply andb_true_iff; rewrite !Z.leb_le; lia).
  cbn [decimal_onto]. destruct (Z.ltb_spec n 10).
  { exists [48 + n mod 10]. split; [done|]. split; [by constructor|]. split; [done|].
    cbn. rewrite Z.mod_small by lia. lia. }
  rewrite Nat2Z.inj_succ, Z.pow_succ_r in Hn by lia.
  destruct (IH (n / 10) ((48 + n mod 10) :: acc)) as (ds & -> & Hds & _ & Hv).
  { split; [apply Z.div_pos; lia|]. apply Z.div_lt_upper_bound; lia. }
  exists (ds ++ [48 + n mod 10]). rewrite <- app_assoc. split; [done|].
  split; [apply Forall_app; split; [done|by constructor]|]. split; [by destruct ds|].
  rewrite foldl_app, Hv, length_app. cbn [foldl length]. rewrite Nat2Z.inj_add, Z.pow_add_r by lia.
  assert (H10 := Z.div_mod n 10 ltac:(lia)). change (10 ^ Z.of_nat 1) with 10. nia.
Qed.

Lemma span_all ds : Forall (λ b, is_digit b = true) ds → span_digits ds = (ds, []).
Proof. induction 1 as [|d ds Hd _ IH]; [done|]. cbn. by rewrite Hd, IH. Qed.

Lemma scan_sign_digit d s : is_digit d = true → scan_sign (d :: s) = (false, d :: s).
Proof.
  intros [H1 H2]%andb_true_iff. apply Z.leb_le in H1, H2.
  destruct d as [|p|]; try done. do 6 (destruct p as [p|p|]; try done; try lia).
Qed.

Lemma skip_spaces_digit d s : is_digit d = true → skip_spaces (d :: s) = d :: s.
Proof.
  intros [H1 H2]%andb_true_iff. apply Z.leb_le in H1, H2. cbn. unfold is_space.
  destruct (Z.eqb_spec d 32), (Z.leb_spec d 13); try lia; cbn; by rewrite ?andb_false_r.
Qed.

(** The digits of a numeral, as the readers below take it apart. *)
Lemma decimal_digits n :
  0 ≤ n < 10 ^ 20 →
  Forall (λ b, is_digit b = true) (decimal n) ∧ decimal n ≠ [] ∧ digits_value (decimal n) = n.
Proof.
  intros Hn. destruct (decimal_onto_value 20 n [] 0) as (ds & Hdec & Hds & Hne & Hv); [lia|].
  unfold decimal, digits_value. rewrite Hdec, app_nil_r, Hv. split; [done|]. split; [auto|lia].
Qed.

Lemma span_digits_app ds rest :
  Forall (λ b, is_digit b = true) ds → is_digit (hd 0 rest) = false → span_digits (ds ++ rest) = (ds, rest).
Proof.
  intros Hds Hr. induction Hds as [|d ds Hd _ IH]; cbn [app].
  - destruct rest as [|b rest]; [done|]. cbn in *. by rewrite Hr.
  - cbn [span_digits]. by rewrite Hd, IH.
Qed.

(** Reading a numeral in front of something else: no space, no sign. *)
Lemma scan_decimal n rest :
  0 ≤ n < 10 ^ 20 → is_digit (hd 0 rest) = false →
  skip_spaces (decimal n ++ rest) = decimal n ++ rest ∧
  scan_sign (decimal n ++ rest) = (false, decimal n ++ rest) ∧
  span_digits (decimal n ++ rest) = (decimal n, rest).
Proof.
  intros Hn Hr. destruct (decimal_digits n Hn) as (Hds & Hne & _).
  split_and!; [| |by apply span_digits_app]; destruct (decimal n) as [|d ds]; try done;
    apply Forall_inv in Hds; cbn in Hds.
  - by apply skip_spaces_digit.
  - by apply scan_sign_digit.
Qed.

Lemma strtoul_decimal n : is_u64 n → strtoul (decimal n) = (n, []).
Proof.
  intros Hn. destruct (scan_decimal n [] ltac:(lia) eq_refl) as (H1 & H2 & H3). rewrite app_nil_r in *.
  unfold strtoul. rewrite H1, H2, H3. destruct (decimal_digits n ltac:(lia)) as (_ & Hne & Hv). rewrite Hv.
  destruct (decimal n); [done|]. rewrite Z.gtb_ltb. unfold ULONG_MAX. branch; [lia|done].
Qed.

(** ** The throwing conversions of [<string>]

    [None] is an exception: no digits, or a value outside the type. *)

(** [std::stoul] and [std::stoull]; both types have 64 bits. *)
Definition stoul (s : list Z) : option Z :=
  let '(neg, t) := scan_sign (skip_spaces s) in
  match span_digits t with
  | ([], _) => None
  | (ds, _) =>
      let v := digits_value ds in
      if v >? ULONG_MAX then None else Some (if neg then u64 (- v) else v)
  end.
Abbreviation stoull := stoul (only parsing).

Definition stoi (s : list Z) : option Z :=
  let '(neg, t) := scan_sign (skip_spaces s) in
  match span_digits t with
  | ([], _) => None
  | (ds, _) =>
      let v := if neg : bool then - digits_value ds else digits_value ds in
      if (v <? - 2 ^ 31) || (2 ^ 31 <=? v) then None else Some v
  end.

Lemma stoul_decimal n rest : is_u64 n → is_digit (hd 0 rest) = false → stoul (decimal n ++ rest) = Some n.
Proof.
  intros Hn Hr. destruct (scan_decimal n rest ltac:(lia) Hr) as (H1 & H2 & H3).
  unfold stoul. rewrite H1, H2, H3. destruct (decimal_digits n ltac:(lia)) as (_ & Hne & Hv).
  destruct (decimal n); [done|]. rewrite Hv, Z.gtb_ltb. unfold ULONG_MAX. branch; [lia|done].
Qed.

(** ** [std::stod] *)

Definition lower (b : Z) : Z := if (65 <=? b) && (b <=? 90) then b + 32 else b.
Definition starts_with (word s : list Z) : bool := bool_decide (take (length word) (lower <$> s) = word).

Definition hex_digit (b : Z) : option Z :=
  let b := lower b in
  if is_digit b then Some (b - 48) else if (97 <=? b) && (b <=? 102) then Some (b - 87) else None.
Fixpoint span_hex (s : list Z) : list Z * list Z :=
  match s with
  | b :: s' => match hex_digit b with
               | Some d => let '(ds, r) := span_hex s' in (d :: ds, r)
               | None => ([], s)
               end
  | [] => ([], [])
  end.
Definition hex_value (ds : list Z) : Z := foldl (λ v d, v * 16 + d) 0 ds.

(** The exponent part: [letter], a sign, digits.  An incomplete one is not
    part of the number. *)
Definition scan_exponent (letter : Z) (s : list Z) : Z :=
  match s with
  | b :: s' =>
      if lower b =? letter then
        let '(neg, t) := scan_sign s' in
        match span_digits t with
        | ([], _) => 0
        | (ds, _) => if neg : bool then - digits_value ds else digits_value ds
        end
      else 0
  | [] => 0
  end.

(** The positive rational [n / d] as the nearest double. *)
Definition d_ratio (neg : bool) (n d : Z) : double :=
  if n =? 0 then S754_zero neg
  else d_div (S754_finite neg (Z.to_pos n) 0) (S754_finite false (Z.to_pos d) 0).

(** [ERANGE]: the nearest double is infinite, or subnormal and inexact. *)
Definition out_of_range (n d : Z) (x : double) : bool :=
  match x with
  | S754_infinity _ => true
  | S754_finite _ m e =>
      (Zdigits2 (Zpos m) <? 53) &&
      negb (Zpos m * d * 2 ^ Z.max 0 e =? n * 2 ^ Z.max 0 (- e))
  | S754_zero _ => negb (n =? 0)
  | S754_nan => false
  end.

(** [mantissa * base ^ e]. *)
Definition d_scaled (neg : bool) (mantissa base e : Z) : option double :=
  let n := mantissa * base ^ Z.max 0 e in
  let d := base ^ Z.max 0 (- e) in
  let x := d_ratio neg n d in
  if out_of_range n d x then None else Some x.

Definition stod (s : list Z) : option double :=
  let '(neg, t) := scan_sign (skip_spaces s) in
  if starts_with [105; 110; 102] t then Some (S754_infinity neg)           (* "inf" *)
  else if starts_with [110; 97; 110] t then Some S754_nan                   (* "nan" *)
  else
    let '(hi, r) := span_hex (drop 2 t) in
    let '(hf, r) := match r with 46 :: r' => span_hex r' | _ => ([], r) end in
    if starts_with [48; 120] t && negb (length (hi ++ hf) =? 0)%nat then    (* "0x" *)
      d_scaled neg (hex_value (hi ++ hf)) 2 (scan_exponent 112 r - 4 * Z.of_nat (length hf))
    else
      let '(di, r) := span_digits t in
      let '(df, r) := match r with 46 :: r' => span_digits r' | _ => ([], r) end in
      if (length (di ++ df) =? 0)%nat then None
      else d_scaled neg (digits_value (di ++ df)) 10 (scan_exponent 101 r - Z.of_nat (length df)).

(** ** Extraction from an [istringstream]

    [Some rest] is a stream in a good state; [None] one that has failed, on
    which nothing is extracted any more. *)

(** [iss >> n] for an [int]: without digits the variable becomes 0, beyond
    the type the nearest bound, and the stream fails. *)
Definition get_int (st : option (list Z)) (old : Z) : Z * option (list Z) :=
  match st with
  | None => (old, None)
  | Some s =>
      match skip_spaces s with
      | [] => (old, None)
      | t =>
          let '(neg, t) := scan_sign t in
          match span_digits t with
          | ([], _) => (0, None)
          | (ds, rest) =>
              let v := if neg : bool then - digits_value ds else digits_value ds in
              if 2 ^ 31 <=? v then (2 ^ 31 - 1, None)
              else if v <? - 2 ^ 31 then (- 2 ^ 31, None) else (v, Some rest)
          end
      end
  end.

(** [iss >> c] for a [char], whose value is not looked at. *)
Definition get_char (st : option (list Z)) : option (list Z) :=
  match st with
  | None => None
  | Some s => match skip_spaces s with [] => None | _ :: rest => Some rest end
  end.

(** ** Prices written in dollars and cents *)

Lemma d_ratio_rounds n d :
  0 < n < 2 ^ 53 → 0 < d < 2 ^ 53 → rounds (d_ratio false n d) (n * 2 ^ 1100) d.
Proof.
  intros Hn Hd. unfold d_ratio. destruct (Z.eqb_spec n 0); [lia|].
  assert (Hdn := Zdigits2_spec n ltac:(lia)). assert (Hdd := Zdigits2_spec d ltac:(lia)).
  assert (Hpn := Zdigits2_pos n ltac:(lia)). assert (Hpd := Zdigits2_pos d ltac:(lia)).
  assert (Hdig : ∀ x, 0 < x < 2 ^ 53 → Zdigits2 x ≤ 53).
  { intros x Hx. apply Z.nlt_ge. intros Hlt. assert (Hs := Zdigits2_spec x ltac:(lia)).
    assert (2 ^ 53 ≤ 2 ^ (Zdigits2 x - 1)) by (apply Z.pow_le_mono_r; lia). lia. }
  assert (Hn53 := Hdig n Hn). assert (Hd53 := Hdig d Hd). clear Hdig.
  unfold d_div, SFdiv, SFdiv_core_binary, fexp, emin. cbn [xorb]. rewrite !Z2Pos.id by lia.
  set (k := Zdigits2 n) in *. set (j := Zdigits2 d) in *.
  rewrite Z.max_l by lia. rewrite Z.min_l by lia.
  replace (0 - 0 - (k + 0 - (j + 0) - 53)) with (j - k + 53) by lia.
  replace (k + 0 - (j + 0) - 53) with (k - j - 53) by lia.
  replace (match j - k + 53 with 0 => n | Z.pos _ => Z.shiftl n (j - k + 53) | Z.neg _ => 0 end)
    with (n * 2 ^ (j - k + 53)) by (rewrite <- Z.shiftl_mul_pow2 by lia; destruct (j - k + 53) eqn:?; lia).
  assert (HA : 2 ^ (k - 1) * 2 ^ (j - k + 53) = 2 ^ 52 * 2 ^ j)
    by (rewrite <- !Z.pow_add_r by lia; f_equal; lia).
  assert (HB : 2 ^ k * 2 ^ (j - k + 53) = 2 ^ 54 * 2 ^ (j - 1))
    by (rewrite <- !Z.pow_add_r by lia; f_equal; lia).
  assert (HS := pow2_pos (j - k + 53) ltac:(lia)). set (s := 2 ^ (j - k + 53)) in *.
  destruct (Z.div_eucl (n * s) d) as [q r] eqn:Hqr.
  assert (Hdiv := Z_div_mod (n * s) d ltac:(lia)). rewrite Hqr in Hdiv. destruct Hdiv as [Heq Hr].
  assert (HJ := pow2_pos (j - 1) ltac:(lia)).
  assert (Hq : 2 ^ 52 ≤ q < 2 ^ 54).
  { assert (2 ^ 52 * 2 ^ j ≤ n * s) by nia. assert (n * s < 2 ^ 54 * 2 ^ (j - 1)) by nia. split; nia. }
  assert (Hround := round_aux_rounds q (k - j - 53) (new_location d r) (n * s) d).
  destruct Hround as (HR & Hle & Hge); [lia|lia|lia| | |].
  { rewrite Heq, (Z.mul_comm d q). apply new_location_inb; lia. }
  { apply Z.le_trans with (54 + (k - j - 53)); [|lia]. apply Z.add_le_mono_r, Z.nlt_ge. intros Hlt.
    assert (Hds := Zdigits2_spec q ltac:(lia)).
    assert (2 ^ 54 ≤ 2 ^ (Zdigits2 q - 1)) by (apply Z.pow_le_mono_r; lia). lia. }
  assert (Hscale : n * 2 ^ 1100 = n * s * 2 ^ (k - j - 53 + 1100)).
  { unfold s. rewrite <- Z.mul_assoc, <- Z.pow_add_r by lia. do 2 f_equal. lia. }
  rewrite Hscale. split; [done|]. by split.
Qed.

Lemma pnormal_in_type n d x : pnormal x → out_of_range n d x = false.
Proof.
  destruct x as [|[]| |[] m e]; try done. intros [Hm _]. unfold out_of_range.
  rewrite (Zdigits2_unique (Zpos m) 53) by lia. done.
Qed.

(** [c] cents, as "d.cc". *)
Definition price_text (c : Z) : list Z :=
  decimal (c / 100) ++ [46; 48 + c / 10 mod 10; 48 + c mod 10].

Lemma digit_ok k : 0 ≤ k < 10 → is_digit (48 + k) = true.
Proof. intros. apply andb_true_iff. rewrite !Z.leb_le. lia. Qed.

(** No letter word matches text without letters. *)
Lemma no_word w s : Forall (λ b, b < 65) s → Exists (λ b, 97 ≤ b) w → starts_with w s = false.
Proof.
  intros Hs Hw. apply bool_decide_eq_false. intros Heq. revert Hw. rewrite <- Heq, Exists_exists.
  intros (b & Hb & Hge). rewrite <- fmap_take, list_elem_of_fmap in Hb. destruct Hb as (b' & -> & Hb').
  assert (H := proj1 (Forall_forall _ _) (Forall_take _ (length w) _ Hs) b' Hb'). cbn in H. revert Hge. unfold lower.
  destruct (Z.leb_spec 65 b'); cbn; lia.
Qed.

Lemma digits_value_app ds es : digits_value (ds ++ es) = foldl (λ v d, v * 10 + (d - 48)) (digits_value ds) es.
Proof. apply foldl_app. Qed.

Lemma stod_price c :
  0 < c < 2 ^ 31 → stod (price_text c) = Some (d_ratio false c 100) ∧ rounds (d_ratio false c 100) (c * 2 ^ 1100) 100.
Proof.
  intros Hc. assert (Hr := d_ratio_rounds c 100 ltac:(lia) ltac:(lia)). split; [|done].
  assert (Hq : 0 ≤ c / 100 < 10 ^ 20).
  { split; [apply Z.div_pos; lia|]. apply Z.div_lt_upper_bound; lia. }
  assert (Hm1 := Z.mod_pos_bound (c / 10) 10 ltac:(lia)). assert (Hm2 := Z.mod_pos_bound c 10 ltac:(lia)).
  destruct (scan_decimal (c / 100) [46; 48 + c / 10 mod 10; 48 + c mod 10] Hq eq_refl) as (H1 & H2 & H3).
  destruct (decimal_digits _ Hq) as (Hds & Hne & Hv).
  assert (Hlow : Forall (λ b, b < 65) (price_text c)).
  { apply Forall_app. split; [|repeat constructor; lia]. eapply Forall_impl; [exact Hds|].
    intros b [_ Hb]%andb_true_iff. apply Z.leb_le in Hb. lia. }
  fold (price_text c) in *. unfold stod. rewrite H1, H2.
  rewrite (no_word [105; 110; 102]), (no_word [110; 97; 110]), (no_word [48; 120]) by first [done | repeat constructor; lia].
  destruct (span_hex (drop 2 (price_text c))) as [hi r0].
  destruct (match r0 with 46 :: r' => span_hex r' | _ => ([], r0) end) as [hf r1]. cbn [andb].
  rewrite H3. cbn [span_digits]. rewrite !digit_ok by lia.
  rewrite length_app. cbn [length]. destruct (Nat.eqb_spec (length (decimal (c / 100)) + 2) 0); [lia|].
  rewrite digits_value_app, Hv. cbn [foldl scan_exponent].
  replace (_ * 10 + _) with c.
  2: { assert (E1 := Z.div_mod c 10 ltac:(lia)). assert (E2 := Z.div_mod (c / 10) 10 ltac:(lia)).
       rewrite Z.div_div in E2 by lia. change (10 * 10) with 100 in E2. lia. }
  unfold d_scaled. change (10 ^ Z.max 0 (0 - Z.of_nat 2)) with 1. change (10 ^ Z.max 0 (- (0 - Z.of_nat 2))) with 100.
  rewrite Z.mul_1_r, pnormal_in_type; [done|]. apply Hr.
Qed.
