(* ===== verification/Console.v ===== *)
(** * Output streams

    What the program uses of [std::ostream]: insertion of strings, characters,
    integers and floating-point numbers, the manipulators [setw],
    [setprecision], [fixed], [left], [right] and [endl], and the conversions of
    a [double] they select.  The fill character is a blank.  [setw] is for the
    next insertion only, the other settings stay.  The conversions round
    correctly, ties to even, as glibc's do; the sign of a NaN is not
    modelled. *)
From Stdlib Require Import SpecFloat.
From Stdlib Require Strings.String.
From S2P Require Import Prelude Binary64 Text.

(** ** Numbers as text *)

(** The digits of [n], of any size. *)
Definition digits (n : Z) : list Z := decimal_onto (S (Z.to_nat (Z.log2 n))) n [].
Definition signed_digits (n : Z) : list Z := if n <? 0 then 45 :: digits (- n) else digits n.

(** The [k] digits of a fraction. *)
Fixpoint fraction (k : nat) (n : Z) : list Z :=
  match k with O => [] | S k => fraction k (n / 10) ++ [48 + n mod 10] end.

(** [n / d] to the nearest integer, ties to even. *)
Definition round_quot (n d : Z) : Z :=
  let q := n / d in
  match 2 * (n mod d) ?= d with Lt => q | Gt => q + 1 | Eq => if Z.even q then q else q + 1 end.

(** The value of a finite double as a fraction. *)
Definition numer (m : positive) (e : Z) : Z := Zpos m * 2 ^ Z.max 0 e.
Definition denom (e : Z) : Z := 2 ^ Z.max 0 (- e).

(** [n] units of [10 ^ - k]. *)
Definition point (k : nat) (n : Z) : list Z :=
  digits (n / 10 ^ Z.of_nat k) ++ match k with O => [] | _ => 46 :: fraction k n end.

Definition minus (s : bool) : list Z := if s then [45] else [].

(** [%.kf]. *)
Definition fixed_text (k : nat) (x : double) : list Z :=
  match x with
  | S754_nan => bytes "nan"
  | S754_infinity s => minus s ++ bytes "inf"
  | S754_zero s => minus s ++ point k 0
  | S754_finite s m e => minus s ++ point k (round_quot (numer m e * 10 ^ Z.of_nat k) (denom e))
  end.

(** The decimal exponent of [n / d]. *)
Fixpoint small_exponent (fuel : nat) (n d : Z) : Z :=
  match fuel with
  | O => 0
  | S fuel => if d <=? n then 0 else small_exponent fuel (10 * n) d - 1
  end.
Definition exponent (n d : Z) : Z :=
  if d <=? n then Z.of_nat (length (digits (n / d))) - 1 else small_exponent 400 n d.

Fixpoint strip_zeros (fuel : nat) (k : nat) (n : Z) : nat * Z :=
  match fuel, k with
  | S fuel, S k' => if n mod 10 =? 0 then strip_zeros fuel k' (n / 10) else (k, n)
  | _, _ => (k, n)
  end.

(** [%.pg]: [p] significant digits, without trailing zeros. *)
Definition general_text (p : nat) (x : double) : list Z :=
  match x with
  | S754_nan => bytes "nan"
  | S754_infinity s => minus s ++ bytes "inf"
  | S754_zero s => minus s ++ [48]
  | S754_finite s m e =>
      let p := Nat.max 1 p in
      let n := numer m e in let d := denom e in
      let X := exponent n d in
      let shift := Z.of_nat p - 1 - X in
      let r := round_quot (n * 10 ^ Z.max 0 shift) (d * 10 ^ Z.max 0 (- shift)) in
      (* rounding up to the next power of ten *)
      let '(X, r) := if r =? 10 ^ Z.of_nat p then (X + 1, 10 ^ (Z.of_nat p - 1)) else (X, r) in
      if (-4 <=? X) && (X <? Z.of_nat p) then
        let '(k, r) := strip_zeros p (Z.to_nat (Z.of_nat p - 1 - X)) r in minus s ++ point k r
      else
        let '(k, r) := strip_zeros p (p - 1) r in
        minus s ++ point k r ++ [101; if X <? 0 then 45 else 43] ++
          (if Z.abs X <? 10 then [48] else []) ++ digits (Z.abs X)
  end.

(** ** Streams *)

Record ostream := mkOstream {
  text : list Z; width : Z; precision : nat; fixedfield : bool; leftfield : bool }.
#[global] Instance eta_ostream : Settable ostream := fun r =>
  mkOstream (text r) (width r) (precision r) (fixedfield r) (leftfield r).

(** [std::cout] and [std::cerr] at program start. *)
Definition ostream_init : ostream := mkOstream [] 0 6 false false.

(** A formatted insertion pads to the width and resets it. *)
Definition write (s : list Z) (os : ostream) : ostream :=
  let pad := replicate (Z.to_nat (width os) - length s) 32 in
  os <| text ::= λ t, t ++ (if leftfield os then s ++ pad else pad ++ s) |> <| width := 0 |>.

Definition number (x : double) (os : ostream) : list Z :=
  if fixedfield os then fixed_text (precision os) x else general_text (precision os) x.

(** A [char], as opposed to the number it is. *)
Inductive character := Char (c : Z).

Inductive manipulator := Setw (n : Z) | Setprecision (n : nat) | Fixed | Left | Right | Endl.

Definition manipulate (m : manipulator) (os : ostream) : ostream :=
  match m with
  | Setw n => os <| width := n |>
  | Setprecision n => os <| precision := n |>
  | Fixed => os <| fixedfield := true |>
  | Left => os <| leftfield := true |>
  | Right => os <| leftfield := false |>
  | Endl => os <| text ::= λ t, t ++ [10] |>
  end.

(** [operator<<], by the type of the right operand. *)
Class Insert (A : Type) := insert : A → ostream → ostream.
#[global] Hint Mode Insert ! : typeclass_instances.
#[global] Instance insert_literal : Insert String.string := λ s, write (bytes s).
#[global] Instance insert_string : Insert (list Z) := write.
#[global] Instance insert_char : Insert character := λ '(Char c), write [c].
#[global] Instance insert_integer : Insert Z := λ n, write (signed_digits n).
#[global] Instance insert_size : Insert nat := λ n, write (digits (Z.of_nat n)).
#[global] Instance insert_double : Insert double := λ x os, write (number x os) os.
#[global] Instance insert_manipulator : Insert manipulator := manipulate.

Delimit Scope string_scope with string.
Declare Scope console_scope.
Delimit Scope console_scope with console.
Notation "os << x" := (insert x%_string os) (at level 48, left associativity) : console_scope.

(** Insertions into a stream with no pending width append. *)
Section plain.
Context (t : list Z) (p : nat) (f l : bool).
Abbreviation os := (mkOstream t 0 p f l).
Abbreviation shows s := (mkOstream (t ++ s) 0 p f l).
#[local] Open Scope console_scope.

Lemma write_plain s : write s os = shows s.
Proof using Type. unfold write. cbn. destruct l; by rewrite ?app_nil_r. Qed.
Lemma put_literal (s : String.string) : os << s = shows (bytes s).
Proof using Type. apply write_plain. Qed.
Lemma put_string (s : list Z) : os << s = shows s.
Proof using Type. apply write_plain. Qed.
Lemma put_char c : os << Char c = shows [c].
Proof using Type. apply write_plain. Qed.
Lemma put_integer (n : Z) : os << n = shows (signed_digits n).
Proof using Type. apply write_plain. Qed.
Lemma put_size (n : nat) : os << n = shows (digits (Z.of_nat n)).
Proof using Type. apply write_plain. Qed.
Lemma put_double (x : double) : os << x = shows (if f then fixed_text p x else general_text p x).
Proof using Type. apply write_plain. Qed.
Lemma put_endl : os << Endl = shows [10].
Proof using Type. done. Qed.
Lemma put_width w : os << Setw w = mkOstream t w p f l.
Proof using Type. done. Qed.
Lemma put_fixed w : mkOstream t w p f l << Fixed = mkOstream t w p true l.
Proof using Type. done. Qed.
Lemma put_precision w n : mkOstream t w p f l << Setprecision n = mkOstream t w n f l.
Proof using Type. done. Qed.
End plain.

(** Insertions with a width, adjusted to the right. *)
Definition pad (w : Z) (s : list Z) : list Z := replicate (Z.to_nat w - length s) 32 ++ s.

Section padded.
Context (t : list Z) (w : Z) (p : nat) (f : bool).
Abbreviation os := (mkOstream t w p f false).
Abbreviation shows s := (mkOstream (t ++ pad w s) 0 p f false).
#[local] Open Scope console_scope.
Lemma pad_literal (s : String.string) : os << s = shows (bytes s).
Proof using Type. done. Qed.
Lemma pad_string (s : list Z) : os << s = shows s.
Proof using Type. done. Qed.
Lemma pad_integer (n : Z) : os << n = shows (signed_digits n).
Proof using Type. done. Qed.
Lemma pad_double (x : double) : os << x = shows (if f then fixed_text p x else general_text p x).
Proof using Type. done. Qed.
End padded.
Create HintDb console.
#[export] Hint Rewrite put_literal put_string put_char put_integer put_size put_double put_endl put_width put_fixed
  put_precision : console.

(** ** Rounding to a fixed number of decimals *)

Lemma round_quot_near n d : 0 < d → 2 * n - d ≤ 2 * d * round_quot n d ≤ 2 * n + d.
Proof.
  intros Hd. unfold round_quot. assert (Hdiv := Z.div_mod n d ltac:(lia)). assert (Hm := Z.mod_pos_bound n d Hd).
  destruct (Z.compare_spec (2 * (n mod d)) d); [destruct (Z.even _)|..]; nia.
Qed.

(** The units printed are half a unit from the value at most. *)
Lemma fixed_units x k :
  pnormal x →
  ∃ r, fixed_text k x = point k r ∧
    2 * sval x * 10 ^ Z.of_nat k - 2 ^ 1100 ≤ 2 * r * 2 ^ 1100 ≤ 2 * sval x * 10 ^ Z.of_nat k + 2 ^ 1100.
Proof.
  destruct x as [|[]| |[] m e]; try done. intros [Hm He]. cbn [fixed_text minus app]. eexists. split; [reflexivity|].
  set (r := round_quot _ _). assert (Hd : 0 < denom e) by (apply Z.pow_pos_nonneg; lia).
  assert (H := round_quot_near (numer m e * 10 ^ Z.of_nat k) (denom e) Hd). fold r in H.
  assert (Hs : sval (S754_finite false m e) * denom e = numer m e * 2 ^ 1100).
  { cbn [sval]. unfold numer, denom. rewrite Z.mul_1_l, <- !Z.mul_assoc, <- !Z.pow_add_r by lia. do 2 f_equal. lia. }
  set (S := sval _) in *. set (D := denom e) in *. set (N := numer m e) in *. set (T := 10 ^ _) in *.
  assert (H1100 := pow2_pos 1100 ltac:(lia)). set (P := 2 ^ 1100) in *. clearbody S D N T P r.
  assert (HS : 2 * N * T * P = 2 * S * T * D) by (transitivity (2 * T * (N * P)); [lia|rewrite <- Hs; lia]). clear Hs.
  assert (H1 : (2 * (N * T) - D) * P ≤ 2 * D * r * P) by (apply Z.mul_le_mono_nonneg_r; lia).
  assert (H2 : 2 * D * r * P ≤ (2 * (N * T) + D) * P) by (apply Z.mul_le_mono_nonneg_r; lia).
  split; apply (Z.mul_le_mono_pos_r _ _ D); lia.
Qed.

(** A quotient of two integers, as it prints. *)
Lemma quotient_units n d k :
  0 < n < 2 ^ 53 → 0 < d < 2 ^ 53 → n * 10 ^ Z.of_nat k ≤ 2 ^ 36 * d →
  ∃ r, fixed_text k (d_div (d_of_Z n) (d_of_Z d)) = point k r ∧
    2 ^ 12 * Z.abs (2 * r * d - 2 * n * 10 ^ Z.of_nat k) ≤ (2 ^ 12 + 1) * d.
Proof.
  intros Hn Hd Hbig. assert (HR := d_div_rounds _ _ (d_of_Z_in_range n ltac:(lia)) (d_of_Z_in_range d ltac:(lia))).
  destruct (fixed_units _ k (proj1 HR)) as (r & -> & Hr). exists r. split; [done|].
  rewrite !d_of_Z_sval_exact in HR by done. set (R := d_div _ _) in *.
  assert (H1100 := pow2_pos 1100 ltac:(lia)).
  assert (Hlow : 2 ^ 1000 ≤ sval R).
  { transitivity (2 ^ 1047); [apply Z.pow_le_mono_r; lia|]. destruct HR as (_ & _ & Hge).
    specialize (Hge (S754_finite false (Z.to_pos (2 ^ 52)) (-105))). cbn [sval pnormal] in Hge. rewrite Z2Pos.id in Hge by lia.
    replace (1 * (2 ^ 52 * 2 ^ (-105 + 1100))) with (2 ^ 1047) in Hge by (rewrite Z.mul_1_l, <- Z.pow_add_r by lia; f_equal; lia).
    apply Hge; [lia|]. assert (H2 : 2 ^ 1100 = 2 ^ 53 * 2 ^ 1047) by (rewrite <- Z.pow_add_r by lia; f_equal; lia).
    assert (0 < 2 ^ 1047) by (apply pow2_pos; lia). rewrite Z.mul_assoc. apply Z.mul_le_mono_nonneg_r; [lia|].
    rewrite H2. nia. }
  assert (He := rounds_error R _ _ (Z.mul_pos_pos d _ (proj1 Hd) H1100) Hlow HR). clear HR Hlow.
  set (P := 2 ^ 1100) in *. set (T := 10 ^ _) in *. set (S := sval R) in *.
  assert (HT : 0 < T) by (apply Z.pow_pos_nonneg; lia). clearbody P T S. clear R Hn.
  assert (H1 : S * d * (2 ^ 52 - 1) ≤ n * P * 2 ^ 52 ≤ S * d * (2 ^ 52 + 1)).
  { destruct He as [H1 H2]. split; apply (Z.mul_le_mono_pos_r _ _ P); lia. }
  clear He. assert (H2 : S * d * T * (2 ^ 52 - 1) ≤ n * T * P * 2 ^ 52 ≤ S * d * T * (2 ^ 52 + 1)) by nia.
  assert (H3 : n * T * P ≤ 2 ^ 36 * d * P) by nia.
  assert (H4 : 2 * (S * d * T) - d * P ≤ 2 * r * d * P ≤ 2 * (S * d * T) + d * P) by nia.
  clear H1 Hbig Hr. set (A := S * d * T) in *. set (B := n * T * P) in *. set (C := d * P) in *.
  replace (2 ^ 36 * d * P) with (2 ^ 36 * C) in H3 by (unfold C; lia).
  apply (Z.mul_le_mono_pos_r _ _ P H1100).
  replace (2 ^ 12 * Z.abs (2 * r * d - 2 * n * T) * P) with (2 ^ 12 * Z.abs ((2 * r * d - 2 * n * T) * P))
    by (rewrite Z.abs_mul, (Z.abs_eq P) by lia; lia).
  replace ((2 * r * d - 2 * n * T) * P) with (2 * r * d * P - 2 * B) by (unfold B; lia).
  replace ((2 ^ 12 + 1) * d * P) with ((2 ^ 12 + 1) * C) by (unfold C; lia).
  set (rd := 2 * r * d * P) in *. clearbody A B C rd. lia.
Qed.

(** ** Prices *)

Lemma decimal_onto_fuel f g n acc :
  0 ≤ n < 10 ^ Z.of_nat f → n < 10 ^ Z.of_nat g → f ≠ 0%nat → g ≠ 0%nat →
  decimal_onto f n acc = decimal_onto g n acc.
Proof.
  revert g n acc. induction f as [|f IH]; intros [|g] n acc Hn Hg ? ?; try done.
  cbn [decimal_onto]. destruct (Z.ltb_spec n 10); [done|].
  rewrite Nat2Z.inj_succ, Z.pow_succ_r in Hn, Hg by lia.
  assert (0 < n / 10) by (apply Z.div_str_pos; lia).
  apply IH; [split; [lia|]|..]; try (apply Z.div_lt_upper_bound; lia); intros ->; cbn in *; lia.
Qed.

Lemma digits_decimal n : 0 ≤ n < 10 ^ 20 → digits n = decimal n.
Proof.
  intros Hn. assert (H0 := Z.log2_nonneg n). apply decimal_onto_fuel; try done; [|by rewrite Z2Nat.inj_0 || lia].
  split; [lia|]. rewrite Nat2Z.inj_succ, Z2Nat.id by done. destruct (Z.eq_dec n 0) as [->|]; [done|].
  destruct (Z.log2_spec n ltac:(lia)) as [_ Hlt].
  eapply Z.lt_le_trans; [exact Hlt|]. apply Z.pow_le_mono_l. lia.
Qed.

Lemma point_price c : 0 ≤ c < 10 ^ 20 → point 2 c = price_text c.
Proof.
  intros Hc. unfold point, price_text. cbn [Z.of_nat]. change (10 ^ Z.of_nat 2) with 100.
  rewrite digits_decimal; [done|]. split; [apply Z.div_pos; lia|apply Z.div_lt_upper_bound; lia].
Qed.

Lemma d_div_zero_hundred : d_div (d_of_Z 0) (d_of_Z 100) = dzero.
Proof. vm_compute. reflexivity. Qed.

(** A price in cents, divided by 100.0 and printed with two decimals, is the
    price. *)
Lemma cents_print c : 0 ≤ c < 2 ^ 31 → fixed_text 2 (d_div (d_of_Z c) (d_of_Z 100)) = price_text c.
Proof.
  intros Hc. destruct (Z.eq_dec c 0) as [->|].
  { rewrite d_div_zero_hundred. vm_compute. reflexivity. }
  destruct (quotient_units c 100 2) as (r & -> & Hr); [lia..|].
  change (10 ^ Z.of_nat 2) with 100 in Hr. assert (r = c) as -> by lia. apply point_price. lia.
Qed.

Lemma unsigned_digits n : 0 ≤ n → signed_digits n = digits n.
Proof. intros Hn. unfold signed_digits. by rewrite (proj2 (Z.ltb_ge n 0)). Qed.

(** ** Averages *)

(** Dividing a double by 100.0 and printing it with two decimals gives the
    nearest cent, up to 2^-12. *)
Lemma hundredth_units x :
  in_range x → sval x ≤ 2 ^ 32 * 2 ^ 1100 →
  ∃ r, fixed_text 2 (d_div x (d_of_Z 100)) = point 2 r ∧
    2 ^ 12 * Z.abs (2 * r * 2 ^ 1100 - 2 * sval x) ≤ (2 ^ 12 + 1) * 2 ^ 1100.
Proof.
  intros Hx Hbig. assert (HR := d_div_rounds _ _ Hx (d_of_Z_in_range 100 ltac:(lia))).
  destruct (fixed_units _ 2 (proj1 HR)) as (r & -> & Hr). exists r. split; [done|].
  rewrite (d_of_Z_sval_exact 100) in HR by lia. set (R := d_div _ _) in *.
  assert (H1100 := pow2_pos 1100 ltac:(lia)). destruct Hx as (_ & Hlow & _).
  assert (Hlow' : 2 ^ 1000 ≤ sval R).
  { transitivity (2 ^ 1047); [apply Z.pow_le_mono_r; lia|]. destruct HR as (_ & _ & Hge).
    specialize (Hge (S754_finite false (Z.to_pos (2 ^ 52)) (-105))). cbn [sval pnormal] in Hge. rewrite Z2Pos.id in Hge by lia.
    replace (1 * (2 ^ 52 * 2 ^ (-105 + 1100))) with (2 ^ 1047) in Hge by (rewrite Z.mul_1_l, <- Z.pow_add_r by lia; f_equal; lia).
    apply Hge; [lia|]. rewrite Z.mul_assoc. apply Z.mul_le_mono_nonneg_r; [lia|].
    assert (H2 : 2 ^ 1100 = 2 ^ 53 * 2 ^ 1047) by (rewrite <- Z.pow_add_r by lia; f_equal; lia).
    assert (0 < 2 ^ 1047) by (apply pow2_pos; lia). lia. }
  assert (He := rounds_error R _ _ (Z.mul_pos_pos 100 _ eq_refl H1100) Hlow' HR). clear HR Hlow' Hlow.
  change (10 ^ Z.of_nat 2) with 100 in Hr. set (P := 2 ^ 1100) in *. set (S := sval R) in *. set (X := sval x) in *.
  clearbody P S X. clear R.
  assert (H1 : S * 100 * (2 ^ 52 - 1) ≤ X * 2 ^ 52 ≤ S * 100 * (2 ^ 52 + 1)).
  { destruct He as [H1 H2]. split; apply (Z.mul_le_mono_pos_r _ _ P); lia. }
  clear He. apply (Z.mul_le_mono_pos_r _ _ 1); lia.
Qed.

(** The average of some trades, as it prints: within half a cent of the exact
    quotient, up to 2^-11. *)
Lemma average_units pv v :
  0 < v ≤ pv → pv ≤ 2 ^ 51 → pv ≤ 2 ^ 31 * v →
  ∃ r, fixed_text 2 (d_div (d_div (d_of_Z pv) (d_of_Z v)) (d_of_Z 100)) = point 2 r ∧
    2 ^ 11 * Z.abs (2 * r * v - 2 * pv) ≤ (2 ^ 11 + 1) * v.
Proof.
  intros Hv Hpv Hbig. assert (HR := d_div_rounds _ _ (d_of_Z_in_range pv ltac:(lia)) (d_of_Z_in_range v ltac:(lia))).
  rewrite !d_of_Z_sval_exact in HR by lia. set (R := d_div (d_of_Z pv) (d_of_Z v)) in *.
  assert (H1100 := pow2_pos 1100 ltac:(lia)).
  assert (Hlow : 2 ^ 1100 ≤ sval R).
  { destruct HR as (_ & _ & Hge). specialize (Hge (S754_finite false (Z.to_pos (2 ^ 52)) (-52))). cbn [sval pnormal] in Hge.
    rewrite Z2Pos.id in Hge by lia.
    replace (1 * (2 ^ 52 * 2 ^ (-52 + 1100))) with (2 ^ 1100) in Hge by (rewrite Z.mul_1_l, <- Z.pow_add_r by lia; f_equal; lia).
    apply Hge; [lia|]. nia. }
  assert (He := rounds_error R _ _ (Z.mul_pos_pos v _ (proj1 Hv) H1100)
    (Z.le_trans _ _ _ (Z.pow_le_mono_r 2 1000 1100 ltac:(lia) ltac:(lia)) Hlow) HR).
  assert (H1 : sval R * v * (2 ^ 52 - 1) ≤ pv * 2 ^ 1100 * 2 ^ 52 ≤ sval R * v * (2 ^ 52 + 1)).
  { set (P := 2 ^ 1100) in *. clearbody P. destruct He as [H1 H2]. split; apply (Z.mul_le_mono_pos_r _ _ P); lia. }
  clear He. set (S := sval R) in *. set (P := 2 ^ 1100) in *.
  assert (Hhigh : S ≤ 2 ^ 32 * P).
  { clearbody P S. apply (Z.mul_le_mono_pos_r _ _ v); [lia|].
    assert (pv * P ≤ 2 ^ 31 * v * P) by (apply Z.mul_le_mono_nonneg_r; lia).
    set (Sv := S * v) in *. set (vP := v * P). assert (0 ≤ vP) by (unfold vP; nia). replace (2 ^ 32 * P * v) with (2 ^ 32 * vP) by (unfold vP; lia).
    replace (2 ^ 31 * v * P) with (2 ^ 31 * vP) in * by (unfold vP; lia). set (A := pv * P) in *. clearbody A Sv vP. lia. }
  destruct (hundredth_units R) as (r & -> & Hr); [|exact Hhigh|].
  { split; [apply HR|]. split; [exact Hlow|]. fold S P. lia. }
  exists r. split; [done|]. fold S P in Hr. clearbody P S. clear HR Hlow R Hbig Hpv.
  assert (Hr' : 2 ^ 12 * Z.abs (2 * (r * v * P) - 2 * (S * v)) ≤ (2 ^ 12 + 1) * (v * P)).
  { replace (2 * (r * v * P) - 2 * (S * v)) with ((2 * r * P - 2 * S) * v) by lia. rewrite Z.abs_mul, (Z.abs_eq v) by lia. nia. }
  assert (Hh : S * v ≤ 2 ^ 32 * (v * P)) by nia.
  apply (Z.mul_le_mono_pos_r _ _ P H1100).
  replace (2 ^ 11 * Z.abs (2 * r * v - 2 * pv) * P) with (2 ^ 11 * Z.abs (2 * (r * v * P) - 2 * (pv * P))).
  2: { replace (2 * (r * v * P) - 2 * (pv * P)) with ((2 * r * v - 2 * pv) * P) by lia. rewrite Z.abs_mul, (Z.abs_eq P) by lia. lia. }
  replace ((2 ^ 11 + 1) * v * P) with ((2 ^ 11 + 1) * (v * P)) by lia.
  assert (0 ≤ v * P) by nia.
  set (rvP := r * v * P) in *. set (Sv := S * v) in *. set (vP := v * P) in *. set (A := pv * P) in *. clearbody rvP Sv vP A.
  clear - Hr' Hh H1 H. lia.
Qed.
