(* ===== verification/Metrics.v ===== *)
(** * Global metrics ([include/metrics.h], [src/metrics_globals.cpp])

    The counters every component updates.  An atomic counter is the [Z] it
    holds; [fetch_add] wraps at 64 bits.  [MetricsView.updateLatency] keeps a
    running minimum and maximum with compare-and-swap loops; the last section
    models those loops as a step relation and shows that no interleaving
    loses an update. *)
From S2P Require Import Prelude Binary64.

Definition fetch_add (n x : Z) : Z := u64 (x + n).

Module HotMetrics.
Record t := mk {
  messagesSent : Z; messagesReceived : Z; bytesReceived : Z; bytesSent : Z;
  ordersPlaced : Z; tradesProcessed : Z; quotesProcessed : Z }.
#[global] Instance eta_t : Settable t := fun r =>
  mk (messagesSent r) (messagesReceived r) (bytesReceived r) (bytesSent r)
     (ordersPlaced r) (tradesProcessed r) (quotesProcessed r).

Definition init : t := mk 0 0 0 0 0 0 0.
Definition reset (m : t) : t :=
  m <| messagesSent := 0 |> <| messagesReceived := 0 |> <| bytesReceived := 0 |>
    <| bytesSent := 0 |> <| ordersPlaced := 0 |> <| tradesProcessed := 0 |>
    <| quotesProcessed := 0 |>.
End HotMetrics.

Module ColdMetrics.
Record t := mk {
  connectionsAccepted : Z; connectionsClosed : Z; connectionErrors : Z;
  queueHighWater : Z; messagesDropped : Z; completedSends : Z; partialSends : Z }.
#[global] Instance eta_t : Settable t := fun r =>
  mk (connectionsAccepted r) (connectionsClosed r) (connectionErrors r)
     (queueHighWater r) (messagesDropped r) (completedSends r) (partialSends r).

Definition init : t := mk 0 0 0 0 0 0 0.
Definition reset (m : t) : t :=
  m <| connectionsAccepted := 0 |> <| connectionsClosed := 0 |> <| connectionErrors := 0 |>
    <| queueHighWater := 0 |> <| messagesDropped := 0 |> <| completedSends := 0 |>
    <| partialSends := 0 |>.
End ColdMetrics.

Module PerformanceMetrics.
Record t := mk {
  minLatency : Z; maxLatency : Z; totalLatency : Z; latencyCount : Z;
  lastResetTime : Z; peakMessagesPerSecond : Z; resyncEvents : Z; failedSends : Z }.
#[global] Instance eta_t : Settable t := fun r =>
  mk (minLatency r) (maxLatency r) (totalLatency r) (latencyCount r)
     (lastResetTime r) (peakMessagesPerSecond r) (resyncEvents r) (failedSends r).

Definition init : t := mk UINT64_MAX 0 0 0 0 0 0 0.
Definition reset (m : t) : t :=
  m <| minLatency := UINT64_MAX |> <| maxLatency := 0 |> <| totalLatency := 0 |>
    <| latencyCount := 0 |> <| lastResetTime := 0 |> <| peakMessagesPerSecond := 0 |>
    <| resyncEvents := 0 |> <| failedSends := 0 |>.

Definition getAverageLatency (m : t) : double :=
  let count := latencyCount m in
  if count =? 0 then dzero else d_div (d_of_Z (totalLatency m)) (d_of_Z count).
End PerformanceMetrics.

Record SystemMetrics := mkSystemMetrics {
  hot : HotMetrics.t; cold : ColdMetrics.t; perf : PerformanceMetrics.t }.
#[global] Instance eta_SystemMetrics : Settable SystemMetrics := fun r =>
  mkSystemMetrics (hot r) (cold r) (perf r).

(** [g_systemMetrics] at program start. *)
Definition SystemMetrics_init : SystemMetrics :=
  mkSystemMetrics HotMetrics.init ColdMetrics.init PerformanceMetrics.init.

Definition SystemMetrics_reset (m : SystemMetrics) : SystemMetrics :=
  m <| hot ::= HotMetrics.reset |> <| cold ::= ColdMetrics.reset |>
    <| perf ::= PerformanceMetrics.reset |>.

(** ** Relaxed increments of the global counters *)

Definition incMessagesReceived (m : SystemMetrics) : SystemMetrics :=
  m <| hot ::= λ h, h <| HotMetrics.messagesReceived ::= fetch_add 1 |> |>.
Definition incMessagesSent (m : SystemMetrics) : SystemMetrics :=
  m <| hot ::= λ h, h <| HotMetrics.messagesSent ::= fetch_add 1 |> |>.
Definition addBytesReceived (n : Z) (m : SystemMetrics) : SystemMetrics :=
  m <| hot ::= λ h, h <| HotMetrics.bytesReceived ::= fetch_add n |> |>.
Definition addBytesSent (n : Z) (m : SystemMetrics) : SystemMetrics :=
  m <| hot ::= λ h, h <| HotMetrics.bytesSent ::= fetch_add n |> |>.
Definition incOrdersPlaced (m : SystemMetrics) : SystemMetrics :=
  m <| hot ::= λ h, h <| HotMetrics.ordersPlaced ::= fetch_add 1 |> |>.
Definition incTradesProcessed (m : SystemMetrics) : SystemMetrics :=
  m <| hot ::= λ h, h <| HotMetrics.tradesProcessed ::= fetch_add 1 |> |>.
Definition incQuotesProcessed (m : SystemMetrics) : SystemMetrics :=
  m <| hot ::= λ h, h <| HotMetrics.quotesProcessed ::= fetch_add 1 |> |>.
Definition incResyncEvents (m : SystemMetrics) : SystemMetrics :=
  m <| perf ::= λ p, p <| PerformanceMetrics.resyncEvents ::= fetch_add 1 |> |>.

(** The same for the bulk updates and the cold counters that the components
    touch directly through [g_systemMetrics]. *)
Definition addMessagesReceived (n : Z) (m : SystemMetrics) : SystemMetrics :=
  m <| hot ::= λ h, h <| HotMetrics.messagesReceived ::= fetch_add n |> |>.
Definition addTradesProcessed (n : Z) (m : SystemMetrics) : SystemMetrics :=
  m <| hot ::= λ h, h <| HotMetrics.tradesProcessed ::= fetch_add n |> |>.
Definition addQuotesProcessed (n : Z) (m : SystemMetrics) : SystemMetrics :=
  m <| hot ::= λ h, h <| HotMetrics.quotesProcessed ::= fetch_add n |> |>.
Definition incMessagesDropped (m : SystemMetrics) : SystemMetrics :=
  m <| cold ::= λ c, c <| ColdMetrics.messagesDropped ::= fetch_add 1 |> |>.
Definition incPartialSends (m : SystemMetrics) : SystemMetrics :=
  m <| cold ::= λ c, c <| ColdMetrics.partialSends ::= fetch_add 1 |> |>.
Definition incConnectionsAccepted (m : SystemMetrics) : SystemMetrics :=
  m <| cold ::= λ c, c <| ColdMetrics.connectionsAccepted ::= fetch_add 1 |> |>.
Definition incConnectionErrors (m : SystemMetrics) : SystemMetrics :=
  m <| cold ::= λ c, c <| ColdMetrics.connectionErrors ::= fetch_add 1 |> |>.

(** [MetricsView::updateLatency] without contention: each loop stores once
    when the sample improves the extremum, and not at all otherwise. *)
Definition updateLatency (nanos : Z) (m : SystemMetrics) : SystemMetrics :=
  let curMin := PerformanceMetrics.minLatency (perf m) in
  let m := if nanos <? curMin
           then m <| perf ::= λ p, p <| PerformanceMetrics.minLatency := nanos |> |> else m in
  let curMax := PerformanceMetrics.maxLatency (perf m) in
  let m := if nanos >? curMax
           then m <| perf ::= λ p, p <| PerformanceMetrics.maxLatency := nanos |> |> else m in
  let m := m <| perf ::= λ p, p <| PerformanceMetrics.totalLatency ::= fetch_add nanos |> |> in
  m <| perf ::= λ p, p <| PerformanceMetrics.latencyCount ::= fetch_add 1 |> |>.

(** ** Snapshots *)

Module MetricsSnapshot.
Record t := mk {
  messagesSent : Z; messagesReceived : Z; bytesReceived : Z; bytesSent : Z;
  ordersPlaced : Z; tradesProcessed : Z; quotesProcessed : Z;
  connectionsAccepted : Z; connectionsClosed : Z; connectionErrors : Z;
  queueHighWater : Z; messagesDropped : Z; completedSends : Z; partialSends : Z;
  failedSends : Z; minLatency : Z; maxLatency : Z; totalLatency : Z; latencyCount : Z;
  resyncEvents : Z; peakMessagesPerSecond : Z }.

Definition capture (m : SystemMetrics) : t := {|
  messagesSent := HotMetrics.messagesSent (hot m);
  messagesReceived := HotMetrics.messagesReceived (hot m);
  bytesReceived := HotMetrics.bytesReceived (hot m);
  bytesSent := HotMetrics.bytesSent (hot m);
  ordersPlaced := HotMetrics.ordersPlaced (hot m);
  tradesProcessed := HotMetrics.tradesProcessed (hot m);
  quotesProcessed := HotMetrics.quotesProcessed (hot m);
  connectionsAccepted := ColdMetrics.connectionsAccepted (cold m);
  connectionsClosed := ColdMetrics.connectionsClosed (cold m);
  connectionErrors := ColdMetrics.connectionErrors (cold m);
  queueHighWater := ColdMetrics.queueHighWater (cold m);
  messagesDropped := ColdMetrics.messagesDropped (cold m);
  completedSends := ColdMetrics.completedSends (cold m);
  partialSends := ColdMetrics.partialSends (cold m);
  failedSends := PerformanceMetrics.failedSends (perf m);
  minLatency := PerformanceMetrics.minLatency (perf m);
  maxLatency := PerformanceMetrics.maxLatency (perf m);
  totalLatency := PerformanceMetrics.totalLatency (perf m);
  latencyCount := PerformanceMetrics.latencyCount (perf m);
  resyncEvents := PerformanceMetrics.resyncEvents (perf m);
  peakMessagesPerSecond := PerformanceMetrics.peakMessagesPerSecond (perf m) |}.
End MetricsSnapshot.

(** ** Latency histogram *)

Module LatencyHistogram.
Definition BUCKETS : nat := 22.

Definition init : list Z := replicate BUCKETS 0.

(** The scan for the first power of two above the sample. *)
Fixpoint bucket_scan (v : Z) (b fuel : nat) : nat :=
  match fuel with
  | O => 21
  | S fuel => if v <? Z.shiftl 1 (Z.of_nat b) then b else bucket_scan v (S b) fuel
  end.

Definition bucket_index (nanos : Z) : nat := bucket_scan nanos 0 21.

Definition record (nanos : Z) (h : list Z) : list Z :=
  alter (fetch_add 1) (bucket_index nanos) h.

Definition reset (h : list Z) : list Z := replicate BUCKETS 0.
End LatencyHistogram.

(** ** What the sequential updates compute *)

Lemma bucket_scan_spec v b fuel :
  (b + fuel = 21)%nat → (∀ j, (j < b)%nat → 2 ^ Z.of_nat j ≤ v) →
  let i := LatencyHistogram.bucket_scan v b fuel in
  (i ≤ 21)%nat ∧ (∀ j, (j < i)%nat → 2 ^ Z.of_nat j ≤ v) ∧
  ((i < 21)%nat → v < 2 ^ Z.of_nat i).
Proof.
  revert b. induction fuel as [|fuel IH]; intros b Hb Hlow; cbn [LatencyHistogram.bucket_scan].
  { split; [lia|]. split; [|lia]. intros j Hj. apply Hlow. lia. }
  rewrite Z.shiftl_mul_pow2, Z.mul_1_l by lia.
  destruct (Z.ltb_spec v (2 ^ Z.of_nat b)); [by split; [lia|]|].
  apply IH; [lia|]. intros j Hj. destruct (decide (j = b)) as [->|]; [lia|]. apply Hlow. lia.
Qed.

Lemma bucket_index_lt nanos : (LatencyHistogram.bucket_index nanos < LatencyHistogram.BUCKETS)%nat.
Proof.
  unfold LatencyHistogram.bucket_index.
  destruct (bucket_scan_spec nanos 0 21) as [H _]; [done|intros; lia|].
  unfold LatencyHistogram.BUCKETS. lia.
Qed.

(** The latency counters after a sequence of samples. *)
Definition latency_of (m : SystemMetrics) : Z * Z * Z * Z :=
  let p := perf m in
  (PerformanceMetrics.minLatency p, PerformanceMetrics.maxLatency p,
   PerformanceMetrics.totalLatency p, PerformanceMetrics.latencyCount p).

Lemma updateLatency_eq n m :
  latency_of (updateLatency n m) =
    let '(lo, hi, tot, cnt) := latency_of m in
    (Z.min n lo, Z.max n hi, u64 (tot + n), u64 (cnt + 1)).
Proof.
  unfold updateLatency, latency_of, fetch_add. rewrite !Z.gtb_ltb.
  destruct m as [h c [lo hi tot cnt ? ? ? ?]]; cbn.
  destruct (Z.ltb_spec n lo); cbn; destruct (Z.ltb_spec hi n); cbn;
    first [ rewrite (Z.min_l n lo) by lia | rewrite (Z.min_r n lo) by lia ];
    first [ rewrite (Z.max_l n hi) by lia | rewrite (Z.max_r n hi) by lia ]; done.
Qed.

(** ** Contended compare-and-swap loops *)

Module CasLoop.
Section loop.
(** [better n cur] is the loop guard: [n < cur] for the minimum,
    [n > cur] for the maximum. *)
Context (better : Z → Z → bool).

Inductive thread : Type :=
| Start (nanos : Z)                 (** before the initial load *)
| Looping (nanos cur : Z)           (** about to test the guard and CAS *)
| Finished (nanos : Z).

(** One atomic action of one thread on the shared cell. *)
Inductive step : Z * list thread → Z * list thread → Prop :=
| step_load cell ts i n :
    ts !! i = Some (Start n) →
    step (cell, ts) (cell, <[i := Looping n cell]> ts)
| step_exit cell ts i n cur :
    ts !! i = Some (Looping n cur) → better n cur = false →
    step (cell, ts) (cell, <[i := Finished n]> ts)
| step_cas cell ts i n :
    ts !! i = Some (Looping n cell) → better n cell = true →
    step (cell, ts) (n, <[i := Finished n]> ts)
| step_cas_fail cell ts i n cur :   (** also the spurious failures of a weak CAS *)
    ts !! i = Some (Looping n cur) → better n cur = true →
    step (cell, ts) (cell, <[i := Looping n cell]> ts).

Definition sample (t : thread) : Z :=
  match t with Start n | Looping n _ | Finished n => n end.

(** No stored value is worse than what a thread has observed. *)
Definition thread_ok (cell : Z) (t : thread) : Prop :=
  match t with
  | Start _ => True
  | Looping _ cur => better cur cell = false
  | Finished n => better n cell = false
  end.

Definition inv (c0 : Z) (ns : list Z) (s : Z * list thread) : Prop :=
  sample <$> s.2 = ns ∧ Forall (thread_ok s.1) s.2 ∧
  better c0 s.1 = false ∧ (s.1 = c0 ∨ s.1 ∈ ns).

Hypothesis better_irrefl : ∀ a, better a a = false.
Hypothesis not_better_trans :
  ∀ a b c, better a b = false → better b c = false → better a c = false.
Hypothesis better_asym : ∀ a b, better a b = true → better b a = false.

Lemma thread_ok_mono cell cell' t :
  better cell cell' = false → thread_ok cell t → thread_ok cell' t.
Proof using not_better_trans. intros Hc. destruct t; simpl; eauto. Qed.

Lemma inv_update c0 ns cell ts i t t' cell' :
  inv c0 ns (cell, ts) → ts !! i = Some t → sample t' = sample t →
  better cell cell' = false → thread_ok cell' t' → (cell' = cell ∨ cell' = sample t) →
  inv c0 ns (cell', <[i := t']> ts).
Proof using not_better_trans.
  intros (Hns & Hok & Hc0 & Hin) Hi Hs Hc Hok' Hcell. cbn [fst snd] in *.
  repeat split; cbn [fst snd].
  - rewrite list_fmap_insert, Hs, Hns. apply list_insert_id.
    by rewrite <- Hns, list_lookup_fmap, Hi.
  - apply Forall_insert; [|done]. eapply Forall_impl; [exact Hok|].
    intros t0. by apply thread_ok_mono.
  - eauto.
  - destruct Hcell as [->| ->]; [done|right]. rewrite <- Hns.
    apply list_elem_of_fmap. exists t. split; [done|]. by eapply list_elem_of_lookup_2.
Qed.

Lemma step_inv c0 ns s s' : inv c0 ns s → step s s' → inv c0 ns s'.
Proof using better_irrefl better_asym not_better_trans.
  intros Hinv Hstep. destruct Hstep as [cell ts i n Hi|cell ts i n cur Hi Hb|
    cell ts i n Hi Hb|cell ts i n cur Hi Hb].
  - eapply inv_update; eauto. simpl. auto.
  - eapply inv_update; eauto. simpl.
    destruct Hinv as (_ & Hok & _). rewrite Forall_lookup in Hok.
    specialize (Hok _ _ Hi). simpl in Hok. eauto.
  - eapply inv_update; eauto. simpl. auto.
  - eapply inv_update; eauto. simpl. auto.
Qed.

Lemma inv_init c0 ns : inv c0 ns (c0, Start <$> ns).
Proof using better_irrefl.
  repeat split; cbn [fst snd]; auto.
  - rewrite <- list_fmap_compose. apply list_fmap_id.
  - apply Forall_fmap, Forall_true. done.
Qed.

Lemma cas_run_inv c0 ns s s' : inv c0 ns s → rtc step s s' → inv c0 ns s'.
Proof using better_irrefl better_asym not_better_trans.
  intros Hinv Hrun. induction Hrun; eauto using step_inv.
Qed.
End loop.
End CasLoop.

(** ** Correctness *)

(** The four latency counters after any sequence of samples recorded since
    start or reset: minimum, maximum, total and count, as long as the total
    fits in 64 bits. *)
Theorem updateLatency_run (ns : list Z) :
  Forall (λ n, 0 ≤ n) ns → Zsum ns < 2 ^ 64 → Z.of_nat (length ns) < 2 ^ 64 →
  latency_of (foldl (λ m n, updateLatency n m) SystemMetrics_init ns) =
    (foldr Z.min UINT64_MAX ns, foldr Z.max 0 ns, Zsum ns, Z.of_nat (length ns)).
Proof.
  induction ns as [|n ns IH] using rev_ind; [done|].
  intros Hns Hsum Hlen. apply Forall_app in Hns as [Hns Hn]. rewrite Forall_singleton in Hn.
  rewrite length_app in *. rewrite Zsum_app, Zsum_cons in *. cbn [length] in *.
  change (Zsum []) with 0 in *. assert (0 ≤ Zsum ns) by (by apply Zsum_nonneg).
  rewrite foldl_snoc, updateLatency_eq, IH by (done || lia).
  rewrite !u64_small by lia.
  assert (Hmin : ∀ l, foldr Z.min UINT64_MAX (l ++ [n]) = Z.min n (foldr Z.min UINT64_MAX l)).
  { induction l as [|x l IHl]; simpl; [done|]. rewrite IHl. lia. }
  assert (Hmax : ∀ l, foldr Z.max 0 (l ++ [n]) = Z.max n (foldr Z.max 0 l)).
  { induction l as [|x l IHl]; simpl; [done|]. rewrite IHl. lia. }
  rewrite Hmin, Hmax. repeat f_equal; lia.
Qed.

(** Recording a sample increments exactly the bucket whose bounds contain
    it: bucket [b] holds samples from [2 ^ (b - 1)] (0 for the first) to
    [2 ^ b - 1], and the last bucket everything from [2 ^ 20] on. *)
Theorem histogram_record (nanos : Z) (h : list Z) (j : nat) (c : Z) :
  h !! j = Some c →
  let i := LatencyHistogram.bucket_index nanos in
  (LatencyHistogram.record nanos h !! j = Some (if decide (j = i) then u64 (c + 1) else c)) ∧
  ((i < 21)%nat → nanos < 2 ^ Z.of_nat i) ∧ (∀ b, (b < i)%nat → 2 ^ Z.of_nat b ≤ nanos).
Proof.
  intros Hj i. unfold LatencyHistogram.record. fold i.
  assert (Hspec := bucket_scan_spec nanos 0 21 eq_refl ltac:(intros; lia)).
  fold (LatencyHistogram.bucket_index nanos) in Hspec. fold i in Hspec.
  destruct Hspec as (_ & Hlow & Hup). split; [|done].
  case_decide as Heq.
  - subst j. by rewrite list_lookup_alter_eq, Hj.
  - by rewrite list_lookup_alter_ne by congruence.
Qed.

(** C33: However the compare-and-swap loops of several threads interleave, and
    however often a weak compare-and-swap fails spuriously, once all threads
    are done the shared minimum is the least of the initial value and all
    samples (no update is lost). *)
Theorem updateLatency_min_contended (c0 : Z) (ns : list Z) (cell : Z) (ts : list CasLoop.thread) :
  rtc (CasLoop.step Z.ltb) (c0, CasLoop.Start <$> ns) (cell, ts) →
  Forall (λ t, ∃ n, t = CasLoop.Finished n) ts →
  cell = foldr Z.min c0 ns.
Proof.
  intros Hrun Hdone.
  assert (Hinv : CasLoop.inv Z.ltb c0 ns (cell, ts)).
  { eapply CasLoop.cas_run_inv; [..|apply CasLoop.inv_init|exact Hrun];
      intros; rewrite ?Z.ltb_lt, ?Z.ltb_ge in *; lia. }
  destruct Hinv as (Hns & Hok & Hc0 & Hin). cbn [fst snd] in *.
  apply Z.ltb_ge in Hc0.
  assert (Hall : Forall (λ n, cell ≤ n) ns).
  { rewrite <- Hns. apply Forall_fmap. rewrite Forall_forall in *. intros t Ht.
    destruct (Hdone t Ht) as [n ->]. specialize (Hok _ Ht). by apply Z.ltb_ge in Hok. }
  clear - Hall Hc0 Hin. induction Hall as [|n ns Hn Hall IH]; simpl.
  { destruct Hin as [?|Hin]; [done|]. by apply not_elem_of_nil in Hin. }
  rewrite elem_of_cons in Hin.
  destruct (decide (cell = c0 ∨ cell ∈ ns)) as [Hin'|Hnin].
  - rewrite <- IH by done. lia.
  - assert (cell = n) as -> by tauto. symmetry. apply Z.min_l.
    clear - Hall Hc0. induction Hall; simpl; lia.
Qed.

(** Two threads record 7 and 5: the first is interrupted between its load and
    its compare-and-swap, which then fails. *)
Lemma updateLatency_min_contended_witness : 5 = foldr Z.min 100 [7; 5].
Proof.
  apply (updateLatency_min_contended 100 [7; 5] 5 [CasLoop.Finished 7; CasLoop.Finished 5]).
  - eapply rtc_l; [exact (CasLoop.step_load Z.ltb 100 [CasLoop.Start 7; CasLoop.Start 5] 0 7 eq_refl)|].
    eapply rtc_l; [exact (CasLoop.step_load Z.ltb 100 [CasLoop.Looping 7 100; CasLoop.Start 5] 1 5 eq_refl)|].
    eapply rtc_l; [exact (CasLoop.step_cas Z.ltb 100 [CasLoop.Looping 7 100; CasLoop.Looping 5 100] 1 5 eq_refl eq_refl)|].
    eapply rtc_l; [exact (CasLoop.step_cas_fail Z.ltb 5 [CasLoop.Looping 7 100; CasLoop.Finished 5] 0 7 100 eq_refl eq_refl)|].
    eapply rtc_l; [exact (CasLoop.step_exit Z.ltb 5 [CasLoop.Looping 7 5; CasLoop.Finished 5] 0 7 5 eq_refl eq_refl)|].
    apply rtc_refl.
  - repeat constructor; eauto.
Defined.
