(* ===== verification/Optional.v ===== *)
(** * The optional value ([include/optional.h])

    [Optional<T>] keeps raw storage and a flag; objects are constructed in
    the storage by placement new and destroyed by an explicit destructor
    call.  The model tells a live object from raw storage, so that reading a
    dead one is undefined ([None]) and an object whose storage is reused or
    given up without a destructor call is recorded as lost.  The theorem
    shows that the other files may take it for Rocq's [option]. *)
From S2P Require Import Prelude.
From stdpp Require Import gmap.

(** [storage] holds a live object or raw bytes. *)
Record Optional (T : Type) := mkOptional { storage : option T; hasValue : bool }.
Arguments mkOptional {T} _ _.
Arguments storage {T} _.
Arguments hasValue {T} _.
#[global] Instance eta_Optional T : Settable (Optional T) := fun o => mkOptional (storage o) (hasValue o).

(** The variables of a program, by their address, and the lost objects. *)
Record Memory (T : Type) := mkMemory { vars : gmap nat (Optional T); lost : list T }.
Arguments mkMemory {T} _ _.
Arguments vars {T} _.
Arguments lost {T} _.
#[global] Instance eta_Memory T : Settable (Memory T) := fun s => mkMemory (vars s) (lost s).

(** What a program does with variables of this type. *)
Inductive command (T : Type) :=
  | Default (l : nat)            (** [Optional()] *)
  | Value (l : nat) (v : T)      (** [Optional(const T&)] *)
  | Copy (l other : nat)         (** [Optional(const Optional&)] *)
  | Move (l other : nat)         (** [Optional(Optional&&)] *)
  | Assign (l other : nat)       (** [operator=] *)
  | Destroy (l : nat).           (** [~Optional()] *)
Arguments Default {T} _.
Arguments Value {T} _ _.
Arguments Copy {T} _ _.
Arguments Move {T} _ _.
Arguments Assign {T} _ _.
Arguments Destroy {T} _.

Section ops.
Context {T : Type} (moved : T → T).   (** what [std::move] leaves behind *)
Implicit Types (o : Optional T) (s : Memory T).

(** [*ptr()] *)
Definition ptr o : option T := storage o.

Definition has_value o : bool := hasValue o.
Definition value o : option T := ptr o.

(** [if (hasValue) ptr()->~T();] *)
Definition destroy_value o : option (Optional T) :=
  if hasValue o then _ ← ptr o; Some (o <| storage := None |>) else Some o.

(** [new (storage) T(v)]: a live object in the storage is lost. *)
Definition place (v : T) o : Optional T * list T := (o <| storage := Some v |>, option_list (storage o)).

Definition fresh (l : nat) s : option () := match vars s !! l with None => Some () | Some _ => None end.

Definition construct (l : nat) o s : Memory T := s <| vars ::= <[l := o]> |>.

Definition step (c : command T) s : option (Memory T) :=
  match c with
  | Default l => _ ← fresh l s; Some (construct l (mkOptional None false) s)
  | Value l v => _ ← fresh l s; Some (construct l (place v (mkOptional None true)).1 s)
  | Copy l from =>
      _ ← fresh l s; other ← vars s !! from;
      let this := mkOptional None (hasValue other) in
      if hasValue this then v ← ptr other; Some (construct l (place v this).1 s) else Some (construct l this s)
  | Move l from =>
      _ ← fresh l s; other ← vars s !! from;
      let this := mkOptional None (hasValue other) in
      if hasValue this then
        v ← ptr other;
        Some (construct l (place v this).1 (construct from (mkOptional (Some (moved v)) false) s))
      else Some (construct l this s)
  | Assign l from =>
      this ← vars s !! l; other ← vars s !! from;
      if (l =? from)%nat then Some s else
      this ← destroy_value this;
      let this := this <| hasValue := hasValue other |> in
      if hasValue this then
        v ← ptr other;
        let '(this, gone) := place v this in
        Some (construct l this s <| lost ::= λ g, g ++ gone |>)
      else Some (construct l this s)
  | Destroy l =>
      this ← vars s !! l; this ← destroy_value this;
      Some (s <| vars ::= delete l |> <| lost ::= λ g, g ++ option_list (storage this) |>)
  end.

Fixpoint run (cs : list (command T)) s : option (Memory T) :=
  match cs with [] => Some s | c :: cs => s ← step c s; run cs s end.
End ops.

(** ** The specification: a variable is an [option] *)

Section spec.
Context {T : Type}.
Implicit Types (m : gmap nat (option T)).

Definition unused (l : nat) m : option () := match m !! l with None => Some () | Some _ => None end.

Definition spec_step (c : command T) m : option (gmap nat (option T)) :=
  match c with
  | Default l => _ ← unused l m; Some (<[l := None]> m)
  | Value l v => _ ← unused l m; Some (<[l := Some v]> m)
  | Copy l from => _ ← unused l m; v ← m !! from; Some (<[l := v]> m)
  | Move l from => _ ← unused l m; v ← m !! from; Some (<[l := v]> (<[from := None]> m))
  | Assign l from => _ ← m !! l; v ← m !! from; Some (<[l := v]> m)
  | Destroy l => _ ← m !! l; Some (delete l m)
  end.

Fixpoint spec_run (cs : list (command T)) m : option (gmap nat (option T)) :=
  match cs with [] => Some m | c :: cs => m ← spec_step c m; spec_run cs m end.
End spec.

(** ** The refinement *)

Section proofs.
Context {T : Type} (moved : T → T).
Implicit Types (o : Optional T) (s : Memory T) (c : command T).

(** What a client sees of a variable. *)
Definition content o : option T := if has_value o then value o else None.
Definition contents (s : Memory T) : gmap nat (option T) := content <$> vars s.

(** A set flag means a live object; without moves, the flag says exactly
    whether there is one, and nothing is lost. *)
Definition sound o : Prop := hasValue o = true → is_Some (storage o).
Definition tidy o : Prop := hasValue o = bool_decide (is_Some (storage o)).
Definition all_sound s : Prop := map_Forall (λ _, sound) (vars s).
Definition all_tidy s : Prop := map_Forall (λ _, tidy) (vars s) ∧ lost s = [].

Definition is_move c : bool := match c with Move _ _ => true | _ => false end.

Lemma destroy_sound o :
  sound o → destroy_value o = Some (if hasValue o then mkOptional None true else o).
Proof.
  unfold sound, destroy_value, ptr. destruct o as [[v|] []]; cbn; intros H; try done.
  by destruct (H eq_refl).
Qed.

#[local] Arguments contents : simpl never.
#[local] Arguments construct : simpl never.

Lemma content_at s l : contents s !! l = content <$> vars s !! l.
Proof. apply lookup_fmap. Qed.

Lemma fresh_unused l s : fresh l s = unused l (contents s).
Proof. unfold fresh, unused. rewrite content_at. by destruct (vars s !! l). Qed.

Lemma contents_construct l o s : contents (construct l o s) = <[l := content o]> (contents s).
Proof. unfold contents, construct. cbn. apply fmap_insert. Qed.

(** What holds after writing [o] to [l]. *)
Lemma construct_ok (P : Prop) l o s :
  sound o → (P → all_tidy s → tidy o) → all_sound s →
  all_sound (construct l o s) ∧ (P → all_tidy s → all_tidy (construct l o s)).
Proof.
  intros Ho Ht Hs. split; [by apply map_Forall_insert_2|]. intros HP Hv.
  split; [apply map_Forall_insert_2; [by apply Ht|apply Hv]|apply Hv].
Qed.

Lemma sound_none : sound (mkOptional None false).
Proof. intros [=]. Qed.
Lemma sound_some v b : sound (mkOptional (Some v) b).
Proof. intros _. by exists v. Qed.
Lemma tidy_none : tidy (mkOptional None false).
Proof. done. Qed.
Lemma tidy_some v : tidy (mkOptional (Some v) true).
Proof. done. Qed.
#[local] Hint Resolve sound_none sound_some tidy_none tidy_some : core.

Lemma lookup_sound s l o : all_sound s → vars s !! l = Some o → sound o.
Proof. intros Hs Hl. by eapply map_Forall_lookup_1 in Hs. Qed.

Definition refines_step c s (r : option (Memory T)) : Prop :=
  match r with
  | Some s' => spec_step c (contents s) = Some (contents s') ∧ all_sound s' ∧
               (is_move c = false → all_tidy s → all_tidy s')
  | None => spec_step c (contents s) = None
  end.

(** A case that ends with writing one variable. *)
Ltac written := rewrite ?contents_construct; split; [done|]; apply construct_ok; auto.

Lemma copy_refines l from s : all_sound s → refines_step (Copy l from) s (step moved (Copy l from) s).
Proof.
  intros Hs. unfold refines_step. cbn [step spec_step is_move]. rewrite <- fresh_unused, content_at.
  destruct (fresh l s); cbn [mbind option_bind]; [|done].
  destruct (vars s !! from) as [o|] eqn:Ho; cbn [mbind option_bind fmap option_fmap option_map]; [|done].
  assert (H := lookup_sound s from o Hs Ho). destruct o as [[v|] []]; cbn; try written.
  by destruct (H eq_refl).
Qed.

Lemma move_refines l from s : all_sound s → refines_step (Move l from) s (step moved (Move l from) s).
Proof.
  intros Hs. unfold refines_step. cbn [step spec_step is_move]. rewrite <- fresh_unused, content_at.
  destruct (fresh l s); cbn [mbind option_bind]; [|done].
  destruct (vars s !! from) as [o|] eqn:Ho; cbn [mbind option_bind fmap option_fmap option_map]; [|done].
  assert (H := lookup_sound s from o Hs Ho).
  assert (Hid : content o = None → <[from := None]> (contents s) = contents s).
  { intros Hc. apply insert_id. by rewrite content_at, Ho, <- Hc. }
  destruct o as [[v|] []]; cbn; rewrite ?contents_construct.
  - split; [done|]. split; [|done]. by repeat apply map_Forall_insert_2.
  - rewrite Hid by done. written.
  - by destruct (H eq_refl).
  - rewrite Hid by done. written.
Qed.

Lemma assign_refines l from s : all_sound s → refines_step (Assign l from) s (step moved (Assign l from) s).
Proof.
  intros Hs. unfold refines_step. cbn [step spec_step is_move]. rewrite !content_at.
  destruct (vars s !! l) as [this|] eqn:Hl; cbn [mbind option_bind fmap option_fmap option_map]; [|done].
  destruct (vars s !! from) as [o|] eqn:Ho; cbn [mbind option_bind fmap option_fmap option_map]; [|done].
  destruct (Nat.eqb_spec l from) as [<-|_].
  { rewrite insert_id; [by auto|]. rewrite content_at, Hl. by simplify_eq. }
  rewrite destroy_sound by (by eapply lookup_sound). cbn [mbind option_bind].
  assert (H := lookup_sound s from o Hs Ho). assert (Htidy : all_tidy s → tidy this).
  { intros [Ht _]. by eapply map_Forall_lookup_1 in Ht. }
  set (this' := if hasValue this then mkOptional None true else this).
  assert (Hgone : all_tidy s → storage this' = None).
  { intros Ht. specialize (Htidy Ht). unfold this', tidy in *. destruct this as [[v|] []]; done. }
  clearbody this'. destruct o as [[v|] []]; cbn; try by destruct (H eq_refl).
  - destruct (construct_ok True l (mkOptional (Some v) true) s) as [Hs' Ht']; [auto..|].
    split; [exact (f_equal Some (eq_sym (contents_construct l (mkOptional (Some v) true) s)))|].
    split; [exact Hs'|]. intros _ Ht. destruct (Ht' I Ht) as [Hv Hlost].
    split; [exact Hv|]. cbn. by rewrite Hgone, app_nil_r.
  - rewrite contents_construct. split; [done|]. apply construct_ok; [intros [=]| |done].
    intros _ Ht. unfold tidy. cbn. by rewrite Hgone.
  - rewrite contents_construct. split; [done|]. apply construct_ok; [intros [=]| |done].
    intros _ Ht. unfold tidy. cbn. by rewrite Hgone.
Qed.

Lemma destroy_refines l s : all_sound s → refines_step (Destroy l) s (step moved (Destroy l) s).
Proof.
  intros Hs. unfold refines_step. cbn [step spec_step is_move]. rewrite content_at.
  destruct (vars s !! l) as [this|] eqn:Hl; cbn [mbind option_bind fmap option_fmap option_map]; [|done].
  rewrite destroy_sound by (by eapply lookup_sound). cbn [mbind option_bind].
  split; [f_equal; symmetry; apply fmap_delete|]. split; [by apply map_Forall_delete|].
  intros _ [Ht Hlost]. split; [by apply map_Forall_delete|]. cbn. rewrite Hlost.
  eapply map_Forall_lookup_1 in Ht; [|exact Hl]. by destruct this as [[v|] []].
Qed.

Lemma step_refines c s : all_sound s → refines_step c s (step moved c s).
Proof.
  intros Hs. destruct c as [l|l v|l from|l from|l from|l].
  - unfold refines_step. cbn [step spec_step]. rewrite <- fresh_unused. destruct (fresh l s); cbn; [written|done].
  - unfold refines_step. cbn [step spec_step]. rewrite <- fresh_unused. destruct (fresh l s); cbn; [written|done].
  - by apply copy_refines.
  - by apply move_refines.
  - by apply assign_refines.
  - by apply destroy_refines.
Qed.


(** A moved-from value is never destroyed: the move constructor clears the
    flag and leaves the object, which the destructor then passes over. *)
Lemma moved_object_lost (v : T) :
  lost <$> run moved [Value 0 v; Move 1 0; Destroy 1; Destroy 0] (mkMemory ∅ []) = Some [moved v].
Proof. reflexivity. Qed.
End proofs.

(** ** Examples *)

Module OptionalExamples.
(** A value is copied over another one and over itself. *)
Definition commands : list (command Z) := [Value 0 7%Z; Value 1 8%Z; Assign 1 0; Assign 1 1; Copy 2 1; Default 3; Assign 0 3].

End OptionalExamples.
