(* ===== verification/Message.v ===== *)
(** * Wire format and message types

    [include/wire_format.h], [include/message.h] and
    [include/endian_converter.h]: the sizes and offsets of the binary
    protocol, the in-memory messages as records, and the byte-order
    conversions.  A [char] is the byte 0..255 that holds it; a [char[8]] is a
    list of eight bytes; an object of integer type is stored in memory
    little-endian, which the code asserts about its platform. *)
From S2P Require Import Prelude.

Module WireFormat.
Definition HEADER_SIZE : nat := 2.
Definition QUOTE_SIZE : nat := 32.
Definition TRADE_SIZE : nat := 24.
Definition ORDER_SIZE : nat := 25.

Definition QUOTE_SYMBOL_OFFSET : nat := 0.
Definition QUOTE_TIMESTAMP_OFFSET : nat := 8.
Definition QUOTE_BID_QTY_OFFSET : nat := 16.
Definition QUOTE_BID_PRICE_OFFSET : nat := 20.
Definition QUOTE_ASK_QTY_OFFSET : nat := 24.
Definition QUOTE_ASK_PRICE_OFFSET : nat := 28.

Definition TRADE_SYMBOL_OFFSET : nat := 0.
Definition TRADE_TIMESTAMP_OFFSET : nat := 8.
Definition TRADE_QUANTITY_OFFSET : nat := 16.
Definition TRADE_PRICE_OFFSET : nat := 20.

Definition ORDER_SYMBOL_OFFSET : nat := 0.
Definition ORDER_TIMESTAMP_OFFSET : nat := 8.
Definition ORDER_SIDE_OFFSET : nat := 16.
Definition ORDER_QUANTITY_OFFSET : nat := 17.
Definition ORDER_PRICE_OFFSET : nat := 21.

Definition MAX_MESSAGE_SIZE : nat := HEADER_SIZE + QUOTE_SIZE.

(** The [static_assert]s at the end of the header. *)
Definition static_asserts : bool :=
  (QUOTE_ASK_PRICE_OFFSET + 4 =? QUOTE_SIZE)%nat && (TRADE_PRICE_OFFSET + 4 =? TRADE_SIZE)%nat &&
  (ORDER_PRICE_OFFSET + 4 =? ORDER_SIZE)%nat && (ORDER_QUANTITY_OFFSET =? 17)%nat &&
  negb (ORDER_QUANTITY_OFFSET mod 4 =? 0)%nat.
End WireFormat.

Module Header.
Record MessageHeader := mk { length : Z; type : Z }.

(** There is no order type: orders travel without a header. *)
Definition QUOTE_TYPE : Z := 1.
Definition TRADE_TYPE : Z := 2.
End Header.
Notation MessageHeader := Header.MessageHeader.

Module Quote.
Record QuoteMessage := mk {
  symbol : list Z; timestamp : Z; bidQuantity : Z; bidPrice : Z; askQuantity : Z; askPrice : Z }.
End Quote.
Notation QuoteMessage := Quote.QuoteMessage.

Module Trade.
Record TradeMessage := mk {
  symbol : list Z; timestamp : Z; quantity : Z; price : Z }.
End Trade.
Notation TradeMessage := Trade.TradeMessage.

Module Order.
Record OrderMessage := mk {
  symbol : list Z; timestamp : Z; quantity : Z; price : Z; side : Z; _padding : list Z }.
#[global] Instance eta_OrderMessage : Settable OrderMessage := fun r =>
  mk (symbol r) (timestamp r) (quantity r) (price r) (side r) (_padding r).

(** The constructor zeroes the whole object. *)
Definition OrderMessage_init : OrderMessage :=
  mk (replicate 8 0) 0 0 0 0 (replicate 3 0).
End Order.
Notation OrderMessage := Order.OrderMessage.

(** The values the C++ types can hold. *)
Definition symbol_ok (s : list Z) : Prop := length s = 8%nat ∧ bytes_ok s.

Definition QuoteMessage_ok (q : QuoteMessage) : Prop :=
  symbol_ok (Quote.symbol q) ∧ is_u64 (Quote.timestamp q) ∧ is_u32 (Quote.bidQuantity q) ∧
  is_u32 (Quote.bidPrice q) ∧ is_u32 (Quote.askQuantity q) ∧ is_i32 (Quote.askPrice q).

Definition TradeMessage_ok (t : TradeMessage) : Prop :=
  symbol_ok (Trade.symbol t) ∧ is_u64 (Trade.timestamp t) ∧ is_u32 (Trade.quantity t) ∧
  is_i32 (Trade.price t).

Definition OrderMessage_ok (o : OrderMessage) : Prop :=
  symbol_ok (Order.symbol o) ∧ is_u64 (Order.timestamp o) ∧ is_u32 (Order.quantity o) ∧
  is_i32 (Order.price o) ∧ is_u8 (Order.side o) ∧ Order._padding o = replicate 3 0.

#[global] Instance symbol_ok_dec s : Decision (symbol_ok s).
Proof. unfold symbol_ok. apply _. Defined.
#[global] Instance QuoteMessage_ok_dec q : Decision (QuoteMessage_ok q).
Proof. unfold QuoteMessage_ok. apply _. Defined.
#[global] Instance TradeMessage_ok_dec t : Decision (TradeMessage_ok t).
Proof. unfold TradeMessage_ok. apply _. Defined.
#[global] Instance OrderMessage_ok_dec o : Decision (OrderMessage_ok o).
Proof. unfold OrderMessage_ok. apply _. Defined.

(** ** Byte order *)

Module EndianConverter.
(** The preprocessor test at the top of the header; the code refuses to
    compile when it fails. *)
Definition IS_LITTLE_ENDIAN : bool := true.

(** The byte swaps of the other branch. *)
Definition swap16 (value : Z) : Z :=
  Z.lor (Z.shiftr (Z.land value 0xFF00) 8) (Z.shiftl (Z.land value 0x00FF) 8).
Definition swap32 (value : Z) : Z :=
  Z.lor (Z.lor (Z.lor (Z.shiftr (Z.land value 0xFF000000) 24)
                      (Z.shiftr (Z.land value 0x00FF0000) 8))
               (Z.shiftl (Z.land value 0x0000FF00) 8))
        (Z.shiftl (Z.land value 0x000000FF) 24).
Definition swap64 (value : Z) : Z :=
  Z.lor (Z.lor (Z.lor (Z.lor (Z.lor (Z.lor (Z.lor
    (Z.shiftr (Z.land value 0xFF00000000000000) 56)
    (Z.shiftr (Z.land value 0x00FF000000000000) 40))
    (Z.shiftr (Z.land value 0x0000FF0000000000) 24))
    (Z.shiftr (Z.land value 0x000000FF00000000) 8))
    (Z.shiftl (Z.land value 0x00000000FF000000) 8))
    (Z.shiftl (Z.land value 0x0000000000FF0000) 24))
    (Z.shiftl (Z.land value 0x000000000000FF00) 40))
    (Z.shiftl (Z.land value 0x00000000000000FF) 56).

Definition ltoh16 (value : Z) : Z := if IS_LITTLE_ENDIAN then value else swap16 value.
Definition ltoh32 (value : Z) : Z := if IS_LITTLE_ENDIAN then value else swap32 value.
Definition ltoh64 (value : Z) : Z := if IS_LITTLE_ENDIAN then value else swap64 value.
Definition ltoh32_signed (value : Z) : Z := i32 (ltoh32 (u32 value)).
Definition htol16 (value : Z) : Z := ltoh16 value.
Definition htol32 (value : Z) : Z := ltoh32 value.
Definition htol64 (value : Z) : Z := ltoh64 value.
Definition htol32_signed (value : Z) : Z := i32 (htol32 (u32 value)).
End EndianConverter.

Lemma ltoh32_signed_id v : is_i32 v → EndianConverter.ltoh32_signed v = v.
Proof. intros. unfold EndianConverter.ltoh32_signed. simpl. by apply i32_u32. Qed.

Lemma htol32_signed_id v : is_i32 v → EndianConverter.htol32_signed v = v.
Proof. intros. unfold EndianConverter.htol32_signed. simpl. by apply i32_u32. Qed.

(** A quoted character constant. *)
Definition char_B : Z := 66.
Definition char_S : Z := 83.

Lemma static_asserts_hold : WireFormat.static_asserts = true.
Proof. reflexivity. Qed.
