(* ===== verification/MessageSerializer.v ===== *)
(** * Serializer ([src/message_serializer.cpp])

    Each function writes into a caller's buffer and returns the number of
    bytes written, 0 when the buffer is too small.  The buffer is the list of
    bytes from the pointer on; a write at an offset is [list_inserts].  The
    theorems say which byte string each function writes. *)
From S2P Require Import Prelude Message.
Import WireFormat EndianConverter.

(** Calls [f] on the buffer starting [off] bytes further. *)
Definition at_offset (off : nat) (f : list Z → list Z * nat) (buffer : list Z) : list Z * nat :=
  let '(rest, n) := f (drop off buffer) in (take off buffer ++ rest, n).

Definition serializeHeader (buffer : list Z) (bufferSize : nat) (header : MessageHeader)
  : list Z * nat :=
  if (bufferSize <? HEADER_SIZE)%nat then (buffer, 0%nat) else
  let buffer := <[0%nat := Header.length header]> buffer in
  let buffer := <[1%nat := Header.type header]> buffer in
  (buffer, HEADER_SIZE).

Definition serializeQuote (buffer : list Z) (bufferSize : nat) (quote : QuoteMessage)
  : list Z * nat :=
  if (bufferSize <? QUOTE_SIZE)%nat then (buffer, 0%nat) else
  let buffer := list_inserts QUOTE_SYMBOL_OFFSET (Quote.symbol quote) buffer in
  let timestamp := htol64 (Quote.timestamp quote) in
  let buffer := list_inserts QUOTE_TIMESTAMP_OFFSET (le_bytes 8 timestamp) buffer in
  let bidQty := htol32 (Quote.bidQuantity quote) in
  let buffer := list_inserts QUOTE_BID_QTY_OFFSET (le_bytes 4 bidQty) buffer in
  let bidPrice := htol32 (Quote.bidPrice quote) in
  let buffer := list_inserts QUOTE_BID_PRICE_OFFSET (le_bytes 4 bidPrice) buffer in
  let askQty := htol32 (Quote.askQuantity quote) in
  let buffer := list_inserts QUOTE_ASK_QTY_OFFSET (le_bytes 4 askQty) buffer in
  let askPrice := htol32_signed (Quote.askPrice quote) in
  let buffer := list_inserts QUOTE_ASK_PRICE_OFFSET (le_bytes 4 askPrice) buffer in
  (buffer, QUOTE_SIZE).

Definition serializeTrade (buffer : list Z) (bufferSize : nat) (trade : TradeMessage)
  : list Z * nat :=
  if (bufferSize <? TRADE_SIZE)%nat then (buffer, 0%nat) else
  let buffer := list_inserts TRADE_SYMBOL_OFFSET (Trade.symbol trade) buffer in
  let timestamp := htol64 (Trade.timestamp trade) in
  let buffer := list_inserts TRADE_TIMESTAMP_OFFSET (le_bytes 8 timestamp) buffer in
  let quantity := htol32 (Trade.quantity trade) in
  let buffer := list_inserts TRADE_QUANTITY_OFFSET (le_bytes 4 quantity) buffer in
  let price := htol32_signed (Trade.price trade) in
  let buffer := list_inserts TRADE_PRICE_OFFSET (le_bytes 4 price) buffer in
  (buffer, TRADE_SIZE).

Definition serializeOrder (buffer : list Z) (bufferSize : nat) (order : OrderMessage)
  : list Z * nat :=
  if (bufferSize <? ORDER_SIZE)%nat then (buffer, 0%nat) else
  let buffer := list_inserts ORDER_SYMBOL_OFFSET (Order.symbol order) buffer in
  let timestamp := htol64 (Order.timestamp order) in
  let buffer := list_inserts ORDER_TIMESTAMP_OFFSET (le_bytes 8 timestamp) buffer in
  let buffer := <[ORDER_SIDE_OFFSET := Order.side order]> buffer in
  let quantity := htol32 (Order.quantity order) in
  let buffer := list_inserts ORDER_QUANTITY_OFFSET (le_bytes 4 quantity) buffer in
  let price := htol32_signed (Order.price order) in
  let buffer := list_inserts ORDER_PRICE_OFFSET (le_bytes 4 price) buffer in
  (buffer, ORDER_SIZE).

Definition serializeQuoteMessage (buffer : list Z) (bufferSize : nat) (quote : QuoteMessage)
  : list Z * nat :=
  if (bufferSize <? HEADER_SIZE + QUOTE_SIZE)%nat then (buffer, 0%nat) else
  let header := Header.mk (Z.of_nat QUOTE_SIZE) Header.QUOTE_TYPE in
  let '(buffer, headerSize) := serializeHeader buffer bufferSize header in
  if (headerSize =? 0)%nat then (buffer, 0%nat) else
  let '(buffer, bodySize) :=
    at_offset headerSize (λ b, serializeQuote b (bufferSize - headerSize) quote) buffer in
  if (bodySize =? 0)%nat then (buffer, 0%nat) else
  (buffer, (headerSize + bodySize)%nat).

Definition serializeTradeMessage (buffer : list Z) (bufferSize : nat) (trade : TradeMessage)
  : list Z * nat :=
  if (bufferSize <? HEADER_SIZE + TRADE_SIZE)%nat then (buffer, 0%nat) else
  let header := Header.mk (Z.of_nat TRADE_SIZE) Header.TRADE_TYPE in
  let '(buffer, headerSize) := serializeHeader buffer bufferSize header in
  if (headerSize =? 0)%nat then (buffer, 0%nat) else
  let '(buffer, bodySize) :=
    at_offset headerSize (λ b, serializeTrade b (bufferSize - headerSize) trade) buffer in
  if (bodySize =? 0)%nat then (buffer, 0%nat) else
  (buffer, (headerSize + bodySize)%nat).

(** ** The byte strings of the protocol *)

Definition quote_bytes (q : QuoteMessage) : list Z :=
  Quote.symbol q ++ le_bytes 8 (Quote.timestamp q) ++ le_bytes 4 (Quote.bidQuantity q) ++
  le_bytes 4 (Quote.bidPrice q) ++ le_bytes 4 (Quote.askQuantity q) ++
  le_bytes 4 (Quote.askPrice q).

Definition trade_bytes (t : TradeMessage) : list Z :=
  Trade.symbol t ++ le_bytes 8 (Trade.timestamp t) ++ le_bytes 4 (Trade.quantity t) ++
  le_bytes 4 (Trade.price t).

Definition order_bytes (o : OrderMessage) : list Z :=
  Order.symbol o ++ le_bytes 8 (Order.timestamp o) ++ [Order.side o] ++
  le_bytes 4 (Order.quantity o) ++ le_bytes 4 (Order.price o).

(** Length arithmetic on the concatenations above. *)
Ltac sizes :=
  unfold HEADER_SIZE, QUOTE_SIZE, TRADE_SIZE, ORDER_SIZE, QUOTE_SYMBOL_OFFSET,
    QUOTE_TIMESTAMP_OFFSET, QUOTE_BID_QTY_OFFSET, QUOTE_BID_PRICE_OFFSET, QUOTE_ASK_QTY_OFFSET,
    QUOTE_ASK_PRICE_OFFSET, TRADE_SYMBOL_OFFSET, TRADE_TIMESTAMP_OFFSET, TRADE_QUANTITY_OFFSET,
    TRADE_PRICE_OFFSET, ORDER_SYMBOL_OFFSET, ORDER_TIMESTAMP_OFFSET, ORDER_SIDE_OFFSET,
    ORDER_QUANTITY_OFFSET, ORDER_PRICE_OFFSET in *.
Ltac lens :=
  sizes; repeat progress rewrite ?length_app, ?length_le_bytes, ?length_drop, ?length_take;
  simpl; lia.

Lemma length_quote_bytes q : QuoteMessage_ok q → length (quote_bytes q) = QUOTE_SIZE.
Proof. intros ([Hs _] & _). unfold quote_bytes. lens. Qed.
Lemma length_trade_bytes t : TradeMessage_ok t → length (trade_bytes t) = TRADE_SIZE.
Proof. intros ([Hs _] & _). unfold trade_bytes. lens. Qed.
Lemma length_order_bytes o : OrderMessage_ok o → length (order_bytes o) = ORDER_SIZE.
Proof. intros ([Hs _] & _). unfold order_bytes. lens. Qed.

(** Appending the fields in offset order. *)
Ltac fields :=
  sizes; rewrite inserts_prefix by lens; rewrite !memcpy_next by lens;
  unfold htol64, htol32, ltoh64, ltoh32; cbn [IS_LITTLE_ENDIAN];
  unfold quote_bytes, trade_bytes, order_bytes;
  rewrite !drop_drop, <- !app_assoc, ?length_le_bytes.

Lemma serializeQuote_bytes buffer n q :
  QuoteMessage_ok q → (QUOTE_SIZE ≤ n)%nat → (n ≤ length buffer)%nat →
  serializeQuote buffer n q = (quote_bytes q ++ drop QUOTE_SIZE buffer, QUOTE_SIZE).
Proof.
  intros ([Hs _] & _ & _ & _ & _ & Hp) Hn Hb. sizes. unfold serializeQuote.
  branch; [lens|]. rewrite htol32_signed_id by done. f_equal. fields. by rewrite Hs.
Qed.

Lemma serializeTrade_bytes buffer n t :
  TradeMessage_ok t → (TRADE_SIZE ≤ n)%nat → (n ≤ length buffer)%nat →
  serializeTrade buffer n t = (trade_bytes t ++ drop TRADE_SIZE buffer, TRADE_SIZE).
Proof.
  intros ([Hs _] & _ & _ & Hp) Hn Hb. sizes. unfold serializeTrade.
  branch; [lens|]. rewrite htol32_signed_id by done. f_equal. fields. by rewrite Hs.
Qed.

Lemma insert_as_inserts {A} i (x : A) l : <[i := x]> l = list_inserts i [x] l.
Proof. done. Qed.

Lemma serializeOrder_bytes buffer n o :
  OrderMessage_ok o → (ORDER_SIZE ≤ n)%nat → (n ≤ length buffer)%nat →
  serializeOrder buffer n o = (order_bytes o ++ drop ORDER_SIZE buffer, ORDER_SIZE).
Proof.
  intros ([Hs _] & _ & _ & Hp & _) Hn Hb. sizes. unfold serializeOrder.
  branch; [lens|]. rewrite htol32_signed_id by done. f_equal.
  rewrite insert_as_inserts. fields. by rewrite Hs.
Qed.

Lemma serializeHeader_bytes buffer n h :
  (HEADER_SIZE ≤ n)%nat → (n ≤ length buffer)%nat →
  serializeHeader buffer n h =
    ([Header.length h; Header.type h] ++ drop HEADER_SIZE buffer, HEADER_SIZE).
Proof.
  intros Hn Hb. sizes. unfold serializeHeader. branch; [lens|].
  destruct buffer as [|b0 [|b1 buffer]]; simpl in *; [lia|lia|done].
Qed.

(** A framed message is the header bytes followed by the body. *)
Definition quote_frame (q : QuoteMessage) : list Z :=
  [Z.of_nat QUOTE_SIZE; Header.QUOTE_TYPE] ++ quote_bytes q.
Definition trade_frame (t : TradeMessage) : list Z :=
  [Z.of_nat TRADE_SIZE; Header.TRADE_TYPE] ++ trade_bytes t.

Lemma serializeQuoteMessage_bytes buffer n q :
  QuoteMessage_ok q → (HEADER_SIZE + QUOTE_SIZE ≤ n)%nat → (n ≤ length buffer)%nat →
  serializeQuoteMessage buffer n q =
    (quote_frame q ++ drop (HEADER_SIZE + QUOTE_SIZE) buffer, (HEADER_SIZE + QUOTE_SIZE)%nat).
Proof.
  intros Hq Hn Hb. unfold serializeQuoteMessage. branch; [lens|].
  rewrite serializeHeader_bytes by lens. branch; [done|]. unfold at_offset.
  rewrite serializeQuote_bytes by (done || lens). branch; [done|]. f_equal. by rewrite <- drop_drop.
Qed.

Lemma serializeTradeMessage_bytes buffer n t :
  TradeMessage_ok t → (HEADER_SIZE + TRADE_SIZE ≤ n)%nat → (n ≤ length buffer)%nat →
  serializeTradeMessage buffer n t =
    (trade_frame t ++ drop (HEADER_SIZE + TRADE_SIZE) buffer, (HEADER_SIZE + TRADE_SIZE)%nat).
Proof.
  intros Ht Hn Hb. unfold serializeTradeMessage. branch; [lens|].
  rewrite serializeHeader_bytes by lens. branch; [done|]. unfold at_offset.
  rewrite serializeTrade_bytes by (done || lens). branch; [done|]. f_equal. by rewrite <- drop_drop.
Qed.
