(* ===== verification/MessageParser.v ===== *)
(** * Parser ([src/message_parser.cpp], [include/message_parser.h])

    A parse function reads fields at their offsets and fails on a short
    buffer; the out parameter is the [Some] of the result and is not written
    on failure.  The theorems show that parsing inverts serializing in both
    directions and characterise what the validators accept. *)
From S2P Require Import Prelude Message MessageSerializer.
Import WireFormat EndianConverter.

(** An integer object of [n] bytes copied out of the buffer. *)
Definition load (buffer : list Z) (off n : nat) : Z := le_value (slice off n buffer).

Definition parseHeader (buffer : list Z) (bufferSize : nat) : option MessageHeader :=
  if (bufferSize <? HEADER_SIZE)%nat then None else
  Some (Header.mk (buffer !!! 0%nat) (buffer !!! 1%nat)).

Definition parseQuote (buffer : list Z) (bufferSize : nat) : option QuoteMessage :=
  if (bufferSize <? QUOTE_SIZE)%nat then None else
  let symbol := slice QUOTE_SYMBOL_OFFSET 8 buffer in
  let timestamp := load buffer QUOTE_TIMESTAMP_OFFSET 8 in
  let bidQty := load buffer QUOTE_BID_QTY_OFFSET 4 in
  let bidPrice := load buffer QUOTE_BID_PRICE_OFFSET 4 in
  let askQty := load buffer QUOTE_ASK_QTY_OFFSET 4 in
  let askPrice := i32 (load buffer QUOTE_ASK_PRICE_OFFSET 4) in
  Some (Quote.mk symbol (ltoh64 timestamp) (ltoh32 bidQty) (ltoh32 bidPrice) (ltoh32 askQty)
          (ltoh32_signed askPrice)).

Definition parseTrade (buffer : list Z) (bufferSize : nat) : option TradeMessage :=
  if (bufferSize <? TRADE_SIZE)%nat then None else
  let symbol := slice TRADE_SYMBOL_OFFSET 8 buffer in
  let timestamp := load buffer TRADE_TIMESTAMP_OFFSET 8 in
  let quantity := load buffer TRADE_QUANTITY_OFFSET 4 in
  let price := i32 (load buffer TRADE_PRICE_OFFSET 4) in
  Some (Trade.mk symbol (ltoh64 timestamp) (ltoh32 quantity) (ltoh32_signed price)).

Definition parseOrder (buffer : list Z) (bufferSize : nat) : option OrderMessage :=
  if (bufferSize <? ORDER_SIZE)%nat then None else
  let symbol := slice ORDER_SYMBOL_OFFSET 8 buffer in
  let timestamp := load buffer ORDER_TIMESTAMP_OFFSET 8 in
  let side := buffer !!! ORDER_SIDE_OFFSET in
  let quantity := load buffer ORDER_QUANTITY_OFFSET 4 in
  let price := i32 (load buffer ORDER_PRICE_OFFSET 4) in
  Some (Order.mk symbol (ltoh64 timestamp) (ltoh32 quantity) (ltoh32_signed price) side
          (replicate 3 0)).

Definition validateHeader (header : MessageHeader) : bool :=
  if negb (Header.type header =? Header.QUOTE_TYPE) &&
     negb (Header.type header =? Header.TRADE_TYPE) then false
  else if (Header.type header =? Header.QUOTE_TYPE) &&
          negb (Header.length header =? Z.of_nat QUOTE_SIZE) then false
  else if (Header.type header =? Header.TRADE_TYPE) &&
          negb (Header.length header =? Z.of_nat TRADE_SIZE) then false
  else true.

Definition validateQuote (quote : QuoteMessage) : bool :=
  if (Quote.bidQuantity quote =? 0) || (Quote.askQuantity quote =? 0) then false
  else if (Quote.askPrice quote <? 0) || (i32 (Quote.bidPrice quote) <? 0) then false
  else if i32 (Quote.bidPrice quote) >? Quote.askPrice quote then false
  else true.

Definition validateTrade (trade : TradeMessage) : bool :=
  if Trade.quantity trade =? 0 then false
  else if Trade.price trade <? 0 then false
  else true.

Definition validateOrder (order : OrderMessage) : bool :=
  if negb (Order.side order =? char_B) && negb (Order.side order =? char_S) then false
  else true.

Definition validateSymbol (symbol expectedSymbol : list Z) : bool :=
  bool_decide (slice 0 8 symbol = slice 0 8 expectedSymbol).

(** [dispatch]: the callbacks act on a state [S]. *)
Definition dispatch {S} (onQuote : QuoteMessage → S → S) (onTrade : TradeMessage → S → S)
    (header : MessageHeader) (body : list Z) (bodySize : nat) (s : S) : bool * S :=
  if negb (validateHeader header) || (Z.of_nat bodySize <? Header.length header)
  then (false, s)
  else if Header.type header =? Header.QUOTE_TYPE then
    match parseQuote body bodySize with
    | Some q => if negb (validateQuote q) then (false, s) else (true, onQuote q s)
    | None => (false, s)
    end
  else if Header.type header =? Header.TRADE_TYPE then
    match parseTrade body bodySize with
    | Some t => if negb (validateTrade t) then (false, s) else (true, onTrade t s)
    | None => (false, s)
    end
  else (false, s).

(** ** Field extraction *)

Lemma load_range bs off n :
  bytes_ok bs → (off + n ≤ length bs)%nat → 0 ≤ load bs off n < 2 ^ (8 * Z.of_nat n).
Proof.
  intros Hb Hlen. unfold load. rewrite <- (length_slice off n bs Hlen) at 3.
  apply le_value_range. unfold slice. by apply Forall_take, Forall_drop.
Qed.

Lemma load_u32 bs off : bytes_ok bs → (off + 4 ≤ length bs)%nat → is_u32 (load bs off 4).
Proof. apply load_range. Qed.
Lemma load_u64 bs off : bytes_ok bs → (off + 8 ≤ length bs)%nat → is_u64 (load bs off 8).
Proof. apply load_range. Qed.

Lemma slice_bytes_ok bs off n : bytes_ok bs → bytes_ok (slice off n bs).
Proof. intros. unfold slice. by apply Forall_take, Forall_drop. Qed.

Lemma ltoh32_signed_i32 v : EndianConverter.ltoh32_signed (i32 v) = i32 v.
Proof. apply ltoh32_signed_id, i32_range. Qed.

(** What a parsed message denotes always fits its C++ types. *)
Lemma parseQuote_ok buffer n q :
  bytes_ok buffer → (n ≤ length buffer)%nat → parseQuote buffer n = Some q → QuoteMessage_ok q.
Proof.
  intros Hb Hn. unfold parseQuote. case_match eqn:Hg; [done|]. guards. intros [= <-].
  rewrite ltoh32_signed_i32. sizes.
  repeat split; cbn; try apply length_slice; try apply slice_bytes_ok; try apply i32_range;
    try apply load_u32; try apply load_u64; try done; lia.
Qed.

Lemma parseTrade_ok buffer n t :
  bytes_ok buffer → (n ≤ length buffer)%nat → parseTrade buffer n = Some t → TradeMessage_ok t.
Proof.
  intros Hb Hn. unfold parseTrade. case_match eqn:Hg; [done|]. guards. intros [= <-].
  rewrite ltoh32_signed_i32. sizes.
  repeat split; cbn; try apply length_slice; try apply slice_bytes_ok; try apply i32_range;
    try apply load_u32; try apply load_u64; try done; lia.
Qed.

(** Fields of a concatenation, by skipping the ones before. *)
Lemma slice_skip {A} off n (p l : list A) :
  (length p ≤ off)%nat → slice off n (p ++ l) = slice (off - length p) n l.
Proof. intros H. unfold slice. by rewrite drop_app_ge. Qed.

Lemma slice_here {A} off n (k l : list A) :
  off = 0%nat → n = length k → slice off n (k ++ l) = k.
Proof. intros -> ->. unfold slice. by rewrite drop_0, take_app_length. Qed.

Ltac field := repeat rewrite slice_skip by lens; rewrite slice_here by lens.

Lemma i32_le_bytes v : is_i32 v → i32 (le_value (le_bytes 4 v)) = v.
Proof. intros. rewrite le_value_bytes. change (i32 (u32 v) = v). by apply i32_u32. Qed.

(** ** Parsing the protocol's byte strings *)

Lemma parseQuote_bytes q rest n :
  QuoteMessage_ok q → (QUOTE_SIZE ≤ n)%nat → parseQuote (quote_bytes q ++ rest) n = Some q.
Proof.
  destruct q as [s ts bq bp aq ap]. intros ([Hs _] & Hts & Hbq & Hbp & Haq & Hap) Hn.
  cbn in Hs, Hts, Hbq, Hbp, Haq, Hap. unfold parseQuote, load. branch; [lia|].
  unfold quote_bytes. cbn [Quote.symbol Quote.timestamp Quote.bidQuantity Quote.bidPrice
    Quote.askQuantity Quote.askPrice]. rewrite <- !app_assoc. repeat f_equal.
  - field. done.
  - unfold ltoh64. cbn [IS_LITTLE_ENDIAN]. field. by apply le_value_bytes_u64.
  - unfold ltoh32. cbn [IS_LITTLE_ENDIAN]. field. by apply le_value_bytes_u32.
  - unfold ltoh32. cbn [IS_LITTLE_ENDIAN]. field. by apply le_value_bytes_u32.
  - unfold ltoh32. cbn [IS_LITTLE_ENDIAN]. field. by apply le_value_bytes_u32.
  - field. by rewrite ltoh32_signed_i32, i32_le_bytes.
Qed.

Lemma parseTrade_bytes t rest n :
  TradeMessage_ok t → (TRADE_SIZE ≤ n)%nat → parseTrade (trade_bytes t ++ rest) n = Some t.
Proof.
  destruct t as [s ts q p]. intros ([Hs _] & Hts & Hq & Hp) Hn.
  cbn in Hs, Hts, Hq, Hp. unfold parseTrade, load. branch; [lia|].
  unfold trade_bytes. cbn [Trade.symbol Trade.timestamp Trade.quantity Trade.price].
  rewrite <- !app_assoc. repeat f_equal.
  - field. done.
  - unfold ltoh64. cbn [IS_LITTLE_ENDIAN]. field. by apply le_value_bytes_u64.
  - unfold ltoh32. cbn [IS_LITTLE_ENDIAN]. field. by apply le_value_bytes_u32.
  - field. by rewrite ltoh32_signed_i32, i32_le_bytes.
Qed.

Lemma parseOrder_bytes o rest n :
  OrderMessage_ok o → (ORDER_SIZE ≤ n)%nat → parseOrder (order_bytes o ++ rest) n = Some o.
Proof.
  destruct o as [s ts q p sd pad]. intros ([Hs _] & Hts & Hq & Hp & Hsd & Hpad) Hn.
  cbn in Hs, Hts, Hq, Hp, Hsd, Hpad. unfold parseOrder, load. branch; [lia|].
  unfold order_bytes.
  cbn [Order.symbol Order.timestamp Order.quantity Order.price Order.side Order._padding].
  rewrite <- !app_assoc. f_equal. f_equal; [| | | | |done].
  - field. done.
  - unfold ltoh64. cbn [IS_LITTLE_ENDIAN]. field. by apply le_value_bytes_u64.
  - unfold ltoh32. cbn [IS_LITTLE_ENDIAN]. field. by apply le_value_bytes_u32.
  - field. by rewrite ltoh32_signed_i32, i32_le_bytes.
  - rewrite app_assoc. apply list_lookup_total_correct.
    by rewrite lookup_app_r by lens; rewrite length_app, length_le_bytes, Hs.
Qed.

(** ** Serializing what was parsed *)

Lemma le_bytes_load bs off n :
  bytes_ok bs → (off + n ≤ length bs)%nat → le_bytes n (load bs off n) = slice off n bs.
Proof.
  intros Hb Hlen. unfold load. rewrite <- (length_slice off n bs Hlen) at 1.
  by apply le_bytes_value, slice_bytes_ok.
Qed.

Lemma le_bytes_mod n v : le_bytes n (v mod 2 ^ (8 * Z.of_nat n)) = le_bytes n v.
Proof.
  rewrite <- le_value_bytes. rewrite <- (length_le_bytes n v) at 1.
  apply le_bytes_value, le_bytes_ok.
Qed.

Lemma le_bytes_i32 v : is_u32 v → le_bytes 4 (i32 v) = le_bytes 4 v.
Proof. intros Hv. rewrite <- (le_bytes_mod 4 (i32 v)). change (le_bytes 4 (u32 (i32 v)) = le_bytes 4 v). by rewrite u32_i32. Qed.

Lemma quote_bytes_parse bs q n :
  bytes_ok bs → (n ≤ length bs)%nat → parseQuote bs n = Some q →
  quote_bytes q = slice 0 QUOTE_SIZE bs.
Proof.
  intros Hb Hn. unfold parseQuote. case_match eqn:Hg; [done|]. guards. intros [= <-].
  unfold quote_bytes. cbn [Quote.symbol Quote.timestamp Quote.bidQuantity Quote.bidPrice
    Quote.askQuantity Quote.askPrice].
  rewrite ltoh32_signed_i32. unfold ltoh64, ltoh32. cbn [IS_LITTLE_ENDIAN]. sizes.
  rewrite le_bytes_i32 by (apply load_u32; [done|lia]).
  rewrite !le_bytes_load by (done || lia).
  change 32%nat with (8 + (8 + (4 + (4 + (4 + 4)))))%nat. by rewrite !slice_split.
Qed.

Lemma trade_bytes_parse bs t n :
  bytes_ok bs → (n ≤ length bs)%nat → parseTrade bs n = Some t →
  trade_bytes t = slice 0 TRADE_SIZE bs.
Proof.
  intros Hb Hn. unfold parseTrade. case_match eqn:Hg; [done|]. guards. intros [= <-].
  unfold trade_bytes. cbn [Trade.symbol Trade.timestamp Trade.quantity Trade.price].
  rewrite ltoh32_signed_i32. unfold ltoh64, ltoh32. cbn [IS_LITTLE_ENDIAN]. sizes.
  rewrite le_bytes_i32 by (apply load_u32; [done|lia]).
  rewrite !le_bytes_load by (done || lia).
  change 24%nat with (8 + (8 + (4 + 4)))%nat. by rewrite !slice_split.
Qed.

Lemma order_bytes_parse bs o n :
  bytes_ok bs → (n ≤ length bs)%nat → parseOrder bs n = Some o →
  order_bytes o = slice 0 ORDER_SIZE bs.
Proof.
  intros Hb Hn. unfold parseOrder. case_match eqn:Hg; [done|]. guards. intros [= <-].
  unfold order_bytes.
  cbn [Order.symbol Order.timestamp Order.quantity Order.price Order.side Order._padding].
  rewrite ltoh32_signed_i32. unfold ltoh64, ltoh32. cbn [IS_LITTLE_ENDIAN]. sizes.
  rewrite le_bytes_i32 by (apply load_u32; [done|lia]).
  rewrite !le_bytes_load by (done || lia).
  assert (Hside : [bs !!! 16%nat] = slice 16 1 bs).
  { apply list_eq_same_length with (n := 1%nat); [by rewrite length_slice by lia|done|].
    intros i x y Hi. replace i with 0%nat by lia. rewrite lookup_slice by lia.
    rewrite (list_lookup_lookup_total_lt bs) by lia. simpl. intros ??; congruence. }
  rewrite Hside.
  change 25%nat with (8 + (8 + (1 + (4 + 4))))%nat. by rewrite !slice_split.
Qed.

(** ** Properties *)

(** Quote round trip: a buffer filled by [serializeQuote] parses back to the
    quote, and the bytes [serializeQuote] writes for a parsed quote are the
    bytes it was parsed from. *)
Lemma quote_roundtrip (buffer : list Z) (q : QuoteMessage) :
  QuoteMessage_ok q → (QUOTE_SIZE ≤ length buffer)%nat →
  (let '(out, n) := serializeQuote buffer (length buffer) q in
   n = QUOTE_SIZE ∧ length out = length buffer ∧ parseQuote out n = Some q) ∧
  (∀ bs q', bytes_ok bs → parseQuote bs (length bs) = Some q' →
     slice 0 QUOTE_SIZE (serializeQuote buffer (length buffer) q').1 = slice 0 QUOTE_SIZE bs).
Proof.
  intros Hq Hb. split.
  - rewrite serializeQuote_bytes by done. split; [done|]. split.
    + rewrite length_app, length_quote_bytes, length_drop by done. lia.
    + by apply parseQuote_bytes.
  - intros bs q' Hbs Hparse. assert (Hq' := parseQuote_ok bs (length bs) q' Hbs ltac:(lia) Hparse).
    rewrite serializeQuote_bytes by done. cbn [fst].
    rewrite (slice_here 0) by (done || by rewrite length_quote_bytes).
    by apply quote_bytes_parse with (length bs).
Qed.

(** Trade round trip, in both directions. *)
Lemma trade_roundtrip (buffer : list Z) (t : TradeMessage) :
  TradeMessage_ok t → (TRADE_SIZE ≤ length buffer)%nat →
  (let '(out, n) := serializeTrade buffer (length buffer) t in
   n = TRADE_SIZE ∧ length out = length buffer ∧ parseTrade out n = Some t) ∧
  (∀ bs t', bytes_ok bs → parseTrade bs (length bs) = Some t' →
     slice 0 TRADE_SIZE (serializeTrade buffer (length buffer) t').1 = slice 0 TRADE_SIZE bs).
Proof.
  intros Ht Hb. split.
  - rewrite serializeTrade_bytes by done. split; [done|]. split.
    + rewrite length_app, length_trade_bytes, length_drop by done. lia.
    + by apply parseTrade_bytes.
  - intros bs t' Hbs Hparse. assert (Ht' := parseTrade_ok bs (length bs) t' Hbs ltac:(lia) Hparse).
    rewrite serializeTrade_bytes by done. cbn [fst].
    rewrite (slice_here 0) by (done || by rewrite length_trade_bytes).
    by apply trade_bytes_parse with (length bs).
Qed.

(** Order round trip, in both directions, on the 25-byte unaligned layout. *)
Lemma order_roundtrip (buffer : list Z) (o : OrderMessage) :
  OrderMessage_ok o → (ORDER_SIZE ≤ length buffer)%nat →
  (let '(out, n) := serializeOrder buffer (length buffer) o in
   n = ORDER_SIZE ∧ length out = length buffer ∧ parseOrder out n = Some o) ∧
  (∀ bs o', bytes_ok bs → parseOrder bs (length bs) = Some o' →
     order_bytes o' = slice 0 ORDER_SIZE bs).
Proof.
  intros Ho Hb. split.
  - rewrite serializeOrder_bytes by done. split; [done|]. split.
    + rewrite length_app, length_order_bytes, length_drop by done. lia.
    + by apply parseOrder_bytes.
  - intros bs o' Hbs Hparse. by apply order_bytes_parse with (length bs).
Qed.

(** C12: the wire format round-trips, in both directions.  What the three
    serializers write into a large enough buffer parses back to the message,
    and re-serializing a message parsed from bytes gives those bytes again,
    for quotes, trades and the unaligned 25-byte orders. *)
Theorem wire_roundtrip (buffer : list Z) :
  (∀ q, QuoteMessage_ok q → (QUOTE_SIZE ≤ length buffer)%nat →
     (let '(out, n) := serializeQuote buffer (length buffer) q in
      n = QUOTE_SIZE ∧ length out = length buffer ∧ parseQuote out n = Some q) ∧
     (∀ bs q', bytes_ok bs → parseQuote bs (length bs) = Some q' →
        slice 0 QUOTE_SIZE (serializeQuote buffer (length buffer) q').1 = slice 0 QUOTE_SIZE bs)) ∧
  (∀ t, TradeMessage_ok t → (TRADE_SIZE ≤ length buffer)%nat →
     (let '(out, n) := serializeTrade buffer (length buffer) t in
      n = TRADE_SIZE ∧ length out = length buffer ∧ parseTrade out n = Some t) ∧
     (∀ bs t', bytes_ok bs → parseTrade bs (length bs) = Some t' →
        slice 0 TRADE_SIZE (serializeTrade buffer (length buffer) t').1 = slice 0 TRADE_SIZE bs)) ∧
  (∀ o, OrderMessage_ok o → (ORDER_SIZE ≤ length buffer)%nat →
     (let '(out, n) := serializeOrder buffer (length buffer) o in
      n = ORDER_SIZE ∧ length out = length buffer ∧ parseOrder out n = Some o) ∧
     (∀ bs o', bytes_ok bs → parseOrder bs (length bs) = Some o' → order_bytes o' = slice 0 ORDER_SIZE bs)).
Proof. split_and!; intros; [by apply quote_roundtrip|by apply trade_roundtrip|by apply order_roundtrip]. Qed.

(** What [validateQuote] accepts. *)
Definition quote_valid (q : QuoteMessage) : Prop :=
  0 < Quote.bidQuantity q ∧ 0 < Quote.askQuantity q ∧
  0 ≤ Quote.bidPrice q ≤ Quote.askPrice q ∧ Quote.askPrice q < 2 ^ 31.

Lemma validateQuote_spec q :
  QuoteMessage_ok q → validateQuote q = true ↔ quote_valid q.
Proof.
  intros (_ & _ & Hbq & Hbp & Haq & Hap). unfold validateQuote, quote_valid.
  rewrite Z.gtb_ltb. unfold i32. rewrite wrap_small by lia.
  destruct (Z.eqb_spec (Quote.bidQuantity q) 0), (Z.eqb_spec (Quote.askQuantity q) 0),
    (Z.ltb_spec (Quote.askPrice q) 0), (Z.ltb_spec (Quote.bidPrice q) (2 ^ 31)); cbn [orb];
    repeat (match goal with |- context [?a <? ?b] => destruct (Z.ltb_spec a b) end; cbn [orb]);
    split; intros; (done || lia).
Qed.

Definition trade_valid (t : TradeMessage) : Prop := 0 < Trade.quantity t ∧ 0 ≤ Trade.price t.

Lemma validateTrade_spec t :
  TradeMessage_ok t → validateTrade t = true ↔ trade_valid t.
Proof.
  intros (_ & _ & Hq & Hp). unfold validateTrade, trade_valid.
  destruct (Z.eqb_spec (Trade.quantity t) 0), (Z.ltb_spec (Trade.price t) 0);
    split; intros; (done || lia).
Qed.

Lemma validateHeader_spec h :
  validateHeader h = true ↔
  (Header.type h = Header.QUOTE_TYPE ∧ Header.length h = 32) ∨
  (Header.type h = Header.TRADE_TYPE ∧ Header.length h = 24).
Proof.
  unfold validateHeader, Header.QUOTE_TYPE, Header.TRADE_TYPE, QUOTE_SIZE, TRADE_SIZE.
  destruct (Z.eqb_spec (Header.type h) 1), (Z.eqb_spec (Header.type h) 2),
    (Z.eqb_spec (Header.length h) (Z.of_nat 32)), (Z.eqb_spec (Header.length h) (Z.of_nat 24));
    cbn [negb andb]; split; intros; (done || lia).
Qed.

(** [dispatch] on a body of wire bytes: it succeeds exactly when the header
    announces a known type with its length, the body is long enough and the
    decoded message passes validation; then the matching callback runs once
    on the decoded message, and otherwise no callback runs at all. *)
Theorem dispatch_spec {S} (onQuote : QuoteMessage → S → S) (onTrade : TradeMessage → S → S)
    (header : MessageHeader) (body : list Z) (s : S) :
  bytes_ok body →
  let '(ok, s') := dispatch onQuote onTrade header body (length body) s in
  (ok = true ∧ Header.type header = Header.QUOTE_TYPE ∧ Header.length header = 32 ∧
     ∃ q rest, body = quote_bytes q ++ rest ∧ QuoteMessage_ok q ∧ quote_valid q ∧ s' = onQuote q s) ∨
  (ok = true ∧ Header.type header = Header.TRADE_TYPE ∧ Header.length header = 24 ∧
     ∃ t rest, body = trade_bytes t ++ rest ∧ TradeMessage_ok t ∧ trade_valid t ∧ s' = onTrade t s) ∨
  (ok = false ∧ s' = s ∧
     (validateHeader header = false ∨ Z.of_nat (length body) < Header.length header ∨
      (∀ q rest, Header.type header = Header.QUOTE_TYPE → QuoteMessage_ok q →
         body = quote_bytes q ++ rest → ¬ quote_valid q) ∧
      (∀ t rest, Header.type header = Header.TRADE_TYPE → TradeMessage_ok t →
         body = trade_bytes t ++ rest → ¬ trade_valid t))).
Proof.
  intros Hb. unfold dispatch.
  destruct (validateHeader header) eqn:Hv; cbn [negb orb]; [|by right; right; auto].
  branch as Hlen; guards; [by right; right; auto|].
  apply validateHeader_spec in Hv as [[Ht Hl]|[Ht Hl]]; rewrite Ht; cbn [Z.eqb Header.QUOTE_TYPE
    Header.TRADE_TYPE Pos.eqb].
  - destruct (parseQuote body (length body)) as [q|] eqn:Hp.
    + assert (Hq := parseQuote_ok _ _ _ Hb ltac:(done) Hp).
      assert (Hqb := quote_bytes_parse _ _ _ Hb ltac:(done) Hp).
      destruct (validateQuote q) eqn:Hval; cbn [negb].
      * left. repeat split; [done|]. exists q, (drop QUOTE_SIZE body).
        split; [|by rewrite <- validateQuote_spec].
        rewrite Hqb. unfold slice. by rewrite drop_0, take_drop.
      * right; right. repeat split. right; right. split; [|by intros ?? Heq; discriminate Heq].
        intros q' rest _ Hq' ->. rewrite parseQuote_bytes in Hp; [|done|].
        { injection Hp as <-. rewrite <- validateQuote_spec by done. by rewrite Hval. }
        rewrite length_app, length_quote_bytes by done. lia.
    + exfalso. unfold parseQuote in Hp. case_match eqn:Hg; [|done]. guards. sizes. lia.
  - destruct (parseTrade body (length body)) as [t|] eqn:Hp.
    + assert (Htr := parseTrade_ok _ _ _ Hb ltac:(done) Hp).
      assert (Htb := trade_bytes_parse _ _ _ Hb ltac:(done) Hp).
      destruct (validateTrade t) eqn:Hval; cbn [negb].
      * right; left. repeat split; [done|]. exists t, (drop TRADE_SIZE body).
        split; [|by rewrite <- validateTrade_spec].
        rewrite Htb. unfold slice. by rewrite drop_0, take_drop.
      * right; right. repeat split. right; right. split; [by intros ?? Heq; discriminate Heq|].
        intros t' rest _ Ht' ->. rewrite parseTrade_bytes in Hp; [|done|].
        { injection Hp as <-. rewrite <- validateTrade_spec by done. by rewrite Hval. }
        rewrite length_app, length_trade_bytes by done. lia.
    + exfalso. unfold parseTrade in Hp. case_match eqn:Hg; [|done]. guards. sizes. lia.
Qed.

(** ** Concrete messages *)

Definition sample_symbol : list Z := [73; 66; 77; 0; 0; 0; 0; 0].
Definition sample_quote : QuoteMessage := Quote.mk sample_symbol 1000000000 100 13990 200 14010.
Definition sample_trade : TradeMessage := Trade.mk sample_symbol 1000000001 50 14000.
Definition sample_order : OrderMessage :=
  Order.mk sample_symbol 1000000000 100 14010 char_B (replicate 3 0).

Lemma quote_roundtrip_witness :
  let '(out, n) := serializeQuote (replicate 40 255) 40 sample_quote in
  n = QUOTE_SIZE ∧ length out = 40%nat ∧ parseQuote out n = Some sample_quote.
Proof.
  apply (quote_roundtrip (replicate 40 255) sample_quote);
    concrete.
Defined.

Lemma trade_roundtrip_witness :
  let '(out, n) := serializeTrade (replicate 40 255) 40 sample_trade in
  n = TRADE_SIZE ∧ length out = 40%nat ∧ parseTrade out n = Some sample_trade.
Proof.
  apply (trade_roundtrip (replicate 40 255) sample_trade);
    concrete.
Defined.

Lemma order_roundtrip_witness :
  let '(out, n) := serializeOrder (replicate 40 255) 40 sample_order in
  n = ORDER_SIZE ∧ length out = 40%nat ∧ parseOrder out n = Some sample_order.
Proof.
  apply (order_roundtrip (replicate 40 255) sample_order);
    concrete.
Defined.

Lemma dispatch_spec_witness :
  let body := quote_bytes sample_quote in
  bytes_ok body ∧
  dispatch (λ _ n, n + 1) (λ _ n, n + 100) (Header.mk 32 1) body (length body) 0 = (true, 1).
Proof.
  assert (Hb : bytes_ok (quote_bytes sample_quote)) by concrete.
  split; [exact Hb|].
  pose proof (dispatch_spec (λ _ n, n + 1) (λ _ n, n + 100) (Header.mk 32 1)
                (quote_bytes sample_quote) 0 Hb) as H.
  destruct (dispatch (λ _ n, n + 1) (λ _ n, n + 100) (Header.mk 32 1) (quote_bytes sample_quote)
              (length (quote_bytes sample_quote)) 0) as [ok s'] eqn:E.
  vm_compute in E. exact (eq_sym E).
Defined.
