(* ===== verification/MessageBuffer.v ===== *)
(** * Receive buffer ([include/message_buffer.h], [src/message_buffer.cpp])

    A 64 KiB byte ring that reassembles the market-data stream.  The abstract
    state is the list of unread bytes; the theorems show that every operation
    is the corresponding list operation and that framing does not depend on
    how the stream was cut into reads. *)
From S2P Require Import Prelude Ring Metrics Message MessageSerializer MessageParser.
Import WireFormat.

Inductive ExtractResult :=
| SUCCESS | NEED_MORE_DATA | INVALID_HEADER | INVALID_LENGTH | UNKNOWN_TYPE | PARTIAL_BODY.

#[global] Instance ExtractResult_eq_dec : EqDecision ExtractResult.
Proof. solve_decision. Defined.

Definition BUFFER_SIZE : Z := 65536.

Record MessageBuffer := mkBuffer { buffer : list Z; head : Z; tail : Z; used : Z }.
#[global] Instance eta_MessageBuffer : Settable MessageBuffer := fun r =>
  mkBuffer (buffer r) (head r) (tail r) (used r).

(** The constructor leaves the bytes uninitialised: any array [mem] will do. *)
Definition MessageBuffer_init (mem : list Z) : MessageBuffer := mkBuffer mem 0 0 0.

Definition append (b : MessageBuffer) (data : list Z) : bool * MessageBuffer :=
  let len := Z.of_nat (List.length data) in
  if len =? 0 then (true, b) else
  if len >? BUFFER_SIZE - used b then (false, b) else
  let first := Z.min len (BUFFER_SIZE - tail b) in
  let mem := list_inserts (Z.to_nat (tail b)) (take (Z.to_nat first) data) (buffer b) in
  let second := len - first in
  let mem := if negb (second =? 0) then list_inserts 0 (drop (Z.to_nat first) data) mem else mem in
  (true, b <| buffer := mem |>
           <| tail := Z.land (tail b + len) (BUFFER_SIZE - 1) |>
           <| used ::= λ u, u64 (u + len) |>).

(** [peekMessage]: the result, the header when it was written, and the start
    index and contiguous length of the body when those were written. *)
Definition peekMessage (b : MessageBuffer) : ExtractResult * option MessageHeader * option (Z * Z) :=
  if used b <? Z.of_nat HEADER_SIZE then (NEED_MORE_DATA, None, None) else
  let len := buffer b !!! Z.to_nat (head b) in
  let type := buffer b !!! Z.to_nat (Z.land (head b + 1) (BUFFER_SIZE - 1)) in
  let header := Header.mk len type in
  if negb (validateHeader header) then (INVALID_HEADER, Some header, None) else
  let total := Z.of_nat HEADER_SIZE + Header.length header in
  if used b <? total then (NEED_MORE_DATA, Some header, None) else
  let bodyStart := Z.land (head b + Z.of_nat HEADER_SIZE) (BUFFER_SIZE - 1) in
  let contiguousBody := Z.min (Header.length header) (BUFFER_SIZE - bodyStart) in
  (SUCCESS, Some header, Some (bodyStart, contiguousBody)).

Definition consume (b : MessageBuffer) (header : MessageHeader) : MessageBuffer :=
  let total := Z.of_nat HEADER_SIZE + Header.length header in
  b <| head := Z.land (head b + total) (BUFFER_SIZE - 1) |>
    <| used ::= λ u, u64 (u - total) |>.

(** The body bytes the callers assemble: one copy when the body is
    contiguous, two when it wraps around the end of the array. *)
Definition gather (b : MessageBuffer) (header : MessageHeader) (bodyStart contiguous : Z) : list Z :=
  if contiguous =? Header.length header
  then slice (Z.to_nat bodyStart) (Z.to_nat (Header.length header)) (buffer b)
  else slice (Z.to_nat bodyStart) (Z.to_nat contiguous) (buffer b) ++
       slice 0 (Z.to_nat (Header.length header - contiguous)) (buffer b).

(** [extractMessage] writes the body at the start of [messageBuffer]. *)
Definition extractMessage (b : MessageBuffer) (messageBuffer : list Z)
  : ExtractResult * option MessageHeader * list Z * MessageBuffer :=
  match peekMessage b with
  | (SUCCESS, Some header, Some (body, contiguous)) =>
      (SUCCESS, Some header, list_inserts 0 (gather b header body contiguous) messageBuffer,
       consume b header)
  | (r, h, _) => (r, h, messageBuffer, b)
  end.

Definition availableBytes (b : MessageBuffer) : Z := used b.
Definition availableSpace (b : MessageBuffer) : Z := BUFFER_SIZE - used b.
Definition clear (b : MessageBuffer) : MessageBuffer :=
  b <| head := 0 |> <| tail := 0 |> <| used := 0 |>.

(** The scan loop of [resync] from offset [i]; [fuel] bounds the iterations. *)
Fixpoint resync_scan (b : MessageBuffer) (limit i : Z) (fuel : nat) : option Z :=
  match fuel with
  | O => None
  | S fuel =>
      if i + 1 <? limit then
        let length := buffer b !!! Z.to_nat (Z.land (head b + i) (BUFFER_SIZE - 1)) in
        let type := buffer b !!! Z.to_nat (Z.land (head b + i + 1) (BUFFER_SIZE - 1)) in
        let plausible :=
          if (type =? Header.QUOTE_TYPE) && (length =? Z.of_nat QUOTE_SIZE) then true
          else if (type =? Header.TRADE_TYPE) && (length =? Z.of_nat TRADE_SIZE) then true
          else false in
        if plausible then Some i else resync_scan b limit (i + 1) fuel
      else None
  end.

Definition MAX_SCAN : Z := 256.

Definition resync (b : MessageBuffer) (m : SystemMetrics) : Z * MessageBuffer * SystemMetrics :=
  let available := used b in
  if available <? Z.of_nat HEADER_SIZE + 1 then (available, b, m) else
  let limit := if available <? MAX_SCAN then available else MAX_SCAN in
  match resync_scan b limit 1 (Z.to_nat limit) with
  | Some i => (i, b, m)
  | None =>
      let m := if limit >=? 8 then incResyncEvents m else m in
      (limit, b <| head := Z.land (head b + limit) (BUFFER_SIZE - 1) |>
                <| used ::= λ u, u64 (u - Z.min u limit) |>, m)
  end.

(** ** Invariant and abstraction *)

Definition cap : nat := Z.to_nat BUFFER_SIZE.

Definition buffer_inv (b : MessageBuffer) : Prop :=
  List.length (buffer b) = cap ∧ 0 ≤ head b < BUFFER_SIZE ∧ 0 ≤ used b ≤ BUFFER_SIZE ∧
  tail b = (head b + used b) mod BUFFER_SIZE.

(** The unread bytes, oldest first. *)
Definition contents (b : MessageBuffer) : list Z :=
  ring_view cap (buffer b) (Z.to_nat (head b)) (Z.to_nat (used b)).

Lemma land_mask x : Z.land x (BUFFER_SIZE - 1) = x mod BUFFER_SIZE.
Proof. change (BUFFER_SIZE - 1) with (Z.ones 16). by rewrite Z.land_ones. Qed.

Lemma cap_pos : (0 < cap)%nat.
Proof. unfold cap, BUFFER_SIZE. lia. Qed.

Lemma cap_Z : Z.of_nat cap = BUFFER_SIZE.
Proof. unfold cap, BUFFER_SIZE. lia. Qed.

Lemma length_contents b : length (contents b) = Z.to_nat (used b).
Proof. apply length_ring_view. Qed.

(** Positions in [Z] and in [nat]. *)
Lemma to_nat_pos h i :
  0 ≤ h → 0 ≤ i → Z.to_nat ((h + i) mod BUFFER_SIZE) = ((Z.to_nat h + Z.to_nat i) mod cap)%nat.
Proof.
  intros. unfold cap. rewrite <- Z2Nat.inj_add, Z2Nat.inj_mod by (unfold BUFFER_SIZE; lia). done.
Qed.

Lemma contents_lookup b i :
  buffer_inv b → 0 ≤ i < used b →
  contents b !!! Z.to_nat i = buffer b !!! Z.to_nat ((head b + i) mod BUFFER_SIZE).
Proof.
  intros (_ & Hh & Hu & _) Hi. unfold contents. rewrite ring_view_total by lia.
  by rewrite to_nat_pos by lia.
Qed.

#[global] Arguments BUFFER_SIZE : simpl never.

(** ** The specification: a bounded byte queue *)

Module Spec.
(** What [peekMessage] reports about the unread bytes. *)
Definition peek (l : list Z) : ExtractResult * option MessageHeader :=
  match l with
  | len :: type :: body =>
      let header := Header.mk len type in
      if negb (validateHeader header) then (INVALID_HEADER, Some header)
      else if Z.of_nat (List.length body) <? len then (NEED_MORE_DATA, Some header)
      else (SUCCESS, Some header)
  | _ => (NEED_MORE_DATA, None)
  end.

(** One message off the front. *)
Definition next (l : list Z) : option (MessageHeader * list Z * list Z) :=
  match peek l with
  | (SUCCESS, Some header) =>
      let n := Z.to_nat (Header.length header) in
      Some (header, slice 2 n l, drop (2 + n) l)
  | _ => None
  end.

(** All complete messages at the front, and what is left. *)
Fixpoint drain (fuel : nat) (l : list Z) : list (MessageHeader * list Z) * list Z :=
  match fuel with
  | O => ([], l)
  | S fuel =>
      match next l with
      | Some (h, body, rest) => let '(ms, r) := drain fuel rest in ((h, body) :: ms, r)
      | None => ([], l)
      end
  end.
End Spec.

(** ** Operations preserve the invariant and refine the queue *)

Lemma buffer_init_inv mem : List.length mem = cap → buffer_inv (MessageBuffer_init mem).
Proof. intros. unfold buffer_inv, MessageBuffer_init. cbn. done. Qed.

Lemma append_refines b data :
  buffer_inv b →
  let '(ok, b') := append b data in
  buffer_inv b' ∧
  if ok then contents b' = contents b ++ data ∧ used b + Z.of_nat (List.length data) ≤ BUFFER_SIZE
  else b' = b ∧ used b + Z.of_nat (List.length data) > BUFFER_SIZE.
Proof.
  intros Hinv. assert (Hinv' := Hinv). destruct Hinv' as (Hlen & Hh & Hu & Ht).
  unfold append. set (len := Z.of_nat (List.length data)).
  branch.
  { destruct data; [|cbn in *; lia]. rewrite app_nil_r. cbn. split; [done|]. split; [done|lia]. }
  rewrite Z.gtb_ltb. branch; [by split; [|split; [|lia]]|].
  assert (Htail : 0 ≤ tail b < BUFFER_SIZE)
    by (rewrite Ht; apply Z.mod_pos_bound; unfold BUFFER_SIZE; lia).
  cbn -[BUFFER_SIZE]. rewrite land_mask.
  (* both copies, the second one possibly empty *)
  set (first := Z.min len (BUFFER_SIZE - tail b)).
  assert (Hsecond : (if negb (len - first =? 0)
            then list_inserts 0 (drop (Z.to_nat first) data)
                   (list_inserts (Z.to_nat (tail b)) (take (Z.to_nat first) data) (buffer b))
            else list_inserts (Z.to_nat (tail b)) (take (Z.to_nat first) data) (buffer b)) =
          list_inserts 0 (drop (Z.to_nat first) data)
            (list_inserts (Z.to_nat (tail b)) (take (Z.to_nat first) data) (buffer b))).
  { destruct (Z.eqb_spec (len - first) 0); [|done]. cbn [negb].
    by rewrite drop_ge by (unfold first, len in *; lia). }
  rewrite Hsecond. clear Hsecond.
  assert (Hview := ring_view_append cap cap_pos (buffer b) (Z.to_nat (head b))
            (Z.to_nat (used b)) data).
  rewrite <- to_nat_pos, <- Ht in Hview by lia. cbv zeta in Hview.
  replace (Nat.min (List.length data) (cap - Z.to_nat (tail b))) with (Z.to_nat first) in Hview
    by (unfold first, len, cap; lia).
  rewrite u64_small by (unfold BUFFER_SIZE in *; lia).
  split; [repeat split; cbn -[BUFFER_SIZE]|].
  - by rewrite !length_inserts.
  - lia.
  - lia.
  - lia.
  - lia.
  - rewrite Ht, Z.add_mod_idemp_l by (unfold BUFFER_SIZE; lia). f_equal; lia.
  - unfold contents. cbn -[BUFFER_SIZE cap]. split; [|lia].
    rewrite <- Hview by (unfold cap in *; lia). f_equal. unfold len. lia.
Qed.

Lemma consume_refines b header :
  buffer_inv b → 0 ≤ Header.length header → 2 + Header.length header ≤ used b →
  buffer_inv (consume b header) ∧
  contents (consume b header) = drop (Z.to_nat (2 + Header.length header)) (contents b).
Proof.
  intros (Hlen & Hh & Hu & Ht) Hl Htot. unfold consume, HEADER_SIZE. cbn -[Z.add].
  change (Z.of_nat 2) with 2. rewrite land_mask, u64_small by (unfold BUFFER_SIZE in *; lia).
  assert (Hmod := Z.mod_pos_bound (head b + (2 + Header.length header)) BUFFER_SIZE ltac:(done)).
  split; [repeat split; cbn -[Z.add]; try lia; try done|].
  - rewrite Ht, Z.add_mod_idemp_l by done. f_equal. lia.
  - unfold contents. cbn -[Z.add Z.to_nat cap]. rewrite to_nat_pos by lia.
    rewrite Z2Nat.inj_sub by lia. apply ring_view_drop; [apply cap_pos|lia].
Qed.

Lemma clear_refines b : buffer_inv b → buffer_inv (clear b) ∧ contents (clear b) = [].
Proof. intros (Hlen & Hh & Hu & Ht). unfold buffer_inv, clear. by cbn. Qed.

#[global] Opaque cap.

(** The bytes [gather] copies are the bytes of the queue. *)
Lemma gather_contents b header :
  buffer_inv b → 0 ≤ Header.length header → 2 + Header.length header ≤ used b →
  let bodyStart := (head b + 2) mod BUFFER_SIZE in
  gather b header bodyStart (Z.min (Header.length header) (BUFFER_SIZE - bodyStart)) =
    slice 2 (Z.to_nat (Header.length header)) (contents b).
Proof.
  intros (Hlen & Hh & Hu & Ht) Hl Htot bodyStart. set (n := Header.length header) in *.
  assert (Hbs := Z.mod_pos_bound (head b + 2) BUFFER_SIZE ltac:(done)). fold bodyStart in Hbs.
  (* the body is the view that starts two bytes later *)
  assert (Hbody : slice 2 (Z.to_nat n) (contents b) =
            ring_view cap (buffer b) (Z.to_nat bodyStart) (Z.to_nat n)).
  { unfold slice, contents, bodyStart. rewrite to_nat_pos by lia.
    change (Z.to_nat 2) with 2%nat. rewrite <- (ring_view_drop cap cap_pos) by lia.
    symmetry. apply ring_view_take; [apply cap_pos|lia]. }
  assert (Hcap := cap_Z).
  rewrite Hbody, (ring_view_slices cap cap_pos) by first [assumption | lia].
  assert (Hmin : Nat.min (Z.to_nat n) (cap - Z.to_nat bodyStart) =
                 Z.to_nat (Z.min n (BUFFER_SIZE - bodyStart))) by lia.
  rewrite Hmin. unfold gather. fold n.
  destruct (Z.eqb_spec (Z.min n (BUFFER_SIZE - bodyStart)) n) as [Heq|Hne].
  - rewrite Heq, Nat.sub_diag. unfold slice at 3. by rewrite take_0, app_nil_r.
  - by rewrite Z2Nat.inj_sub by lia.
Qed.

Lemma peek_refines b :
  buffer_inv b →
  match peekMessage b with
  | (SUCCESS, Some header, Some (bodyStart, contiguous)) =>
      Spec.peek (contents b) = (SUCCESS, Some header) ∧ validateHeader header = true ∧
      0 ≤ Header.length header ∧ 2 + Header.length header ≤ used b ∧
      bodyStart = (head b + 2) mod BUFFER_SIZE ∧
      contiguous = Z.min (Header.length header) (BUFFER_SIZE - bodyStart)
  | (r, h, None) => Spec.peek (contents b) = (r, h) ∧ r ≠ SUCCESS
  | _ => False
  end.
Proof.
  intros Hinv. assert (Hinv' := Hinv). destruct Hinv' as (Hlen & Hh & Hu & Ht).
  assert (Hl := length_contents b). unfold peekMessage, HEADER_SIZE. change (Z.of_nat 2) with 2.
  rewrite !land_mask. branch.
  { destruct (contents b) as [|x [|y l]]; simpl in Hl; try lia; by split. }
  assert (H0 := contents_lookup b 0 Hinv ltac:(lia)).
  assert (H1 := contents_lookup b 1 Hinv ltac:(lia)).
  rewrite Z.add_0_r, Z.mod_small in H0 by lia. rewrite <- H0, <- H1.
  destruct (contents b) as [|len [|type body]]; simpl in Hl; try lia.
  change (Z.to_nat 0) with 0%nat. change (Z.to_nat 1) with 1%nat.
  cbn [lookup_total list_lookup_total Spec.peek]. cbv zeta.
  cbn [Header.length].
  destruct (validateHeader (Header.mk len type)) eqn:Hv; cbn [negb]; [|by split].
  destruct (Z.ltb_spec (used b) (2 + len)) as [Hlt|Hge];
    destruct (Z.ltb_spec (Z.of_nat (List.length body)) len); try lia; [by split|].
  assert (0 ≤ len)
    by (apply validateHeader_spec in Hv as [[_ Hv]|[_ Hv]]; cbn [Header.length] in Hv; lia).
  repeat split; try done; cbn [Header.length]; lia.
Qed.

(** Extraction is "one message off the front": on success the caller's buffer
    starts with the body and the queue has lost exactly that frame; otherwise
    nothing changes. *)
Lemma extract_refines b out :
  buffer_inv b →
  let '(r, h, out', b') := extractMessage b out in
  buffer_inv b' ∧
  match Spec.next (contents b) with
  | Some (header, body, rest) =>
      r = SUCCESS ∧ h = Some header ∧ out' = list_inserts 0 body out ∧ contents b' = rest ∧
      validateHeader header = true ∧ Z.of_nat (List.length body) = Header.length header ∧
      used b' = used b - (2 + Header.length header)
  | None => Spec.peek (contents b) = (r, h) ∧ r ≠ SUCCESS ∧ out' = out ∧ b' = b
  end.
Proof.
  intros Hinv. assert (Hpeek := peek_refines b Hinv). unfold extractMessage, Spec.next.
  destruct (peekMessage b) as [[[] oh] [[bs co]|]]; try (destruct oh; done);
    try (destruct Hpeek as [-> Hne]; split; [done|]; destruct oh; done);
    try (destruct oh, Hpeek; done).
  - destruct oh as [header|]; [|done].
    destruct Hpeek as (-> & Hv & Hl & Hu & -> & ->).
    destruct (consume_refines b header Hinv Hl Hu) as [Hinv' Hc].
    assert (H := gather_contents b header Hinv Hl Hu). cbv zeta in H. rewrite H. clear H.
    split; [done|]. rewrite Hc. repeat split; try done.
    + f_equal. rewrite Z2Nat.inj_add by lia. done.
    + rewrite length_slice; [lia|]. rewrite length_contents. lia.
    + unfold consume, HEADER_SIZE. cbn -[Z.add]. change (Z.of_nat 2) with 2.
      destruct Hinv as (_ & _ & Hu' & _). apply u64_small. unfold BUFFER_SIZE in *. lia.
Qed.

(** ** Framing does not depend on how the stream is cut *)

Lemma peek_app l k header :
  Spec.peek l = (SUCCESS, Some header) → Spec.peek (l ++ k) = (SUCCESS, Some header).
Proof.
  destruct l as [|len [|type body]]; try done. cbn [Spec.peek app].
  destruct (negb _); [done|].
  destruct (Z.ltb_spec (Z.of_nat (List.length body)) len); [done|].
  destruct (Z.ltb_spec (Z.of_nat (List.length (body ++ k))) len) as [Hlt|]; [|done].
  rewrite length_app in Hlt. lia.
Qed.

Lemma peek_success l header :
  Spec.peek l = (SUCCESS, Some header) →
  validateHeader header = true ∧ 2 + Header.length header ≤ Z.of_nat (List.length l).
Proof.
  destruct l as [|len [|type body]]; try done. cbn [Spec.peek].
  destruct (negb _) eqn:Hv; [done|].
  destruct (Z.ltb_spec (Z.of_nat (List.length body)) len); [done|].
  intros [= <-]. apply negb_false_iff in Hv. split; [done|]. cbn. lia.
Qed.

Lemma validHeader_length header : validateHeader header = true → 24 ≤ Header.length header ≤ 32.
Proof. intros [[_ H]|[_ H]]%validateHeader_spec; lia. Qed.

Lemma next_inv l header body rest :
  Spec.next l = Some (header, body, rest) →
  validateHeader header = true ∧ Z.of_nat (List.length body) = Header.length header ∧
  ∃ hd, List.length hd = 2%nat ∧ l = hd ++ body ++ rest.
Proof.
  unfold Spec.next. destruct (Spec.peek l) as [[] [h|]] eqn:Hp; intros [= <- <- <-].
  apply peek_success in Hp as [Hv Hl]. assert (H := validHeader_length h Hv).
  split; [done|]. rewrite length_slice by lia. split; [lia|].
  exists (take 2 l). split; [rewrite length_take; lia|].
  unfold slice. set (n := Z.to_nat (Header.length h)).
  replace (drop (S (S n)) l) with (drop n (drop 2 l)) by by rewrite drop_drop.
  by rewrite !take_drop.
Qed.

Lemma next_app l k header body rest :
  Spec.next l = Some (header, body, rest) → Spec.next (l ++ k) = Some (header, body, rest ++ k).
Proof.
  unfold Spec.next. destruct (Spec.peek l) as [[] [h|]] eqn:Hp; intros [= <- <- <-].
  rewrite (peek_app _ k _ Hp). apply peek_success in Hp as [Hv Hl].
  assert (H := validHeader_length h Hv).
  unfold slice. rewrite !drop_app_le by lia. rewrite take_app_le; [done|].
  rewrite length_drop. lia.
Qed.

Lemma next_shorter l header body rest :
  Spec.next l = Some (header, body, rest) → (List.length rest < List.length l)%nat.
Proof.
  intros (Hv & _ & hd & Hhd & ->)%next_inv. rewrite !length_app. lia.
Qed.

(** More fuel than bytes changes nothing. *)
Lemma drain_fuel f1 f2 l :
  (List.length l ≤ f1)%nat → (List.length l ≤ f2)%nat → Spec.drain f1 l = Spec.drain f2 l.
Proof.
  revert f2 l. induction f1 as [|f1 IH]; intros f2 l H1 H2.
  { destruct l; [|simpl in H1; lia]. by destruct f2. }
  destruct f2 as [|f2]; [destruct l; [done|simpl in H2; lia]|].
  cbn [Spec.drain]. destruct (Spec.next l) as [[[h body] rest]|] eqn:Hn; [|done].
  apply next_shorter in Hn. by rewrite (IH f2) by lia.
Qed.

Definition drain_all (l : list Z) := Spec.drain (List.length l) l.

Lemma drain_all_unfold l :
  drain_all l =
    match Spec.next l with
    | Some (h, body, rest) => let '(ms, r) := drain_all rest in ((h, body) :: ms, r)
    | None => ([], l)
    end.
Proof.
  unfold drain_all. destruct (Spec.next l) as [[[h body] rest]|] eqn:Hn.
  - assert (H := next_shorter _ _ _ _ Hn). destruct l as [|x l]; [simpl in H; lia|].
    cbn [List.length Spec.drain]. rewrite Hn. rewrite (drain_fuel _ (List.length rest)); simpl in *; done || lia.
  - destruct l; [done|]. cbn [List.length Spec.drain]. by rewrite Hn.
Qed.

(** Draining a longer stream is draining the prefix and going on with what
    was left: the reassembly is insensitive to chunk boundaries. *)
Lemma drain_all_app l k :
  drain_all (l ++ k) =
    let '(ms, r) := drain_all l in let '(ms', r') := drain_all (r ++ k) in (ms ++ ms', r').
Proof.
  remember (List.length l) as n eqn:Hn. revert l Hn.
  induction n as [n IH] using (well_founded_induction Nat.lt_wf_0). intros l ->.
  rewrite (drain_all_unfold l). destruct (Spec.next l) as [[[h body] rest]|] eqn:Hnx.
  - rewrite drain_all_unfold, (next_app _ _ _ _ _ Hnx).
    rewrite (IH _ (next_shorter _ _ _ _ Hnx) rest eq_refl).
    destruct (drain_all rest) as [ms r]. by destruct (drain_all (r ++ k)).
  - destruct (drain_all (l ++ k)). done.
Qed.

(** ** Resynchronisation *)

(** Offset [i] of the queue looks like the header of a message. *)
Definition plausible_at (l : list Z) (i : Z) : Prop :=
  (l !!! Z.to_nat (i + 1) = Header.QUOTE_TYPE ∧ l !!! Z.to_nat i = Z.of_nat QUOTE_SIZE) ∨
  (l !!! Z.to_nat (i + 1) = Header.TRADE_TYPE ∧ l !!! Z.to_nat i = Z.of_nat TRADE_SIZE).

#[global] Instance plausible_at_dec l i : Decision (plausible_at l i).
Proof. unfold plausible_at. apply _. Defined.

Lemma resync_scan_spec b limit i fuel :
  buffer_inv b → 0 ≤ i → limit ≤ used b → limit - i ≤ Z.of_nat fuel →
  match resync_scan b limit i fuel with
  | Some j => i ≤ j ∧ j + 1 < limit ∧ plausible_at (contents b) j ∧
              ∀ k, i ≤ k < j → ¬ plausible_at (contents b) k
  | None => ∀ k, i ≤ k → k + 1 < limit → ¬ plausible_at (contents b) k
  end.
Proof.
  intros Hinv Hi Hlim. revert i Hi. induction fuel as [|fuel IH]; intros i Hi Hfuel.
  { simpl. intros. lia. }
  cbn [resync_scan]. branch; [|intros; lia].
  rewrite !land_mask. rewrite <- contents_lookup by (done || lia).
  rewrite <- (Z.add_assoc (head b)), <- contents_lookup by (done || lia).
  set (length := contents b !!! Z.to_nat i). set (type := contents b !!! Z.to_nat (i + 1)).
  assert (Hpl : (if (type =? Header.QUOTE_TYPE) && (length =? Z.of_nat QUOTE_SIZE) then true
          else if (type =? Header.TRADE_TYPE) && (length =? Z.of_nat TRADE_SIZE) then true
          else false) = bool_decide (plausible_at (contents b) i)).
  { symmetry. repeat branch; (apply bool_decide_eq_true || apply bool_decide_eq_false);
      unfold plausible_at; fold type length; rewrite <- ?andb_false_iff in *.
    - by left.
    - by right.
    - apply andb_false_iff in Hguard0, Hguard1. rewrite !Z.eqb_neq in *. tauto. }
  rewrite Hpl. case_bool_decide as Hp.
  - split; [lia|]. split; [lia|]. split; [done|]. intros; lia.
  - specialize (IH (i + 1) ltac:(lia) ltac:(lia)).
    destruct (resync_scan b limit (i + 1) fuel).
    + destruct IH as (?&?&?&Hk). repeat split; try done; try lia.
      intros k Hr. destruct (decide (k = i)) as [->|]; [done|]. apply Hk; lia.
    + intros k ??. destruct (decide (k = i)) as [->|]; [done|]. apply IH; lia.
Qed.

Definition scan_limit (b : MessageBuffer) : Z := Z.min (used b) MAX_SCAN.

(** The three outcomes of [resync].  It moves the head only when no offset of
    the scanned window looks like a header; a plausible header is reported by
    its offset and the buffer stays where it is. *)
Lemma resync_cases b m :
  buffer_inv b →
  let '(n, b', m') := resync b m in
  (used b < 3 ∧ n = used b ∧ b' = b ∧ m' = m) ∨
  (3 ≤ used b ∧ 1 ≤ n ∧ n + 1 < scan_limit b ∧ plausible_at (contents b) n ∧
     (∀ k, 1 ≤ k < n → ¬ plausible_at (contents b) k) ∧ b' = b ∧ m' = m) ∨
  (3 ≤ used b ∧ n = scan_limit b ∧
     (∀ k, 1 ≤ k → k + 1 < n → ¬ plausible_at (contents b) k) ∧
     buffer_inv b' ∧ contents b' = drop (Z.to_nat n) (contents b) ∧
     m' = if 8 <=? n then incResyncEvents m else m).
Proof.
  intros Hinv. unfold resync, scan_limit, HEADER_SIZE. change (Z.of_nat 2 + 1) with 3.
  branch; [by left|].
  replace (if used b <? MAX_SCAN then used b else MAX_SCAN) with (Z.min (used b) MAX_SCAN)
    by (destruct (Z.ltb_spec (used b) MAX_SCAN); lia).
  set (limit := Z.min (used b) MAX_SCAN).
  assert (3 ≤ limit ≤ used b) by (unfold limit, MAX_SCAN; lia).
  assert (Hscan := resync_scan_spec b limit 1 (Z.to_nat limit) Hinv ltac:(lia) ltac:(lia) ltac:(lia)).
  destruct (resync_scan b limit 1 (Z.to_nat limit)) as [j|].
  { right; left. destruct Hscan as (?&?&?&?). split; [done|]. auto 10. }
  destruct Hinv as (Hlen & Hh & Hu & Ht).
  rewrite land_mask, Z.geb_leb. right; right. split; [done|]. split; [done|]. split; [intros; by apply Hscan|].
  assert (Hm := Z.mod_pos_bound (head b + limit) BUFFER_SIZE ltac:(done)).
  unfold buffer_inv, contents. cbn -[Z.mul Z.min]. rewrite !(Z.min_r (used b)) by lia.
  rewrite u64_small by (unfold BUFFER_SIZE in *; lia).
  split; [split; [done|]; split; [lia|]; split; [lia|]|split; [|done]].
  - rewrite Ht, Z.add_mod_idemp_l by done. f_equal. lia.
  - rewrite to_nat_pos, Z2Nat.inj_sub by lia. apply ring_view_drop; [apply cap_pos|lia].
Qed.

(** ** Reading a stream

    A reader appends each chunk it receives and then extracts messages until
    none is complete, the way the market data client does. *)

Fixpoint extract_all (fuel : nat) (b : MessageBuffer) : list (MessageHeader * list Z) * MessageBuffer :=
  match fuel with
  | O => ([], b)
  | S fuel =>
      match extractMessage b (replicate 32 0) with
      | (SUCCESS, Some header, out, b) =>
          let '(ms, b) := extract_all fuel b in
          ((header, take (Z.to_nat (Header.length header)) out) :: ms, b)
      | (_, _, _, b) => ([], b)
      end
  end.

Fixpoint read_stream (b : MessageBuffer) (chunks : list (list Z))
  : option (list (MessageHeader * list Z) * MessageBuffer) :=
  match chunks with
  | [] => Some ([], b)
  | chunk :: chunks =>
      let '(ok, b) := append b chunk in
      if ok then
        let '(ms, b) := extract_all (Z.to_nat (used b)) b in
        '(ms', b) ← read_stream b chunks; Some (ms ++ ms', b)
      else None
  end.

Lemma extract_all_drain fuel b :
  buffer_inv b → used b ≤ Z.of_nat fuel →
  let '(ms, b') := extract_all fuel b in
  buffer_inv b' ∧ drain_all (contents b) = (ms, contents b').
Proof.
  revert b. induction fuel as [|fuel IH]; intros b Hinv Hf.
  { split; [done|]. assert (H := length_contents b).
    destruct (contents b); [done|simpl in H; lia]. }
  cbn [extract_all]. assert (Hex := extract_refines b (replicate 32 0) Hinv).
  rewrite drain_all_unfold.
  destruct (extractMessage b (replicate 32 0)) as [[[r h] out] b']. destruct Hex as [Hinv' Hex].
  destruct (Spec.next (contents b)) as [[[header body] rest]|] eqn:Hn.
  - destruct Hex as (-> & -> & -> & Hc & Hv & Hbody & Hu). apply validHeader_length in Hv.
    specialize (IH b' Hinv' ltac:(lia)). destruct (extract_all fuel b') as [ms b''].
    rewrite Hc in IH. destruct IH as [Hinv'' ->]. split; [done|]. repeat f_equal.
    rewrite inserts_prefix by (rewrite length_replicate; lia).
    symmetry. rewrite take_app_le by lia. apply take_ge. lia.
  - destruct Hex as (_ & Hr & _ & ->). destruct r; try done; destruct h; done.
Qed.

(** After a full drain nothing more can be taken off. *)
Lemma drain_all_rest l ms r : drain_all l = (ms, r) → drain_all r = ([], r).
Proof.
  remember (List.length l) as n eqn:Hn. revert l ms Hn.
  induction n as [n IH] using (well_founded_induction Nat.lt_wf_0). intros l ms ->.
  rewrite drain_all_unfold. destruct (Spec.next l) as [[[h body] rest]|] eqn:Hnx.
  - destruct (drain_all rest) as [ms' r'] eqn:Hd. intros [= <- <-].
    by apply (IH _ (next_shorter _ _ _ _ Hnx) rest ms' eq_refl).
  - intros [= <- <-]. by rewrite drain_all_unfold, Hnx.
Qed.

Theorem read_stream_chunks b chunks ms b' :
  buffer_inv b → drain_all (contents b) = ([], contents b) →
  read_stream b chunks = Some (ms, b') →
  buffer_inv b' ∧ drain_all (contents b ++ concat chunks) = (ms, contents b').
Proof.
  revert b ms. induction chunks as [|chunk chunks IH]; intros b ms Hinv Hd; cbn [read_stream].
  { intros [= <- <-]. by rewrite app_nil_r. }
  assert (Happ := append_refines b chunk Hinv). destruct (append b chunk) as [[] b1]; [|done].
  destruct Happ as [Hinv1 [Hc1 _]].
  assert (Hex := extract_all_drain (Z.to_nat (used b1)) b1 Hinv1).
  destruct (extract_all (Z.to_nat (used b1)) b1) as [ms1 b2].
  destruct Hex as [Hinv2 Hd1]; [destruct Hinv1 as (_&_&?&_); lia|].
  destruct (read_stream b2 chunks) as [[ms2 b3]|] eqn:Hrs; [|done]. intros [= <- <-].
  apply (IH b2 ms2 Hinv2) in Hrs as [Hinv3 Hd3]; [|by eapply drain_all_rest].
  split; [done|]. cbn [concat]. rewrite app_assoc, <- Hc1, drain_all_app, Hd1.
  cbn. by rewrite Hd3.
Qed.

(** The frames of a list of messages, as the simulator and the feed send
    them. *)
Definition frame (m : MessageHeader * list Z) : list Z :=
  Header.length m.1 :: Header.type m.1 :: m.2.

Definition frame_ok (m : MessageHeader * list Z) : Prop :=
  validateHeader m.1 = true ∧ Z.of_nat (List.length m.2) = Header.length m.1.

Lemma next_frame m rest :
  frame_ok m → Spec.next (frame m ++ rest) = Some (m.1, m.2, rest).
Proof.
  destruct m as [[len type] body]. intros [Hv Hb]. cbn [fst snd Header.length] in *.
  unfold Spec.next, frame. cbn [app Spec.peek fst snd Header.length Header.type].
  rewrite Hv. cbn [negb].
  destruct (Z.ltb_spec (Z.of_nat (List.length (body ++ rest))) len) as [Hlt|_];
    [rewrite length_app in Hlt; lia|]. cbn [Header.length].
  replace (Z.to_nat len) with (List.length body) by lia.
  unfold slice. simpl. by rewrite drop_0, take_app_length, drop_app_length.
Qed.

Lemma length_frame m : frame_ok m → (26 ≤ List.length (frame m) ≤ 34)%nat.
Proof. intros [Hv Hb]. apply validHeader_length in Hv. unfold frame. simpl. lia. Qed.

(** A proper prefix of a frame holds no message. *)
Lemma next_partial m k :
  frame_ok m → (k < List.length (frame m))%nat → Spec.next (take k (frame m)) = None.
Proof.
  intros Hok Hk. assert (Hlen := length_frame m Hok). destruct Hok as [Hv Hb].
  unfold frame in *. simpl in Hk.
  destruct k as [|[|k]]; [done..|]. unfold Spec.next. cbn [take Spec.peek].
  destruct m as [[len type] body]. cbn [fst snd Header.length Header.type] in *.
  rewrite Hv. cbn [negb].
  destruct (Z.ltb_spec (Z.of_nat (List.length (take k body))) len) as [|Hge]; [done|].
  rewrite length_take in Hge. lia.
Qed.

(** The messages whose frames lie completely within the first [k] bytes of
    the stream of [ms]. *)
Fixpoint arrived (ms : list (MessageHeader * list Z)) (k : nat) : list (MessageHeader * list Z) :=
  match ms with
  | [] => []
  | m :: ms =>
      if (List.length (frame m) <=? k)%nat then m :: arrived ms (k - List.length (frame m)) else []
  end.

(** A reader that holds no further message after [n] of them has taken off
    exactly the ones that arrived. *)
Lemma arrived_take n p suffix ms :
  Forall frame_ok ms → p ++ suffix = concat (frame <$> drop n ms) → Spec.next p = None →
  arrived ms (List.length (concat (frame <$> take n ms) ++ p)) = take n ms.
Proof.
  intros Hms. revert n. induction Hms as [|m ms Hm Hms IH]; intros n Hp Hn; [by destruct n|].
  destruct n as [|n].
  - cbn [take fmap list_fmap concat app arrived drop] in *.
    destruct (Nat.leb_spec (List.length (frame m)) (List.length p)) as [Hle|]; [|done].
    exfalso. assert (Hpm : p = frame m ++ drop (List.length (frame m)) p).
    { rewrite <- (take_drop (List.length (frame m)) p) at 1. f_equal.
      rewrite <- (take_app_le p suffix), Hp by done. apply take_app_length. }
    by rewrite Hpm, next_frame in Hn.
  - cbn [take fmap list_fmap concat arrived drop] in *.
    rewrite <- app_assoc, length_app.
    destruct (Nat.leb_spec (List.length (frame m)) (List.length (frame m) +
      List.length (concat (frame <$> take n ms) ++ p))) as [_|]; [|lia].
    f_equal. rewrite Nat.add_comm, Nat.add_sub. by apply IH.
Qed.

(** The whole stream has arrived with its last byte. *)
Lemma arrived_all ms : Forall frame_ok ms → arrived ms (List.length (concat (frame <$> ms))) = ms.
Proof.
  intros Hms. assert (H := arrived_take (List.length ms) [] [] ms Hms).
  rewrite firstn_all, drop_all, (app_nil_r (concat _)) in H. by apply H.
Qed.

(** Draining a prefix of a stream of frames yields the messages that arrived
    completely and leaves less than one frame. *)
Lemma drain_all_prefix ms l suffix :
  Forall frame_ok ms → l ++ suffix = concat (frame <$> ms) →
  ∃ n p, drain_all l = (take n ms, p) ∧ (List.length p < 34)%nat ∧
         l = concat (frame <$> take n ms) ++ p ∧ p ++ suffix = concat (frame <$> drop n ms).
Proof.
  intros Hms. revert l. induction Hms as [|m ms Hm Hms IH]; intros l Hl.
  { cbn in Hl. apply app_eq_nil in Hl as [-> ->].
    exists 0%nat, []. split; [done|]. split; [simpl; lia|done]. }
  cbn [fmap list_fmap concat] in Hl.
  assert (Hf := length_frame m Hm).
  destruct (decide (List.length (frame m) ≤ List.length l)%nat) as [Hle|Hlt].
  - assert (Hl' : ∃ l', l = frame m ++ l').
    { exists (drop (List.length (frame m)) l).
      rewrite <- (take_drop (List.length (frame m)) l) at 1. f_equal.
      rewrite <- (take_app_le l suffix), Hl by done. apply take_app_length. }
    destruct Hl' as [l' ->]. rewrite <- app_assoc in Hl. apply app_inv_head in Hl.
    destruct (IH l' Hl) as (n & p & Hd & Hp & Hl' & Hs). exists (S n), p.
    rewrite drain_all_unfold, next_frame, Hd by done. cbn [take drop fmap list_fmap concat].
    rewrite <- app_assoc, <- Hl'. split; [by destruct m|]. auto.
  - exists 0%nat, l. assert (Hl' : l = take (List.length l) (frame m)).
    { assert (H := take_app_le (frame m) (concat (frame <$> ms)) (List.length l) ltac:(lia)).
      rewrite <- H, <- Hl. by rewrite take_app_length. }
    rewrite drain_all_unfold, Hl', next_partial by (done || lia). rewrite <- Hl'.
    split; [done|]. split; [lia|]. split; [done|]. done.
Qed.

Lemma read_stream_frames chunks b ms suffix :
  buffer_inv b → (List.length (contents b) < 34)%nat → Forall frame_ok ms →
  contents b ++ concat chunks ++ suffix = concat (frame <$> ms) → Spec.next (contents b) = None →
  Forall (λ c, Z.of_nat (List.length c) ≤ BUFFER_SIZE - 34) chunks →
  ∃ n b', read_stream b chunks = Some (take n ms, b') ∧ buffer_inv b' ∧
    (List.length (contents b') < 34)%nat ∧ Spec.next (contents b') = None ∧
    contents b ++ concat chunks = concat (frame <$> take n ms) ++ contents b' ∧
    contents b' ++ suffix = concat (frame <$> drop n ms).
Proof.
  revert b ms. induction chunks as [|chunk chunks IH]; intros b ms Hinv Hlt Hms Hcat Hnone Hsz.
  { exists 0%nat, b. rewrite app_nil_r. auto 10. }
  apply Forall_cons in Hsz as [Hc Hsz]. cbn [read_stream concat] in *.
  assert (Happ := append_refines b chunk Hinv). assert (Hu := length_contents b).
  assert (Hu' := Hinv). destruct Hu' as (_ & _ & Hu' & _).
  destruct (append b chunk) as [[] b1]; [|destruct Happ as (_ & _ & ?); lia].
  destruct Happ as [Hinv1 [Hc1 _]].
  assert (Hex := extract_all_drain (Z.to_nat (used b1)) b1 Hinv1).
  destruct (extract_all (Z.to_nat (used b1)) b1) as [ms1 b2].
  destruct Hex as [Hinv2 Hd1]; [destruct Hinv1 as (_&_&?&_); lia|].
  rewrite <- app_assoc, app_assoc, <- Hc1 in Hcat.
  destruct (drain_all_prefix ms (contents b1) (concat chunks ++ suffix) Hms Hcat)
    as (n & p & Hd & Hp & Hl & Hs).
  rewrite Hd in Hd1. injection Hd1 as <- ->. apply drain_all_rest in Hd.
  rewrite drain_all_unfold in Hd.
  destruct (IH b2 (drop n ms) Hinv2 Hp) as (n' & b3 & -> & Hinv3 & Hp3 & Hn3 & Hl3 & Hs3); try done.
  { by apply Forall_drop. }
  { destruct (Spec.next (contents b2)) as [[[h body] rest]|]; [|done].
    by destruct (drain_all rest). }
  exists (n + n')%nat, b3. cbn. rewrite app_assoc, <- Hc1, Hl, <- app_assoc, Hl3.
  rewrite take_take_drop, drop_drop in *. do 4 (split; [done|]).
  split; [|done]. rewrite app_assoc. f_equal.
  rewrite <- (take_take_drop ms n n'), fmap_app, concat_app. done.
Qed.

(** A reader that keeps no message at the end of a stream of whole frames has
    delivered them all. *)
Lemma frames_exhausted p n ms :
  Forall frame_ok ms → Spec.next p = None → p = concat (frame <$> drop n ms) → take n ms = ms ∧ p = [].
Proof.
  intros Hms Hn Hs. destruct (drop n ms) as [|m rest] eqn:Hdrop.
  - split; [|done]. rewrite <- (take_drop n ms) at 2. by rewrite Hdrop, app_nil_r.
  - exfalso. apply (Forall_drop _ n) in Hms. rewrite Hdrop in Hms.
    apply Forall_cons in Hms as [Hm _].
    cbn [fmap list_fmap concat] in Hs. by rewrite Hs, next_frame in Hn.
Qed.

(** A stream of whole frames, read from the start. *)
Lemma read_whole_stream mem ms chunks :
  List.length mem = cap → Forall frame_ok ms → concat chunks = concat (frame <$> ms) →
  Forall (λ c, Z.of_nat (List.length c) ≤ BUFFER_SIZE - 34) chunks →
  ∃ b', read_stream (MessageBuffer_init mem) chunks = Some (ms, b') ∧ contents b' = [].
Proof.
  intros Hmem Hms Hcat Hsz.
  destruct (read_stream_frames chunks (MessageBuffer_init mem) ms [])
    as (n & b' & Hr & _ & _ & Hn & _ & Hs);
    [by apply buffer_init_inv|simpl; lia|done|by rewrite app_nil_r|done|done|].
  rewrite app_nil_r in Hs. destruct (frames_exhausted _ n ms Hms Hn Hs) as [Ht Hp].
  rewrite Ht in Hr. by exists b'.
Qed.

(** C11: Stream reassembly.  However a stream of well-formed frames is cut into
    reads of at most 65502 bytes (what a partial frame leaves free in the
    ring), the reader delivers exactly the messages whose last byte has been
    received, in order and once each, and keeps exactly the bytes of the
    unfinished one; when the stream ends on a frame boundary every message
    has been delivered and the buffer is empty. *)
Theorem stream_reassembly (mem : list Z) ms chunks suffix :
  List.length mem = cap → Forall frame_ok ms →
  concat chunks ++ suffix = concat (frame <$> ms) →
  Forall (λ c, Z.of_nat (List.length c) ≤ BUFFER_SIZE - 34) chunks →
  ∃ b', let complete := arrived ms (List.length (concat chunks)) in
    read_stream (MessageBuffer_init mem) chunks = Some (complete, b') ∧ buffer_inv b' ∧
    concat chunks = concat (frame <$> complete) ++ contents b' ∧
    (List.length (contents b') < 34)%nat ∧
    (suffix = [] → complete = ms ∧ contents b' = []).
Proof.
  intros Hmem Hms Hcat Hsz.
  destruct (read_stream_frames chunks (MessageBuffer_init mem) ms suffix)
    as (n & b' & Hr & Hinv & Hlt & Hn & Hl & Hs);
    [by apply buffer_init_inv|simpl; lia|done|done|done|done|].
  exists b'. cbv zeta. change (contents (MessageBuffer_init mem) ++ concat chunks) with (concat chunks) in Hl.
  assert (Ha := arrived_take n _ _ _ Hms Hs Hn). rewrite <- Hl in Ha. rewrite Ha.
  do 4 (split; [done|]). intros ->.
  rewrite app_nil_r in Hs. by apply frames_exhausted.
Qed.

(** A quote and half a trade, in two reads: the quote is delivered, the four
    bytes of the trade are kept. *)
Lemma stream_reassembly_witness :
  let quote := (Header.mk 32 Header.QUOTE_TYPE, replicate 32 0) in
  let trade := (Header.mk 24 Header.TRADE_TYPE, replicate 24 0) in
  ∃ b', read_stream (MessageBuffer_init (replicate cap 0))
      [take 10 (frame quote); drop 10 (frame quote) ++ [24; 2; 0; 0]] = Some ([quote], b') ∧
    contents b' = [24; 2; 0; 0].
Proof.
  intros quote trade.
  destruct (stream_reassembly (replicate cap 0) [quote; trade]
    [take 10 (frame quote); drop 10 (frame quote) ++ [24; 2; 0; 0]] (replicate 22 0))
    as (b' & H1 & _ & H2 & _ & _).
  - apply length_replicate.
  - repeat constructor.
  - reflexivity.
  - repeat constructor; unfold BUFFER_SIZE; simpl; lia.
  - exists b'. split; [exact H1|].
    apply (app_inv_head (frame quote)). symmetry. exact H2.
Defined.
