(* ===== verification/CircularBuffer.v ===== *)
(** * The circular buffer ([include/circular_buffer.h])

    [CircularBuffer<T, CAPACITY>]: a fixed array with a head, a tail and a
    count; a push on a full buffer overwrites the oldest element.  The type
    class [Deque] states what its client, the VWAP calculator, relies on; the
    last section discharges it.  Indexes are [size_t] values below the
    capacity, kept as [nat]. *)
From S2P Require Import Prelude Ring.

(** ** The interface: a bounded double-ended queue that forgets the oldest *)

Class DequeOps (A Q : Type) := {
  dq_push_back : A → Q → Q;
  dq_pop_front : Q → Q;
  dq_front : Q → A;
  dq_at : Q → nat → A;
  dq_size : Q → nat
}.

Definition dq_empty `{DequeOps A Q} (q : Q) : bool := (dq_size q =? 0)%nat.

(** [dq_inv] holds of every reachable queue, and [dq_list] is what a queue
    stores, oldest first. *)
Class Deque (A Q : Type) `{DequeOps A Q} `{!Inhabited A} (cap : nat) := {
  dq_inv : Q → Prop;
  dq_list : Q → list A;
  dq_bound q : dq_inv q → (length (dq_list q) ≤ cap)%nat;
  dq_size_spec q : dq_inv q → dq_size q = length (dq_list q);
  dq_at_spec q i : dq_inv q → (i < length (dq_list q))%nat → dq_at q i = dq_list q !!! i;
  dq_front_spec q : dq_inv q → dq_list q ≠ [] → dq_front q = dq_list q !!! 0%nat;
  dq_push_inv x q : dq_inv q → dq_inv (dq_push_back x q);
  dq_push_spec x q : dq_inv q →
    dq_list (dq_push_back x q) =
      (if (length (dq_list q) <? cap)%nat then dq_list q else drop 1 (dq_list q)) ++ [x];
  dq_pop_inv q : dq_inv q → dq_inv (dq_pop_front q);
  dq_pop_spec q : dq_inv q → dq_list (dq_pop_front q) = drop 1 (dq_list q)
}.

(** ** The template *)

Module CircularBuffer.
Record t (A : Type) := mk { buffer : list A; head : nat; tail : nat; count : nat }.
Arguments mk {A} _ _ _ _.
Arguments buffer {A} _.
Arguments head {A} _.
Arguments tail {A} _.
Arguments count {A} _.

Section ops.
Context {A : Type} `{!Inhabited A} (CAPACITY : nat).
Implicit Types b : t A.

(** A default-constructed array behind a zero head, tail and count. *)
Definition init : t A := mk (replicate CAPACITY inhabitant) 0 0 0.

Definition push_back (item : A) b : t A :=
  if (count b =? CAPACITY)%nat then
    mk (<[tail b := item]> (buffer b)) ((head b + 1) mod CAPACITY)
       ((tail b + 1) mod CAPACITY) (count b)
  else
    mk (<[tail b := item]> (buffer b)) (head b) ((tail b + 1) mod CAPACITY) (count b + 1).

(** The item is made from [args] in both branches. *)
Definition emplace_back {Args} (make : Args → A) (args : Args) b : t A :=
  if (count b =? CAPACITY)%nat then
    mk (<[tail b := make args]> (buffer b)) ((head b + 1) mod CAPACITY)
       ((tail b + 1) mod CAPACITY) (count b)
  else
    mk (<[tail b := make args]> (buffer b)) (head b) ((tail b + 1) mod CAPACITY) (count b + 1).

Lemma emplace_back_push {Args} (make : Args → A) (args : Args) b : emplace_back make args b = push_back (make args) b.
Proof using Type. done. Qed.

Definition pop_front b : t A :=
  if (0 <? count b)%nat then
    mk (buffer b) ((head b + 1) mod CAPACITY) (tail b) (count b - 1)
  else b.

Definition front b : A := buffer b !!! head b.

Definition back b : A :=
  let idx := ((tail b + CAPACITY - 1) mod CAPACITY)%nat in buffer b !!! idx.

(** [operator[]] *)
Definition at_ b (idx : nat) : A := buffer b !!! ((head b + idx) mod CAPACITY)%nat.

Definition size b : nat := count b.
Definition empty b : bool := (count b =? 0)%nat.
Definition full b : bool := (count b =? CAPACITY)%nat.
Definition clear b : t A := mk (buffer b) 0 0 0.

(** [begin()] to [end()]: indexes [0] to [count], each dereferenced by
    [operator[]]. *)
Definition iterate b : list A := at_ b <$> seq 0 (count b).
End ops.

Section proofs.
Context {A : Type} `{!Inhabited A} (CAPACITY : nat) (HC : (0 < CAPACITY)%nat).
Implicit Types b : t A.

Definition inv b : Prop :=
  length (buffer b) = CAPACITY ∧ (head b < CAPACITY)%nat ∧ (count b ≤ CAPACITY)%nat ∧
  tail b = ((head b + count b) mod CAPACITY)%nat.

Definition elements b : list A := ring_view CAPACITY (buffer b) (head b) (count b).

Lemma length_elements b : length (elements b) = count b.
Proof. apply length_ring_view. Qed.

Lemma ring_init_inv : inv (init CAPACITY).
Proof using HC.
  unfold inv, init. cbn. rewrite length_replicate, Nat.mod_small by lia. lia.
Qed.

Lemma init_elements : elements (init CAPACITY) = [].
Proof. done. Qed.

Lemma push_back_inv x b : inv b → inv (push_back CAPACITY x b).
Proof using HC.
  intros (Hl & Hh & Hc & Ht). unfold inv, push_back.
  destruct (Nat.eqb_spec (count b) CAPACITY) as [He|Hne]; cbn; rewrite length_insert.
  - split; [done|]. split; [apply ring_pos_lt; lia|]. split; [lia|].
    rewrite Ht, !Nat.Div0.add_mod_idemp_l. f_equal. lia.
  - split; [done|]. split; [done|]. split; [lia|].
    rewrite Ht, Nat.Div0.add_mod_idemp_l. f_equal. lia.
Qed.

Lemma push_back_elements x b :
  inv b →
  elements (push_back CAPACITY x b) =
    (if (length (elements b) <? CAPACITY)%nat then elements b else drop 1 (elements b)) ++ [x].
Proof using HC.
  intros (Hl & Hh & Hc & Ht). rewrite length_elements. unfold elements, push_back.
  destruct (Nat.eqb_spec (count b) CAPACITY) as [He|Hne]; cbn -[Nat.ltb]; rewrite Ht.
  - rewrite He, Nat.ltb_irrefl.
    replace ((head b + CAPACITY) mod CAPACITY)%nat with (head b).
    + by apply ring_view_overwrite.
    + replace (head b + CAPACITY)%nat with (head b + 1 * CAPACITY)%nat by lia.
      rewrite Nat.Div0.mod_add. by rewrite Nat.mod_small.
  - destruct (Nat.ltb_spec (count b) CAPACITY); [|lia].
    rewrite Nat.add_1_r. apply ring_view_snoc; done || lia.
Qed.

(** A buffer that has received [h] holds the last [CAPACITY] of it, seen
    through any projection of its elements. *)
Lemma push_back_recent {B} (f : A → B) x b (h : list B) :
  inv b → f <$> elements b = drop (length h - CAPACITY) h →
  f <$> elements (push_back CAPACITY x b) = drop (length (h ++ [f x]) - CAPACITY) (h ++ [f x]).
Proof using HC.
  intros Hinv He. assert (Hlen := f_equal length He). rewrite length_fmap, length_drop in Hlen.
  rewrite push_back_elements, Hlen, length_app by done. cbn [length].
  destruct (Nat.ltb_spec (length h - (length h - CAPACITY)) CAPACITY);
    rewrite fmap_app, ?fmap_drop, He; cbn [fmap list_fmap].
  - replace (length h + 1 - CAPACITY)%nat with 0%nat by lia.
    by replace (length h - CAPACITY)%nat with 0%nat by lia.
  - rewrite drop_drop. rewrite (drop_app_le h) by lia. do 2 f_equal. lia.
Qed.

Lemma pop_front_inv b : inv b → inv (pop_front CAPACITY b).
Proof using HC.
  intros (Hl & Hh & Hc & Ht). unfold inv, pop_front.
  destruct (Nat.ltb_spec 0 (count b)); [|done]. cbn.
  split; [done|]. split; [apply ring_pos_lt; lia|]. split; [lia|].
  rewrite Ht, Nat.Div0.add_mod_idemp_l. f_equal. lia.
Qed.

Lemma pop_front_elements b :
  inv b → elements (pop_front CAPACITY b) = drop 1 (elements b).
Proof using HC.
  intros (Hl & Hh & Hc & Ht). unfold elements, pop_front.
  destruct (Nat.ltb_spec 0 (count b)); cbn.
  - apply ring_view_drop; lia.
  - by replace (count b) with 0%nat by lia.
Qed.

Lemma at_elements b i : (i < length (elements b))%nat → at_ CAPACITY b i = elements b !!! i.
Proof.
  rewrite length_elements. intros Hi. symmetry. by apply ring_view_total.
Qed.

Lemma front_elements b :
  inv b → elements b ≠ [] → front b = elements b !!! 0%nat.
Proof.
  intros (_ & Hh & _) Hne. unfold elements, front in *. rewrite ring_view_total.
  - rewrite Nat.add_0_r, Nat.mod_small; done.
  - destruct (count b); [done|lia].
Qed.

Lemma back_elements b :
  inv b → elements b ≠ [] → last (elements b) = Some (back CAPACITY b).
Proof using HC.
  intros (Hl & Hh & Hc & Ht) Hne.
  assert (0 < count b)%nat by (destruct (count b) eqn:E; [|lia]; unfold elements in Hne;
    rewrite E in Hne; done).
  rewrite last_lookup, length_elements. unfold elements.
  rewrite ring_view_lookup by lia. unfold back. do 2 f_equal. rewrite Ht.
  replace ((head b + count b) mod CAPACITY + CAPACITY - 1)%nat
    with ((head b + count b) mod CAPACITY + (CAPACITY - 1))%nat by lia.
  rewrite Nat.Div0.add_mod_idemp_l.
  replace (head b + count b + (CAPACITY - 1))%nat
    with (head b + Nat.pred (count b) + 1 * CAPACITY)%nat by lia.
  by rewrite Nat.Div0.mod_add.
Qed.

Lemma clear_inv b : inv b → inv (clear b) ∧ elements (clear b) = [].
Proof using HC. intros (Hl & Hh & Hc & Ht). unfold inv, clear. cbn. rewrite Nat.mod_small; lia || auto with lia. Qed.

Lemma iterate_elements b : iterate CAPACITY b = elements b.
Proof. done. Qed.
End proofs.
End CircularBuffer.

(** ** The template implements the interface *)

Definition ring_deque_ops (A : Type) `{!Inhabited A} (cap : nat) : DequeOps A (CircularBuffer.t A) := {|
  dq_push_back := CircularBuffer.push_back cap;
  dq_pop_front := CircularBuffer.pop_front cap;
  dq_front := CircularBuffer.front;
  dq_at := CircularBuffer.at_ cap;
  dq_size := CircularBuffer.size
|}.

Definition ring_deque (A : Type) `{!Inhabited A} (cap : nat) (Hcap : (0 < cap)%nat) :
  Deque A (CircularBuffer.t A) (H := ring_deque_ops A cap) cap.
Proof.
  refine (Build_Deque _ _ _ _ _ (CircularBuffer.inv cap) (CircularBuffer.elements cap)
            _ _ _ _ _ _ _ _); cbn.
  - intros q (_ & _ & Hc & _). by rewrite CircularBuffer.length_elements.
  - intros q _. symmetry. apply CircularBuffer.length_elements.
  - intros q i _. by apply CircularBuffer.at_elements.
  - intros q. by apply CircularBuffer.front_elements.
  - by apply CircularBuffer.push_back_inv.
  - intros x q. by apply CircularBuffer.push_back_elements.
  - by apply CircularBuffer.pop_front_inv.
  - by apply CircularBuffer.pop_front_elements.
Defined.

(** ** The element type of the VWAP window *)

Record VwapTradeRecord := mkTradeRecord
  { timestamp : Z; quantity : Z; price : Z; priceVolume : Z }.

(** The default constructor, and the one that caches the product. *)
Definition VwapTradeRecord_zero : VwapTradeRecord := mkTradeRecord 0 0 0 0.

Definition VwapTradeRecord_make (ts qty p : Z) : VwapTradeRecord :=
  mkTradeRecord ts qty p (u64 (u64 p * u64 qty)).

#[export] Instance VwapTradeRecord_inhabited : Inhabited VwapTradeRecord :=
  populate VwapTradeRecord_zero.
#[export] Instance VwapTradeRecord_eq_dec : EqDecision VwapTradeRecord.
Proof. solve_decision. Defined.

(** [CircularBuffer<VwapTradeRecord, 10000>] *)
Definition VwapWindowBuffer_capacity : nat := Z.to_nat 10000.
Notation VwapWindowBuffer := (CircularBuffer.t VwapTradeRecord).

Lemma VwapWindowBuffer_capacity_pos : (0 < VwapWindowBuffer_capacity)%nat.
Proof. apply Nat.ltb_lt. vm_compute. reflexivity. Qed.

#[export] Instance vwap_window_ops : DequeOps VwapTradeRecord VwapWindowBuffer :=
  ring_deque_ops VwapTradeRecord VwapWindowBuffer_capacity.
#[export] Instance vwap_window_deque :
  Deque VwapTradeRecord VwapWindowBuffer VwapWindowBuffer_capacity :=
  ring_deque VwapTradeRecord VwapWindowBuffer_capacity VwapWindowBuffer_capacity_pos.
