(* ===== verification/VwapSpec.v ===== *)
(** * What the VWAP calculator promises

    The sliding window as a list filtered by timestamp, with the sums, the
    clock and the counters the calculator publishes; the invariant of that
    specification and the closed forms of whole histories: the window is the
    history less what expired, every sum is a sum of accepted trades, and the
    first window completes exactly when two accepted trades are one window
    apart. *)
From S2P Require Import Prelude Message CircularBuffer.

(** ** Sums over a window *)

Definition sum_of (f : VwapTradeRecord → Z) (l : list VwapTradeRecord) : Z := Zsum (f <$> l).

Lemma sum_of_app f l k : sum_of f (l ++ k) = sum_of f l + sum_of f k.
Proof. unfold sum_of. by rewrite fmap_app, Zsum_app. Qed.

Lemma sum_of_cons f x l : sum_of f (x :: l) = f x + sum_of f l.
Proof. done. Qed.

Lemma sum_of_single f x : sum_of f [x] = f x.
Proof. unfold sum_of. cbn. lia. Qed.

#[global] Arguments sum_of : simpl never.

Lemma sum_of_take_drop f k l : sum_of f (take k l) + sum_of f (drop k l) = sum_of f l.
Proof. by rewrite <- sum_of_app, take_drop. Qed.

Lemma sum_of_nonneg f l : Forall (λ r, 0 ≤ f r) l → 0 ≤ sum_of f l.
Proof. intros H. apply Zsum_nonneg. by rewrite Forall_fmap. Qed.

Lemma sum_of_take_S f l i :
  (i < length l)%nat → sum_of f (take (S i) l) = sum_of f (take i l) + f (l !!! i).
Proof.
  intros Hi. destruct (lookup_lt_is_Some_2 l i Hi) as [x Hx].
  rewrite (take_S_r l i x Hx), sum_of_app, (list_lookup_total_correct _ _ _ Hx).
  unfold sum_of. cbn. lia.
Qed.

Lemma sum_of_take_range f l i :
  Forall (λ r, 0 ≤ f r) l → 0 ≤ sum_of f (take i l) ≤ sum_of f l.
Proof.
  intros H. rewrite <- (sum_of_take_drop f i l).
  pose proof (sum_of_nonneg f (take i l) ltac:(by apply Forall_take)).
  pose proof (sum_of_nonneg f (drop i l) ltac:(by apply Forall_drop)). lia.
Qed.

(** ** The specification: a filtered list *)

Module Spec.
Record t := mk {
  window : list VwapTradeRecord;   (** the retained trades, oldest first *)
  lostVolume : Z; lostPV : Z;      (** what overwritten trades left in the sums *)
  start : Z; complete : bool; last : Z; total : Z; rejected : Z }.
#[global] Instance eta_t : Settable t := fun r =>
  mk (window r) (lostVolume r) (lostPV r) (start r) (complete r) (last r) (total r) (rejected r).

Definition init : t := mk [] 0 0 0 false 0 0 0.

Definition volume (s : t) : Z := sum_of quantity (window s) + lostVolume s.
Definition pv (s : t) : Z := sum_of priceVolume (window s) + lostPV s.

(** The oldest timestamp that is still inside a window of [W] nanoseconds. *)
Definition cutoff (W ts : Z) : Z := Z.max 0 (ts - W).
Definition live (W ts : Z) : list VwapTradeRecord → list VwapTradeRecord :=
  filter (λ r, cutoff W ts ≤ timestamp r).

Definition record (trade : TradeMessage) : VwapTradeRecord :=
  mkTradeRecord (Trade.timestamp trade) (Trade.quantity trade) (Trade.price trade)
    (Trade.price trade * Trade.quantity trade).

(** Trades the calculator turns away. *)
Definition invalid (trade : TradeMessage) : bool :=
  (Trade.price trade <=? 0) || (Trade.quantity trade =? 0).
Definition late (s : t) (trade : TradeMessage) : bool :=
  negb (last s =? 0) && (Trade.timestamp trade <? last s).
Definition overflows (s : t) (trade : TradeMessage) : bool :=
  (pv s + Trade.price trade * Trade.quantity trade >? UINT64_MAX) ||
  (volume s + Trade.quantity trade >? UINT64_MAX).

Definition reject (s : t) : t := s <| rejected ::= λ r, u64 (r + 1) |>.

(** A full window forgets its oldest trade without correcting the sums. *)
Definition push (cap : nat) (s : t) (r : VwapTradeRecord) : t :=
  if (length (window s) <? cap)%nat then s <| window ::= λ l, l ++ [r] |>
  else
    let gone := take 1 (window s) in
    s <| window ::= λ l, drop 1 l ++ [r] |>
      <| lostVolume ::= λ x, x + sum_of quantity gone |>
      <| lostPV ::= λ x, x + sum_of priceVolume gone |>.

Definition accept (cap : nat) (W : Z) (s : t) (trade : TradeMessage) : t :=
  let ts := Trade.timestamp trade in
  let s := if start s =? 0 then s <| start := ts |> else s in
  let pushed := push cap s (record trade) in
  let kept := live W ts (window pushed) in
  let s := pushed <| window := kept |>
                  <| start := if (length kept =? length (window pushed))%nat then start pushed
                              else timestamp (kept !!! 0%nat) |>
                  <| last := ts |>
                  <| total ::= λ n, u64 (n + 1) |> in
  s <| complete ::= λ c, c || (ts - start s >=? W) |>.

Definition add (cap : nat) (W : Z) (s : t) (trade : TradeMessage) : t :=
  if invalid trade || late s trade || overflows s trade then reject s
  else accept cap W s trade.
End Spec.

#[global] Arguments Spec.live : simpl never.
#[global] Arguments Spec.push : simpl never.

(** What every retained record satisfies. *)
Definition record_ok (last : Z) (r : VwapTradeRecord) : Prop :=
  0 ≤ timestamp r ≤ last ∧ 0 < quantity r < 2 ^ 32 ∧ 0 < price r < 2 ^ 31 ∧
  priceVolume r = price r * quantity r.

Definition by_time (r1 r2 : VwapTradeRecord) : Prop := timestamp r1 ≤ timestamp r2.

Record spec_inv (cap : nat) (s : Spec.t) : Prop := {
  si_records : Forall (record_ok (Spec.last s)) (Spec.window s);
  si_sorted : StronglySorted by_time (Spec.window s);
  si_bound : (length (Spec.window s) ≤ cap)%nat;
  si_lost : 0 ≤ Spec.lostVolume s ∧ 0 ≤ Spec.lostPV s;
  si_volume : Spec.volume s < 2 ^ 64;
  si_pv : Spec.pv s < 2 ^ 64;
  si_start : 0 ≤ Spec.start s ≤ Spec.last s;
  si_last : Spec.last s < 2 ^ 64
}.

(** ** Sorted windows: the cut between expired and live trades *)

Lemma sorted_cut (cut : Z) l k :
  StronglySorted by_time l →
  (∀ i, (i < k)%nat → (i < length l)%nat → timestamp (l !!! i) < cut) →
  (∀ i, (k ≤ i)%nat → (i < length l)%nat → cut ≤ timestamp (l !!! i)) →
  filter (λ r, cut ≤ timestamp r) l = drop k l.
Proof.
  intros Hs. revert k. induction Hs as [|r l Hs IH Hr]; intros k Hlt Hge.
  { by rewrite drop_nil. }
  destruct k as [|k].
  - rewrite filter_cons_True by (apply (Hge 0%nat); simpl; lia).
    rewrite (IH 0%nat); [done|lia|]. intros i _ Hi. apply (Hge (S i)); simpl; lia.
  - rewrite filter_cons_False.
    + apply IH; intros i ??; [apply (Hlt (S i))|apply (Hge (S i))]; simpl; lia.
    + apply Z.nle_gt, (Hlt 0%nat); simpl; lia.
Qed.

Lemma by_time_lookup l i j :
  StronglySorted by_time l → (i ≤ j)%nat → (j < length l)%nat →
  timestamp (l !!! i) ≤ timestamp (l !!! j).
Proof.
  intros Hs. revert i j. induction Hs as [|r l Hs IH Hr]; intros i j Hij Hj; [simpl in Hj; lia|].
  destruct i as [|i], j as [|j]; simpl in *; try lia.
  - rewrite Forall_forall in Hr. apply Hr. apply list_elem_of_lookup_total. exists j. split; [lia|done].
  - apply IH; lia.
Qed.

Lemma sorted_drop (l : list VwapTradeRecord) k : StronglySorted by_time l → StronglySorted by_time (drop k l).
Proof.
  intros Hs. revert k. induction Hs; intros [|k]; cbn; try constructor; auto.
Qed.

Lemma sorted_snoc l r :
  StronglySorted by_time l → Forall (λ x, by_time x r) l → StronglySorted by_time (l ++ [r]).
Proof.
  induction 1 as [|x l Hs IH Hx]; intros Hall; cbn; [by repeat constructor|].
  apply Forall_cons in Hall as [Hxr Hall]. constructor; [auto|].
  apply Forall_app. split; [done|]. by constructor.
Qed.

Lemma Forall_live (P : VwapTradeRecord → Prop) W ts l : Forall P l → Forall P (Spec.live W ts l).
Proof. rewrite !Forall_forall. intros H x [_ Hx]%list_elem_of_filter. auto. Qed.

Lemma sorted_live W ts l : StronglySorted by_time l → StronglySorted by_time (Spec.live W ts l).
Proof.
  unfold Spec.live. induction 1 as [|r l Hs IH Hr]; [constructor|].
  destruct (decide (Spec.cutoff W ts ≤ timestamp r)).
  - rewrite filter_cons_True by done. constructor; [done|]. by apply Forall_live.
  - by rewrite filter_cons_False.
Qed.

Lemma sum_of_live W ts f l :
  Forall (λ r, 0 ≤ f r) l → 0 ≤ sum_of f (Spec.live W ts l) ≤ sum_of f l.
Proof.
  unfold Spec.live. induction 1 as [|r l Hr Hl IH]; [done|].
  destruct (decide (Spec.cutoff W ts ≤ timestamp r)).
  - rewrite filter_cons_True by done. rewrite !sum_of_cons. lia.
  - rewrite filter_cons_False by done. rewrite sum_of_cons. lia.
Qed.

Definition trade_pv (t : TradeMessage) : Z := Trade.price t * Trade.quantity t.

Lemma trade_pv_range t :
  TradeMessage_ok t → Spec.invalid t = false →
  0 < Trade.quantity t < 2 ^ 32 ∧ 0 < Trade.price t < 2 ^ 31 ∧ 0 < trade_pv t < 2 ^ 63.
Proof.
  intros (_ & _ & Hq & Hp) Hv. unfold Spec.invalid in Hv. guards.
  unfold trade_pv. repeat split; nia.
Qed.

(** What one accepted trade does to the abstract window. *)
Lemma push_inv cap s r :
  (0 < cap)%nat → spec_inv cap s → record_ok (timestamp r) r → Spec.last s ≤ timestamp r →
  let s' := Spec.push cap s r in
  Forall (record_ok (timestamp r)) (Spec.window s') ∧ StronglySorted by_time (Spec.window s') ∧
  (length (Spec.window s') ≤ cap)%nat ∧ 0 ≤ Spec.lostVolume s' ∧ 0 ≤ Spec.lostPV s' ∧
  Spec.volume s' = Spec.volume s + quantity r ∧ Spec.pv s' = Spec.pv s + priceVolume r ∧
  last (Spec.window s') = Some r ∧
  Spec.start s' = Spec.start s ∧ Spec.complete s' = Spec.complete s ∧
  Spec.total s' = Spec.total s ∧ Spec.rejected s' = Spec.rejected s.
Proof.
  intros Hcap [Hrec Hsort Hb [Hl1 Hl2] _ _ _ _] Hr Hlast.
  assert (Hrec' : Forall (record_ok (timestamp r)) (Spec.window s))
    by (eapply Forall_impl; [exact Hrec|]; unfold record_ok; intros; lia).
  assert (Hbt : Forall (λ x, by_time x r) (Spec.window s))
    by (eapply Forall_impl; [exact Hrec|]; unfold record_ok, by_time; intros; lia).
  assert (Hn : ∀ f, (∀ x, record_ok (timestamp r) x → 0 ≤ f x) →
               0 ≤ sum_of f (take 1 (Spec.window s))).
  { intros f Hf. apply sum_of_nonneg, Forall_take. eapply Forall_impl; [exact Hrec'|]. auto. }
  assert (Hn1 := Hn quantity ltac:(unfold record_ok; intros; lia)).
  assert (Hn2 := Hn priceVolume ltac:(unfold record_ok; intros; nia)).
  assert (Hs1 := sum_of_take_drop quantity 1 (Spec.window s)).
  assert (Hs2 := sum_of_take_drop priceVolume 1 (Spec.window s)).
  unfold Spec.push. destruct (Nat.ltb_spec (length (Spec.window s)) cap);
    unfold Spec.volume, Spec.pv; cbn -[drop take];
    rewrite length_app, !sum_of_app, !sum_of_single, last_snoc, ?length_drop; cbn -[drop take];
    (split; [apply Forall_app; split; [by try apply Forall_drop|by constructor]|]);
    (split; [apply sorted_snoc; [by try apply sorted_drop|by try apply Forall_drop]|]);
    repeat split; lia.
Qed.

Lemma accept_unfold cap W s t :
  Spec.accept cap W s t =
    let ts := Trade.timestamp t in
    let pushed := Spec.push cap s (Spec.record t) in
    let kept := Spec.live W ts (Spec.window pushed) in
    let start := if (length kept =? length (Spec.window pushed))%nat
                 then if Spec.start s =? 0 then ts else Spec.start s
                 else timestamp (kept !!! 0%nat) in
    Spec.mk kept (Spec.lostVolume pushed) (Spec.lostPV pushed) start
      (Spec.complete s || (ts - start >=? W)) ts (u64 (Spec.total s + 1)) (Spec.rejected s).
Proof.
  destruct s as [w lv lp st co la to re]. unfold Spec.accept, Spec.push.
  cbn [Spec.start]. destruct (st =? 0); cbn -[Nat.ltb];
    destruct (length w <? cap)%nat; reflexivity.
Qed.

Lemma accept_inv cap W s t :
  (0 < cap)%nat → 0 ≤ W → spec_inv cap s → TradeMessage_ok t →
  Spec.invalid t || Spec.late s t || Spec.overflows s t = false →
  spec_inv cap (Spec.accept cap W s t).
Proof.
  intros Hcap HW Hs Ht Hok. apply orb_false_iff in Hok as [Hok Hov]. apply orb_false_iff in Hok as [Hv Hl].
  destruct (trade_pv_range t Ht Hv) as (Hq & Hp & Hpv). destruct Ht as (_ & Hts & _ & _).
  assert (Hstart := si_start _ _ Hs). assert (Hge : Spec.last s ≤ Trade.timestamp t).
  { unfold Spec.late in Hl. destruct (Z.eqb_spec (Spec.last s) 0); cbn in Hl; [lia|]. guards. lia. }
  set (t0 := if Spec.start s =? 0 then Trade.timestamp t else Spec.start s).
  assert (Hr : record_ok (timestamp (Spec.record t)) (Spec.record t))
    by (unfold record_ok; cbn; lia).
  destruct (push_inv cap s (Spec.record t) Hcap Hs Hr Hge)
    as (Hrec & Hsort & Hb & Hlv & Hlp & HV & HP & Hlast & _).
  rewrite accept_unfold. set (w := Spec.window (Spec.push cap s (Spec.record t))) in *.
  unfold Spec.overflows in Hov. rewrite !Z.gtb_ltb in Hov. guards. unfold UINT64_MAX in *.
  assert (H1 := sum_of_live W (Trade.timestamp t) quantity w).
  assert (H2 := sum_of_live W (Trade.timestamp t) priceVolume w).
  unfold Spec.volume, Spec.pv in *. cbn in HV, HP. fold w in HV, HP.
  constructor; cbn; fold w.
  - by apply Forall_live.
  - by apply sorted_live.
  - unfold Spec.live. rewrite length_filter. done.
  - done.
  - specialize (H1 ltac:(eapply Forall_impl; [exact Hrec|]; unfold record_ok; intros; lia)).
    unfold Spec.volume. cbn. fold w. unfold trade_pv in *. lia.
  - specialize (H2 ltac:(eapply Forall_impl; [exact Hrec|]; unfold record_ok; intros; nia)).
    unfold Spec.pv. cbn. fold w. unfold trade_pv in *. lia.
  - fold t0. assert (0 ≤ t0 ≤ Trade.timestamp t) by (unfold t0; branch; lia).
    branch; [done|]. assert (Hlr : Forall (record_ok (Trade.timestamp t)) (Spec.live W (Trade.timestamp t) w))
      by by apply Forall_live.
    destruct (Spec.live W (Trade.timestamp t) w) as [|x l']; [simpl; lia|].
    apply Forall_cons in Hlr as [Hx _]. cbn. apply Hx.
  - lia.
Qed.

(** ** Histories of the specification *)

Module SpecRun.
Definition rejects (s : Spec.t) (t : TradeMessage) : bool :=
  Spec.invalid t || Spec.late s t || Spec.overflows s t.

Definition run (cap : nat) (W : Z) : Spec.t → list TradeMessage → Spec.t := foldl (Spec.add cap W).

(** The trades that were taken, in order. *)
Fixpoint taken (cap : nat) (W : Z) (s : Spec.t) (trades : list TradeMessage) : list TradeMessage :=
  match trades with
  | [] => []
  | t :: ts =>
      let s' := Spec.add cap W s t in
      if rejects s t then taken cap W s' ts else t :: taken cap W s' ts
  end.
End SpecRun.
Import SpecRun.

Lemma spec_init_inv cap : spec_inv cap Spec.init.
Proof. constructor; cbn; try constructor; lia. Qed.

Lemma spec_add_cases cap W s t :
  (rejects s t = true ∧ Spec.add cap W s t = Spec.reject s) ∨
  (rejects s t = false ∧ Spec.add cap W s t = Spec.accept cap W s t).
Proof. unfold Spec.add, rejects. destruct (_ || _ || _); auto. Qed.

Lemma spec_add_inv cap W s t :
  (0 < cap)%nat → 0 ≤ W → spec_inv cap s → TradeMessage_ok t → spec_inv cap (Spec.add cap W s t).
Proof.
  intros Hc HW Hs Ht. destruct (spec_add_cases cap W s t) as [[_ ->]|[Hr ->]].
  - by destruct Hs.
  - by apply accept_inv.
Qed.

Lemma spec_volume_nonneg cap s : spec_inv cap s → 0 ≤ Spec.volume s.
Proof.
  intros Hs. unfold Spec.volume. destruct (si_lost _ _ Hs).
  assert (0 ≤ sum_of quantity (Spec.window s)); [|lia]. apply sum_of_nonneg.
  eapply Forall_impl; [apply (si_records _ _ Hs)|]. unfold record_ok. intros; lia.
Qed.

Lemma run_inv cap W s trades :
  (0 < cap)%nat → 0 ≤ W → spec_inv cap s → Forall TradeMessage_ok trades →
  spec_inv cap (run cap W s trades).
Proof.
  intros Hc HW Hs Ht. revert s Hs. induction Ht; intros s Hs; [done|]. apply IHHt. by apply spec_add_inv.
Qed.

Lemma run_snoc cap W s trades t : run cap W s (trades ++ [t]) = Spec.add cap W (run cap W s trades) t.
Proof. unfold run. by rewrite foldl_app. Qed.

Lemma live_app W ts l k : Spec.live W ts (l ++ k) = Spec.live W ts l ++ Spec.live W ts k.
Proof. apply filter_app. Qed.

Lemma live_live W ts ts' l : ts' ≤ ts → Spec.live W ts (Spec.live W ts' l) = Spec.live W ts l.
Proof.
  intros Hle. unfold Spec.live. induction l as [|r l IH]; [done|].
  destruct (decide (Spec.cutoff W ts' ≤ timestamp r)).
  - rewrite (filter_cons_True _ r l) by done.
    destruct (decide (Spec.cutoff W ts ≤ timestamp r)).
    + rewrite !filter_cons_True by done. by rewrite IH.
    + rewrite !filter_cons_False by done. done.
  - rewrite (filter_cons_False _ r l), IH by done.
    rewrite filter_cons_False; [done|]. unfold Spec.cutoff in *. lia.
Qed.

(** A trade taken by a calculator that forgot nothing: the new window is the
    old one and the trade, less what has expired. *)
Lemma accept_nothing_lost cap W s t :
  (0 < cap)%nat → spec_inv cap s → TradeMessage_ok t → rejects s t = false →
  Spec.lostVolume (Spec.accept cap W s t) = 0 →
  Spec.lostVolume s = 0 ∧
  Spec.window (Spec.accept cap W s t) =
    Spec.live W (Trade.timestamp t) (Spec.window s ++ [Spec.record t]).
Proof.
  intros Hcap [Hrec _ _ [Hl1 _] _ _ _ _] Ht Hok. rewrite accept_unfold. cbn.
  unfold Spec.push. destruct (Nat.ltb_spec (length (Spec.window s)) cap); cbn; [done|].
  destruct (Spec.window s) as [|r w]; [simpl in *; lia|]. apply Forall_cons in Hrec as [Hr _].
  intros Hl. exfalso. change (take 1 (r :: w)) with (r :: take 0 w) in Hl.
  rewrite take_0, sum_of_single in Hl. unfold record_ok in Hr. lia.
Qed.

Lemma lost_monotone cap W s t :
  (0 < cap)%nat → spec_inv cap s → TradeMessage_ok t →
  Spec.lostVolume s ≤ Spec.lostVolume (Spec.add cap W s t).
Proof.
  intros Hcap [Hrec _ _ [Hl1 _] _ _ _ _] Ht.
  destruct (spec_add_cases cap W s t) as [[_ ->]|[Hr ->]]; [done|]. rewrite accept_unfold. cbn.
  unfold Spec.push. destruct (Nat.ltb_spec (length (Spec.window s)) cap); cbn; [done|].
  assert (0 ≤ sum_of quantity (take 1 (Spec.window s))); [|lia].
  apply sum_of_nonneg, Forall_take. eapply Forall_impl; [exact Hrec|]. unfold record_ok. intros; lia.
Qed.

Lemma lost_monotone_run cap W s trades :
  (0 < cap)%nat → 0 ≤ W → spec_inv cap s → Forall TradeMessage_ok trades →
  Spec.lostVolume s ≤ Spec.lostVolume (run cap W s trades).
Proof.
  intros Hc HW Hs Ht. revert s Hs. induction Ht as [|t ts Ht Hts IH]; intros s Hs; [done|].
  cbn. etrans; [by apply (lost_monotone cap W s t)|]. apply IH. by apply spec_add_inv.
Qed.

Lemma rejected_window cap W s t :
  rejects s t = true →
  Spec.window (Spec.add cap W s t) = Spec.window s ∧ Spec.last (Spec.add cap W s t) = Spec.last s.
Proof. intros Hr. destruct (spec_add_cases cap W s t) as [[_ ->]|[Hr' ->]]; [done|congruence]. Qed.

Lemma accept_ge s t : TradeMessage_ok t → rejects s t = false → Spec.last s ≤ Trade.timestamp t.
Proof.
  intros (_ & Hts & _) [[_ Hl]%orb_false_iff _]%orb_false_iff. unfold Spec.late in Hl.
  destruct (Z.eqb_spec (Spec.last s) 0); cbn in Hl; [lia|]. guards. lia.
Qed.

(** As long as no trade was overwritten, the window is the history filtered
    by time. *)
Lemma window_history cap W s h trades :
  (0 < cap)%nat → 0 ≤ W → spec_inv cap s → Forall TradeMessage_ok trades →
  Spec.window s = Spec.live W (Spec.last s) h →
  let s' := run cap W s trades in
  Spec.lostVolume s' = 0 →
  Spec.window s' = Spec.live W (Spec.last s') (h ++ (Spec.record <$> taken cap W s trades)).
Proof.
  intros Hc HW Hs Ht. revert s h Hs. induction Ht as [|t ts Ht Hts IH]; intros s h Hs Hw s' Hl.
  { cbn. by rewrite app_nil_r. }
  unfold s' in *. cbn in *. assert (Hs1 := spec_add_inv cap W s t Hc HW Hs Ht).
  destruct (rejects s t) eqn:Hr.
  - destruct (rejected_window cap W s t Hr) as [Hw1 Hl1]. apply IH; [done| |done]. congruence.
  - destruct (spec_add_cases cap W s t) as [[Hr' _]|[_ Hadd]]; [congruence|].
    assert (Hl1 : Spec.lostVolume (Spec.add cap W s t) = 0).
    { pose proof (lost_monotone_run cap W (Spec.add cap W s t) ts Hc HW Hs1 Hts).
      pose proof (si_lost _ _ Hs1). lia. }
    rewrite Hadd in *. destruct (accept_nothing_lost cap W s t Hc Hs Ht Hr Hl1) as [_ Hw1].
    cbn [fmap list_fmap]. rewrite (cons_middle _ h), app_assoc.
    apply IH; [done| |done]. rewrite Hw1, accept_unfold. cbn.
    rewrite !live_app, Hw. f_equal. apply live_live. by apply accept_ge.
Qed.

(** Every sum is an average of accepted prices, overwritten trades included. *)
Definition priced (lo hi : Z) (s : Spec.t) : Prop :=
  Forall (λ r, lo ≤ price r ≤ hi) (Spec.window s) ∧
  lo * Spec.lostVolume s ≤ Spec.lostPV s ≤ hi * Spec.lostVolume s.

Lemma priced_sum lo hi last l :
  Forall (record_ok last) l → Forall (λ r, lo ≤ price r ≤ hi) l →
  lo * sum_of quantity l ≤ sum_of priceVolume l ≤ hi * sum_of quantity l.
Proof.
  intros Hr Hp. induction l as [|r l IH]; [unfold sum_of; cbn; lia|].
  apply Forall_cons in Hr as [(_ & Hq & Hp1 & Hpv) Hr]. apply Forall_cons in Hp as [Hp Hps].
  rewrite !sum_of_cons. specialize (IH Hr Hps). nia.
Qed.

Lemma priced_total cap lo hi s :
  spec_inv cap s → priced lo hi s → lo * Spec.volume s ≤ Spec.pv s ≤ hi * Spec.volume s.
Proof.
  intros Hs [Hp Hl]. assert (H := priced_sum lo hi _ _ (si_records _ _ Hs) Hp).
  unfold Spec.volume, Spec.pv. lia.
Qed.

Lemma priced_add cap W lo hi s t :
  spec_inv cap s → (rejects s t = false → lo ≤ Trade.price t ≤ hi) → priced lo hi s →
  priced lo hi (Spec.add cap W s t).
Proof.
  intros Hs Ht [Hp Hl]. destruct (spec_add_cases cap W s t) as [[_ ->]|[Hr ->]]; [done|].
  specialize (Ht Hr).
  assert (Hrec := si_records _ _ Hs). rewrite accept_unfold. unfold priced. cbn. unfold Spec.push.
  destruct (length (Spec.window s) <? cap)%nat; cbn -[drop take]; (split; [apply Forall_live, Forall_app; split|]);
    try (by constructor); try done; [by apply Forall_drop|].
  assert (H := priced_sum lo hi _ (take 1 (Spec.window s)) (Forall_take _ _ _ Hrec)
                 (Forall_take _ _ _ Hp)). lia.
Qed.

Lemma priced_run cap W lo hi s trades :
  (0 < cap)%nat → 0 ≤ W → spec_inv cap s → priced lo hi s → Forall TradeMessage_ok trades →
  Forall (λ t, lo ≤ Trade.price t ≤ hi) (taken cap W s trades) → priced lo hi (run cap W s trades).
Proof.
  intros Hc HW Hs Hp Ht. revert s Hs Hp. induction Ht as [|t ts Ht Hts IH]; intros s Hs Hp Hb; [done|].
  cbn [taken] in Hb. cbn. assert (Hs' := spec_add_inv cap W s t Hc HW Hs Ht).
  destruct (rejects s t) eqn:Hr; [|apply Forall_cons in Hb as [Hb Hbs]];
    (apply IH; [done| |done]); by apply priced_add; rewrite ?Hr.
Qed.

(** Accepted prices are positive 31-bit numbers, so every state is priced by
    them; in particular no volume means no price-volume. *)
Lemma rejects_invalid s t : rejects s t = false → Spec.invalid t = false.
Proof. intros [[? _]%orb_false_iff _]%orb_false_iff. done. Qed.

Lemma priced_positive cap W s t :
  spec_inv cap s → TradeMessage_ok t → priced 1 (2 ^ 31 - 1) s →
  priced 1 (2 ^ 31 - 1) (Spec.add cap W s t).
Proof.
  intros Hs Ht Hp. apply priced_add; [done| |done]. intros Hr%rejects_invalid.
  destruct (trade_pv_range t Ht Hr) as (_ & ? & _). lia.
Qed.

Lemma priced_init lo hi : priced lo hi Spec.init.
Proof. split; [constructor|cbn; lia]. Qed.

Lemma priced_run_positive cap W s trades :
  (0 < cap)%nat → 0 ≤ W → spec_inv cap s → priced 1 (2 ^ 31 - 1) s → Forall TradeMessage_ok trades →
  priced 1 (2 ^ 31 - 1) (run cap W s trades).
Proof.
  intros Hc HW Hs Hp Ht. revert s Hs Hp. induction Ht as [|t ts Ht Hts IH]; intros s Hs Hp; [done|].
  cbn. apply IH; [by apply spec_add_inv|by apply priced_positive].
Qed.

(** The sums never exceed what the trades added. *)
Definition offered_pv (trades : list TradeMessage) : Z := Zsum ((λ t, Z.max 0 (trade_pv t)) <$> trades).

Lemma offered_cons t ts : offered_pv (t :: ts) = Z.max 0 (trade_pv t) + offered_pv ts.
Proof. done. Qed.

Lemma offered_nonneg ts : 0 ≤ offered_pv ts.
Proof. apply Zsum_nonneg, Forall_fmap, Forall_true. cbn. lia. Qed.

Lemma offered_app ts us : offered_pv (ts ++ us) = offered_pv ts + offered_pv us.
Proof. unfold offered_pv. by rewrite fmap_app, Zsum_app. Qed.

Lemma offered_bound b ts : Forall (λ t, 0 ≤ trade_pv t ≤ b) ts → offered_pv ts ≤ b * Z.of_nat (length ts).
Proof.
  induction 1 as [|t ts Ht _ IH]; [unfold offered_pv; cbn; lia|]. rewrite offered_cons. cbn [length]. lia.
Qed.

Lemma pv_offered cap W s t :
  (0 < cap)%nat → 0 ≤ W → spec_inv cap s → TradeMessage_ok t →
  Spec.pv (Spec.add cap W s t) ≤ Spec.pv s + Z.max 0 (trade_pv t).
Proof.
  intros Hc HW Hs Ht. destruct (spec_add_cases cap W s t) as [[_ ->]|[Hr ->]].
  { change (Spec.pv (Spec.reject s)) with (Spec.pv s). lia. }
  assert (Hge := accept_ge s t Ht Hr). apply rejects_invalid in Hr.
  destruct (trade_pv_range t Ht Hr) as (Hq & Hp & Hpv). destruct Ht as (_ & Hts & _ & _).
  assert (Hrec : record_ok (timestamp (Spec.record t)) (Spec.record t)) by (unfold record_ok; cbn; lia).
  destruct (push_inv cap s (Spec.record t) Hc Hs Hrec Hge) as (Hrecs & _ & _ & _ & _ & _ & HP & _).
  rewrite accept_unfold. unfold Spec.pv in *. cbn in *. unfold trade_pv in *.
  assert (H := sum_of_live W (Trade.timestamp t) priceVolume (Spec.window (Spec.push cap s (Spec.record t)))).
  specialize (H ltac:(eapply Forall_impl; [exact Hrecs|]; unfold record_ok; intros; nia)). lia.
Qed.

Lemma live_all W ts l :
  Forall (λ r, Spec.cutoff W ts ≤ timestamp r) l → Spec.live W ts l = l.
Proof.
  unfold Spec.live. induction 1 as [|r l Hr Hl IH]; [done|].
  rewrite filter_cons_True by done. by rewrite IH.
Qed.

Lemma live_same W ts l : length (Spec.live W ts l) = length l → Spec.live W ts l = l.
Proof.
  intros Hlen. apply live_all, Forall_forall. intros r Hr.
  destruct (decide (Spec.cutoff W ts ≤ timestamp r)) as [|Hn]; [done|].
  assert (H := length_filter_lt (λ r, Spec.cutoff W ts ≤ timestamp r) l r Hr Hn).
  unfold Spec.live in Hlen. lia.
Qed.

(** The clock of a calculator that forgot nothing starts at the oldest
    retained trade, and the first window completes when the oldest retained
    trade is exactly one window old. *)
Record clocked (W : Z) (h : list VwapTradeRecord) (s : Spec.t) : Prop := {
  ck_window : Spec.window s = Spec.live W (Spec.last s) h;
  ck_sorted : StronglySorted by_time h;
  ck_range : Forall (λ r, 0 < timestamp r ≤ Spec.last s) h;
  ck_start : Spec.start s = match Spec.window s with [] => 0 | r :: _ => timestamp r end;
  ck_complete : Spec.complete s = true ↔ ∃ r1 r2, r1 ∈ h ∧ r2 ∈ h ∧ timestamp r2 = timestamp r1 + W
}.

Lemma clocked_init W : clocked W [] Spec.init.
Proof.
  constructor; cbn; try done; try constructor; [done|].
  intros (r1 & r2 & H & _). by apply elem_of_nil in H.
Qed.

Lemma clocked_reject W h s : clocked W h s → clocked W h (Spec.reject s).
Proof. by intros []. Qed.

(** Whether the head of the new window is one window old. *)
Lemma head_age W ts (l : list VwapTradeRecord) :
  0 ≤ W → StronglySorted by_time l → Forall (λ r, 0 < timestamp r ≤ ts) l →
  Spec.live W ts l ≠ [] →
  ts - timestamp (Spec.live W ts l !!! 0%nat) >= W ↔ ∃ r, r ∈ l ∧ ts = timestamp r + W.
Proof.
  intros HW Hs Hr Hne. assert (Hsl := sorted_live W ts l Hs).
  assert (Hin : ∀ r, r ∈ Spec.live W ts l ↔ Spec.cutoff W ts ≤ timestamp r ∧ r ∈ l)
    by (intros r; unfold Spec.live; by rewrite list_elem_of_filter).
  destruct (Spec.live W ts l) as [|x k]; [done|]. cbn. split.
  - intros Hage. exists x. destruct (Hin x) as [H _]. destruct H as [Hc Hx]; [left|].
    split; [done|]. unfold Spec.cutoff in Hc. lia.
  - intros (r & Hrl & Hts). rewrite Forall_forall in Hr. specialize (Hr r Hrl).
    assert (Hrk : r ∈ x :: k) by (apply Hin; unfold Spec.cutoff; split; [lia|done]).
    apply StronglySorted_inv in Hsl as [_ Hx]. apply elem_of_cons in Hrk as [->|Hrk]; [lia|].
    rewrite Forall_forall in Hx. specialize (Hx r Hrk). unfold by_time in Hx. lia.
Qed.

(** Without a loss the buffer was not full. *)
Lemma push_kept cap W s t :
  (0 < cap)%nat → spec_inv cap s → TradeMessage_ok t → rejects s t = false →
  Spec.lostVolume (Spec.accept cap W s t) = 0 →
  Spec.window (Spec.push cap s (Spec.record t)) = Spec.window s ++ [Spec.record t].
Proof.
  intros Hc Hs Ht Hr Hl. destruct (accept_nothing_lost cap W s t Hc Hs Ht Hr Hl) as [_ Hw'].
  rewrite accept_unfold in Hw', Hl. cbn in Hw', Hl. unfold Spec.push in *.
  destruct (Nat.ltb_spec (length (Spec.window s)) cap); [done|]. cbn -[drop] in *.
  destruct (Spec.window s) as [|r w] eqn:E; [done|]. exfalso.
  destruct Hs as [Hrec _ _ [? _] _ _ _ _]. rewrite E in Hrec. apply Forall_cons in Hrec as [Hrr _].
  change (take 1 (r :: w)) with (r :: take 0 w) in Hl.
  rewrite take_0, sum_of_single in Hl. unfold record_ok in Hrr. lia.
Qed.

(** The window's start follows its first record: whether eviction dropped
    something or not, the new start is the time of the new first record. *)
Lemma kept_start W h s t :
  0 < timestamp (Spec.record t) → clocked W h s →
  let all := Spec.window s ++ [Spec.record t] in
  let kept := Spec.live W (Trade.timestamp t) all in
  (if (length kept =? length all)%nat then if Spec.start s =? 0 then Trade.timestamp t else Spec.start s
   else timestamp (kept !!! 0%nat)) = timestamp (kept !!! 0%nat).
Proof.
  intros Hpos [Hw _ Hra Hst _] all kept. branch; [|done].
  assert (Hall : kept = all) by (by apply live_same).
  rewrite Hall, Hst. subst all. destruct (Spec.window s) as [|r w] eqn:E; [done|]. cbn.
  assert (Hrw : r ∈ h).
  { assert (Hin : r ∈ Spec.live W (Spec.last s) h) by (rewrite <- Hw; left).
    unfold Spec.live in Hin. by apply list_elem_of_filter in Hin as [_ Hin]. }
  rewrite Forall_forall in Hra. specialize (Hra r Hrw).
  destruct (Z.eqb_spec (timestamp r) 0); lia || done.
Qed.

Lemma clocked_accept cap W h s t :
  (0 < cap)%nat → 0 ≤ W → spec_inv cap s → TradeMessage_ok t → rejects s t = false →
  0 < Trade.timestamp t → Spec.lostVolume (Spec.accept cap W s t) = 0 →
  clocked W h s → clocked W (h ++ [Spec.record t]) (Spec.accept cap W s t).
Proof.
  intros Hc HW Hs Ht Hr Hpos Hl Hck. assert (Hrt : 0 < timestamp (Spec.record t)) by done.
  destruct (Hck) as [Hw Hso Hra Hst Hco]. assert (Hge := accept_ge s t Ht Hr).
  assert (Hnf := push_kept cap W s t Hc Hs Ht Hr Hl).
  assert (Hkept : Spec.live W (Trade.timestamp t) (Spec.window s ++ [Spec.record t]) =
                  Spec.live W (Trade.timestamp t) (h ++ [Spec.record t])).
  { rewrite !live_app. f_equal. rewrite Hw. by apply live_live. }
  assert (Hr' : Forall (λ r, 0 < timestamp r ≤ Trade.timestamp t) (h ++ [Spec.record t])).
  { apply Forall_app. split; [|constructor; [cbn; lia|constructor]].
    eapply Forall_impl; [exact Hra|]. cbn. intros; lia. }
  assert (Hso' : StronglySorted by_time (h ++ [Spec.record t])).
  { apply sorted_snoc; [done|]. eapply Forall_impl; [exact Hra|]. unfold by_time. cbn. intros; lia. }
  assert (Hne : Spec.live W (Trade.timestamp t) (h ++ [Spec.record t]) ≠ []).
  { rewrite live_app. unfold Spec.live at 2.
    rewrite filter_cons_True by (unfold Spec.cutoff; cbn; lia). by destruct (Spec.live W (Trade.timestamp t) h). }
  assert (Hage := head_age W (Trade.timestamp t) _ HW Hso' Hr' Hne).
  rewrite accept_unfold in *. cbn in *. rewrite Hnf in *.
  set (kept := Spec.live W (Trade.timestamp t) (Spec.window s ++ [Spec.record t])) in *.
  assert (Hstart := kept_start W h s t Hrt Hck). cbn in Hstart. fold kept in Hstart.
  rewrite Hstart. constructor; cbn; try done.
  - rewrite <- Hkept in Hne. fold kept in Hne. by destruct kept.
  - rewrite Z.geb_leb, orb_true_iff, Z.leb_le, Hco. rewrite <- Hkept in Hage. fold kept in Hage.
    split.
    + intros [(r1 & r2 & H1 & H2 & H12)|Hle].
      * exists r1, r2. rewrite !elem_of_app. auto.
      * destruct Hage as [Hage _]. destruct Hage as (r1 & H1 & H12); [lia|].
        exists r1, (Spec.record t). split; [done|]. split; [|done]. apply elem_of_app. right. left.
    + intros (r1 & r2 & H1 & H2 & H12). rewrite elem_of_app, list_elem_of_singleton in H2.
      rewrite Forall_forall in Hra.
      destruct H2 as [H2| ->].
      * rewrite elem_of_app, list_elem_of_singleton in H1. destruct H1 as [H1| ->].
        { left. by exists r1, r2. }
        right. specialize (Hra r2 H2). cbn in H12. apply Z.ge_le, Hage. exists (Spec.record t).
        split; [apply elem_of_app; right; left|cbn; lia].
      * right. apply Z.ge_le, Hage. by exists r1.
Qed.

Lemma clocked_run cap W h s trades :
  (0 < cap)%nat → 0 ≤ W → spec_inv cap s → Forall TradeMessage_ok trades →
  Forall (λ t, 0 < Trade.timestamp t) trades → clocked W h s →
  Spec.lostVolume (run cap W s trades) = 0 →
  clocked W (h ++ (Spec.record <$> taken cap W s trades)) (run cap W s trades).
Proof.
  intros Hc HW Hs Ht. revert h s Hs. induction Ht as [|t ts Ht Hts IH]; intros h s Hs Hp Hck Hl.
  { cbn. by rewrite app_nil_r. }
  apply Forall_cons in Hp as [Hp Hps]. cbn in *. assert (Hs1 := spec_add_inv cap W s t Hc HW Hs Ht).
  assert (Hl1 : Spec.lostVolume (Spec.add cap W s t) = 0).
  { pose proof (lost_monotone_run cap W (Spec.add cap W s t) ts Hc HW Hs1 Hts).
    pose proof (si_lost _ _ Hs1). lia. }
  destruct (spec_add_cases cap W s t) as [[Hr Hadd]|[Hr Hadd]]; rewrite Hr.
  - apply IH; try done. rewrite Hadd. by apply clocked_reject.
  - cbn [fmap list_fmap]. rewrite (cons_middle _ h), app_assoc. apply IH; try done.
    rewrite Hadd in *. by apply clocked_accept.
Qed.

(** A trade survives its own expiry. *)
Lemma accept_keeps cap W s t :
  0 ≤ W → 0 ≤ Trade.timestamp t → Spec.record t ∈ Spec.window (Spec.accept cap W s t).
Proof.
  intros HW Ht. rewrite accept_unfold. cbn. apply list_elem_of_filter. split; [unfold Spec.cutoff; cbn; lia|].
  unfold Spec.push. destruct (_ <? cap)%nat; cbn -[drop]; apply elem_of_app; right; left.
Qed.

(** A complete window is not empty, and stays complete. *)
Lemma complete_nonempty cap W trades :
  0 ≤ W → Forall TradeMessage_ok trades → Spec.complete (run cap W Spec.init trades) = true →
  Spec.window (run cap W Spec.init trades) ≠ [].
Proof.
  intros HW Ht. assert (H : Spec.complete (run cap W Spec.init trades) = false ∨ Spec.window (run cap W Spec.init trades) ≠ []);
    [|by destruct H as [->|]].
  induction trades as [|t trades IH] using rev_ind; [by left|]. apply Forall_app in Ht as [Hts Ht%Forall_inv].
  rewrite run_snoc. destruct (spec_add_cases cap W (run cap W Spec.init trades) t) as [[_ ->]|[_ ->]]; [by apply IH|].
  right. assert (H := accept_keeps cap W (run cap W Spec.init trades) t HW (proj1 (proj1 (proj2 Ht)))).
  intros E. rewrite E in H. by apply elem_of_nil in H.
Qed.

Lemma complete_mono cap W s t : Spec.complete s = true → Spec.complete (Spec.add cap W s t) = true.
Proof.
  intros Hc. destruct (spec_add_cases cap W s t) as [[_ ->]|[_ ->]]; [done|]. rewrite accept_unfold. cbn. by rewrite Hc.
Qed.

(** While less than a window has passed since the time [T] of the first trade,
    the window is not complete, whatever was rejected, expired or
    overwritten. *)
Record young (T : Z) (s : Spec.t) : Prop := {
  yg_complete : Spec.complete s = false;
  yg_start : Spec.start s = 0 ∨ T ≤ Spec.start s;
  yg_window : Forall (λ r, T ≤ timestamp r) (Spec.window s)
}.

Lemma young_init T : young T Spec.init.
Proof. split; [done|by left|constructor]. Qed.

Lemma young_add cap W T s t :
  0 ≤ W → T ≤ Trade.timestamp t < T + W → 0 ≤ Trade.timestamp t → young T s → young T (Spec.add cap W s t).
Proof.
  intros HW Ht Hpos [Hc Hst Hw]. destruct (spec_add_cases cap W s t) as [[_ ->]|[_ ->]]; [done|].
  rewrite accept_unfold. cbv zeta. set (pushed := Spec.window (Spec.push cap s (Spec.record t))).
  set (kept := Spec.live W (Trade.timestamp t) pushed).
  set (start := if (length kept =? length pushed)%nat then _ else _).
  assert (Hp : Forall (λ r, T ≤ timestamp r) pushed).
  { unfold pushed, Spec.push. destruct (_ <? cap)%nat; cbn -[drop]; apply Forall_app; split;
      try (by repeat constructor; cbn; lia); try done; by apply Forall_drop. }
  assert (Hk : Forall (λ r, T ≤ timestamp r) kept) by by apply (Forall_live (λ r, T ≤ timestamp r)).
  assert (Hne := accept_keeps cap W s t HW Hpos). rewrite accept_unfold in Hne. cbn in Hne. fold pushed in Hne. fold kept in Hne.
  assert (Hs : T ≤ start).
  { unfold start. destruct (length kept =? length pushed)%nat.
    - destruct (Z.eqb_spec (Spec.start s) 0); lia.
    - destruct kept as [|r0 k]; [by apply elem_of_nil in Hne|]. by apply Forall_cons in Hk as [? _]. }
  split; cbn; [|by right|done]. rewrite Hc. cbn. rewrite Z.geb_leb. apply Z.leb_gt. lia.
Qed.
