(* ===== verification/VwapCalculator.v ===== *)
(** * The VWAP calculator ([include/vwap_calculator.h], [src/vwap_calculator.cpp])

    A sliding window over the trade stream, kept in a bounded deque together
    with running sums and prefix-sum arrays; expiry finds the cut by binary
    search and subtracts a prefix.  The specification is a list filtered by
    timestamp ([Spec]); the theorems show that the arrays, the search and the
    sums implement it.  The component is verified against the [Deque]
    interface and instantiated with the circular buffer at the end. *)
From S2P Require Import Prelude Ring Binary64 Metrics Message CircularBuffer VwapSpec.
Import SpecRun.

Definition wouldAddOverflow (a b : Z) : bool := b >? UINT64_MAX - a.

Record VwapCalculator (Q : Type) := mkCalculator {
  sumPriceVolume : Z; sumVolume : Z; cachedVwap : double; vwapCacheValid : bool;
  windowDurationNanos : Z;
  tradeWindow : Q;
  prefixVolume : list Z; prefixPriceVolume : list Z; timeIndex : list Z;
  oldestIndex : Z; prefixGeneration : Z; pendingRebuild : bool;
  windowStartTime : Z; firstWindowComplete : bool; lastTradeTime : Z;
  totalTradesProcessed : Z; rejectedTrades : Z
}.
Arguments mkCalculator {Q} _ _ _ _ _ _ _ _ _ _ _ _ _ _ _ _ _.
Arguments sumPriceVolume {Q} _.
Arguments sumVolume {Q} _.
Arguments cachedVwap {Q} _.
Arguments vwapCacheValid {Q} _.
Arguments windowDurationNanos {Q} _.
Arguments tradeWindow {Q} _.
Arguments prefixVolume {Q} _.
Arguments prefixPriceVolume {Q} _.
Arguments timeIndex {Q} _.
Arguments oldestIndex {Q} _.
Arguments prefixGeneration {Q} _.
Arguments pendingRebuild {Q} _.
Arguments windowStartTime {Q} _.
Arguments firstWindowComplete {Q} _.
Arguments lastTradeTime {Q} _.
Arguments totalTradesProcessed {Q} _.
Arguments rejectedTrades {Q} _.
#[global] Instance eta_VwapCalculator Q : Settable (VwapCalculator Q) := fun r =>
  mkCalculator (sumPriceVolume r) (sumVolume r) (cachedVwap r) (vwapCacheValid r)
    (windowDurationNanos r) (tradeWindow r) (prefixVolume r) (prefixPriceVolume r) (timeIndex r)
    (oldestIndex r) (prefixGeneration r) (pendingRebuild r) (windowStartTime r)
    (firstWindowComplete r) (lastTradeTime r) (totalTradesProcessed r) (rejectedTrades r).

Section ops.
Context {Q : Type} `{DequeOps VwapTradeRecord Q} (MAX_TRADES : nat).
Implicit Types c : VwapCalculator Q.

(** The constructor, given an empty window buffer; the arrays start zeroed. *)
Definition VwapCalculator_init (empty : Q) (windowSeconds : Z) : VwapCalculator Q :=
  mkCalculator 0 0 dzero false (u64 (windowSeconds * 1000000000)) empty
    (replicate MAX_TRADES 0) (replicate MAX_TRADES 0) (replicate MAX_TRADES 0)
    0 0 false 0 false 0 0 0.

Definition appendPrefix (qty pv : Z) c : VwapCalculator Q :=
  let n := dq_size (tradeWindow c) in
  if (n =? 0)%nat then c else
  let prevV := if (1 <? n)%nat then prefixVolume c !!! (n - 2)%nat else 0 in
  let prevPV := if (1 <? n)%nat then prefixPriceVolume c !!! (n - 2)%nat else 0 in
  c <| prefixVolume ::= <[(n - 1)%nat := u64 (prevV + qty)]> |>
    <| prefixPriceVolume ::= <[(n - 1)%nat := u64 (prevPV + pv)]> |>.

Definition rebuildPrefixes c : VwapCalculator Q :=
  let n := dq_size (tradeWindow c) in
  let step (s : Z * Z * list Z * list Z * list Z) (i : nat) :=
    let '(v, pv, pV, pPV, tI) := s in
    let tr := dq_at (tradeWindow c) i in
    let v := u64 (v + quantity tr) in
    let pv := u64 (pv + priceVolume tr) in
    (v, pv, <[i := v]> pV, <[i := pv]> pPV, <[i := timestamp tr]> tI) in
  let '(_, _, pV, pPV, tI) :=
    foldl step (0, 0, prefixVolume c, prefixPriceVolume c, timeIndex c) (seq 0 n) in
  c <| prefixVolume := pV |> <| prefixPriceVolume := pPV |> <| timeIndex := tI |>
    <| pendingRebuild := false |> <| prefixGeneration ::= λ g, u32 (g + 1) |>.

(** The binary search of [removeExpiredTrades] and [lowerBoundTime]. *)
Fixpoint lower_bound (q : Q) (cutoff : Z) (lo hi : nat) (fuel : nat) : nat :=
  match fuel with
  | O => lo
  | S fuel =>
      if (lo <? hi)%nat then
        let mid := ((lo + hi) / 2)%nat in
        if timestamp (dq_at q mid) <? cutoff then lower_bound q cutoff (mid + 1) hi fuel
        else lower_bound q cutoff lo mid fuel
      else lo
  end.

Definition lowerBoundTime (cutoff : Z) c : Z :=
  let n := dq_size (tradeWindow c) in
  u32 (Z.of_nat (lower_bound (tradeWindow c) cutoff 0 n n)).

(** [memmove] of [n] words from offset [off] to the start of an array, and
    the loop that subtracts the removed prefix. *)
Definition memmove_front (off n : nat) (arr : list Z) : list Z :=
  list_inserts 0 (slice off n arr) arr.
Definition subtract_all (x : Z) (n : nat) (arr : list Z) : list Z :=
  foldl (λ a i, <[i := u64 (a !!! i - x)]> a) arr (seq 0 n).

(** The second half of [removeExpiredTrades], in its four steps: pop and
    subtract, shift the arrays, advance the index, restart the clock. *)
Definition popPrefix (removeCount : nat) (volRemoved pvRemoved : Z) c : VwapCalculator Q :=
  c <| tradeWindow ::= Nat.iter removeCount dq_pop_front |>
    <| sumVolume ::= λ v, u64 (v - volRemoved) |>
    <| sumPriceVolume ::= λ v, u64 (v - pvRemoved) |>.

Definition shiftArrays (removeCount : nat) (volRemoved pvRemoved : Z) c : VwapCalculator Q :=
  let newN := dq_size (tradeWindow c) in
  if (newN =? 0)%nat then c else
  c <| prefixVolume ::= λ a, subtract_all volRemoved newN (memmove_front removeCount newN a) |>
    <| prefixPriceVolume ::= λ a, subtract_all pvRemoved newN (memmove_front removeCount newN a) |>
    <| timeIndex ::= memmove_front removeCount newN |>.

Definition bumpOldest (removeCount : nat) c : VwapCalculator Q :=
  let c := c <| oldestIndex ::= λ x, u32 (x + Z.of_nat removeCount) |> in
  if oldestIndex c >? 10 * Z.of_nat MAX_TRADES
  then c <| oldestIndex := u32 (Z.of_nat MAX_TRADES) |> else c.

Definition restartWindow c : VwapCalculator Q :=
  let c :=
    if dq_empty (tradeWindow c)
    then c <| sumVolume := 0 |> <| sumPriceVolume := 0 |> <| windowStartTime := 0 |>
    else c <| windowStartTime := timestamp (dq_front (tradeWindow c)) |> in
  c <| vwapCacheValid := false |>.

Definition removePrefix (removeCount : nat) c : VwapCalculator Q :=
  let volRemoved := prefixVolume c !!! (removeCount - 1)%nat in
  let pvRemoved := prefixPriceVolume c !!! (removeCount - 1)%nat in
  restartWindow (bumpOldest removeCount
    (shiftArrays removeCount volRemoved pvRemoved
      (popPrefix removeCount volRemoved pvRemoved c))).

Definition removeExpiredTrades (currentTime : Z) c : VwapCalculator Q :=
  let cutoff := if currentTime >? windowDurationNanos c
                then u64 (currentTime - windowDurationNanos c) else 0 in
  if dq_empty (tradeWindow c) then c else
  if timestamp (dq_front (tradeWindow c)) >=? cutoff then c else
  let n := dq_size (tradeWindow c) in
  let c := if pendingRebuild c then rebuildPrefixes c else c in
  let removeCount := lower_bound (tradeWindow c) cutoff 0 n n in
  if (removeCount =? 0)%nat then c else removePrefix removeCount c.

(** The steps that record an accepted trade: start the clock of an empty
    window, push, note a full buffer, extend the arrays, publish the sums. *)
Definition startWindow (ts : Z) c : VwapCalculator Q :=
  if windowStartTime c =? 0 then c <| windowStartTime := ts |> else c.

Definition pushTrade (r : VwapTradeRecord) c : VwapCalculator Q :=
  let c := c <| tradeWindow ::= dq_push_back r |> in
  if (dq_size (tradeWindow c) =? MAX_TRADES)%nat then c <| pendingRebuild := true |> else c.

Definition appendTime (ts : Z) c : VwapCalculator Q :=
  let n := dq_size (tradeWindow c) in
  if (n =? 0)%nat then c else c <| timeIndex ::= <[(n - 1)%nat := ts]> |>.

Definition publishSums (newPV newVol : Z) c : VwapCalculator Q :=
  c <| sumPriceVolume := newPV |> <| sumVolume := newVol |> <| vwapCacheValid := false |>
    <| totalTradesProcessed ::= λ t, u64 (t + 1) |>.

Definition completeWindow (ts : Z) c : VwapCalculator Q :=
  if negb (firstWindowComplete c) && (u64 (ts - windowStartTime c) >=? windowDurationNanos c)
  then c <| firstWindowComplete := true |> else c.

Definition addTrade (trade : TradeMessage) (s : VwapCalculator Q * SystemMetrics)
  : VwapCalculator Q * SystemMetrics :=
  let '(c, m) := s in
  let reject c : VwapCalculator Q := c <| rejectedTrades ::= λ r, u64 (r + 1) |> in
  if (Trade.price trade <=? 0) || (Trade.quantity trade =? 0) then (reject c, m) else
  if negb (lastTradeTime c =? 0) && (Trade.timestamp trade <? lastTradeTime c)
  then (reject c, incMessagesDropped m) else
  let ts := Trade.timestamp trade in
  let qty := Trade.quantity trade in
  let price := Trade.price trade in
  (* the 128-bit product *)
  let pv128 := u64 price * qty in
  if pv128 >? UINT64_MAX then (reject c, m) else
  let priceVolume := u64 pv128 in
  if wouldAddOverflow (sumPriceVolume c) priceVolume || wouldAddOverflow (sumVolume c) qty
  then (reject c, m) else
  let newPV := u64 (sumPriceVolume c + priceVolume) in
  let newVol := u64 (sumVolume c + qty) in
  let c := publishSums newPV newVol (appendTime ts (appendPrefix qty priceVolume
             (pushTrade (VwapTradeRecord_make ts qty price) (startWindow ts c)))) in
  let m := incTradesProcessed m in
  let c := c <| lastTradeTime := ts |> in
  let c := removeExpiredTrades ts c in
  (completeWindow ts c, m).

(** A sequence of calls. *)
Definition process (trades : list TradeMessage) (s : VwapCalculator Q * SystemMetrics)
  : VwapCalculator Q * SystemMetrics := foldl (λ x t, addTrade t x) s trades.

(** Returns the value together with the refreshed cache. *)
Definition getCurrentVwap c : double * VwapCalculator Q :=
  let c := if negb (vwapCacheValid c) then
             c <| cachedVwap := if sumVolume c =? 0 then dzero
                                else d_div (d_of_Z (sumPriceVolume c)) (d_of_Z (sumVolume c)) |>
               <| vwapCacheValid := true |>
           else c in
  (cachedVwap c, c).

Definition hasCompleteWindow c : bool := firstWindowComplete c && negb (dq_empty (tradeWindow c)).
Definition getTradeCount c : Z := u32 (Z.of_nat (dq_size (tradeWindow c))).

(** The condition [printStatistics] asserts. *)
Definition printStatistics_assert c : bool :=
  negb (sumVolume c =? 0) || (sumPriceVolume c =? 0).
End ops.

(** Without 128-bit integers the product is tested by a division: the two
    builds reject the same trades. *)
Definition wouldMultiplyOverflow (a b : Z) : bool := negb (a =? 0) && (b >? UINT64_MAX / a).

Lemma wouldMultiplyOverflow_spec a b :
  0 ≤ a → 0 ≤ b → wouldMultiplyOverflow a b = (a * b >? UINT64_MAX).
Proof.
  intros Ha Hb. unfold wouldMultiplyOverflow. rewrite !Z.gtb_ltb.
  destruct (Z.eqb_spec a 0) as [->|Hne]; [done|]. cbn [negb andb].
  apply Bool.eq_iff_eq_true. rewrite !Z.ltb_lt. split; intros Hlt.
  - apply Z.nle_gt. intros Hle. apply Z.div_le_lower_bound in Hle; lia.
  - apply Z.div_lt_upper_bound; lia.
Qed.

Lemma wouldAddOverflow_spec a b : wouldAddOverflow a b = (a + b >? UINT64_MAX).
Proof. 
  unfold wouldAddOverflow. rewrite !Z.gtb_ltb.
  destruct (Z.ltb_spec (UINT64_MAX - a) b), (Z.ltb_spec UINT64_MAX (a + b)); done || lia.
Qed.

(** ** Prefix sums *)

(** [arr] holds the prefix sums of [f] over [l] in its first [length l]
    cells. *)
Definition prefix_ok (n : nat) (f : VwapTradeRecord → Z) (l : list VwapTradeRecord) (arr : list Z) : Prop :=
  length arr = n ∧ (length l ≤ n)%nat ∧
  ∀ i, (i < length l)%nat → arr !!! i = sum_of f (take (S i) l).

Definition index_ok (n : nat) (l : list VwapTradeRecord) (arr : list Z) : Prop :=
  length arr = n ∧ (length l ≤ n)%nat ∧ ∀ i, (i < length l)%nat → arr !!! i = timestamp (l !!! i).

(** The sums of a window fit in 64 bits, so no prefix wraps. *)
Definition sums_fit (f : VwapTradeRecord → Z) (l : list VwapTradeRecord) : Prop :=
  Forall (λ r, 0 ≤ f r) l ∧ sum_of f l < 2 ^ 64.

Lemma sums_fit_take f l i : sums_fit f l → is_u64 (sum_of f (take i l)).
Proof. intros [H Hs]. pose proof (sum_of_take_range f l i H). lia. Qed.

Lemma total_insert_eq (l : list Z) i x : (i < length l)%nat → <[i := x]> l !!! i = x.
Proof. apply list_lookup_total_insert_eq. Qed.
Lemma total_insert_ne (l : list Z) i j x : i ≠ j → <[i := x]> l !!! j = l !!! j.
Proof. apply list_lookup_total_insert_ne. Qed.

Lemma prefix_ok_extend n f l x arr :
  prefix_ok n f l arr → (length l < n)%nat →
  prefix_ok n f (l ++ [x]) (<[length l := sum_of f (l ++ [x])]> arr).
Proof.
  intros (Hlen & _ & Hp) Hlt. unfold prefix_ok. rewrite length_insert, length_app. cbn [length].
  split; [done|]. split; [lia|]. intros i Hi. destruct (decide (i = length l)) as [->|Hne].
  - rewrite total_insert_eq by lia. rewrite take_ge by (rewrite length_app; simpl; lia). done.
  - rewrite total_insert_ne by done. rewrite Hp by lia. by rewrite take_app_le by lia.
Qed.

Lemma index_ok_extend n l x arr :
  index_ok n l arr → (length l < n)%nat →
  index_ok n (l ++ [x]) (<[length l := timestamp x]> arr).
Proof.
  intros (Hlen & _ & Hp) Hlt. unfold index_ok. rewrite length_insert, length_app. cbn [length].
  split; [done|]. split; [lia|]. intros i Hi. destruct (decide (i = length l)) as [->|Hne].
  - rewrite total_insert_eq by lia. by rewrite list_lookup_total_middle.
  - rewrite total_insert_ne, Hp by lia. by rewrite lookup_total_app_l by lia.
Qed.

Lemma sums_fit_all f l : sums_fit f l → is_u64 (sum_of f l).
Proof. intros H. rewrite <- (firstn_all l). by apply sums_fit_take. Qed.

(** The sum before the last element, as [appendPrefix] reads it. *)
Lemma prefix_ok_prev n f l arr :
  prefix_ok n f l arr →
  (if (1 <? length l + 1)%nat then arr !!! (length l + 1 - 2)%nat else 0) = sum_of f l.
Proof.
  intros (_ & _ & Hp). destruct (Nat.ltb_spec 1 (length l + 1)).
  - rewrite Hp by lia. by rewrite take_ge by lia.
  - by rewrite (nil_length_inv l) by lia.
Qed.

Lemma lookup_total_memmove (off n i : nat) (arr : list Z) :
  (off + n ≤ length arr)%nat → (i < n)%nat → memmove_front off n arr !!! i = arr !!! (off + i)%nat.
Proof.
  intros Ho Hi. unfold memmove_front. rewrite !list_lookup_total_alt. f_equal.
  rewrite list_lookup_inserts by (rewrite ?length_slice; lia).
  rewrite Nat.sub_0_r. by apply lookup_slice.
Qed.

Lemma length_subtract_all x n arr : length (subtract_all x n arr) = length arr.
Proof.
  unfold subtract_all. induction n as [|n IH]; [done|].
  rewrite seq_S, foldl_app. cbn. by rewrite length_insert.
Qed.

Lemma lookup_total_subtract_all x n arr i :
  (n ≤ length arr)%nat →
  subtract_all x n arr !!! i = if (i <? n)%nat then u64 (arr !!! i - x) else arr !!! i.
Proof.
  induction n as [|n IH]; intros Hn; [done|].
  unfold subtract_all in *. rewrite seq_S, foldl_app. cbn [foldl Nat.add].
  assert (Hl := length_subtract_all x n arr). unfold subtract_all in Hl.
  destruct (decide (i = n)) as [->|Hne].
  - rewrite total_insert_eq, IH, Nat.ltb_irrefl by lia.
    destruct (Nat.ltb_spec n (S n)); [done|lia].
  - rewrite total_insert_ne, IH by lia.
    destruct (Nat.ltb_spec i n), (Nat.ltb_spec i (S n)); done || lia.
Qed.

Lemma prefix_ok_drop n f l arr k :
  prefix_ok n f l arr → sums_fit f l → (0 < k ≤ length l)%nat →
  let removed := arr !!! (k - 1)%nat in
  removed = sum_of f (take k l) ∧
  prefix_ok n f (drop k l)
    (subtract_all removed (length l - k) (memmove_front k (length l - k) arr)).
Proof.
  intros (Hlen & Hle & Hp) Hfit Hk. cbv zeta. rewrite Hp by lia.
  replace (S (k - 1)) with k by lia. split; [done|].
  assert (Hmm : length (memmove_front k (length l - k) arr) = n)
    by (unfold memmove_front; by rewrite length_inserts).
  split; [by rewrite length_subtract_all|]. rewrite length_drop. split; [lia|].
  intros i Hi. rewrite lookup_total_subtract_all by lia.
  destruct (Nat.ltb_spec i (length l - k)); [|lia].
  rewrite lookup_total_memmove, Hp by lia.
  rewrite <- (sum_of_take_drop f k (take (S (k + i)) l)).
  rewrite take_take, Nat.min_l by lia. rewrite skipn_firstn_comm.
  replace (S (k + i) - k)%nat with (S i) by lia. rewrite Z.add_simpl_l.
  apply u64_small. pose proof (sums_fit_take f l k Hfit) as H1.
  pose proof (sum_of_take_range f (drop k l) (S i) ltac:(apply Forall_drop; apply Hfit)) as H2.
  pose proof (sum_of_take_drop f k l). destruct Hfit. lia.
Qed.

Lemma index_ok_drop n l arr k :
  index_ok n l arr → (k ≤ length l)%nat →
  index_ok n (drop k l) (memmove_front k (length l - k) arr).
Proof.
  intros (Hlen & Hle & Hp) Hk. unfold index_ok, memmove_front.
  rewrite length_inserts, length_drop. split; [done|]. split; [lia|].
  intros i Hi. fold (memmove_front k (length l - k) arr).
  rewrite lookup_total_memmove, Hp, lookup_total_drop by lia. done.
Qed.

(** ** The calculator implements the specification *)

Section refinement.
Context {Q : Type} {cap : nat} `{!DequeOps VwapTradeRecord Q} `{!Deque VwapTradeRecord Q cap}
  (Hcap : (0 < cap)%nat).
Implicit Types (c : VwapCalculator Q) (s : Spec.t) (l : list VwapTradeRecord).

Abbreviation elems c := (dq_list (tradeWindow c)).

Lemma lower_bound_spec (q : Q) cut lo hi fuel :
  dq_inv q → StronglySorted by_time (dq_list q) →
  (lo ≤ hi ≤ length (dq_list q))%nat → (hi - lo ≤ fuel)%nat →
  (∀ i, (i < lo)%nat → timestamp (dq_list q !!! i) < cut) →
  (∀ i, (hi ≤ i < length (dq_list q))%nat → cut ≤ timestamp (dq_list q !!! i)) →
  let k := lower_bound q cut lo hi fuel in
  (lo ≤ k ≤ hi)%nat ∧
  (∀ i, (i < k)%nat → timestamp (dq_list q !!! i) < cut) ∧
  (∀ i, (k ≤ i < length (dq_list q))%nat → cut ≤ timestamp (dq_list q !!! i)).
Proof.
  intros Hinv Hs. revert lo hi. induction fuel as [|fuel IH]; intros lo hi Hr Hf Hlo Hhi.
  { cbn. split; [lia|]. split; [done|]. intros i Hi. apply Hhi. lia. }
  cbn [lower_bound]. branch; [|split; [lia|]; split; [done|]; intros; apply Hhi; lia].
  assert (Hmid := Nat.div_lt_upper_bound (lo + hi) 2 hi ltac:(lia) ltac:(lia)).
  assert (Hmid' := Nat.div_le_lower_bound (lo + hi) 2 lo ltac:(lia) ltac:(lia)).
  set (mid := ((lo + hi) / 2)%nat) in *. rewrite dq_at_spec by (done || lia).
  branch.
  - destruct (IH (mid + 1)%nat hi) as (Hk & Hl & Hh); try lia; try done.
    + intros i Hi. pose proof (by_time_lookup _ i mid Hs ltac:(lia) ltac:(lia)). lia.
    + split; [lia|]. done.
  - destruct (IH lo mid) as (Hk & Hl & Hh); try lia; try done.
    + intros i Hi. pose proof (by_time_lookup _ mid i Hs ltac:(lia) ltac:(lia)). lia.
    + split; [lia|]. done.
Qed.

(** The binary search finds the number of expired trades. *)
Lemma lower_bound_cut (q : Q) cut :
  dq_inv q → StronglySorted by_time (dq_list q) →
  let n := dq_size q in
  let k := lower_bound q cut 0 n n in
  (k ≤ n)%nat ∧ drop k (dq_list q) = filter (λ r, cut ≤ timestamp r) (dq_list q).
Proof.
  intros Hinv Hs. cbv zeta. rewrite dq_size_spec by done.
  destruct (lower_bound_spec q cut 0 (length (dq_list q)) (length (dq_list q)))
    as (Hk & Hl & Hh); try done; try lia.
  split; [lia|]. symmetry. apply sorted_cut; [done| |]; intros; [apply Hl|apply Hh]; lia.
Qed.

Lemma pop_many k (q : Q) :
  dq_inv q →
  dq_inv (Nat.iter k dq_pop_front q) ∧ dq_list (Nat.iter k dq_pop_front q) = drop k (dq_list q).
Proof.
  intros Hinv. induction k as [|k [IHi IHl]]; [done|]. rewrite Nat.iter_succ. split.
  - by apply dq_pop_inv.
  - rewrite dq_pop_spec, IHl, drop_drop by done. f_equal. lia.
Qed.

(** The arrays describe the window. *)
Definition arrays_ok c : Prop :=
  prefix_ok cap quantity (elems c) (prefixVolume c) ∧
  prefix_ok cap priceVolume (elems c) (prefixPriceVolume c) ∧
  index_ok cap (elems c) (timeIndex c).

Definition arrays_sized c : Prop :=
  length (prefixVolume c) = cap ∧ length (prefixPriceVolume c) = cap ∧ length (timeIndex c) = cap.

Lemma rebuildPrefixes_ok c :
  dq_inv (tradeWindow c) → arrays_sized c →
  sums_fit quantity (elems c) → sums_fit priceVolume (elems c) →
  arrays_ok (rebuildPrefixes c).
Proof.
  intros Hinv (Hl1 & Hl2 & Hl3) Hf1 Hf2. unfold rebuildPrefixes.
  assert (Hb := dq_bound _ Hinv). rewrite (dq_size_spec _ Hinv).
  set (step := λ (s : Z * Z * list Z * list Z * list Z) i, _).
  assert (Hloop : ∀ n, (n ≤ length (elems c))%nat →
    ∃ pV pPV tI,
      foldl step (0, 0, prefixVolume c, prefixPriceVolume c, timeIndex c) (seq 0 n)
        = (sum_of quantity (take n (elems c)), sum_of priceVolume (take n (elems c)), pV, pPV, tI) ∧
      prefix_ok cap quantity (take n (elems c)) pV ∧
      prefix_ok cap priceVolume (take n (elems c)) pPV ∧
      index_ok cap (take n (elems c)) tI).
  { induction n as [|n IH]; intros Hn.
    - exists (prefixVolume c), (prefixPriceVolume c), (timeIndex c).
      rewrite take_0. split; [done|].
      split; [|split]; (split; [done|split; [simpl; lia|simpl; intros; lia]]).
    - destruct IH as (pV & pPV & tI & Hfold & H1 & H2 & H3); [lia|].
      rewrite seq_S, foldl_app, Hfold. cbn [foldl Nat.add]. unfold step.
      rewrite (dq_at_spec _ n Hinv) by lia.
      destruct (lookup_lt_is_Some_2 (elems c) n ltac:(lia)) as [x Hx].
      rewrite (list_lookup_total_correct _ _ _ Hx), (take_S_r _ n x Hx).
      assert (Hn' : length (take n (elems c)) = n) by (rewrite length_take; lia).
      assert (Hsum : ∀ f, sums_fit f (elems c) →
                u64 (sum_of f (take n (elems c)) + f x) = sum_of f (take n (elems c) ++ [x])).
      { intros f Hf. rewrite sum_of_app, sum_of_single. apply u64_small.
        rewrite <- (list_lookup_total_correct _ _ _ Hx), <- sum_of_take_S by lia.
        by apply sums_fit_take. }
      rewrite !Hsum by done. eexists _, _, _. split; [done|].
      assert (E1 := prefix_ok_extend _ _ _ x _ H1 ltac:(lia)).
      assert (E2 := prefix_ok_extend _ _ _ x _ H2 ltac:(lia)).
      assert (E3 := index_ok_extend _ _ x _ H3 ltac:(lia)).
      rewrite Hn' in E1, E2, E3. done. }
  destruct (Hloop (length (elems c)) ltac:(lia)) as (pV & pPV & tI & -> & H1 & H2 & H3).
  rewrite firstn_all in *. done.
Qed.

(** The data invariant, with [lv] and [lp] the residue of overwritten
    trades in the two sums. *)
Record calc_inv (lv lp : Z) c : Prop := {
  ci_inv : dq_inv (tradeWindow c);
  ci_sorted : StronglySorted by_time (elems c);
  ci_nonneg : Forall (λ r, 0 ≤ quantity r) (elems c) ∧ Forall (λ r, 0 ≤ priceVolume r) (elems c);
  ci_lost : 0 ≤ lv ∧ 0 ≤ lp;
  ci_volume : sumVolume c = sum_of quantity (elems c) + lv ∧ sumVolume c < 2 ^ 64;
  ci_pv : sumPriceVolume c = sum_of priceVolume (elems c) + lp ∧ sumPriceVolume c < 2 ^ 64;
  ci_sized : arrays_sized c;
  ci_arrays : pendingRebuild c = false → arrays_ok c
}.

Lemma calc_inv_fit lv lp c :
  calc_inv lv lp c → sums_fit quantity (elems c) ∧ sums_fit priceVolume (elems c).
Proof. intros []. destruct ci_nonneg0. unfold sums_fit. repeat split; try done; lia. Qed.

(** Rebuilding on demand makes the arrays right and changes nothing else. *)
Lemma rebuild_fields c :
  let c' := rebuildPrefixes c in
  tradeWindow c' = tradeWindow c ∧ sumVolume c' = sumVolume c ∧
  sumPriceVolume c' = sumPriceVolume c ∧ pendingRebuild c' = false ∧
  windowDurationNanos c' = windowDurationNanos c ∧ windowStartTime c' = windowStartTime c ∧
  firstWindowComplete c' = firstWindowComplete c ∧ lastTradeTime c' = lastTradeTime c ∧
  totalTradesProcessed c' = totalTradesProcessed c ∧ rejectedTrades c' = rejectedTrades c.
Proof.
  unfold rebuildPrefixes. destruct (foldl _ _ _) as [[[[v pv] pV] pPV] tI]. by repeat split.
Qed.

Lemma rebuild_if_pending lv lp c :
  calc_inv lv lp c →
  let c' := if pendingRebuild c then rebuildPrefixes c else c in
  calc_inv lv lp c' ∧ arrays_ok c' ∧ tradeWindow c' = tradeWindow c.
Proof.
  intros Hc. assert (Hfit := calc_inv_fit _ _ _ Hc). destruct Hfit as [Hf1 Hf2].
  destruct (pendingRebuild c) eqn:Hp; cbv zeta; [|by split; [|split; [apply Hc|]]].
  assert (Hok := rebuildPrefixes_ok c (ci_inv _ _ _ Hc) (ci_sized _ _ _ Hc) Hf1 Hf2).
  destruct (rebuild_fields c) as (Ht & Hv & Hpv & _). split; [|done].
  destruct Hc. constructor; rewrite ?Ht, ?Hv, ?Hpv; try done.
  destruct Hok as ((?&?&?) & (?&?&?) & (?&?&?)). done.
Qed.

Lemma live_nonempty W ts l r : 0 ≤ W → last l = Some r → timestamp r = ts → 0 ≤ ts →
  Spec.live W ts l ≠ [].
Proof.
  intros HW [l' ->]%last_Some <- Hts. unfold Spec.live. rewrite filter_app.
  rewrite (filter_cons_True _ r []) by (unfold Spec.cutoff; lia). by destruct (filter _ l').
Qed.

Lemma cutoff_code W ts :
  0 ≤ W → is_u64 ts → (if ts >? W then u64 (ts - W) else 0) = Spec.cutoff W ts.
Proof.
  intros HW Hts. unfold Spec.cutoff. rewrite Z.gtb_ltb. branch; [rewrite u64_small by lia|]; lia.
Qed.

Definition same_clock c c' : Prop :=
  windowDurationNanos c' = windowDurationNanos c ∧
  firstWindowComplete c' = firstWindowComplete c ∧ lastTradeTime c' = lastTradeTime c ∧
  totalTradesProcessed c' = totalTradesProcessed c ∧ rejectedTrades c' = rejectedTrades c ∧
  (vwapCacheValid c = false → vwapCacheValid c' = false).

(** The fields [bumpOldest] and [restartWindow] leave alone, on a window
    that is not empty. *)
Lemma finish_spec lv lp k c :
  calc_inv lv lp c → elems c ≠ [] →
  let c' := restartWindow (bumpOldest cap k c) in
  calc_inv lv lp c' ∧ elems c' = elems c ∧ same_clock c c' ∧
  windowStartTime c' = timestamp (elems c !!! 0%nat).
Proof.
  intros Hc Hne. unfold bumpOldest.
  assert (Hsz : dq_empty (tradeWindow c) = false).
  { unfold dq_empty. rewrite dq_size_spec by apply Hc. by destruct (elems c). }
  assert (Hfront := dq_front_spec _ (ci_inv _ _ _ Hc) Hne).
  branch; unfold restartWindow; cbn; rewrite Hsz, <- Hfront; cbn;
    (split; [by destruct Hc|]; split; [done|]; split; [by repeat split|done]).
Qed.

Lemma removePrefix_spec lv lp k c :
  calc_inv lv lp c → arrays_ok c → (0 < k < length (elems c))%nat →
  let c' := removePrefix cap k c in
  calc_inv lv lp c' ∧ elems c' = drop k (elems c) ∧ same_clock c c' ∧
  windowStartTime c' = timestamp (drop k (elems c) !!! 0%nat).
Proof.
  intros Hc (Hp1 & Hp2 & Hp3) Hk. destruct (calc_inv_fit _ _ _ Hc) as [Hf1 Hf2].
  destruct (prefix_ok_drop _ _ _ _ k Hp1 Hf1) as [Hv1 Hp1']; [lia|].
  destruct (prefix_ok_drop _ _ _ _ k Hp2 Hf2) as [Hv2 Hp2']; [lia|].
  assert (Hp3' := index_ok_drop _ _ _ k Hp3 ltac:(lia)).
  destruct (pop_many k (tradeWindow c) (ci_inv _ _ _ Hc)) as [Hinv' Helems'].
  cbv zeta. unfold removePrefix. rewrite Hv1, Hv2 in *.
  set (vr := sum_of quantity (take k (elems c))) in *.
  set (pr := sum_of priceVolume (take k (elems c))) in *.
  set (c1 := popPrefix k vr pr c). set (c2 := shiftArrays k vr pr c1).
  assert (Hsz : dq_size (tradeWindow c1) = (length (elems c) - k)%nat).
  { unfold c1. cbn. rewrite dq_size_spec, Helems' by done. apply length_drop. }
  assert (Hc2 : calc_inv lv lp c2 ∧ elems c2 = drop k (elems c) ∧ same_clock c c2).
  { unfold c2, shiftArrays. rewrite Hsz.
    destruct (Nat.eqb_spec (length (elems c) - k) 0) as [|_]; [lia|].
    unfold c1, popPrefix. clear c1 c2 Hsz.
    destruct Hc. destruct ci_nonneg0 as [Hn1 Hn2].
    assert (H1 := sum_of_take_drop quantity k (elems c)).
    assert (H2 := sum_of_take_drop priceVolume k (elems c)).
    assert (H3 := sum_of_take_range quantity (elems c) k Hn1).
    assert (H4 := sum_of_take_range priceVolume (elems c) k Hn2).
    assert (H5 := sum_of_nonneg quantity (drop k (elems c)) (Forall_drop _ _ _ Hn1)).
    assert (H6 := sum_of_nonneg priceVolume (drop k (elems c)) (Forall_drop _ _ _ Hn2)).
    split; [|split; [done|by repeat split]].
    constructor; cbn; rewrite ?Helems'; try done.
    - by apply sorted_drop.
    - split; by apply Forall_drop.
    - rewrite u64_small; lia.
    - rewrite u64_small; lia.
    - by split; [apply Hp1'|split; [apply Hp2'|apply Hp3']].
    - intros _. unfold arrays_ok. cbn. by rewrite Helems'. }
  clearbody c2. clear c1 Hsz. destruct Hc2 as (Hc2 & He2 & Hs2).
  destruct (finish_spec lv lp k c2 Hc2) as (Hc3 & He3 & Hs3 & Hst).
  { rewrite He2. intros E%(f_equal length). rewrite length_drop in E. simpl in E. lia. }
  rewrite He2 in *. split; [done|]. split; [done|]. split; [|done].
  unfold same_clock in *. intuition congruence.
Qed.

Lemma removeExpired_spec W lv lp ts c r :
  calc_inv lv lp c → windowDurationNanos c = W → 0 ≤ W →
  last (elems c) = Some r → timestamp r = ts → is_u64 ts →
  let c' := removeExpiredTrades cap ts c in
  let kept := Spec.live W ts (elems c) in
  calc_inv lv lp c' ∧ elems c' = kept ∧ same_clock c c' ∧
  windowStartTime c' = (if (length kept =? length (elems c))%nat then windowStartTime c
                        else timestamp (kept !!! 0%nat)).
Proof.
  intros Hc HW HW0 Hlast Hr Hts. cbv zeta. unfold removeExpiredTrades.
  rewrite HW, cutoff_code by done.
  assert (Hinv := ci_inv _ _ _ Hc). assert (Hsort := ci_sorted _ _ _ Hc).
  assert (Hne : elems c ≠ []) by (intros E; by rewrite E in Hlast).
  assert (Hlen : (0 < length (elems c))%nat) by (destruct (elems c); [done|simpl; lia]).
  unfold dq_empty. rewrite dq_size_spec by done.
  destruct (Nat.eqb_spec (length (elems c)) 0) as [|_]; [lia|].
  rewrite dq_front_spec, Z.geb_leb by done. branch.
  { rewrite live_all.
    - rewrite Nat.eqb_refl. split; [done|]. split; [done|]. by split; [repeat split|].
    - apply Forall_forall. intros x Hx. apply list_elem_of_lookup_total in Hx as (i & Hi & <-).
      pose proof (by_time_lookup _ 0 i Hsort ltac:(lia) ltac:(lia)). lia. }
  destruct (rebuild_if_pending _ _ _ Hc) as (Hc1 & Hok & Htw).
  assert (Hclock : same_clock c (if pendingRebuild c then rebuildPrefixes c else c) ∧
            windowStartTime (if pendingRebuild c then rebuildPrefixes c else c) = windowStartTime c).
  { destruct (pendingRebuild c); [|by repeat split].
    unfold rebuildPrefixes. destruct (foldl _ _ _) as [[[[v pv] pV] pPV] tI]. by repeat split. }
  revert Hc1 Hok Htw Hclock. generalize (if pendingRebuild c then rebuildPrefixes c else c).
  intros c1 Hc1 Hok Htw [Hclock Hstart]. rewrite <- !Htw in *.
  destruct (lower_bound_cut (tradeWindow c1) (Spec.cutoff W ts) Hinv Hsort) as [Hk Hdrop].
  fold (Spec.live W ts (elems c1)) in Hdrop. rewrite <- Hdrop.
  rewrite dq_size_spec in * by done. set (k := lower_bound _ _ _ _ _) in *. clearbody k.
  destruct (Nat.eqb_spec k 0) as [->|Hk0].
  { by rewrite drop_0, Nat.eqb_refl. }
  (* at least one trade goes, and the newest stays *)
  assert (Hkn : (k < length (elems c1))%nat).
  { apply Nat.nle_gt. intros Hge. rewrite drop_ge in Hdrop by done.
    by apply (live_nonempty W ts (elems c1) r); [| | |lia|rewrite <- Hdrop]. }
  destruct (removePrefix_spec lv lp k c1 Hc1 Hok) as (Hc2 & He2 & Hs2 & Hst2); [lia|].
  split; [done|]. split; [done|]. split.
  - unfold same_clock in *. intuition congruence.
  - rewrite Hst2, length_drop.
    destruct (Nat.eqb_spec (length (elems c1) - k) (length (elems c1))); [lia|done].
Qed.

(** The window after a push, and what the push forgot. *)
Definition full_window c : bool := negb (length (elems c) <? cap)%nat.
Definition push_base c : list VwapTradeRecord :=
  if full_window c then drop 1 (elems c) else elems c.
Definition push_lost (f : VwapTradeRecord → Z) c : Z :=
  if full_window c then sum_of f (take 1 (elems c)) else 0.

Definition recordTrade (r : VwapTradeRecord) (newPV newVol : Z) c : VwapCalculator Q :=
  publishSums newPV newVol (appendTime (timestamp r) (appendPrefix (quantity r) (priceVolume r)
    (pushTrade cap r (startWindow (timestamp r) c)))).

Arguments recordTrade : simpl never.

Definition prev_prefix (n : nat) (arr : list Z) : Z :=
  if (1 <? n + 1)%nat then arr !!! (n + 1 - 2)%nat else 0.

Lemma push_list r c :
  dq_inv (tradeWindow c) → dq_list (dq_push_back r (tradeWindow c)) = push_base c ++ [r].
Proof.
  intros Hinv. rewrite dq_push_spec by done. unfold push_base, full_window. by destruct (_ <? _)%nat.
Qed.

(** The four steps, field by field. *)
Lemma record_fields r newPV newVol c :
  dq_inv (tradeWindow c) →
  let n := length (push_base c) in
  recordTrade r newPV newVol c =
    mkCalculator newPV newVol (cachedVwap c) false (windowDurationNanos c)
      (dq_push_back r (tradeWindow c))
      (<[n := u64 (prev_prefix n (prefixVolume c) + quantity r)]> (prefixVolume c))
      (<[n := u64 (prev_prefix n (prefixPriceVolume c) + priceVolume r)]> (prefixPriceVolume c))
      (<[n := timestamp r]> (timeIndex c))
      (oldestIndex c) (prefixGeneration c) ((n + 1 =? cap)%nat || pendingRebuild c)
      (if windowStartTime c =? 0 then timestamp r else windowStartTime c)
      (firstWindowComplete c) (lastTradeTime c) (u64 (totalTradesProcessed c + 1)) (rejectedTrades c).
Proof.
  intros Hinv n. set (q' := dq_push_back r (tradeWindow c)).
  assert (Hsize : dq_size q' = (n + 1)%nat).
  { unfold q'. rewrite dq_size_spec by by apply dq_push_inv.
    by rewrite push_list, length_app by done. }
  assert (E1 : ∀ x, tradeWindow x = tradeWindow c →
      pushTrade cap r x = x <| tradeWindow := q' |>
                            <| pendingRebuild := (n + 1 =? cap)%nat || pendingRebuild x |>).
  { intros x Hx. unfold pushTrade. cbn. rewrite Hx. fold q'. rewrite Hsize.
    by destruct (n + 1 =? cap)%nat. }
  assert (E2 : ∀ x, tradeWindow x = q' →
      appendTime (timestamp r) (appendPrefix (quantity r) (priceVolume r) x) =
      x <| prefixVolume ::= <[n := u64 (prev_prefix n (prefixVolume x) + quantity r)]> |>
        <| prefixPriceVolume ::= <[n := u64 (prev_prefix n (prefixPriceVolume x) + priceVolume r)]> |>
        <| timeIndex ::= <[n := timestamp r]> |>).
  { intros x Hx. unfold appendPrefix, appendTime. rewrite Hx, Hsize.
    destruct (Nat.eqb_spec (n + 1) 0) as [|_]; [lia|]. cbn. rewrite Hx, Hsize.
    destruct (Nat.eqb_spec (n + 1) 0) as [|_]; [lia|]. cbn.
    by replace (n + 1 - 1)%nat with n by lia. }
  unfold recordTrade. rewrite E1, E2; unfold startWindow; destruct (windowStartTime c =? 0); done.
Qed.

Lemma push_facts r c :
  dq_inv (tradeWindow c) → StronglySorted by_time (elems c) →
  Forall (λ x, by_time x r) (elems c) → (∀ f, Forall (λ x, 0 ≤ f x) (elems c) →
    0 ≤ push_lost f c ∧ Forall (λ x, 0 ≤ f x) (push_base c)) ∧
  (∀ f, sum_of f (elems c) = push_lost f c + sum_of f (push_base c)) ∧
  StronglySorted by_time (push_base c ++ [r]) ∧ (length (push_base c) + 1 ≤ cap)%nat.
Proof using Hcap.
  intros Hinv Hs Hle. assert (Hb := dq_bound _ Hinv). unfold push_base, push_lost, full_window.
  destruct (Nat.ltb_spec (length (elems c)) cap); cbn [negb].
  - split; [done|]. split; [done|]. split; [by apply sorted_snoc|lia].
  - split.
    { intros f Hf. split; [by apply sum_of_nonneg, Forall_take|by apply Forall_drop]. }
    split; [intros f; symmetry; apply sum_of_take_drop|].
    split; [apply sorted_snoc; [by apply sorted_drop|by apply Forall_drop]|].
    rewrite length_drop. lia.
Qed.

(** Recording a trade that is no older than the window and fits the sums. *)
Lemma record_spec lv lp c r newPV newVol :
  calc_inv lv lp c → 0 ≤ quantity r → 0 ≤ priceVolume r →
  Forall (λ x, by_time x r) (elems c) →
  newVol = sumVolume c + quantity r → newPV = sumPriceVolume c + priceVolume r →
  newVol < 2 ^ 64 → newPV < 2 ^ 64 →
  calc_inv (lv + push_lost quantity c) (lp + push_lost priceVolume c) (recordTrade r newPV newVol c).
Proof using Hcap.
  intros Hc Hq Hpv Hle HnV HnP HV HP. assert (Hc0 := Hc).
  destruct Hc as [Hinv Hs Hnn Hlost Hvol Hprice Hsized Harr]. unfold arrays_sized in Hsized.
  rewrite record_fields by done. assert (Hpush := push_list r c Hinv).
  destruct (push_facts r c Hinv Hs Hle) as (Hf & Hsum & Hsorted & Hlen).
  destruct (Hf quantity) as [Hq1 Hq2]; [apply Hnn|].
  destruct (Hf priceVolume) as [Hp1 Hp2]; [apply Hnn|].
  assert (Hsq := Hsum quantity). assert (Hsp := Hsum priceVolume).
  constructor; unfold arrays_sized; cbn; rewrite ?Hpush, ?length_insert; try done.
  - by apply dq_push_inv.
  - rewrite !Forall_app, !Forall_singleton. tauto.
  - lia.
  - rewrite sum_of_app, sum_of_single. lia.
  - rewrite sum_of_app, sum_of_single. lia.
  - intros [Hcap1 Hpend]%orb_false_iff. apply Nat.eqb_neq in Hcap1.
    assert (Hnf : push_base c = elems c).
    { assert (Hb := dq_bound _ Hinv). unfold push_base, full_window in *.
      destruct (Nat.ltb_spec (length (elems c)) cap); cbn [negb] in *; [done|].
      rewrite length_drop in *. lia. }
    destruct (Harr Hpend) as (H1 & H2 & H3). destruct (calc_inv_fit _ _ _ Hc0) as [Hf1 Hf2].
    unfold prev_prefix. rewrite Hnf in *.
    rewrite (prefix_ok_prev _ _ _ _ H1), (prefix_ok_prev _ _ _ _ H2).
    rewrite !u64_small by (apply sums_fit_all in Hf1, Hf2; lia).
    rewrite <- (sum_of_single quantity r), <- (sum_of_single priceVolume r), <- !sum_of_app.
    unfold arrays_ok. cbn. rewrite Hpush.
    split; [|split]; [apply prefix_ok_extend|apply prefix_ok_extend|apply index_ok_extend]; done || lia.
Qed.

Lemma record_clock r newPV newVol c :
  dq_inv (tradeWindow c) →
  let c' := recordTrade r newPV newVol c in
  elems c' = push_base c ++ [r] ∧ windowDurationNanos c' = windowDurationNanos c ∧
  windowStartTime c' = (if windowStartTime c =? 0 then timestamp r else windowStartTime c) ∧
  firstWindowComplete c' = firstWindowComplete c ∧
  totalTradesProcessed c' = u64 (totalTradesProcessed c + 1) ∧
  rejectedTrades c' = rejectedTrades c ∧ vwapCacheValid c' = false.
Proof.
  intros Hinv. cbv zeta. rewrite record_fields by done. cbn. rewrite push_list by done. done.
Qed.

Lemma completeWindow_spec ts c :
  0 ≤ windowStartTime c ≤ ts → is_u64 ts →
  let done := firstWindowComplete c || (ts - windowStartTime c >=? windowDurationNanos c) in
  completeWindow ts c = c <| firstWindowComplete := done |>.
Proof.
  intros Hst Hts. cbv zeta. unfold completeWindow. rewrite u64_small by lia.
  destruct c as [spv sv cv cvalid wd tw pV pPV tI oi pg pend wst fwc ltt tot rej]. cbn.
  by destruct fwc, (ts - wst >=? wd).
Qed.

(** ** The simulation *)

(** The value [getCurrentVwap] stands for. *)
Definition vwap_value c : double :=
  if sumVolume c =? 0 then dzero else d_div (d_of_Z (sumPriceVolume c)) (d_of_Z (sumVolume c)).

Record refines (W : Z) c s : Prop := {
  rf_calc : calc_inv (Spec.lostVolume s) (Spec.lostPV s) c;
  rf_window : elems c = Spec.window s;
  rf_duration : windowDurationNanos c = W;
  rf_start : windowStartTime c = Spec.start s;
  rf_complete : firstWindowComplete c = Spec.complete s;
  rf_last : lastTradeTime c = Spec.last s;
  rf_total : totalTradesProcessed c = Spec.total s;
  rf_rejected : rejectedTrades c = Spec.rejected s;
  rf_cache : vwapCacheValid c = true → cachedVwap c = vwap_value c
}.

Lemma refines_volume W c s : refines W c s → sumVolume c = Spec.volume s.
Proof. intros []. unfold Spec.volume. rewrite <- rf_window0. apply rf_calc0. Qed.
Lemma refines_pv W c s : refines W c s → sumPriceVolume c = Spec.pv s.
Proof. intros []. unfold Spec.pv. rewrite <- rf_window0. apply rf_calc0. Qed.

Lemma reject_refines W c s :
  refines W c s → refines W (c <| rejectedTrades ::= λ r, u64 (r + 1) |>) (Spec.reject s).
Proof.
  intros []. constructor; cbn; try done; [by destruct rf_calc0|by rewrite rf_rejected0].
Qed.

Lemma reject_inv s : spec_inv cap s → spec_inv cap (Spec.reject s).
Proof. by intros []. Qed.

(** Recording, then expiry, then the completion test. *)
Definition accepted (W : Z) c (r : VwapTradeRecord) : VwapCalculator Q :=
  let newPV := u64 (sumPriceVolume c + priceVolume r) in
  let newVol := u64 (sumVolume c + quantity r) in
  completeWindow (timestamp r)
    (removeExpiredTrades cap (timestamp r)
      (recordTrade r newPV newVol c <| lastTradeTime := timestamp r |>)).

Lemma push_spec s c r :
  elems c = Spec.window s →
  Spec.window (Spec.push cap s r) = push_base c ++ [r] ∧
  Spec.lostVolume (Spec.push cap s r) = Spec.lostVolume s + push_lost quantity c ∧
  Spec.lostPV (Spec.push cap s r) = Spec.lostPV s + push_lost priceVolume c.
Proof.
  intros He. unfold Spec.push, push_base, push_lost, full_window. rewrite He.
  destruct (length (Spec.window s) <? cap)%nat; cbn; [|done]. split; [done|]. lia.
Qed.

(** What the tests of [addTrade] establish for the sums and the order. *)
Lemma accepted_ranges W c s t :
  refines W c s → spec_inv cap s → TradeMessage_ok t →
  Spec.invalid t || Spec.late s t || Spec.overflows s t = false →
  0 < Trade.quantity t < 2 ^ 32 ∧ 0 < Trade.price t < 2 ^ 31 ∧ is_u64 (Trade.timestamp t) ∧
  Spec.last s ≤ Trade.timestamp t ∧ 0 ≤ Spec.volume s ∧ 0 ≤ Spec.pv s ∧
  Spec.pv s + Trade.price t * Trade.quantity t < 2 ^ 64 ∧ Spec.volume s + Trade.quantity t < 2 ^ 64.
Proof using Hcap.
  intros Hr Hs Ht Hok. apply orb_false_iff in Hok as [Hok Hov]. apply orb_false_iff in Hok as [Hv Hl].
  destruct (trade_pv_range t Ht Hv) as (Hq & Hp & Hpv). unfold trade_pv in Hpv.
  destruct Ht as (_ & Hts & _ & _). unfold Spec.overflows, UINT64_MAX in Hov.
  rewrite !Z.gtb_ltb in Hov. guards.
  assert (HVp : 0 ≤ Spec.volume s ∧ 0 ≤ Spec.pv s).
  { destruct (rf_calc _ _ _ Hr) as [_ _ [Hn1 Hn2] Hlost _ _ _ _].
    unfold Spec.volume, Spec.pv. rewrite <- (rf_window _ _ _ Hr).
    apply sum_of_nonneg in Hn1, Hn2. lia. }
  assert (Hge : Spec.last s ≤ Trade.timestamp t).
  { unfold Spec.late in Hl. assert (Hst := si_start _ _ Hs).
    destruct (Z.eqb_spec (Spec.last s) 0); cbn in Hl; [lia|]. guards. lia. }
  lia.
Qed.

Lemma accepted_refines W c s t :
  0 ≤ W → refines W c s → spec_inv cap s → TradeMessage_ok t →
  Spec.invalid t || Spec.late s t || Spec.overflows s t = false →
  refines W (accepted W c (Spec.record t)) (Spec.accept cap W s t).
Proof using Hcap.
  intros HW Hr Hs Ht Hok. assert (Hacc := accept_inv cap W s t Hcap HW Hs Ht Hok).
  destruct (accepted_ranges W c s t Hr Hs Ht Hok) as (Hq & Hp & Hts & Hge & HV0 & HP0 & HPfit & HVfit).
  assert (Hpv : 0 < Trade.price t * Trade.quantity t) by nia.
  assert (HV := refines_volume _ _ _ Hr). assert (HP := refines_pv _ _ _ Hr).
  unfold accepted. cbn [timestamp Spec.record priceVolume quantity]. fold (Spec.record t).
  rewrite HV, HP, !u64_small by lia.
  set (newPV := Spec.pv s + _). set (newVol := Spec.volume s + _).
  destruct Hr as [Hc Hw HW' Hst Hco Hla Hto Hre _].
  assert (Hbt : Forall (λ x, by_time x (Spec.record t)) (elems c)).
  { rewrite Hw. eapply Forall_impl; [apply (si_records _ _ Hs)|].
    unfold record_ok, by_time. cbn. intros; lia. }
  assert (Hrec := record_spec _ _ c (Spec.record t) newPV newVol Hc ltac:(cbn; lia) ltac:(cbn; lia)
    Hbt ltac:(cbn; lia) ltac:(cbn; lia) ltac:(lia) ltac:(lia)).
  set (c1 := recordTrade (Spec.record t) newPV newVol c <| lastTradeTime := Trade.timestamp t |>).
  assert (Hc1 : calc_inv (Spec.lostVolume s + push_lost quantity c)
                         (Spec.lostPV s + push_lost priceVolume c) c1) by by destruct Hrec.
  destruct (record_clock (Spec.record t) newPV newVol c (ci_inv _ _ _ Hc))
    as (He1 & HW1 & Hst1 & Hco1 & Hto1 & Hre1 & Hca1).
  destruct (removeExpired_spec W _ _ (Trade.timestamp t) c1 (Spec.record t) Hc1)
    as (Hc2 & He2 & Hs2 & Hst2); try done.
  { by rewrite <- HW'. }
  { unfold c1. cbn. by rewrite He1, last_snoc. }
  destruct (push_spec s c (Spec.record t) Hw) as (Hw3 & Hlv3 & Hlp3).
  rewrite <- Hlv3, <- Hlp3 in Hc2. rewrite accept_unfold in *. cbv zeta in *.
  assert (He1' : elems c1 = Spec.window (Spec.push cap s (Spec.record t)))
    by (unfold c1; cbn; by rewrite He1).
  rewrite He1' in *. set (kept := Spec.live W _ _) in *.
  destruct Hs2 as (HW2 & Hco2 & Hla2 & Hto2 & Hre2 & Hca2).
  set (c2 := removeExpiredTrades cap (Trade.timestamp t) c1) in *. clearbody c2.
  cbn in Hst2, HW2, Hco2, Hla2, Hto2, Hre2.
  rewrite Hst1, Hst in Hst2. cbn in Hst2. rewrite HW1, HW' in HW2. rewrite Hco1, Hco in Hco2.
  rewrite Hto1, Hto in Hto2. rewrite Hre1, Hre in Hre2.
  assert (Hstart := si_start _ _ Hacc). cbn in Hstart.
  rewrite completeWindow_spec by (rewrite ?Hst2; done).
  constructor; cbn; rewrite ?HW2, ?Hco2, ?Hst2; try done; [by destruct Hc2|].
  by rewrite Hca2 by done.
Qed.

(** One call of [addTrade] is one step of the specification. *)
Definition add_metrics s (t : TradeMessage) (m : SystemMetrics) : SystemMetrics :=
  if Spec.invalid t then m
  else if Spec.late s t then incMessagesDropped m
  else if Spec.overflows s t then m
  else incTradesProcessed m.

Lemma addTrade_step W c s t m :
  0 ≤ W → refines W c s → spec_inv cap s → TradeMessage_ok t →
  refines W (addTrade cap t (c, m)).1 (Spec.add cap W s t) ∧
  spec_inv cap (Spec.add cap W s t) ∧
  (addTrade cap t (c, m)).2 = add_metrics s t m.
Proof using Hcap.
  intros HW Hr Hs Ht. assert (Hrej := conj (reject_refines _ _ _ Hr) (reject_inv _ Hs)).
  unfold Spec.add, add_metrics, addTrade.
  change ((Trade.price t <=? 0) || (Trade.quantity t =? 0)) with (Spec.invalid t).
  destruct (Spec.invalid t) eqn:Hv; [by destruct Hrej|].
  rewrite (rf_last _ _ _ Hr).
  change (negb (Spec.last s =? 0) && (Trade.timestamp t <? Spec.last s)) with (Spec.late s t).
  destruct (Spec.late s t) eqn:Hl; [by destruct Hrej|]. cbn [orb].
  destruct (trade_pv_range t Ht Hv) as (Hq & Hp & Hpv). unfold trade_pv in Hpv.
  rewrite (u64_small (Trade.price t)), (u64_small (_ * _)) by lia.
  destruct (Z.gtb_spec (Trade.price t * Trade.quantity t) UINT64_MAX); [unfold UINT64_MAX in *; lia|].
  rewrite !wouldAddOverflow_spec, (refines_volume _ _ _ Hr), (refines_pv _ _ _ Hr).
  fold (Spec.overflows s t). destruct (Spec.overflows s t) eqn:Ho; [by destruct Hrej|].
  assert (Hok : Spec.invalid t || Spec.late s t || Spec.overflows s t = false) by by rewrite Hv, Hl, Ho.
  split; [|split; [by apply accept_inv|done]].
  assert (Hacc := accepted_refines W c s t HW Hr Hs Ht Hok). unfold accepted, recordTrade in Hacc.
  rewrite (refines_volume _ _ _ Hr), (refines_pv _ _ _ Hr) in Hacc.
  replace (VwapTradeRecord_make (Trade.timestamp t) (Trade.quantity t) (Trade.price t))
    with (Spec.record t); [done|].
  unfold VwapTradeRecord_make, Spec.record. rewrite !u64_small by (rewrite ?u64_small; lia). done.
Qed.

(** ** Whole runs *)

Definition nanos (windowSeconds : Z) : Z := windowSeconds * 1000000000.

Lemma init_refines (empty : Q) windowSeconds :
  dq_inv empty → dq_list empty = [] → is_u32 windowSeconds →
  refines (nanos windowSeconds) (VwapCalculator_init cap empty windowSeconds) Spec.init.
Proof using Hcap.
  intros Hinv He Hw. unfold VwapCalculator_init, nanos.
  constructor; cbn; try done; [|by apply u64_small; lia].
  assert (Hz : length (replicate cap 0) = cap) by apply length_replicate.
  constructor; cbn; rewrite ?He; try done; try (by repeat constructor).
  intros _. unfold arrays_ok. cbn. rewrite He.
  repeat split; try done; simpl; intros; lia.
Qed.

Lemma process_refines W trades c s m :
  0 ≤ W → refines W c s → spec_inv cap s → Forall TradeMessage_ok trades →
  refines W (process cap trades (c, m)).1 (SpecRun.run cap W s trades) ∧
  spec_inv cap (SpecRun.run cap W s trades).
Proof using Hcap.
  intros HW Hr Hs Ht. revert c s m Hr Hs. induction Ht as [|t ts Ht Hts IH]; intros c s m Hr Hs; [done|].
  destruct (addTrade_step W c s t m HW Hr Hs Ht) as (Hr1 & Hs1 & _).
  change (process cap (t :: ts) (c, m)) with (process cap ts (addTrade cap t (c, m))).
  destruct (addTrade cap t (c, m)) as [c1 m1]. by apply (IH c1 (Spec.add cap W s t) m1).
Qed.

Lemma getCurrentVwap_value W c s : refines W c s → (getCurrentVwap c).1 = vwap_value c.
Proof.
  intros Hr. unfold getCurrentVwap. destruct (vwapCacheValid c) eqn:Hv; cbn; [|done].
  by apply (rf_cache _ _ _ Hr).
Qed.

(** The quotient of the sums of priced trades lies between the prices. *)
Lemma vwap_value_bounds W c s lo hi :
  refines W c s → spec_inv cap s → priced lo hi s →
  0 < lo → hi < 2 ^ 31 → 0 < sumVolume c → sumPriceVolume c < 2 ^ 53 →
  d_le (d_of_Z lo) (vwap_value c) = true ∧ d_le (vwap_value c) (d_of_Z hi) = true.
Proof.
  intros Hr Hs Hp Hlo Hhi HV Hfit. assert (H := priced_total _ _ _ _ Hs Hp).
  rewrite <- (refines_volume _ _ _ Hr), <- (refines_pv _ _ _ Hr) in H. unfold vwap_value.
  destruct (Z.eqb_spec (sumVolume c) 0) as [|_]; [lia|].
  set (V := sumVolume c) in *. set (P := sumPriceVolume c) in *. clearbody V P.
  assert (HP : 0 < P) by nia. assert (HVP : V ≤ P) by nia.
  assert (Hlh : lo ≤ hi) by nia.
  assert (Hd := d_div_pnormal P V ltac:(lia) ltac:(lia)).
  destruct (d_of_Z_exact lo ltac:(lia)) as [Hlo1 Hlo2].
  destruct (d_of_Z_exact hi ltac:(lia)) as [Hhi1 Hhi2].
  rewrite !d_le_sval, Hlo2, Hhi2 by done. rewrite !Z.leb_le. split.
  - apply d_div_ge; lia.
  - apply d_div_le; lia.
Qed.
End refinement.

Lemma nanos_nonneg w : is_u32 w → 0 ≤ nanos w.
Proof. unfold nanos. lia. Qed.

(** ** Properties of the calculator *)

Section properties.
Context {Q : Type} {cap : nat} `{!DequeOps VwapTradeRecord Q} `{!Deque VwapTradeRecord Q cap}
  (Hcap : (0 < cap)%nat).
Context (empty : Q) (windowSeconds : Z) (Hempty : dq_inv empty) (Hnil : dq_list empty = [])
  (HwS : is_u32 windowSeconds).
Context (trades : list TradeMessage) (Htrades : Forall TradeMessage_ok trades).

Abbreviation W := (nanos windowSeconds).
Abbreviation calc m := (process cap trades (VwapCalculator_init cap empty windowSeconds, m)).1.
Abbreviation final := (run cap W Spec.init trades).
Abbreviation history := (Spec.record <$> taken cap W Spec.init trades).

Lemma calc_final m : refines W (calc m) final ∧ spec_inv cap final.
Proof using Hcap Hempty Hnil HwS Htrades.
  apply process_refines; [done|by apply nanos_nonneg|by apply init_refines|apply spec_init_inv|done].
Qed.

Lemma final_positive : priced 1 (2 ^ 31 - 1) final.
Proof using Hcap HwS Htrades.
  apply priced_run_positive; first [done|by apply nanos_nonneg|apply spec_init_inv|apply priced_init].
Qed.

Lemma final_priced lo hi :
  Forall (λ t, lo ≤ Trade.price t ≤ hi) (taken cap W Spec.init trades) → priced lo hi final.
Proof using Hcap HwS Htrades.
  intros Hp. apply priced_run;
    first [done|by apply nanos_nonneg|apply spec_init_inv|apply priced_init].
Qed.

(** C3: one call of [addTrade] is one step of the specification.  Whatever
    trades came before, processing one more yields a calculator whose window,
    sums, prefix arrays, clock and counters are those of the specification
    after the same step, the data invariant is kept (arrays correct unless a
    rebuild is pending, sums never wrap), and the global counters move as
    the specification says. *)
Theorem addTrade_refines (t : TradeMessage) (m m0 : SystemMetrics) :
  TradeMessage_ok t →
  let r := addTrade cap t (calc m0, m) in
  refines W r.1 (Spec.add cap W final t) ∧ spec_inv cap (Spec.add cap W final t) ∧
  r.2 = add_metrics final t m.
Proof using Hcap Hempty Hnil HwS Htrades.
  intros Ht. destruct (calc_final m0) as [Hr Hs]. by apply addTrade_step; [|by apply nanos_nonneg|..].
Qed.

(** C2: the published VWAP is exact.  As long as the bounded buffer never
    overwrote a trade, the buffer holds exactly the accepted trades of the
    last window, the sums are the exact sums of volume and price-volume over
    them, and [getCurrentVwap] returns the [double] quotient of the two (0 for
    no volume).  Three tests of the repository expect other averages and fail:
    two by wrong arithmetic (10175 for 6110000 / 600, 10160 for 6080000 / 600),
    one because it counts a trade that comes out of order, which is rejected. *)
Theorem vwap_exact (m : SystemMetrics) :
  Spec.lostVolume final = 0 →
  let live := Spec.live W (lastTradeTime (calc m)) history in
  dq_list (tradeWindow (calc m)) = live ∧
  sumVolume (calc m) = sum_of quantity live ∧
  sumPriceVolume (calc m) = sum_of priceVolume live ∧
  (getCurrentVwap (calc m)).1 =
    if sum_of quantity live =? 0 then dzero
    else d_div (d_of_Z (sum_of priceVolume live)) (d_of_Z (sum_of quantity live)).
Proof using Hcap Hempty Hnil HwS Htrades.
  intros Hl live. destruct (calc_final m) as [Hr Hs].
  destruct final_positive as [_ HlP].
  assert (Hw : Spec.window final = live).
  { unfold live. rewrite (rf_last _ _ _ Hr).
    apply (window_history cap W Spec.init []); try done; [by apply nanos_nonneg|apply spec_init_inv]. }
  assert (HV := refines_volume _ _ _ Hr). assert (HP := refines_pv _ _ _ Hr).
  unfold Spec.volume, Spec.pv in *. rewrite Hw in *.
  rewrite (rf_window _ _ _ Hr), (getCurrentVwap_value _ _ _ Hr). unfold vwap_value.
  rewrite HV, HP, Hl in *. replace (Spec.lostPV final) with 0 by lia. by rewrite !Z.add_0_r.
Qed.

(** C16: the published VWAP lies between the lowest and the highest price of
    the trades the calculator accepted, whatever the rejected ones asked and
    whatever has expired or been overwritten since, as long as there is some
    volume and the sum of the trade values is below 2^53 (where integers stop
    being exact doubles); without volume it is 0. *)
Theorem vwap_within_prices (m : SystemMetrics) (lo hi : Z) :
  0 < lo → hi < 2 ^ 31 → Forall (λ t, lo ≤ Trade.price t ≤ hi) (taken cap W Spec.init trades) →
  sumPriceVolume (calc m) < 2 ^ 53 →
  (0 < sumVolume (calc m) →
   d_le (d_of_Z lo) (getCurrentVwap (calc m)).1 = true ∧
   d_le (getCurrentVwap (calc m)).1 (d_of_Z hi) = true) ∧
  (sumVolume (calc m) = 0 → (getCurrentVwap (calc m)).1 = dzero).
Proof using Hcap Hempty Hnil HwS Htrades.
  intros Hlo Hhi Hprices Hfit. destruct (calc_final m) as [Hr Hs].
  rewrite (getCurrentVwap_value _ _ _ Hr). split.
  - intros HV. by eapply vwap_value_bounds; eauto using final_priced.
  - intros HV. unfold vwap_value. by rewrite HV.
Qed.

(** C17: when the first window counts as complete.  With positive timestamps
    and no overwritten trade, the flag is set if and only if two accepted
    trades are exactly one window apart: a stream that has run for many
    windows without such a pair never completes its first window, and the
    tests that wait for an order on such a stream fail. *)
Theorem window_completes_iff (m : SystemMetrics) :
  Forall (λ t, 0 < Trade.timestamp t) trades → Spec.lostVolume final = 0 →
  firstWindowComplete (calc m) = true ↔
  ∃ r1 r2, r1 ∈ history ∧ r2 ∈ history ∧ timestamp r2 = timestamp r1 + W.
Proof using Hcap Hempty Hnil HwS Htrades.
  intros Hpos Hl. destruct (calc_final m) as [Hr Hs]. rewrite (rf_complete _ _ _ Hr).
  assert (H := clocked_run cap W [] Spec.init trades Hcap (nanos_nonneg _ HwS)
    (spec_init_inv cap) Htrades Hpos (clocked_init W) Hl). apply H.
Qed.

(** C18: an overwritten trade is never forgotten by the sums.  If a trade is
    accepted while the buffer is full, the volume of the trade it overwrites
    stays in [sumVolume] for ever: after any further trades the published
    volume exceeds the volume of the buffered trades by at least that much. *)
Theorem overwritten_volume_stays (m : SystemMetrics) (t : TradeMessage) (later : list TradeMessage) (r0 : VwapTradeRecord) :
  TradeMessage_ok t → Forall TradeMessage_ok later →
  length (dq_list (tradeWindow (calc m))) = cap →
  head (dq_list (tradeWindow (calc m))) = Some r0 →
  rejects final t = false →
  let c := (process cap later (addTrade cap t (calc m, m))).1 in
  sum_of quantity (dq_list (tradeWindow c)) + quantity r0 ≤ sumVolume c ∧ 0 < quantity r0.
Proof using Hcap Hempty Hnil HwS Htrades.
  intros Ht Hlater Hfull Hhead Hrej c. destruct (calc_final m) as [Hr Hs].
  assert (HW := nanos_nonneg _ HwS).
  destruct (addTrade_step Hcap W (calc m) final t m HW Hr Hs Ht) as (Hr1 & Hs1 & _).
  unfold c. destruct (addTrade cap t (calc m, m)) as [c1 m1].
  destruct (process_refines Hcap W later c1 _ m1 HW Hr1 Hs1 Hlater) as [Hr2 Hs2].
  assert (Hmono := lost_monotone_run cap W _ later Hcap HW Hs1 Hlater).
  rewrite (refines_volume _ _ _ Hr2), (rf_window _ _ _ Hr2). unfold Spec.volume.
  rewrite (rf_window _ _ _ Hr) in Hfull, Hhead.
  destruct (spec_add_cases cap W final t) as [[Hrej' _]|[_ Hadd]]; [congruence|].
  rewrite Hadd, accept_unfold in Hmono at 1. cbn in Hmono. unfold Spec.push in Hmono.
  rewrite Hfull, Nat.ltb_irrefl in Hmono. cbn -[take] in Hmono.
  destruct Hs as [Hrec _ _ [Hlost _] _ _ _ _].
  destruct (Spec.window final) as [|r w]; [done|]. injection Hhead as ->.
  apply Forall_cons in Hrec as [(_ & Hq & _) _].
  change (take 1 (r0 :: w)) with (r0 :: take 0 w) in Hmono.
  rewrite take_0, sum_of_single in Hmono. lia.
Qed.

(** the assertion in [printStatistics] never fails: no volume means no
    price-volume. *)
Theorem printStatistics_never_asserts (m : SystemMetrics) :
  printStatistics_assert (calc m) = true.
Proof using Hcap Hempty Hnil HwS Htrades.
  destruct (calc_final m) as [Hr Hs]. unfold printStatistics_assert.
  rewrite (refines_volume _ _ _ Hr), (refines_pv _ _ _ Hr). apply orb_true_iff.
  destruct (Z.eqb_spec (Spec.volume final) 0) as [HV|]; [|by left]. right. apply Z.eqb_eq.
  assert (H := priced_total _ _ _ _ Hs final_positive). rewrite HV in H. lia.
Qed.
End properties.

(** ** Concrete trades

    The program instantiates the capacity with [VwapWindowBuffer_capacity];
    the examples run the same code on a buffer of sixteen records, with a five
    second window. *)

Module Examples.
Definition MAX_TRADES : nat := 16.
Lemma pos : (0 < MAX_TRADES)%nat.
Proof. apply Nat.ltb_lt. reflexivity. Defined.
#[local] Instance small_ops : DequeOps VwapTradeRecord VwapWindowBuffer :=
  ring_deque_ops VwapTradeRecord MAX_TRADES.
#[local] Instance small_deque : Deque VwapTradeRecord VwapWindowBuffer MAX_TRADES :=
  ring_deque VwapTradeRecord MAX_TRADES pos.

Definition symbol : list Z := [73; 66; 77; 0; 0; 0; 0; 0].
Definition trade (seconds quantity price : Z) : TradeMessage :=
  Trade.mk symbol (seconds * 1000000000) quantity price.

Definition empty : VwapWindowBuffer := CircularBuffer.init MAX_TRADES.
Abbreviation start := (VwapCalculator_init MAX_TRADES empty 5, SystemMetrics_init).

(** The first trade has expired at the end, and the fourth is turned away
    as too old. *)
Definition trades : list TradeMessage :=
  [trade 10 100 14000; trade 12 50 14020; trade 15 200 13990; trade 14 10 14000; trade 16 30 14010].
Abbreviation five := (process MAX_TRADES trades start).

Lemma empty_inv : dq_inv empty.
Proof. apply CircularBuffer.ring_init_inv, pos. Defined.
Lemma trades_ok : Forall TradeMessage_ok trades.
Proof. concrete. Defined.
Lemma five_ok : is_u32 5.
Proof. lia. Defined.

Lemma addTrade_refines_witness :
  refines (nanos 5) (addTrade MAX_TRADES (trade 17 5 14000) five).1
    (Spec.add MAX_TRADES (nanos 5) (run MAX_TRADES (nanos 5) Spec.init trades) (trade 17 5 14000)).
Proof.
  rewrite (surjective_pairing five).
  exact (proj1 (addTrade_refines pos empty 5 empty_inv eq_refl five_ok trades trades_ok
    (trade 17 5 14000) five.2 SystemMetrics_init ltac:(concrete))).
Defined.

Lemma vwap_exact_witness :
  sumVolume five.1 = 280 ∧
  (getCurrentVwap five.1).1 = d_div (d_of_Z 3919300) (d_of_Z 280).
Proof.
  destruct (vwap_exact pos empty 5 empty_inv eq_refl five_ok trades trades_ok
    SystemMetrics_init ltac:(vm_compute; reflexivity)) as (_ & HV & _ & Hvwap).
  split; [rewrite HV; vm_compute; reflexivity|rewrite Hvwap; vm_compute; reflexivity].
Defined.

(** A free trade is offered too; it is rejected and moves nothing. *)
Lemma vwap_within_prices_witness :
  let c := (process MAX_TRADES (trades ++ [trade 16 70 0]) (VwapCalculator_init MAX_TRADES empty 5, SystemMetrics_init)).1 in
  d_le (d_of_Z 13990) (getCurrentVwap c).1 = true ∧ d_le (getCurrentVwap c).1 (d_of_Z 14020) = true.
Proof.
  intros c.
  destruct (vwap_within_prices pos empty 5 empty_inv eq_refl five_ok (trades ++ [trade 16 70 0]) ltac:(concrete)
    SystemMetrics_init 13990 14020) as [H _]; [concrete..|].
  apply H. concrete.
Defined.

(** Trades at 10, 12, 15 and 16 seconds: 10 and 15 are one window apart. *)
Lemma window_completes_iff_witness : firstWindowComplete five.1 = true.
Proof.
  apply (window_completes_iff pos empty 5 empty_inv eq_refl five_ok trades trades_ok
    SystemMetrics_init ltac:(concrete) ltac:(vm_compute; reflexivity)).
  exists (Spec.record (trade 10 100 14000)), (Spec.record (trade 15 200 13990)).
  split; [concrete|split; [concrete|reflexivity]].
Defined.

Lemma printStatistics_never_asserts_witness : printStatistics_assert five.1 = true.
Proof.
  exact (printStatistics_never_asserts pos empty 5 empty_inv eq_refl five_ok trades trades_ok
    SystemMetrics_init).
Defined.

(** Trades every 0.7 seconds never complete a window of five seconds. *)
Definition irregular : list TradeMessage :=
  (λ i, Trade.mk symbol (1000000000 + Z.of_nat i * 700000000) 10 14000) <$> seq 0 30.

Example irregular_incomplete : firstWindowComplete (process MAX_TRADES irregular start).1 = false.
Proof. vm_compute. reflexivity. Qed.

(** Sixteen trades in one window fill the buffer; the next one overwrites. *)
Definition burst : list TradeMessage :=
  (λ i, Trade.mk symbol (1000000000 + Z.of_nat i * 10000000) 100 14000) <$> seq 0 16.
Lemma burst_ok : Forall TradeMessage_ok burst.
Proof. concrete. Defined.

Lemma overwritten_volume_stays_witness :
  let c := (process MAX_TRADES [trade 100 7 14000]
             (addTrade MAX_TRADES (trade 2 20 14000)
               ((process MAX_TRADES burst start).1, SystemMetrics_init))).1 in
  sum_of quantity (dq_list (tradeWindow c)) + 100 ≤ sumVolume c.
Proof.
  apply (overwritten_volume_stays pos empty 5 empty_inv eq_refl five_ok burst burst_ok
    SystemMetrics_init (trade 2 20 14000) [trade 100 7 14000]
    (VwapTradeRecord_make 1000000000 100 14000));
    first [concrete | vm_compute; reflexivity].
Defined.
End Examples.
