(* ===== verification/DecisionEngine.v ===== *)
(** * The decision engine ([include/decision_engine.h], [src/decision_engine.cpp])

    Decides for each quote whether to send an order.  A conversion of a
    double outside the range of [int32_t] is undefined behaviour in C++, so
    [evaluateQuote] returns an option; quotes that passed validation never
    reach [None].  [Optional<OrderMessage>] is an option, which the file
    [Optional] justifies; the wall-clock time a call takes, which only feeds
    the latency metrics, is an argument. *)
From Stdlib Require Import String.
From S2P Require Import Prelude Binary64 Metrics Message MessageParser.
#[local] Open Scope Z_scope.

Inductive TradingState := WAITING_FOR_FIRST_WINDOW | READY_TO_TRADE | ORDER_SENT.
#[export] Instance TradingState_eq_dec : EqDecision TradingState.
Proof. solve_decision. Defined.

Module Decision.
Inductive Type_ :=
| NO_ACTION | ORDER_TRIGGERED | REJECTED_WAITING_WINDOW | REJECTED_PRICE_UNFAVORABLE
| REJECTED_COOLDOWN | REJECTED_DUPLICATE.
#[global] Instance Type_eq_dec : EqDecision Type_.
Proof. solve_decision. Defined.

Record t := mk {
  type : Type_; timestamp : Z; quotePrice : double; vwap : double;
  quoteSize : Z; orderSize : Z; reason : string }.
End Decision.

Module QuoteIdentifier.
Record t := mk { timestamp : Z; price : Z; quantity : Z }.
Definition eqb (a b : t) : bool :=
  (timestamp a =? timestamp b) && (price a =? price b) && (quantity a =? quantity b).

Lemma eqb_eq a b : eqb a b = true ↔ a = b.
Proof.
  destruct a, b. unfold eqb. cbn. rewrite !andb_true_iff, !Z.eqb_eq.
  split; [by intros [[-> ->] ->]|by intros [= -> -> ->]].
Qed.
End QuoteIdentifier.

Record DecisionEngine := mkEngine {
  symbol : list Z; side : Z; maxOrderSize : Z; currentState : TradingState;
  lastProcessedQuote : QuoteIdentifier.t; lastOrderTimestamp : Z; cooldownNanos : Z;
  decisionHistory : list Decision.t;
  quotesProcessed : Z; ordersTriggered : Z; ordersRejected : Z;
  rejWaitingWindow : Z; rejPriceUnfavorable : Z; rejCooldown : Z; rejDuplicate : Z
}.
#[global] Instance eta_DecisionEngine : Settable DecisionEngine := fun r =>
  mkEngine (symbol r) (side r) (maxOrderSize r) (currentState r) (lastProcessedQuote r)
    (lastOrderTimestamp r) (cooldownNanos r) (decisionHistory r) (quotesProcessed r)
    (ordersTriggered r) (ordersRejected r) (rejWaitingWindow r) (rejPriceUnfavorable r)
    (rejCooldown r) (rejDuplicate r).

Definition MAX_HISTORY_SIZE : nat := 1000.
Definition DEFAULT_COOLDOWN : Z := 100000000.

Definition DecisionEngine_init (symbol : list Z) (side maxOrderSize cooldownNanos : Z) : DecisionEngine :=
  mkEngine symbol side maxOrderSize WAITING_FOR_FIRST_WINDOW (QuoteIdentifier.mk 0 0 0) 0
    cooldownNanos [] 0 0 0 0 0 0 0.

Definition onVwapWindowComplete (e : DecisionEngine) : DecisionEngine :=
  if decide (currentState e = WAITING_FOR_FIRST_WINDOW)
  then e <| currentState := READY_TO_TRADE |> else e.

Definition isReady (e : DecisionEngine) : bool :=
  negb (bool_decide (currentState e = WAITING_FOR_FIRST_WINDOW)).

Definition shouldTriggerOrder (e : DecisionEngine) (quote : QuoteMessage) (vwap : double) : bool :=
  if d_le vwap dzero then false
  else if side e =? char_B then d_lt (d_of_Z (Quote.askPrice quote)) vwap
  else d_lt vwap (d_of_Z (Quote.bidPrice quote)).

Definition calculateOrderSize (e : DecisionEngine) (quoteSize : Z) : Z :=
  Z.min quoteSize (maxOrderSize e).

Definition isDuplicateQuote (e : DecisionEngine) (quote : QuoteMessage) : bool :=
  let current :=
    if side e =? char_B
    then QuoteIdentifier.mk (Quote.timestamp quote) (Quote.askPrice quote) (Quote.askQuantity quote)
    else QuoteIdentifier.mk (Quote.timestamp quote) (i32 (Quote.bidPrice quote)) (Quote.bidQuantity quote) in
  QuoteIdentifier.eqb current (lastProcessedQuote e).

Definition isInCooldown (e : DecisionEngine) (currentTime : Z) : bool :=
  if lastOrderTimestamp e =? 0 then false
  else u64 (currentTime - lastOrderTimestamp e) <? cooldownNanos e.

(** The loop of [recordDecision]: pop while too long. *)
Fixpoint trim_history (fuel : nat) (h : list Decision.t) : list Decision.t :=
  match fuel with
  | O => h
  | S fuel =>
      if (MAX_HISTORY_SIZE <? List.length h)%nat then trim_history fuel (drop 1 h) else h
  end.

Definition recordDecision (d : Decision.t) (e : DecisionEngine) : DecisionEngine :=
  e <| decisionHistory ::= λ h, let h := h ++ [d] in trim_history (List.length h) h |>.

Definition buildOrder (e : DecisionEngine) (quote : QuoteMessage) (orderSize : Z) : OrderMessage :=
  let order := Order.OrderMessage_init in
  let sym := list_inserts 0 (take (Nat.min (List.length (symbol e)) 8) (symbol e)) (Order.symbol order) in
  (* zero the rest of the field *)
  let sym := foldl (λ s i, <[i := 0]> s) sym (seq (List.length (symbol e)) (8 - List.length (symbol e))) in
  order <| Order.symbol := sym |>
        <| Order.timestamp := Quote.timestamp quote |>
        <| Order.side := side e |>
        <| Order.quantity := orderSize |>
        <| Order.price := if side e =? char_B then Quote.askPrice quote else i32 (Quote.bidPrice quote) |>.

(** What the destructor of [LatencyScope] does at every return. *)
Definition latency_scope (elapsed : Z) (m : SystemMetrics) : SystemMetrics :=
  if elapsed >? 0 then updateLatency elapsed m else m.

(** A rejection: the decision is recorded and two counters move. *)
Definition rejectQuote (t : Decision.Type_) (currentTime : Z) (price vwap : double) (size : Z)
    (reason : string) (count : DecisionEngine → DecisionEngine) (e : DecisionEngine) : DecisionEngine :=
  let e := recordDecision (Decision.mk t currentTime price vwap size 0 reason) e in
  count (e <| ordersRejected ::= λ n, u64 (n + 1) |>).

Definition incr (n : Z) : Z := u64 (n + 1).

Definition evaluateQuote (quote : QuoteMessage) (vwap : double) (elapsed : Z)
    (s : DecisionEngine * SystemMetrics) : option (option OrderMessage * (DecisionEngine * SystemMetrics)) :=
  let '(e, m) := s in
  let e := e <| quotesProcessed ::= incr |> in
  let m := latency_scope elapsed (incQuotesProcessed m) in
  let currentTime := Quote.timestamp quote in
  if decide (currentState e = WAITING_FOR_FIRST_WINDOW) then
    Some (None, (rejectQuote Decision.REJECTED_WAITING_WINDOW currentTime dzero vwap 0
                   "Waiting for first VWAP window" (set rejWaitingWindow incr) e, m))
  else if isDuplicateQuote e quote then
    Some (None, (rejectQuote Decision.REJECTED_DUPLICATE currentTime dzero vwap 0
                   "Duplicate quote" (set rejDuplicate incr) e, m))
  else if isInCooldown e currentTime then
    Some (None, (rejectQuote Decision.REJECTED_COOLDOWN currentTime dzero vwap 0
                   "In cooldown period" (set rejCooldown incr) e, m))
  else
    let buy := side e =? char_B in
    let relevantPrice := if buy then d_of_Z (Quote.askPrice quote) else d_of_Z (Quote.bidPrice quote) in
    let relevantQuantity := if buy then Quote.askQuantity quote else Quote.bidQuantity quote in
    if negb (shouldTriggerOrder e quote vwap) then
      Some (None, (rejectQuote Decision.REJECTED_PRICE_UNFAVORABLE currentTime relevantPrice vwap
                     relevantQuantity (if buy then "Ask >= VWAP" else "Bid <= VWAP")
                     (set rejPriceUnfavorable incr) e, m))
    else
      let orderSize := calculateOrderSize e relevantQuantity in
      let order := buildOrder e quote orderSize in
      let e := e <| currentState := ORDER_SENT |> <| lastOrderTimestamp := currentTime |> in
      (* static_cast<int32_t>(relevantPrice) *)
      p ← d_to_i32 relevantPrice;
      let e := e <| lastProcessedQuote := QuoteIdentifier.mk (Quote.timestamp quote) p relevantQuantity |> in
      let e := recordDecision (Decision.mk Decision.ORDER_TRIGGERED currentTime relevantPrice vwap
                 relevantQuantity orderSize
                 (if buy then "Buy: Ask < VWAP" else "Sell: Bid > VWAP")) e in
      let e := e <| ordersTriggered ::= incr |> <| currentState := READY_TO_TRADE |> in
      Some (Some order, (e, m)).

(** ** Verdicts

    The outcome of one quote: the first guard that fires, or an order. *)

Inductive verdict := Wait | Duplicate | Cooldown | Unfavorable | Trigger.
#[export] Instance verdict_eq_dec : EqDecision verdict.
Proof. solve_decision. Defined.

Definition decide_quote (e : DecisionEngine) (quote : QuoteMessage) (vwap : double) : verdict :=
  if decide (currentState e = WAITING_FOR_FIRST_WINDOW) then Wait
  else if isDuplicateQuote e quote then Duplicate
  else if isInCooldown e (Quote.timestamp quote) then Cooldown
  else if shouldTriggerOrder e quote vwap then Trigger else Unfavorable.

Definition relevantPrice (e : DecisionEngine) (quote : QuoteMessage) : Z :=
  if side e =? char_B then Quote.askPrice quote else Quote.bidPrice quote.
Definition relevantQuantity (e : DecisionEngine) (quote : QuoteMessage) : Z :=
  if side e =? char_B then Quote.askQuantity quote else Quote.bidQuantity quote.

Lemma price_to_i32 p : 0 ≤ p < 2 ^ 31 → d_to_i32 (d_of_Z p) = Some p.
Proof.
  intros Hp. destruct (decide (p = 0)) as [->|]; [done|].
  destruct (d_of_Z_exact p ltac:(lia)) as [Hn Hv]. unfold d_to_i32.
  rewrite d_trunc_pnormal, Hv, Z.div_mul by (done || apply Z.pow_nonzero; lia). cbn -[Z.pow].
  destruct (Z.leb_spec (- 2 ^ 31) p), (Z.ltb_spec p (2 ^ 31)); done || lia.
Qed.

(** The newest [n] of a list whose newest element is its last. *)
Definition newest {A} (n : nat) (l : list A) : list A := drop (List.length l - n) l.

Lemma newest_snoc {A} n (l k : list A) : newest n (newest n l ++ k) = newest n (l ++ k).
Proof.
  unfold newest. rewrite !length_app, length_drop, !skipn_app, drop_drop, length_drop.
  f_equal; f_equal; lia.
Qed.

Lemma last_newest {A} n (l : list A) : (0 < n)%nat → last (newest n l) = last l.
Proof. intros Hn. destruct l as [|x l]; [done|]. apply last_drop. cbn [List.length]. lia. Qed.

(** The loop drops the oldest decisions, and only those in excess. *)
Lemma trim_history_spec fuel h :
  (List.length h ≤ fuel + MAX_HISTORY_SIZE)%nat → trim_history fuel h = newest MAX_HISTORY_SIZE h.
Proof.
  unfold newest. revert h. induction fuel as [|fuel IH]; intros h Hh; cbn [trim_history].
  { by replace (List.length h - MAX_HISTORY_SIZE)%nat with 0%nat by lia. }
  branch; [|by replace (List.length h - MAX_HISTORY_SIZE)%nat with 0%nat by lia].
  rewrite IH, length_drop, drop_drop by (rewrite length_drop; lia). f_equal. lia.
Qed.

Lemma recordDecision_history d e :
  decisionHistory (recordDecision d e) = newest MAX_HISTORY_SIZE (decisionHistory e ++ [d]).
Proof. apply (trim_history_spec _ (decisionHistory e ++ [d])). lia. Qed.

(** The newest decision is the last of the history, however long that was. *)
Lemma recordDecision_last d e : last (decisionHistory (recordDecision d e)) = Some d.
Proof.
  rewrite recordDecision_history, last_newest by (unfold MAX_HISTORY_SIZE; lia). apply last_snoc.
Qed.

(** The symbol field: the first eight bytes, padded with zeros. *)
Definition symbol_field (s : list Z) : list Z := take 8 (s ++ replicate 8 0).

Lemma length_symbol_field s : List.length (symbol_field s) = 8%nat.
Proof. unfold symbol_field. rewrite length_take, length_app, length_replicate. lia. Qed.

Lemma buildOrder_symbol e quote n :
  Order.symbol (buildOrder e quote n) = symbol_field (symbol e).
Proof.
  unfold buildOrder, symbol_field. cbn -[take Nat.sub seq list_inserts].
  set (s := symbol e). assert (Hc : (List.length s < 8 ∨ 8 ≤ List.length s)%nat) by lia.
  destruct Hc as [Hlt|Hge].
  - rewrite Nat.min_l, firstn_all by lia.
    do 8 (destruct s as [|? s]; [done|]; simpl in Hlt). lia.
  - replace (8 - List.length s)%nat with 0%nat by lia. rewrite Nat.min_r by lia. cbn [seq foldl].
    assert (H8 : List.length (take 8 s) = 8%nat) by (rewrite length_take; lia).
    rewrite take_app_le, inserts_prefix by (rewrite ?H8; simpl; lia). rewrite H8. apply app_nil_r.
Qed.

(** ** What one call does *)

Definition reject_type (v : verdict) : Decision.Type_ :=
  match v with
  | Wait => Decision.REJECTED_WAITING_WINDOW
  | Duplicate => Decision.REJECTED_DUPLICATE
  | Cooldown => Decision.REJECTED_COOLDOWN
  | Unfavorable => Decision.REJECTED_PRICE_UNFAVORABLE
  | Trigger => Decision.ORDER_TRIGGERED
  end.

Definition order_of (e : DecisionEngine) (quote : QuoteMessage) : OrderMessage :=
  buildOrder e quote (calculateOrderSize e (relevantQuantity e quote)).

Definition trigger_reason (sd : Z) : string :=
  if sd =? char_B then "Buy: Ask < VWAP" else "Sell: Bid > VWAP".
Definition trigger_decision (e : DecisionEngine) (quote : QuoteMessage) (vwap : double) : Decision.t :=
  Decision.mk Decision.ORDER_TRIGGERED (Quote.timestamp quote) (d_of_Z (relevantPrice e quote)) vwap
    (relevantQuantity e quote) (calculateOrderSize e (relevantQuantity e quote)) (trigger_reason (side e)).

(** The decision each verdict leaves in the history. *)
Definition decision_of (v : verdict) (e : DecisionEngine) (quote : QuoteMessage) (vwap : double) : Decision.t :=
  let rejected price size reason := Decision.mk (reject_type v) (Quote.timestamp quote) price vwap size 0 reason in
  match v with
  | Wait => rejected dzero 0 "Waiting for first VWAP window"%string
  | Duplicate => rejected dzero 0 "Duplicate quote"%string
  | Cooldown => rejected dzero 0 "In cooldown period"%string
  | Unfavorable => rejected (d_of_Z (relevantPrice e quote)) (relevantQuantity e quote)
                     (if side e =? char_B then "Ask >= VWAP"%string else "Bid <= VWAP"%string)
  | Trigger => trigger_decision e quote vwap
  end.

(** The counters as a function of the verdict. *)
Definition counted (v v' : verdict) (n : Z) : Z := if decide (v = v') then incr n else n.

Record outcome (v : verdict) (vwap : double) (quote : QuoteMessage) (e e' : DecisionEngine) : Prop := {
  oc_config : symbol e' = symbol e ∧ side e' = side e ∧ maxOrderSize e' = maxOrderSize e ∧
              cooldownNanos e' = cooldownNanos e;
  oc_state : currentState e' = if decide (v = Trigger) then READY_TO_TRADE else currentState e;
  oc_last : lastOrderTimestamp e' =
              if decide (v = Trigger) then Quote.timestamp quote else lastOrderTimestamp e;
  oc_quote : lastProcessedQuote e' =
               if decide (v = Trigger)
               then QuoteIdentifier.mk (Quote.timestamp quote) (relevantPrice e quote) (relevantQuantity e quote)
               else lastProcessedQuote e;
  oc_quotes : quotesProcessed e' = incr (quotesProcessed e);
  oc_triggered : ordersTriggered e' = counted Trigger v (ordersTriggered e);
  oc_rejected : ordersRejected e' = if decide (v = Trigger) then ordersRejected e else incr (ordersRejected e);
  oc_wait : rejWaitingWindow e' = counted Wait v (rejWaitingWindow e);
  oc_duplicate : rejDuplicate e' = counted Duplicate v (rejDuplicate e);
  oc_cooldown : rejCooldown e' = counted Cooldown v (rejCooldown e);
  oc_price : rejPriceUnfavorable e' = counted Unfavorable v (rejPriceUnfavorable e);
  oc_history : decisionHistory e' =
                 newest MAX_HISTORY_SIZE (decisionHistory e ++ [decision_of v e quote vwap])
}.

Definition reject_counter (v : verdict) : DecisionEngine → DecisionEngine :=
  match v with
  | Wait => set rejWaitingWindow incr
  | Duplicate => set rejDuplicate incr
  | Cooldown => set rejCooldown incr
  | _ => set rejPriceUnfavorable incr
  end.

Lemma reject_outcome v quote price vwap size reason e :
  v ≠ Trigger →
  decision_of v e quote vwap = Decision.mk (reject_type v) (Quote.timestamp quote) price vwap size 0 reason →
  outcome v vwap quote e (rejectQuote (reject_type v) (Quote.timestamp quote) price vwap size reason
                       (reject_counter v) (e <| quotesProcessed ::= incr |>)).
Proof.
  intros Hv Hd. unfold rejectQuote. rewrite <- Hd. set (d := decision_of v e quote vwap).
  assert (Hh := recordDecision_history d (e <| quotesProcessed ::= incr |>)).
  set (e1 := recordDecision d _) in *.
  by constructor; destruct v.
Qed.

Lemma trigger_outcome quote vwap e :
  let e0 := e <| quotesProcessed ::= incr |> in
  let e1 := e0 <| currentState := ORDER_SENT |> <| lastOrderTimestamp := Quote.timestamp quote |> in
  let e2 := e1 <| lastProcessedQuote :=
              QuoteIdentifier.mk (Quote.timestamp quote) (relevantPrice e quote) (relevantQuantity e quote) |> in
  outcome Trigger vwap quote e
    (recordDecision (trigger_decision e quote vwap) e2
       <| ordersTriggered ::= incr |> <| currentState := READY_TO_TRADE |>).
Proof.
  intros e0 e1 e2. constructor; try done.
  exact (recordDecision_history (trigger_decision e quote vwap) e2).
Qed.

Lemma price_if (b : bool) (x y : Z) :
  (if b then d_of_Z x else d_of_Z y) = d_of_Z (if b then x else y).
Proof. by destruct b. Qed.

Lemma evaluateQuote_outcome e quote vwap elapsed m :
  QuoteMessage_ok quote → validateQuote quote = true →
  let v := decide_quote e quote vwap in
  ∃ e', evaluateQuote quote vwap elapsed (e, m) =
          Some (if decide (v = Trigger) then Some (order_of e quote) else None,
                (e', latency_scope elapsed (incQuotesProcessed m))) ∧
        outcome v vwap quote e e'.
Proof.
  intros Hok Hv. apply (validateQuote_spec quote Hok) in Hv. destruct Hv as (_ & _ & Hp & Ha).
  unfold evaluateQuote, decide_quote. set (e0 := e <| quotesProcessed ::= incr |>).
  change (isDuplicateQuote e0 quote) with (isDuplicateQuote e quote).
  change (isInCooldown e0 (Quote.timestamp quote)) with (isInCooldown e (Quote.timestamp quote)).
  change (shouldTriggerOrder e0 quote vwap) with (shouldTriggerOrder e quote vwap).
  change (currentState e0) with (currentState e).
  destruct (decide (currentState e = WAITING_FOR_FIRST_WINDOW)) as [Hw|Hw].
  { eexists. split; [reflexivity|]. by apply (reject_outcome Wait). }
  destruct (isDuplicateQuote e quote).
  { eexists. split; [reflexivity|]. by apply (reject_outcome Duplicate). }
  destruct (isInCooldown e (Quote.timestamp quote)).
  { eexists. split; [reflexivity|]. by apply (reject_outcome Cooldown). }
  destruct (shouldTriggerOrder e quote vwap); cbn [negb].
  2: { eexists. split; [reflexivity|]. apply (reject_outcome Unfavorable quote _ _ _ _ e); [done|]. cbn -[d_of_Z]. by rewrite price_if. }
  cbv zeta. rewrite price_if. change (side e0) with (side e). fold (relevantPrice e quote).
  rewrite price_to_i32 by (unfold relevantPrice; branch; lia).
  fold (relevantQuantity e quote).
  change (buildOrder e0 quote (calculateOrderSize e0 (relevantQuantity e quote)))
    with (order_of e quote).
  eexists. split; [reflexivity|]. exact (trigger_outcome quote vwap e).
Qed.

(** ** When an order is sent *)

(** The price beats the exact volume-weighted average [pv / v]. *)
Definition beats (e : DecisionEngine) (quote : QuoteMessage) (pv v : Z) : Prop :=
  if side e =? char_B then Quote.askPrice quote * v < pv else pv < Quote.bidPrice quote * v.

Lemma shouldTriggerOrder_exact e quote pv v :
  QuoteMessage_ok quote → 0 < pv ≤ 2 ^ 51 → 0 < v ≤ 2 ^ 51 →
  shouldTriggerOrder e quote (d_div (d_of_Z pv) (d_of_Z v)) = true ↔ beats e quote pv v.
Proof.
  intros (_ & _ & _ & Hb & _ & Ha) Hp Hv. unfold shouldTriggerOrder, beats.
  rewrite quot_not_le_zero by lia. branch.
  - rewrite int_lt_quot by lia. apply Z.ltb_lt.
  - rewrite quot_lt_int by lia. apply Z.ltb_lt.
Qed.

Lemma isInCooldown_spec e t :
  isInCooldown e t = false ↔
  lastOrderTimestamp e = 0 ∨ cooldownNanos e ≤ u64 (t - lastOrderTimestamp e).
Proof.
  unfold isInCooldown. destruct (Z.eqb_spec (lastOrderTimestamp e) 0); [by split; [left|]|].
  rewrite Z.ltb_ge. split; [by right|]. intros [|]; [congruence|done].
Qed.

(** What identifies a quote, for a validated one: its time and the price and
    quantity of the side the engine trades on. *)
Definition identity (e : DecisionEngine) (quote : QuoteMessage) : QuoteIdentifier.t :=
  QuoteIdentifier.mk (Quote.timestamp quote) (relevantPrice e quote) (relevantQuantity e quote).

Lemma isDuplicateQuote_spec e quote :
  QuoteMessage_ok quote → validateQuote quote = true →
  isDuplicateQuote e quote = false ↔ lastProcessedQuote e ≠ identity e quote.
Proof.
  intros Hok Hval. apply (validateQuote_spec quote Hok) in Hval. destruct Hval as (_ & _ & Hbp & Hap).
  assert (E : isDuplicateQuote e quote = QuoteIdentifier.eqb (identity e quote) (lastProcessedQuote e)).
  { unfold isDuplicateQuote, identity, relevantPrice, relevantQuantity. branch; [done|].
    by rewrite i32_small by lia. }
  rewrite E, <- not_true_iff_false, QuoteIdentifier.eqb_eq. split; intros H H'; by apply H.
Qed.

(** The fields of an order, from the engine's configuration and the quote. *)
Lemma order_of_fields e quote :
  QuoteMessage_ok quote → validateQuote quote = true →
  Order.symbol (order_of e quote) = symbol_field (symbol e) ∧
  Order.timestamp (order_of e quote) = Quote.timestamp quote ∧ Order.side (order_of e quote) = side e ∧
  Order.quantity (order_of e quote) = Z.min (relevantQuantity e quote) (maxOrderSize e) ∧
  Order.price (order_of e quote) = relevantPrice e quote.
Proof.
  intros Hok Hval. unfold order_of. rewrite buildOrder_symbol. repeat split.
  unfold buildOrder, relevantPrice. cbn -[list_inserts seq].
  apply (validateQuote_spec quote Hok) in Hval. destruct Hval as (_ & _ & Hbp & Hap).
  branch; [done|]. apply i32_small. lia.
Qed.

(** C4: [evaluateQuote] sends an order exactly when the engine is ready, the
    quote differs in time, price or quantity from the one the last order
    answered, the cooldown has elapsed and the price is strictly better than
    the exact average (the comparison of doubles decides the comparison of the
    rationals); the order carries the quote's price and time, the padded symbol
    and the smaller of the two sizes.  An order makes its quote the answered
    one and its time the start of the cooldown; a rejected quote leaves both,
    and the state, as they were.  The call never reaches undefined behaviour
    on a validated quote. *)
Theorem evaluateQuote_decides (e : DecisionEngine) (m : SystemMetrics) (quote : QuoteMessage) (pv v elapsed : Z) :
  QuoteMessage_ok quote → validateQuote quote = true → 0 < pv ≤ 2 ^ 51 → 0 < v ≤ 2 ^ 51 →
  ∃ o e' m', evaluateQuote quote (d_div (d_of_Z pv) (d_of_Z v)) elapsed (e, m) = Some (o, (e', m')) ∧
    (is_Some o ↔
       currentState e ≠ WAITING_FOR_FIRST_WINDOW ∧
       ¬ (QuoteIdentifier.timestamp (lastProcessedQuote e) = Quote.timestamp quote ∧
          QuoteIdentifier.price (lastProcessedQuote e) = relevantPrice e quote ∧
          QuoteIdentifier.quantity (lastProcessedQuote e) = relevantQuantity e quote) ∧
       (lastOrderTimestamp e = 0 ∨
        cooldownNanos e ≤ u64 (Quote.timestamp quote - lastOrderTimestamp e)) ∧
       beats e quote pv v) ∧
    match o with
    | Some order =>
        Order.symbol order = symbol_field (symbol e) ∧
        Order.timestamp order = Quote.timestamp quote ∧ Order.side order = side e ∧
        Order.quantity order = Z.min (relevantQuantity e quote) (maxOrderSize e) ∧
        Order.price order = relevantPrice e quote ∧
        currentState e' = READY_TO_TRADE ∧ lastOrderTimestamp e' = Quote.timestamp quote ∧
        lastProcessedQuote e' =
          QuoteIdentifier.mk (Quote.timestamp quote) (relevantPrice e quote) (relevantQuantity e quote)
    | None =>
        currentState e' = currentState e ∧ lastOrderTimestamp e' = lastOrderTimestamp e ∧
        lastProcessedQuote e' = lastProcessedQuote e
    end.
Proof.
  intros Hok Hval Hp Hv. set (vwap := d_div (d_of_Z pv) (d_of_Z v)).
  destruct (evaluateQuote_outcome e quote vwap elapsed m Hok Hval) as (e' & -> & Hout).
  eexists _, e', _. split; [reflexivity|]. split.
  - rewrite <- (shouldTriggerOrder_exact e quote pv v Hok Hp Hv), <- isInCooldown_spec.
    assert (Hid : ¬ (QuoteIdentifier.timestamp (lastProcessedQuote e) = Quote.timestamp quote ∧
          QuoteIdentifier.price (lastProcessedQuote e) = relevantPrice e quote ∧
          QuoteIdentifier.quantity (lastProcessedQuote e) = relevantQuantity e quote) ↔
        isDuplicateQuote e quote = false).
    { rewrite isDuplicateQuote_spec by done. unfold identity. destruct (lastProcessedQuote e). cbn.
      split; [intros Hne [= -> -> ->]; tauto|intros Hne (-> & -> & ->); done]. }
    rewrite Hid. fold vwap. unfold decide_quote.
    destruct (decide (currentState e = _)); [by split; [intros []|intros []]|].
    destruct (isDuplicateQuote e quote); [by split; [intros []|intros (_ & ? & _)]|].
    destruct (isInCooldown e _); [by split; [intros []|intros (_ & _ & ? & _)]|].
    destruct (shouldTriggerOrder e quote vwap); [by split; [done|eexists]|].
    by split; [intros []|intros (_ & _ & _ & ?)].
  - destruct Hout as [_ Hst Hl Hq _ _ _ _ _ _ _ _]. rewrite Hst, Hl, Hq.
    case_decide; [|done]. by destruct (order_of_fields e quote Hok Hval) as (? & ? & ? & ? & ?).
Qed.

(** ** Sequences of quotes *)

Definition quote_event : Type := QuoteMessage * double * Z.

Fixpoint evaluate_all (events : list quote_event) (s : DecisionEngine * SystemMetrics)
  : option (list OrderMessage * (DecisionEngine * SystemMetrics)) :=
  match events with
  | [] => Some ([], s)
  | (quote, vwap, elapsed) :: events =>
      '(o, s) ← evaluateQuote quote vwap elapsed s;
      '(os, s) ← evaluate_all events s;
      Some (option_list o ++ os, s)
  end.

Definition event_ok (ev : quote_event) : Prop :=
  QuoteMessage_ok ev.1.1 ∧ validateQuote ev.1.1 = true.
#[export] Instance event_ok_dec ev : Decision (event_ok ev).
Proof. unfold event_ok. apply _. Defined.

Definition event_time (ev : quote_event) : Z := Quote.timestamp ev.1.1.

Lemma incr_small n : 0 ≤ n < 2 ^ 64 - 1 → incr n = n + 1.
Proof. intros. apply u64_small. lia. Qed.

(** The decisions a sequence of quotes calls for, each against the engine as
    the quotes before it have left it. *)
Fixpoint decisions (events : list quote_event) (s : DecisionEngine * SystemMetrics) : list Decision.t :=
  match events with
  | [] => []
  | (quote, vwap, elapsed) :: events =>
      decision_of (decide_quote s.1 quote vwap) s.1 quote vwap ::
      match evaluateQuote quote vwap elapsed s with
      | Some (_, s) => decisions events s
      | None => []
      end
  end.

(** How many decisions have a type. *)
Definition tally (t : Decision.Type_) (ds : list Decision.t) : Z :=
  Z.of_nat (List.length (filter (λ d, Decision.type d = t) ds)).

Lemma tally_snoc t ds d : tally t (ds ++ [d]) = tally t ds + if decide (Decision.type d = t) then 1 else 0.
Proof.
  unfold tally. rewrite filter_app, length_app, filter_cons, filter_nil. case_decide; cbn; lia.
Qed.

Lemma tally_bound t ds : 0 ≤ tally t ds ≤ Z.of_nat (List.length ds).
Proof. unfold tally. assert (H := length_filter (λ d, Decision.type d = t) ds). lia. Qed.

(** What a decision to order and the order itself both say: the time, the
    price and the size. *)
Definition decided (d : Decision.t) : Z * double * Z :=
  (Decision.timestamp d, Decision.quotePrice d, Decision.orderSize d).
Definition ordered (o : OrderMessage) : Z * double * Z :=
  (Order.timestamp o, d_of_Z (Order.price o), Order.quantity o).

(** The books after the decisions [ds] and the orders [os]. *)
Record books (ds : list Decision.t) (os : list OrderMessage) (e : DecisionEngine) : Prop := {
  bk_quotes : quotesProcessed e = Z.of_nat (List.length ds);
  bk_triggered : ordersTriggered e = tally Decision.ORDER_TRIGGERED ds;
  bk_wait : rejWaitingWindow e = tally Decision.REJECTED_WAITING_WINDOW ds;
  bk_price : rejPriceUnfavorable e = tally Decision.REJECTED_PRICE_UNFAVORABLE ds;
  bk_cooldown : rejCooldown e = tally Decision.REJECTED_COOLDOWN ds;
  bk_duplicate : rejDuplicate e = tally Decision.REJECTED_DUPLICATE ds;
  bk_rejected : ordersRejected e = quotesProcessed e - ordersTriggered e;
  bk_split : rejWaitingWindow e + rejPriceUnfavorable e + rejCooldown e + rejDuplicate e = ordersRejected e;
  bk_orders : decided <$> filter (λ d, Decision.type d = Decision.ORDER_TRIGGERED) ds = ordered <$> os;
  bk_state : currentState e ≠ ORDER_SENT;
  bk_history : decisionHistory e = newest MAX_HISTORY_SIZE ds
}.

Lemma decision_type v e quote vwap : Decision.type (decision_of v e quote vwap) = reject_type v.
Proof. by destruct v. Qed.

Lemma books_range ds os e :
  books ds os e → Z.of_nat (List.length ds) < 2 ^ 64 - 1 →
  0 ≤ quotesProcessed e < 2 ^ 64 - 1 ∧ 0 ≤ ordersTriggered e ≤ quotesProcessed e ∧
  0 ≤ rejWaitingWindow e ∧ 0 ≤ rejPriceUnfavorable e ∧ 0 ≤ rejCooldown e ∧ 0 ≤ rejDuplicate e.
Proof.
  intros [] Hn. rewrite bk_quotes0, bk_triggered0, bk_wait0, bk_price0, bk_cooldown0, bk_duplicate0.
  assert (Hb := λ t, tally_bound t ds). repeat split; try apply Hb; lia.
Qed.

Lemma outcome_books v vwap quote e e' ds os :
  QuoteMessage_ok quote → validateQuote quote = true →
  outcome v vwap quote e e' → books ds os e → Z.of_nat (List.length ds) < 2 ^ 64 - 1 →
  books (ds ++ [decision_of v e quote vwap]) (os ++ if decide (v = Trigger) then [order_of e quote] else []) e'.
Proof.
  intros Hok Hval [] Hb Hn. assert (Hr := books_range _ _ _ Hb Hn). destruct Hb.
  rewrite bk_history0, newest_snoc in oc_history0.
  destruct (order_of_fields e quote Hok Hval) as (_ & Ht & _ & Hq & Hp).
  constructor; try done;
    rewrite ?tally_snoc, ?filter_app, ?filter_cons, ?filter_nil, ?decision_type, ?length_app, ?fmap_app;
    rewrite ?oc_quotes0, ?oc_triggered0, ?oc_rejected0, ?oc_wait0, ?oc_price0, ?oc_cooldown0, ?oc_duplicate0,
      ?oc_state0, ?bk_orders0;
    unfold counted; destruct v; repeat (case_decide; try done); cbn [reject_type List.length fmap list_fmap];
    rewrite ?incr_small by lia; try lia; try done.
  unfold ordered at 3. by rewrite Ht, Hq, Hp.
Qed.

Lemma evaluate_all_cons ev events e m :
  event_ok ev →
  ∃ e', outcome (decide_quote e ev.1.1 ev.1.2) ev.1.2 ev.1.1 e e' ∧
    decisions (ev :: events) (e, m) = decision_of (decide_quote e ev.1.1 ev.1.2) e ev.1.1 ev.1.2 ::
      decisions events (e', latency_scope ev.2 (incQuotesProcessed m)) ∧
    evaluate_all (ev :: events) (e, m) =
      ('(os, s) ← evaluate_all events (e', latency_scope ev.2 (incQuotesProcessed m));
       Some ((if decide (decide_quote e ev.1.1 ev.1.2 = Trigger) then [order_of e ev.1.1] else []) ++ os, s)).
Proof.
  destruct ev as [[quote vwap] elapsed]. intros [Hok Hval]. cbn [fst snd] in *.
  destruct (evaluateQuote_outcome e quote vwap elapsed m Hok Hval) as (e' & He & Hout).
  exists e'. split; [done|]. cbn [evaluate_all decisions]. rewrite He. cbn -[decide decision_of]. split; [done|].
  by destruct (decide (decide_quote e quote vwap = Trigger)).
Qed.

Lemma evaluate_all_books events e m ds os :
  Forall event_ok events → books ds os e → Z.of_nat (List.length ds + List.length events) < 2 ^ 64 →
  ∃ os' e' m', evaluate_all events (e, m) = Some (os', (e', m')) ∧
    books (ds ++ decisions events (e, m)) (os ++ os') e' ∧
    List.length (decisions events (e, m)) = List.length events.
Proof.
  intros Hev. revert e m ds os. induction Hev as [|ev events Hev Hevs IH]; intros e m ds os Hb Hn.
  { exists [], e, m. cbn. rewrite !app_nil_r. done. }
  destruct (evaluate_all_cons ev events e m Hev) as (e' & Hout & -> & ->). cbn [List.length] in *.
  destruct Hev as [Hok Hval].
  assert (Hb' := outcome_books _ _ _ _ _ _ _ Hok Hval Hout Hb ltac:(lia)).
  destruct (IH e' (latency_scope ev.2 (incQuotesProcessed m)) _ _ Hb') as (os' & e2 & m2 & -> & Hb2 & Hl);
    [rewrite length_app; cbn; lia|].
  eexists _, _, _. split; [reflexivity|]. rewrite <- !app_assoc in Hb2. cbn [List.length]. by rewrite Hl.
Qed.

Lemma books_init sym sd maxSize cooldown : books [] [] (DecisionEngine_init sym sd maxSize cooldown).
Proof. by constructor. Qed.


(** ** Spacing of orders *)

(** Consecutive times are at least [gap] apart. *)
Fixpoint spaced (gap : Z) (times : list Z) : Prop :=
  match times with
  | a :: (b :: _) as rest => a + gap ≤ b ∧ spaced gap rest
  | _ => True
  end.

Lemma evaluate_all_spaced events e m os s :
  Forall event_ok events → Sorted Z.le (event_time <$> events) →
  Forall (λ ev, 0 < event_time ev) events →
  0 ≤ lastOrderTimestamp e → Forall (λ ev, lastOrderTimestamp e ≤ event_time ev) events →
  evaluate_all events (e, m) = Some (os, s) →
  spaced (cooldownNanos e) (Order.timestamp <$> os) ∧
  (lastOrderTimestamp e ≠ 0 →
   spaced (cooldownNanos e) (lastOrderTimestamp e :: (Order.timestamp <$> os))).
Proof.
  intros Hev. revert e m os s. induction Hev as [|ev events Hev Hevs IH]; intros e m os s Hs Hpos Hl0 Hle.
  { intros [= <- <-]. done. }
  cbn [fmap list_fmap] in Hs. apply Sorted_StronglySorted in Hs; [|intros ???; lia].
  apply StronglySorted_inv in Hs as [Hs Hge]. rewrite Forall_fmap in Hge.
  apply Forall_cons in Hpos as [Hp Hpos]. apply Forall_cons in Hle as [Hlev Hle].
  destruct (evaluate_all_cons ev events e m Hev) as (e' & Hout & _ & ->).
  destruct (evaluate_all events (e', _)) as [[os' s']|] eqn:Hrest; [|done].
  intros [= <- <-].
  destruct (oc_config _ _ _ _ _ Hout) as (_ & _ & _ & Hcd). assert (Hlast := oc_last _ _ _ _ _ Hout).
  apply StronglySorted_Sorted in Hs. destruct (IH e' (latency_scope ev.2 (incQuotesProcessed m)) os' s' Hs Hpos) as [IH1 IH2]; try done.
  { rewrite Hlast. case_decide; [|done]. unfold event_time in *. lia. }
  { rewrite Hlast. case_decide; [|done]. exact Hge. }
  rewrite Hcd, Hlast in *. case_decide as Hd; [|done]. cbn [app fmap list_fmap].
  specialize (IH2 ltac:(unfold event_time in *; lia)). split; [exact IH2|].
  intros Hne. split; [|exact IH2]. change (Order.timestamp (order_of e ev.1.1)) with (event_time ev).
  unfold decide_quote in Hd. repeat (case_match; try done).
  apply isInCooldown_spec in H1 as [|Hcool]; [done|].
  destruct Hev as [(_ & Hts & _) _]. unfold event_time in *. rewrite u64_small in Hcool by lia. lia.
Qed.

(** C20: the cooldown holds.  On a stream of validated quotes whose timestamps
    are positive and never decrease, any two consecutive orders are at least
    [cooldownNanos] apart. *)
Theorem orders_respect_cooldown (sym : list Z) (sd maxSize cooldown : Z) (ready : bool) (events : list quote_event)
    (m : SystemMetrics) (os : list OrderMessage) (s : DecisionEngine * SystemMetrics) :
  Forall event_ok events → Sorted Z.le (event_time <$> events) →
  Forall (λ ev, 0 < event_time ev) events →
  let e := DecisionEngine_init sym sd maxSize cooldown in
  evaluate_all events (if ready then onVwapWindowComplete e else e, m) = Some (os, s) →
  spaced cooldown (Order.timestamp <$> os).
Proof.
  intros Hev Hs Hpos e He.
  assert (Hc : cooldownNanos (if ready then onVwapWindowComplete e else e) = cooldown ∧
               lastOrderTimestamp (if ready then onVwapWindowComplete e else e) = 0) by by destruct ready.
  destruct Hc as [Hc Hl]. rewrite <- Hc.
  apply (evaluate_all_spaced events _ m os s); try done; rewrite Hl; [done|].
  eapply Forall_impl; [exact Hpos|]. cbn. intros; lia.
Qed.

(** ** Concrete quotes *)

Module Examples.
Definition IBM : list Z := [73; 66; 77].
Definition quote (t bid ask : Z) : QuoteMessage :=
  Quote.mk (symbol_field IBM) t 100 bid 200 ask.

Definition engine : DecisionEngine := onVwapWindowComplete (DecisionEngine_init IBM char_B 150 100000000).

(** The average price is 14003.33; asking 14000 triggers a buy order for the
    smaller of 200 and 150. *)
Lemma evaluateQuote_decides_witness :
  ∃ order e' m', evaluateQuote (quote 1000000000 13990 14000) (d_div (d_of_Z 42010) (d_of_Z 3)) 250
      (engine, SystemMetrics_init) = Some (Some order, (e', m')) ∧
    Order.quantity order = 150 ∧ Order.price order = 14000 ∧ lastOrderTimestamp e' = 1000000000.
Proof.
  destruct (evaluateQuote_decides engine SystemMetrics_init (quote 1000000000 13990 14000) 42010 3 250)
    as (o & e' & m' & He & Hiff & Hfields); [concrete..|].
  destruct o as [order|].
  - exists order, e', m'. split; [exact He|].
    destruct Hfields as (_ & _ & _ & Hq & Hp & _ & Ht & _). by rewrite Hq, Hp, Ht.
  - destruct Hiff as [_ Hif]. destruct Hif as [? ?]; [|done].
    split; [done|]. split; [by intros [? _]|]. split; [by left|reflexivity].
Defined.

Definition vwap : double := d_div (d_of_Z 42010) (d_of_Z 3).
Definition events : list quote_event :=
  [(quote 1000000000 13990 14000, vwap, 300); (quote 1050000000 13990 14001, vwap, 0);
   (quote 1100000000 13990 14001, vwap, 80); (quote 1250000000 13990 14020, vwap, 90)].

Lemma events_ok : Forall event_ok events.
Proof. concrete. Defined.


Definition orders : list OrderMessage :=
  [order_of engine (quote 1000000000 13990 14000); order_of engine (quote 1100000000 13990 14001)].

Lemma orders_respect_cooldown_witness : spaced 100000000 (Order.timestamp <$> orders).
Proof.
  destruct (evaluate_all events (engine, SystemMetrics_init)) as [[os s]|] eqn:He;
    [|vm_compute in He; discriminate].
  assert (Hos : os = orders) by (vm_compute in He; injection He as <- _; vm_compute; reflexivity).
  rewrite <- Hos.
  apply (orders_respect_cooldown IBM char_B 150 100000000 true events SystemMetrics_init os s events_ok).
  - repeat constructor; vm_compute; discriminate.
  - concrete.
  - exact He.
Defined.
End Examples.
