(* ===== verification/TradingSpec.v ===== *)
(** * What the trading logic promises

    A reference trader in exact arithmetic.  It folds a sequence of quotes
    and trades of one symbol: trades go to the window of [VwapSpec]; a quote
    becomes an order when the first window is complete, it is not the quote
    the last order answered, the cooldown is over, and its price is strictly
    better than the rational average [pv / volume].  There are no doubles,
    no caches and no state machine here; [OrderManager] shows that the
    program sends exactly the orders of this reference. *)
From S2P Require Import Prelude Message MessageParser Binary64 CircularBuffer VwapSpec DecisionEngine.
#[local] Open Scope Z_scope.

Inductive event := QuoteEvent (quote : QuoteMessage) | TradeEvent (trade : TradeMessage).

Record Trading := mkTrading {
  spec : Spec.t;                    (** the sliding window *)
  lastOrder : Z;                    (** the time of the last order, 0 for none *)
  answered : QuoteIdentifier.t }.   (** the quote it answered *)
#[global] Instance eta_Trading : Settable Trading := fun r => mkTrading (spec r) (lastOrder r) (answered r).

Definition Trading_init : Trading := mkTrading Spec.init 0 (QuoteIdentifier.mk 0 0 0).

Section trading.
Context (cap : nat) (W : Z) (sym : list Z) (sd maxSize cooldown : Z).

(** The side of the quote that matters. *)
Definition quoted (q : QuoteMessage) : QuoteIdentifier.t :=
  if sd =? char_B then QuoteIdentifier.mk (Quote.timestamp q) (Quote.askPrice q) (Quote.askQuantity q)
  else QuoteIdentifier.mk (Quote.timestamp q) (Quote.bidPrice q) (Quote.bidQuantity q).

(** Strictly better than the average, by cross-multiplication. *)
Definition favourable (price : Z) (s : Spec.t) : bool :=
  (0 <? Spec.volume s) &&
  if sd =? char_B then price * Spec.volume s <? Spec.pv s else Spec.pv s <? price * Spec.volume s.

Definition resting (now : Z) (r : Trading) : bool :=
  negb (lastOrder r =? 0) && (u64 (now - lastOrder r) <? cooldown).

Definition trades_on (q : QuoteMessage) (r : Trading) : bool :=
  Spec.complete (spec r) && negb (QuoteIdentifier.eqb (quoted q) (answered r)) &&
  negb (resting (Quote.timestamp q) r) && favourable (QuoteIdentifier.price (quoted q)) (spec r).

Definition order_for (q : QuoteMessage) : OrderMessage :=
  Order.mk (symbol_field sym) (Quote.timestamp q) (Z.min (QuoteIdentifier.quantity (quoted q)) maxSize)
    (QuoteIdentifier.price (quoted q)) sd (replicate 3 0).

Definition on_event (ev : event) (r : Trading) : list OrderMessage * Trading :=
  match ev with
  | TradeEvent t => ([], r <| spec ::= λ s, Spec.add cap W s t |>)
  | QuoteEvent q =>
      if trades_on q r
      then ([order_for q], r <| lastOrder := Quote.timestamp q |> <| answered := quoted q |>)
      else ([], r)
  end.

(** The orders of a sequence of events, and the state after it. *)
Definition trade_all (evs : list event) (r : Trading) : list OrderMessage * Trading :=
  foldl (λ acc ev, let '(os, r) := on_event ev acc.2 in (acc.1 ++ os, r)) ([], r) evs.

Definition event_trades (evs : list event) : list TradeMessage :=
  omap (λ ev, match ev with TradeEvent t => Some t | _ => None end) evs.

Lemma event_trades_app evs evs' : event_trades (evs ++ evs') = event_trades evs ++ event_trades evs'.
Proof. apply omap_app. Qed.

Lemma event_trades_snoc evs ev :
  event_trades (evs ++ [ev]) = event_trades evs ++ match ev with TradeEvent t => [t] | QuoteEvent _ => [] end.
Proof. unfold event_trades. rewrite omap_app. by destruct ev. Qed.

Lemma trade_all_snoc evs ev r :
  trade_all (evs ++ [ev]) r =
    let '(os, r1) := trade_all evs r in let '(os', r2) := on_event ev r1 in (os ++ os', r2).
Proof.
  unfold trade_all. rewrite foldl_app. cbn [foldl]. by destruct (foldl _ _ evs) as [os r1].
Qed.

(** Only trades move the window. *)
Lemma trade_all_spec evs : spec (trade_all evs Trading_init).2 = SpecRun.run cap W Spec.init (event_trades evs).
Proof.
  induction evs as [|ev evs IH] using rev_ind; [done|]. rewrite trade_all_snoc, event_trades_snoc.
  destruct (trade_all evs Trading_init) as [os r]. cbn [snd] in IH. destruct ev as [q|t]; cbn [on_event].
  - destruct (trades_on q r); cbn [snd spec set]; by rewrite app_nil_r.
  - cbn [snd spec set]. by rewrite run_snoc, IH.
Qed.
End trading.

(** ** The engine decides like the reference *)

Lemma order_of_reference e q :
  QuoteMessage_ok q → validateQuote q = true →
  order_of e q = order_for (symbol e) (side e) (maxOrderSize e) q.
Proof.
  intros Hok Hval. apply (validateQuote_spec q Hok) in Hval as (_ & _ & Hbp & Hap). unfold order_of, order_for.
  rewrite <- (buildOrder_symbol e q (calculateOrderSize e (relevantQuantity e q))).
  unfold buildOrder, calculateOrderSize, relevantQuantity, quoted. cbn -[list_inserts seq].
  rewrite i32_small by lia. by destruct (side e =? char_B).
Qed.

(** The verdict on the double quotient is the reference's exact one. *)
Lemma trigger_reference e q s :
  QuoteMessage_ok q → 0 ≤ Spec.volume s ≤ Spec.pv s → Spec.pv s ≤ 2 ^ 51 →
  shouldTriggerOrder e q (if Spec.volume s =? 0 then dzero else d_div (d_of_Z (Spec.pv s)) (d_of_Z (Spec.volume s))) =
    favourable (side e) (QuoteIdentifier.price (quoted (side e) q)) s.
Proof.
  intros Hok HV HP. unfold favourable. destruct (Z.eqb_spec (Spec.volume s) 0) as [->|Hne]; [done|].
  rewrite (proj2 (Z.ltb_lt 0 _)) by lia. cbn [andb]. apply eq_true_iff_eq.
  rewrite shouldTriggerOrder_exact by (done || lia). unfold beats, quoted. branch; cbn; by rewrite Z.ltb_lt.
Qed.
