(* ===== verification/OrderManager.v ===== *)
(** * The order manager ([include/order_manager.h], [src/order_manager.cpp])

    Owns the calculator and the engine, routes quotes and trades to them and
    records the orders.  The constructor's exceptions are a sum type; the
    order callback acts on an abstract world; the undefined conversions of
    the engine and of [static_cast<int32_t>(currentVwap)] are [None]. *)
From Stdlib Require Import String.
From stdpp Require Import pretty.
From S2P Require Import Prelude Binary64 Metrics Message MessageParser CircularBuffer VwapSpec VwapCalculator DecisionEngine TradingSpec.
Import SpecRun.

Module OrderRecord.
Record t := mk {
  timestamp : Z; symbol : list Z; side : Z; quantity : Z; price : Z; reason : string }.
End OrderRecord.
#[export] Instance OrderRecord_inhabited : Inhabited OrderRecord.t :=
  populate (OrderRecord.mk 0 [] 0 0 0 "").

Module OrderManager.
Module State.
Inductive t := WAITING_FOR_FIRST_WINDOW | READY_TO_TRADE | ORDER_SENT.
#[global] Instance t_eq_dec : EqDecision t.
Proof. solve_decision. Defined.
End State.

Record t (Q : Type) := mk {
symbol : list Z; side : Z; maxOrderSize : Z; vwapWindowSeconds : Z;
currentState : State.t;
vwapCalculator : VwapCalculator Q; decisionEngine : DecisionEngine;
totalQuotesProcessed : Z; totalTradesProcessed : Z; totalOrdersSent : Z;
vwapWindowCompleteNotified : bool;
orderHistory : CircularBuffer.t OrderRecord.t
}.
Arguments mk {Q} _ _ _ _ _ _ _ _ _ _ _ _.
Arguments symbol {Q} _.
Arguments side {Q} _.
Arguments maxOrderSize {Q} _.
Arguments vwapWindowSeconds {Q} _.
Arguments currentState {Q} _.
Arguments vwapCalculator {Q} _.
Arguments decisionEngine {Q} _.
Arguments totalQuotesProcessed {Q} _.
Arguments totalTradesProcessed {Q} _.
Arguments totalOrdersSent {Q} _.
Arguments vwapWindowCompleteNotified {Q} _.
Arguments orderHistory {Q} _.
#[global] Instance eta_t Q : Settable (t Q) := fun r =>
mk (symbol r) (side r) (maxOrderSize r) (vwapWindowSeconds r) (currentState r) (vwapCalculator r)
  (decisionEngine r) (totalQuotesProcessed r) (totalTradesProcessed r) (totalOrdersSent r)
  (vwapWindowCompleteNotified r) (orderHistory r).

Definition MAX_ORDER_HISTORY : nat := 1000.

Section ops.
Context {Q : Type} `{DequeOps VwapTradeRecord Q} (MAX_TRADES : nat) (emptyWindow : Q).
Implicit Types (o : t Q) (m : SystemMetrics).

(** The constructor throws [std::invalid_argument] with these messages. *)
Definition init (sym : list Z) (sd maxSize windowSeconds : Z) : t Q + string :=
if negb (sd =? char_B) && negb (sd =? char_S) then inr "Side must be 'B' or 'S'"%string else
if maxSize =? 0 then inr "Max order size must be positive"%string else
if windowSeconds =? 0 then inr "VWAP window must be positive"%string else
inl (mk sym sd maxSize windowSeconds State.WAITING_FOR_FIRST_WINDOW
       (VwapCalculator_init MAX_TRADES emptyWindow windowSeconds)
       (DecisionEngine_init sym sd maxSize DEFAULT_COOLDOWN)
       0 0 0 false (CircularBuffer.init MAX_ORDER_HISTORY)).

Definition checkVwapWindowComplete o : t Q :=
if bool_decide (currentState o = State.WAITING_FOR_FIRST_WINDOW) && hasCompleteWindow (vwapCalculator o)
then
  let o := o <| currentState := State.READY_TO_TRADE |>
             <| decisionEngine ::= onVwapWindowComplete |> in
  if negb (vwapWindowCompleteNotified o) then o <| vwapWindowCompleteNotified := true |> else o
else o.

(** [symbolStr] is cut at its first zero byte. *)
Fixpoint c_string (bytes : list Z) : list Z :=
match bytes with
| [] => []
| b :: bytes => if b =? 0 then [] else b :: c_string bytes
end.

Definition recordOrder (order : OrderMessage) (reason : string) o : t Q :=
let record := OrderRecord.mk (Order.timestamp order) (c_string (take 8 (Order.symbol order)))
                (u8 (Order.side order)) (Order.quantity order) (Order.price order) reason in
o <| orderHistory ::= CircularBuffer.push_back MAX_ORDER_HISTORY record |>.

Definition buildReason o (q : QuoteMessage) (vwapCents : Z) : string :=
if side o =? char_B
then ("Buy Order: Ask (" ++ pretty (Quote.askPrice q) ++ ") < VWAP (" ++ pretty vwapCents ++ ")")%string
else ("Sell Order: Bid (" ++ pretty (Quote.bidPrice q) ++ ") > VWAP (" ++ pretty vwapCents ++ ")")%string.

Definition processTrade (trade : TradeMessage) (s : t Q * SystemMetrics) : t Q * SystemMetrics :=
let '(o, m) := s in
let o := o <| totalTradesProcessed ::= λ n, u64 (n + 1) |> in
let '(c, m) := addTrade MAX_TRADES trade (vwapCalculator o, m) in
let o := checkVwapWindowComplete (o <| vwapCalculator := c |>) in
(* the periodic report reads the average, which refreshes the cache *)
let o := if totalTradesProcessed o mod 10 =? 0
         then o <| vwapCalculator ::= λ c, (getCurrentVwap c).2 |> else o in
(o, m).

Section callback.
Context {World : Type} (orderCallback : option (OrderMessage → World → World)).

Definition processQuote (quote : QuoteMessage) (elapsed : Z) (s : t Q * SystemMetrics * World)
: option (option OrderMessage * (t Q * SystemMetrics * World)) :=
let '(o, m, w) := s in
let o := o <| totalQuotesProcessed ::= λ n, u64 (n + 1) |> in
let o := checkVwapWindowComplete o in
let '(currentVwap, c) := getCurrentVwap (vwapCalculator o) in
let o := o <| vwapCalculator := c |> in
'(orderOpt, (e, m)) ← evaluateQuote quote currentVwap elapsed (decisionEngine o, m);
let o := o <| decisionEngine := e |> in
match orderOpt with
| None => Some (None, (o, m, w))
| Some order =>
    (* static_cast<int32_t>(currentVwap) *)
    vwapCents ← d_to_i32 currentVwap;
    let o := recordOrder order (buildReason o quote vwapCents) o in
    let o := o <| totalOrdersSent ::= λ n, u64 (n + 1) |> in
    let w := match orderCallback with Some cb => cb order w | None => w end in
    Some (Some order, (o, m, w))
end.
End callback.

Definition getOrderHistory o : list OrderRecord.t :=
CircularBuffer.iterate MAX_ORDER_HISTORY (orderHistory o).
Definition isReadyToTrade o : bool := bool_decide (currentState o = State.READY_TO_TRADE).
End ops.

(** ** Histories of calls *)

Inductive op := QuoteOp (quote : QuoteMessage) (elapsed : Z) | TradeOp (trade : TradeMessage).

Definition trades_of (ops : list op) : list TradeMessage :=
omap (λ c, match c with TradeOp t => Some t | _ => None end) ops.

(** The same calls as the reference sees them. *)
Definition event_of (c : op) : event :=
match c with QuoteOp q _ => QuoteEvent q | TradeOp t => TradeEvent t end.
Definition events_of (ops : list op) : list event := event_of <$> ops.

Lemma event_trades_of ops : event_trades (events_of ops) = trades_of ops.
Proof.
induction ops as [|[q elapsed|t] ops IH]; [done|exact IH|]. unfold event_trades, events_of, trades_of in *.
cbn. by f_equal.
Qed.

(** What the message layer lets through. *)
Definition op_ok (c : op) : Prop :=
match c with
| QuoteOp q _ => QuoteMessage_ok q ∧ validateQuote q = true
| TradeOp t => TradeMessage_ok t
end.
#[global] Instance op_ok_dec c : Decision (op_ok c).
Proof. destruct c; unfold op_ok; apply _. Defined.

Section runs.
Context {Q : Type} `{DequeOps VwapTradeRecord Q} (MAX_TRADES : nat).
Context {World : Type} (orderCallback : option (OrderMessage → World → World)).

Fixpoint run_ops (ops : list op) (s : t Q * SystemMetrics * World)
: option (list OrderMessage * (t Q * SystemMetrics * World)) :=
match ops with
| [] => Some ([], s)
| QuoteOp q elapsed :: ops =>
    '(r, s) ← processQuote orderCallback q elapsed s;
    '(orders, s) ← run_ops ops s;
    Some (option_list r ++ orders, s)
| TradeOp trade :: ops =>
    let '(o, m, w) := s in
    let '(o, m) := processTrade MAX_TRADES trade (o, m) in
    run_ops ops (o, m, w)
end.
End runs.

(** ** Invariant *)

Definition record_key (r : OrderRecord.t) : Z * Z * Z * Z :=
(OrderRecord.timestamp r, OrderRecord.side r, OrderRecord.quantity r, OrderRecord.price r).
Definition order_key (o : OrderMessage) : Z * Z * Z * Z :=
(Order.timestamp o, u8 (Order.side o), Order.quantity o, Order.price o).

Section proofs.
Context {Q : Type} {cap : nat} `{!DequeOps VwapTradeRecord Q} `{!Deque VwapTradeRecord Q cap}
(Hcap : (0 < cap)%nat).
Implicit Types (o : t Q) (m : SystemMetrics).

Lemma refresh_refines W c s :
refines W c s → refines W (getCurrentVwap c).2 s ∧ (getCurrentVwap c).1 = vwap_value c.
Proof.
intros Hr. split; [|by eapply getCurrentVwap_value]. unfold getCurrentVwap.
destruct (vwapCacheValid c) eqn:Hv; cbn; [done|]. destruct Hr as [Hc ???????].
constructor; cbn; try done. by destruct Hc.
Qed.

Record om_inv (sym : list Z) (sd maxSize windowSeconds : Z) (trades : list TradeMessage)
  (orders : list OrderMessage) o : Prop := {
om_config : symbol o = sym ∧ side o = sd ∧ maxOrderSize o = maxSize ∧
            vwapWindowSeconds o = windowSeconds;
om_engine : DecisionEngine.symbol (decisionEngine o) = sym ∧
            DecisionEngine.side (decisionEngine o) = sd ∧
            DecisionEngine.maxOrderSize (decisionEngine o) = maxSize;
om_calc : refines (nanos windowSeconds) (vwapCalculator o) (run cap (nanos windowSeconds) Spec.init trades);
om_spec : spec_inv cap (run cap (nanos windowSeconds) Spec.init trades);
om_state : currentState o ≠ State.ORDER_SENT ∧
  (currentState o = State.READY_TO_TRADE ↔
   DecisionEngine.currentState (decisionEngine o) ≠ WAITING_FOR_FIRST_WINDOW);
om_history : CircularBuffer.inv MAX_ORDER_HISTORY (orderHistory o);
om_orders : record_key <$> CircularBuffer.elements MAX_ORDER_HISTORY (orderHistory o) =
            drop (length orders - MAX_ORDER_HISTORY) (order_key <$> orders)
}.

Lemma check_inv sym sd maxSize w trades orders o :
om_inv sym sd maxSize w trades orders o →
om_inv sym sd maxSize w trades orders (checkVwapWindowComplete o).
Proof.
intros Ho. unfold checkVwapWindowComplete. branch; [|done].
apply bool_decide_eq_true in H. destruct Ho as [? ? ? ? [Hns Hst] ? ?].
assert (He : DecisionEngine.currentState (decisionEngine o) = WAITING_FOR_FIRST_WINDOW).
{ destruct (decide (DecisionEngine.currentState (decisionEngine o) = WAITING_FOR_FIRST_WINDOW)); [done|].
  exfalso. apply Hst in n. congruence. }
cbn. destruct (negb (vwapWindowCompleteNotified o)); constructor; cbn; try done;
  unfold onVwapWindowComplete; rewrite decide_True by done; done.
Qed.

Lemma init_inv (empty : Q) sym sd maxSize w o :
dq_inv empty → dq_list empty = [] → is_u32 w →
init cap empty sym sd maxSize w = inl o → om_inv sym sd maxSize w [] [] o.
Proof using Hcap.
intros Hinv Hnil Hw Hi. unfold init in Hi. repeat (case_match; try done). injection Hi as <-.
constructor; cbn; try done.
- by apply init_refines.
- apply spec_init_inv.
- apply CircularBuffer.ring_init_inv. unfold MAX_ORDER_HISTORY. lia.
Qed.

Lemma processTrade_inv sym sd maxSize w trades orders o m t :
is_u32 w → TradeMessage_ok t → om_inv sym sd maxSize w trades orders o →
om_inv sym sd maxSize w (trades ++ [t]) orders (processTrade cap t (o, m)).1.
Proof using Hcap.
intros Hw Ht [Hcfg Heng Hcalc Hspec Hstate Hhist Hord]. unfold processTrade.
cbn -[addTrade checkVwapWindowComplete Z.modulo].
destruct (addTrade_step Hcap _ _ _ t m (nanos_nonneg w Hw) Hcalc Hspec Ht) as (Hr & Hs & _).
destruct (addTrade cap t (vwapCalculator o, m)) as [c m1]. cbn [fst] in Hr.
set (o1 := checkVwapWindowComplete _).
assert (Ho1 : om_inv sym sd maxSize w (trades ++ [t]) orders o1).
{ apply check_inv. constructor; cbn -[run]; try done; by rewrite run_snoc. }
clearbody o1. branch; [|done]. destruct Ho1. constructor; cbn; try done.
by apply refresh_refines.
Qed.

(** Before the first window is complete the state machine stands still. *)
Lemma check_waits o : hasCompleteWindow (vwapCalculator o) = false → checkVwapWindowComplete o = o.
Proof. intros Hc. unfold checkVwapWindowComplete. by rewrite Hc, andb_false_r. Qed.

Lemma processTrade_waits t o m :
hasCompleteWindow (addTrade cap t (vwapCalculator o, m)).1 = false →
currentState (processTrade cap t (o, m)).1 = currentState o.
Proof.
intros Hc. unfold processTrade. cbn -[addTrade checkVwapWindowComplete Z.modulo].
destruct (addTrade cap t _) as [c m1]. cbn [fst] in Hc. rewrite check_waits by done. by branch.
Qed.

Lemma processTrade_orders t o m :
totalOrdersSent (processTrade cap t (o, m)).1 = totalOrdersSent o.
Proof.
unfold processTrade. cbn -[addTrade checkVwapWindowComplete Z.modulo].
destruct (addTrade cap t _) as [c m1]. set (o1 := checkVwapWindowComplete _).
assert (H : totalOrdersSent o1 = totalOrdersSent o).
{ unfold o1, checkVwapWindowComplete. cbn. branch; [|done]. by destruct (negb _). }
branch; cbn; done.
Qed.

(** The average as the exact quotient of the specification's sums. *)
Lemma vwap_value_spec W c s :
refines W c s → vwap_value c =
  if Spec.volume s =? 0 then dzero else d_div (d_of_Z (Spec.pv s)) (d_of_Z (Spec.volume s)).
Proof. intros Hr. unfold vwap_value. by rewrite (refines_volume _ _ _ Hr), (refines_pv _ _ _ Hr). Qed.

(** The average converts to [int32_t] without overflow. *)
Lemma vwap_to_i32 W c s :
refines W c s → spec_inv cap s → priced 1 (2 ^ 31 - 1) s → Spec.pv s ≤ 2 ^ 51 →
∃ v, d_to_i32 (vwap_value c) = Some v.
Proof.
intros Hr Hs Hp Hfit. rewrite (vwap_value_spec _ _ _ Hr). branch; [by exists 0|].
assert (H := priced_total _ _ _ _ Hs Hp).
assert (HV := spec_volume_nonneg _ _ Hs).
destruct (quot_to_i32 (Spec.pv s) (Spec.volume s) (2 ^ 31 - 1)) as (v & -> & _); try lia. by exists v.
Qed.

Definition ready_now o : bool :=
bool_decide (currentState o ≠ State.WAITING_FOR_FIRST_WINDOW) || hasCompleteWindow (vwapCalculator o).

(** The manager after its calculator was read and its engine has answered. *)
Lemma engine_inv sym sd maxSize w trades orders o c v q e' :
om_inv sym sd maxSize w trades orders o →
refines (nanos w) c (run cap (nanos w) Spec.init trades) →
(∃ vwap, v = decide_quote (decisionEngine o) q vwap ∧ outcome v vwap q (decisionEngine o) e') →
om_inv sym sd maxSize w trades orders (o <| vwapCalculator := c |> <| decisionEngine := e' |>).
Proof.
intros [Hcfg (He1 & He2 & He3) Hcalc Hspec [Hns Hst] Hhist Hord] Hr (vwap & Hv & Hout).
destruct (oc_config _ _ _ _ _ Hout) as (Hs1 & Hs2 & Hs3 & _).
constructor; cbn; rewrite ?Hs1, ?Hs2, ?Hs3; try done.
split; [done|]. rewrite (oc_state _ _ _ _ _ Hout). case_decide as Hd; [|done].
split; [done|]. intros _. apply Hst. rewrite Hd in Hv. unfold decide_quote in Hv.
by case_decide.
Qed.

Lemma record_inv sym sd maxSize w trades orders o order reason :
om_inv sym sd maxSize w trades orders o →
om_inv sym sd maxSize w trades (orders ++ [order])
  (recordOrder order reason o <| totalOrdersSent ::= λ n, u64 (n + 1) |>).
Proof.
assert (Hpos : (0 < MAX_ORDER_HISTORY)%nat) by (unfold MAX_ORDER_HISTORY; lia).
intros [Hcfg Heng Hcalc Hspec Hst Hhist Hord]. constructor; cbn -[MAX_ORDER_HISTORY]; try done.
- by apply CircularBuffer.push_back_inv.
- rewrite fmap_app. rewrite <- (length_fmap order_key orders) in Hord.
  rewrite <- (length_fmap order_key), fmap_app. by apply CircularBuffer.push_back_recent.
Qed.

(** One quote, with everything it can do. *)
Lemma processQuote_step {World} (cb : option (OrderMessage → World → World))
  sym sd maxSize w trades orders o m (wd : World) q elapsed :
om_inv sym sd maxSize w trades orders o →
priced 1 (2 ^ 31 - 1) (run cap (nanos w) Spec.init trades) →
Spec.pv (run cap (nanos w) Spec.init trades) ≤ 2 ^ 51 →
QuoteMessage_ok q → validateQuote q = true →
let vwap := vwap_value (vwapCalculator o) in
let e := decisionEngine (checkVwapWindowComplete o) in
let v := decide_quote e q vwap in
let r := if decide (v = Trigger) then Some (order_of e q) else None in
∃ o' m', processQuote cb q elapsed (o, m, wd) =
    Some (r, (o', m', match cb, r with Some f, Some order => f order wd | _, _ => wd end)) ∧
  om_inv sym sd maxSize w trades (orders ++ option_list r) o' ∧
  totalOrdersSent o' = (if r then u64 (totalOrdersSent o + 1) else totalOrdersSent o) ∧
  currentState o' = currentState (checkVwapWindowComplete o) ∧ outcome v vwap q e (decisionEngine o').
Proof.
intros Ho Hpr Hfit Hok Hval vwap e v r. unfold processQuote.
set (o1 := checkVwapWindowComplete (o <| totalQuotesProcessed ::= λ n, u64 (n + 1) |>)).
assert (Ho1 : om_inv sym sd maxSize w trades orders o1).
{ apply check_inv. destruct Ho. by constructor. }
assert (He1 : decisionEngine o1 = e ∧ vwapCalculator o1 = vwapCalculator o ∧
              totalOrdersSent o1 = totalOrdersSent o ∧
              currentState o1 = currentState (checkVwapWindowComplete o)).
{ unfold o1, e, checkVwapWindowComplete. cbn. destruct (bool_decide _ && _); [|done].
  cbn. by destruct (negb (vwapWindowCompleteNotified o)). }
clearbody o1. destruct He1 as (He1 & Hc1 & Ht1 & Hcs).
destruct (refresh_refines _ _ _ (om_calc _ _ _ _ _ _ _ Ho1)) as [Hr Hvw].
rewrite Hc1 in Hr, Hvw |- *. destruct (getCurrentVwap (vwapCalculator o)) as [cv c]. cbn [fst snd] in Hr, Hvw.
subst cv. fold vwap. cbn -[evaluateQuote]. rewrite He1.
destruct (evaluateQuote_outcome e q vwap elapsed m Hok Hval) as (e' & -> & Hout). fold v r in Hout |- *.
assert (Ho2 : om_inv sym sd maxSize w trades orders
          (o1 <| vwapCalculator := c |> <| decisionEngine := e' |>)).
{ apply (engine_inv _ _ _ _ _ _ o1 c v q e' Ho1 Hr). rewrite He1. by exists vwap. }
destruct r as [order|] eqn:Hr0; cbn [mbind option_bind option_list].
- destruct (vwap_to_i32 _ _ _ (om_calc _ _ _ _ _ _ _ Ho) (om_spec _ _ _ _ _ _ _ Ho) Hpr Hfit)
    as [cents Hcents].
  fold vwap in Hcents. rewrite Hcents. cbn [mbind option_bind].
  eexists _, _. split; [by destruct cb|]. split; [|cbn; by rewrite Ht1, Hcs].
  set (o2 := o1 <| vwapCalculator := c |> <| decisionEngine := e' |>) in *.
  exact (record_inv _ _ _ _ _ _ o2 order (buildReason o2 q cents) Ho2).
- rewrite app_nil_r. eexists _, _. split; [by destruct cb|]. done.
Qed.

(** ** Following the reference *)

(** The manager after the events [evs]: it has sent the orders of the
    reference, and the engine's memory is the reference's. *)
Section follows.
Context (sym : list Z) (sd maxSize w : Z).
Abbreviation reference evs := (trade_all cap (nanos w) sym sd maxSize DEFAULT_COOLDOWN evs Trading_init).

Record follows (evs : list event) o : Prop := {
  fo_inv : om_inv sym sd maxSize w (event_trades evs) (reference evs).1 o;
  fo_trades : Forall TradeMessage_ok (event_trades evs);
  fo_ready : currentState o = State.READY_TO_TRADE ↔ Spec.complete (spec (reference evs).2) = true;
  fo_engine : lastOrderTimestamp (decisionEngine o) = lastOrder (reference evs).2 ∧
              lastProcessedQuote (decisionEngine o) = answered (reference evs).2 ∧
              cooldownNanos (decisionEngine o) = DEFAULT_COOLDOWN
}.

Lemma follows_calc evs o : follows evs o → refines (nanos w) (vwapCalculator o) (spec (reference evs).2).
Proof using Type. intros Hf. rewrite trade_all_spec. apply (om_calc _ _ _ _ _ _ _ (fo_inv _ _ Hf)). Qed.

(** The test of both handlers has nothing left to do. *)
Lemma follows_check evs o : follows evs o → checkVwapWindowComplete o = o.
Proof using Type.
  intros Hf. destruct (Spec.complete (spec (reference evs).2)) eqn:Hc.
  - apply (fo_ready _ _ Hf) in Hc. unfold checkVwapWindowComplete. by rewrite Hc.
  - apply check_waits. unfold hasCompleteWindow. by rewrite (rf_complete _ _ _ (follows_calc _ _ Hf)), Hc.
Qed.

Lemma follows_sums evs o :
  is_u32 w → follows evs o →
  0 ≤ Spec.volume (spec (reference evs).2) ≤ Spec.pv (spec (reference evs).2).
Proof using Hcap.
  intros Hw Hf. rewrite trade_all_spec. assert (Hs := om_spec _ _ _ _ _ _ _ (fo_inv _ _ Hf)).
  assert (H1 := spec_volume_nonneg _ _ Hs).
  assert (Hp := priced_total _ _ _ _ Hs (priced_run_positive _ _ _ _ Hcap (nanos_nonneg w Hw) (spec_init_inv cap)
    (priced_init _ _) (fo_trades _ _ Hf))). lia.
Qed.

(** The engine's verdict is the reference's. *)
Lemma verdict_reference evs o q :
  is_u32 w → follows evs o → Spec.pv (spec (reference evs).2) ≤ 2 ^ 51 →
  QuoteMessage_ok q → validateQuote q = true →
  bool_decide (decide_quote (decisionEngine o) q (vwap_value (vwapCalculator o)) = Trigger) =
    trades_on sd DEFAULT_COOLDOWN q (reference evs).2.
Proof using Hcap.
  intros Hw Hf Hpv Hok Hval. assert (Hq := Hval). apply (validateQuote_spec q Hok) in Hq as (_ & _ & Hbp & Hap).
  destruct (om_engine _ _ _ _ _ _ _ (fo_inv _ _ Hf)) as (_ & Hsd & _).
  destruct (fo_engine _ _ Hf) as (Hlast & Hans & Hcool). destruct (om_state _ _ _ _ _ _ _ (fo_inv _ _ Hf)) as [_ Hst].
  assert (Htrig := trigger_reference (decisionEngine o) q _ Hok (follows_sums _ _ Hw Hf) Hpv).
  rewrite <- (vwap_value_spec _ _ _ (follows_calc _ _ Hf)), Hsd in Htrig.
  assert (Hdup : isDuplicateQuote (decisionEngine o) q = QuoteIdentifier.eqb (quoted sd q) (answered (reference evs).2)).
  { unfold isDuplicateQuote, quoted. rewrite Hsd, Hans, i32_small by lia. done. }
  assert (Hrest : isInCooldown (decisionEngine o) (Quote.timestamp q) =
                  resting DEFAULT_COOLDOWN (Quote.timestamp q) (reference evs).2).
  { unfold isInCooldown, resting. rewrite Hlast, Hcool. by destruct (_ =? 0). }
  unfold decide_quote, trades_on. rewrite <- Hdup, <- Hrest, <- Htrig. rewrite (fo_ready _ _ Hf) in Hst.
  destruct (Spec.complete _), (decide (DecisionEngine.currentState _ = _)) as [Hd|Hd]; cbn [andb].
  - by apply (proj1 Hst) in Hd.
  - destruct (isDuplicateQuote _ _), (isInCooldown _ _), (shouldTriggerOrder _ _ _); done.
  - done.
  - apply Hst in Hd. done.
Qed.

(** The manager after a trade, up to the refreshed cache. *)
Lemma processTrade_engine t o m :
  let o1 := checkVwapWindowComplete (o <| vwapCalculator := (addTrade cap t (vwapCalculator o, m)).1 |>) in
  decisionEngine (processTrade cap t (o, m)).1 = decisionEngine o1 ∧
  currentState (processTrade cap t (o, m)).1 = currentState o1.
Proof using Type.
  unfold processTrade. cbn -[addTrade checkVwapWindowComplete Z.modulo].
  destruct (addTrade cap t _) as [c m1]. cbn [fst].
  assert (H : ∀ n, let o2 := checkVwapWindowComplete (o <| totalTradesProcessed := n |> <| vwapCalculator := c |>) in
            let o1 := checkVwapWindowComplete (o <| vwapCalculator := c |>) in
            decisionEngine o2 = decisionEngine o1 ∧ currentState o2 = currentState o1).
  { intros n. unfold checkVwapWindowComplete. cbn. destruct (_ && _); [|done]. by destruct (negb _). }
  specialize (H (u64 (totalTradesProcessed o + 1))). branch; exact H.
Qed.

Lemma check_state o :
  let o1 := checkVwapWindowComplete o in
  (currentState o1 = State.READY_TO_TRADE ↔
   currentState o = State.READY_TO_TRADE ∨
   currentState o = State.WAITING_FOR_FIRST_WINDOW ∧ hasCompleteWindow (vwapCalculator o) = true) ∧
  lastOrderTimestamp (decisionEngine o1) = lastOrderTimestamp (decisionEngine o) ∧
  lastProcessedQuote (decisionEngine o1) = lastProcessedQuote (decisionEngine o) ∧
  cooldownNanos (decisionEngine o1) = cooldownNanos (decisionEngine o).
Proof using Type.
  unfold checkVwapWindowComplete, onVwapWindowComplete.
  destruct (bool_decide (currentState o = State.WAITING_FOR_FIRST_WINDOW)) eqn:Hb; cbn [andb].
  - apply bool_decide_eq_true in Hb. destruct (hasCompleteWindow (vwapCalculator o)).
    + destruct (negb _); cbn; (split; [intuition congruence|]); by destruct (decide _).
    + intuition congruence.
  - apply bool_decide_eq_false in Hb. intuition congruence.
Qed.

Lemma follows_trade evs o m t :
  is_u32 w → TradeMessage_ok t → follows evs o → follows (evs ++ [TradeEvent t]) (processTrade cap t (o, m)).1.
Proof using Hcap.
  intros Hw Ht Hf. assert (HW := nanos_nonneg w Hw). assert (Hcalc := follows_calc _ _ Hf).
  assert (Htr : event_trades (evs ++ [TradeEvent t]) = event_trades evs ++ [t]) by apply event_trades_snoc.
  assert (Hspec := om_spec _ _ _ _ _ _ _ (fo_inv _ _ Hf)). rewrite <- (trade_all_spec cap (nanos w) sym sd maxSize DEFAULT_COOLDOWN) in Hspec.
  destruct (addTrade_step Hcap _ _ _ t m HW Hcalc Hspec Ht) as (Hr & _ & _).
  destruct (processTrade_engine t o m) as [He Hst].
  set (o0 := o <| vwapCalculator := (addTrade cap t (vwapCalculator o, m)).1 |>) in *.
  destruct (check_state o0) as (Hready & Hl & Hq & Hc).
  assert (Hsnoc := trade_all_snoc cap (nanos w) sym sd maxSize DEFAULT_COOLDOWN evs (TradeEvent t) Trading_init).
  assert (Hs' : spec (reference (evs ++ [TradeEvent t])).2 = Spec.add cap (nanos w) (spec (reference evs).2) t).
  { rewrite Hsnoc. by destruct (reference evs). }
  assert (Ho' : (reference (evs ++ [TradeEvent t])).1 = (reference evs).1 ∧
                lastOrder (reference (evs ++ [TradeEvent t])).2 = lastOrder (reference evs).2 ∧
                answered (reference (evs ++ [TradeEvent t])).2 = answered (reference evs).2).
  { rewrite Hsnoc. destruct (reference evs). cbn. by rewrite app_nil_r. }
  destruct Ho' as (Ho1 & Ho2 & Ho3). clear Hsnoc.
  assert (Htrs : Forall TradeMessage_ok (event_trades evs ++ [t])).
  { apply Forall_app_2; [apply (fo_trades _ _ Hf)|by constructor]. }
  split.
  - rewrite Htr, Ho1. apply processTrade_inv; [done|done|apply (fo_inv _ _ Hf)].
  - by rewrite Htr.
  - rewrite Hst, Hready. change (currentState o0) with (currentState o). change (vwapCalculator o0) with (addTrade cap t (vwapCalculator o, m)).1.
    assert (Hhas : hasCompleteWindow (addTrade cap t (vwapCalculator o, m)).1 = Spec.complete (spec (reference (evs ++ [TradeEvent t])).2)).
    { rewrite Hs' in *. unfold hasCompleteWindow. rewrite (rf_complete _ _ _ Hr).
      destruct (Spec.complete _) eqn:Hcomp; [|done]. cbn [andb]. unfold dq_empty.
      rewrite dq_size_spec by apply (ci_inv _ _ _ (rf_calc _ _ _ Hr)). rewrite (rf_window _ _ _ Hr).
      rewrite trade_all_spec, <- run_snoc in *. assert (Hne := complete_nonempty _ _ _ HW Htrs Hcomp).
      by destruct (Spec.window _). }
    rewrite Hhas, (fo_ready _ _ Hf). destruct (om_state _ _ _ _ _ _ _ (fo_inv _ _ Hf)) as [Hns _].
    rewrite Hs'. destruct (Spec.complete (spec (reference evs).2)) eqn:Hold.
    + rewrite (complete_mono _ _ _ _ Hold). intuition.
    + assert (Hwait : currentState o = State.WAITING_FOR_FIRST_WINDOW).
      { assert (currentState o ≠ State.READY_TO_TRADE) by (rewrite (fo_ready _ _ Hf); congruence). by destruct (currentState o). }
      intuition congruence.
  - rewrite He, Hl, Hq, Hc, Ho2, Ho3. apply (fo_engine _ _ Hf).
Qed.

Lemma follows_quote {World} (cb : option (OrderMessage → World → World)) evs o m (wd : World) q elapsed :
  is_u32 w → follows evs o → Spec.pv (spec (reference evs).2) ≤ 2 ^ 51 → QuoteMessage_ok q → validateQuote q = true →
  let r := if trades_on sd DEFAULT_COOLDOWN q (reference evs).2 then Some (order_for sym sd maxSize q) else None in
  ∃ o' m', processQuote cb q elapsed (o, m, wd) =
      Some (r, (o', m', match cb, r with Some f, Some order => f order wd | _, _ => wd end)) ∧
    follows (evs ++ [QuoteEvent q]) o' ∧ (reference (evs ++ [QuoteEvent q])).1 = (reference evs).1 ++ option_list r ∧
    totalOrdersSent o' = (if r then u64 (totalOrdersSent o + 1) else totalOrdersSent o).
Proof using Hcap.
  intros Hw Hf Hpv Hok Hval r. assert (Hchk := follows_check _ _ Hf). assert (Hverdict := verdict_reference _ _ q Hw Hf Hpv Hok Hval).
  assert (Hpv' := Hpv). rewrite trade_all_spec in Hpv'. destruct (om_engine _ _ _ _ _ _ _ (fo_inv _ _ Hf)) as (Hsym & Hsd & Hmax).
  destruct (processQuote_step cb _ _ _ _ _ _ o m wd q elapsed (fo_inv _ _ Hf)
    (priced_run_positive _ _ _ _ Hcap (nanos_nonneg w Hw) (spec_init_inv cap) (priced_init _ _) (fo_trades _ _ Hf))
    Hpv' Hok Hval) as (o' & m' & Hrun & Hinv' & Htot & Hst & Hout).
  rewrite Hchk in *. rewrite (order_of_reference _ _ Hok Hval), Hsym, Hsd, Hmax in *.
  set (v := decide_quote _ _ _) in *. clearbody v.
  assert (Hr : (if decide (v = Trigger) then Some (order_for sym sd maxSize q) else None) = r).
  { unfold r. rewrite <- Hverdict. by destruct (decide (v = Trigger)) as [->|Hn]; [|rewrite bool_decide_false]. }
  rewrite Hr in *. exists o', m'. split; [done|].
  assert (Hsnoc := trade_all_snoc cap (nanos w) sym sd maxSize DEFAULT_COOLDOWN evs (QuoteEvent q) Trading_init).
  assert (Horders : (reference (evs ++ [QuoteEvent q])).1 = (reference evs).1 ++ option_list r).
  { rewrite Hsnoc. unfold r. destruct (reference evs) as [os rf]. cbn. by destruct (trades_on _ _ _ _). }
  split; [|done].
  assert (Htr : event_trades (evs ++ [QuoteEvent q]) = event_trades evs) by (rewrite event_trades_snoc; apply app_nil_r).
  split.
  - by rewrite Htr, Horders.
  - rewrite Htr. apply Hf.
  - rewrite Hst, (fo_ready _ _ Hf), !trade_all_spec, Htr. done.
  - destruct (oc_config _ _ _ _ _ Hout) as (_ & _ & _ & ->). rewrite (oc_last _ _ _ _ _ Hout), (oc_quote _ _ _ _ _ Hout).
    destruct (fo_engine _ _ Hf) as (Hl & Hq & Hc). rewrite Hl, Hq, Hc, Hsnoc. clear - Hverdict Hsd.
    destruct (reference evs) as [os rf]. cbn -[trades_on] in *. rewrite <- Hverdict.
    destruct (decide (v = Trigger)) as [->|Hn]; [|by rewrite bool_decide_false].
    rewrite bool_decide_true by done. cbn. unfold quoted, relevantPrice, relevantQuantity. rewrite Hsd.
    by destruct (sd =? char_B).
Qed.

Lemma follows_init (empty : Q) o :
  dq_inv empty → dq_list empty = [] → is_u32 w → init cap empty sym sd maxSize w = inl o → follows [] o.
Proof using Hcap.
  intros Hinv Hnil Hw Hi. split; [by apply (init_inv empty)|constructor| |];
    unfold init in Hi; repeat (case_match; try done); by injection Hi as <-.
Qed.
End follows.

Definition deliver {World} (cb : option (OrderMessage → World → World)) (wd : World)
  (orders : list OrderMessage) : World :=
match cb with Some f => foldl (λ w x, f x w) wd orders | None => wd end.

Lemma deliver_app {World} (cb : option (OrderMessage → World → World)) wd os1 os2 :
deliver cb wd (os1 ++ os2) = deliver cb (deliver cb wd os1) os2.
Proof. destruct cb; [|done]. apply foldl_app. Qed.

Lemma run_positive w trades :
is_u32 w → Forall TradeMessage_ok trades →
priced 1 (2 ^ 31 - 1) (run cap (nanos w) Spec.init trades).
Proof using Hcap.
intros Hw Ht. apply priced_run_positive;
  first [done|by apply nanos_nonneg|apply spec_init_inv|apply priced_init].
Qed.

Lemma pv_run w trades :
is_u32 w → Forall TradeMessage_ok trades →
Spec.pv (run cap (nanos w) Spec.init trades) ≤ offered_pv trades.
Proof using Hcap.
intros Hw Ht. induction trades as [|t trades IH] using rev_ind; [by vm_compute|].
apply Forall_app in Ht as [Ht Ht1%Forall_inv]. rewrite run_snoc.
etransitivity; [apply pv_offered; [done|by apply nanos_nonneg| |done]|].
- apply run_inv; [done|by apply nanos_nonneg|apply spec_init_inv|done].
- unfold offered_pv in *. rewrite fmap_app, Zsum_app. cbn. specialize (IH Ht). lia.
Qed.

(** What the engine of a manager that decided to trade saw. *)
Lemma trigger_facts sym sd maxSize w trades orders o q :
om_inv sym sd maxSize w trades orders o → is_u32 w → Forall TradeMessage_ok trades →
Spec.pv (run cap (nanos w) Spec.init trades) ≤ 2 ^ 51 → QuoteMessage_ok q → validateQuote q = true →
let e := decisionEngine (checkVwapWindowComplete o) in
decide_quote e q (vwap_value (vwapCalculator o)) = Trigger →
let s := run cap (nanos w) Spec.init trades in
DecisionEngine.side e = sd ∧ DecisionEngine.maxOrderSize e = maxSize ∧ 0 < Spec.volume s ∧
beats e q (Spec.pv s) (Spec.volume s).
Proof using Hcap.
intros Ho Hw Ht Hfit Hok Hval e Hd s. assert (Ho' := check_inv _ _ _ _ _ _ _ Ho).
destruct (om_engine _ _ _ _ _ _ _ Ho') as (_ & Hside & Hmax). fold e in Hside, Hmax.
split; [done|]. split; [done|]. unfold decide_quote in Hd. case_decide; [done|].
destruct (isDuplicateQuote e q), (isInCooldown e (Quote.timestamp q)),
  (shouldTriggerOrder e q (vwap_value (vwapCalculator o))) eqn:Htrig; try done. rewrite (vwap_value_spec _ _ _ (om_calc _ _ _ _ _ _ _ Ho)) in Htrig.
fold s in Htrig. assert (Hs := om_spec _ _ _ _ _ _ _ Ho). fold s in Hs.
assert (Hp := priced_total _ _ _ _ Hs (run_positive w trades Hw Ht)).
assert (HV := spec_volume_nonneg _ _ Hs). fold s in Hp, Hfit.
destruct (Z.eqb_spec (Spec.volume s) 0) as [|Hne]; [done|]. split; [lia|].
apply shouldTriggerOrder_exact in Htrig; [done|done|lia|lia].
Qed.

(** Without overwriting, the sums of the specification are those of the
  live trades. *)
Lemma nothing_lost_window w trades :
is_u32 w → Forall TradeMessage_ok trades →
let s := run cap (nanos w) Spec.init trades in
Spec.lostVolume s = 0 →
Spec.window s = Spec.live (nanos w) (Spec.last s) (Spec.record <$> taken cap (nanos w) Spec.init trades).
Proof using Hcap.
intros Hw Ht s Hl.
apply (window_history cap (nanos w) Spec.init []); try done; [by apply nanos_nonneg|apply spec_init_inv].
Qed.

Lemma nothing_lost_sums w trades :
is_u32 w → Forall TradeMessage_ok trades →
let s := run cap (nanos w) Spec.init trades in
let live := Spec.live (nanos w) (Spec.last s) (Spec.record <$> taken cap (nanos w) Spec.init trades) in
Spec.lostVolume s = 0 →
Spec.volume s = sum_of quantity live ∧ Spec.pv s = sum_of priceVolume live.
Proof using Hcap.
intros Hw Ht s live Hl. unfold Spec.volume, Spec.pv.
assert (Hwin := nothing_lost_window w trades Hw Ht Hl). fold s live in Hwin. rewrite Hwin.
destruct (run_positive w trades Hw Ht) as [_ Hp]. fold s in Hp. lia.
Qed.

Lemma trades_of_ok ops : Forall op_ok ops → Forall TradeMessage_ok (trades_of ops).
Proof. induction 1 as [|[q el|t] ops Hc Hops IH]; [constructor|done|]. by constructor. Qed.

(** Any sequence of calls follows the reference. *)
Lemma run_ops_follows {World} (cb : option (OrderMessage → World → World)) sym sd maxSize w ops evs o m wd :
is_u32 w → Forall op_ok ops → follows sym sd maxSize w evs o →
let reference evs := trade_all cap (nanos w) sym sd maxSize DEFAULT_COOLDOWN evs Trading_init in
Spec.pv (spec (reference evs).2) + offered_pv (trades_of ops) ≤ 2 ^ 51 →
totalOrdersSent o = Z.of_nat (length (reference evs).1) → Z.of_nat (length (reference evs).1 + length ops) < 2 ^ 64 →
∃ os o' m', run_ops cap cb ops (o, m, wd) = Some (os, (o', m', deliver cb wd os)) ∧
  follows sym sd maxSize w (evs ++ events_of ops) o' ∧
  (reference (evs ++ events_of ops)).1 = (reference evs).1 ++ os ∧
  totalOrdersSent o' = Z.of_nat (length (reference (evs ++ events_of ops)).1).
Proof using Hcap.
intros Hw Hops Hf reference. revert evs o m wd Hf.
induction Hops as [|c ops Hc Hops IH]; intros evs o m wd Hf Hpv Htot Hlen.
{ exists [], o, m. rewrite !app_nil_r. by destruct cb. }
change (events_of (c :: ops)) with ([event_of c] ++ events_of ops). rewrite app_assoc.
destruct c as [q elapsed|t]; cbn [run_ops event_of].
- destruct Hc as [Hok Hval]. assert (Hoff := offered_nonneg (trades_of ops)).
  change (trades_of (QuoteOp q elapsed :: ops)) with (trades_of ops) in Hpv.
  destruct (follows_quote _ _ _ _ cb evs o m wd q elapsed Hw Hf ltac:(unfold reference in Hpv; lia) Hok Hval)
    as (o1 & m1 & -> & Hf1 & Hos & Htot1).
  fold (reference evs) in *. fold (reference (evs ++ [QuoteEvent q])) in Hos.
  set (r := if trades_on _ _ _ _ then _ else _) in *. clearbody r. cbn [mbind option_bind].
  assert (Hlr : (length (option_list r) ≤ 1)%nat) by (destruct r; cbn; lia). cbn [length] in Hlen.
  destruct (IH _ o1 m1 (deliver cb wd (option_list r)) Hf1) as (os & o2 & m2 & Hrun & Hf2 & Hos2 & Htot2).
  + unfold reference. rewrite trade_all_spec, event_trades_snoc, app_nil_r, <- (trade_all_spec cap (nanos w) sym sd maxSize DEFAULT_COOLDOWN). exact Hpv.
  + rewrite Hos, length_app, Htot1, Htot. destruct r; cbn; [rewrite u64_small; lia|lia].
  + rewrite Hos, length_app. lia.
  + assert (Hwd : deliver cb wd (option_list r) = match cb, r with Some f, Some order => f order wd | _, _ => wd end)
      by by destruct cb, r.
    rewrite <- Hwd, Hrun. cbn [mbind option_bind]. exists (option_list r ++ os), o2, m2.
    rewrite deliver_app, Hos2, Hos, app_assoc. split_and!; try done. by rewrite Htot2, Hos2, Hos, ?app_assoc.
- assert (Hf1 := follows_trade _ _ _ _ evs o m t Hw Hc Hf). assert (Htot1 := processTrade_orders t o m).
  assert (Hos : (reference (evs ++ [TradeEvent t])).1 = (reference evs).1).
  { unfold reference. rewrite trade_all_snoc. destruct (trade_all _ _ _ _ _ _ evs _). cbn. apply app_nil_r. }
  destruct (processTrade cap t (o, m)) as [o1 m1]. cbn [fst] in *.
  assert (Hb := pv_offered cap (nanos w) (spec (reference evs).2) t Hcap (nanos_nonneg w Hw)).
  assert (Hspec := om_spec _ _ _ _ _ _ _ (fo_inv _ _ _ _ _ _ Hf)). rewrite <- (trade_all_spec cap (nanos w) sym sd maxSize DEFAULT_COOLDOWN) in Hspec.
  specialize (Hb Hspec Hc). change (trades_of (TradeOp t :: ops)) with (t :: trades_of ops) in Hpv. rewrite offered_cons in Hpv.
  cbn [length] in Hlen. rewrite <- Hos.
  apply (IH _ o1 m1 wd Hf1); rewrite ?Hos; [|congruence|lia].
  assert (Hspec' : spec (reference (evs ++ [TradeEvent t])).2 = Spec.add cap (nanos w) (spec (reference evs).2) t).
  { unfold reference. rewrite trade_all_snoc. by destruct (trade_all _ _ _ _ _ _ evs _). }
  rewrite Hspec'. lia.
Qed.
End proofs.

(** ** Properties *)

Section properties.
Context {Q : Type} {cap : nat} `{!DequeOps VwapTradeRecord Q} `{!Deque VwapTradeRecord Q cap}
(Hcap : (0 < cap)%nat).
Context (empty : Q) (Hempty : dq_inv empty) (Hnil : dq_list empty = []).
Context {World : Type} (cb : option (OrderMessage → World → World)) (wd : World).
Context (sym : list Z) (sd maxSize w : Z) (Hw : is_u32 w) (o : t Q)
(Hinit : init cap empty sym sd maxSize w = inl o).
Context (ops : list op) (Hops : Forall op_ok ops) (Hfit : offered_pv (trades_of ops) ≤ 2 ^ 51)
(Hcount : Z.of_nat (length ops) < 2 ^ 64).

(** The orders of the reference. *)
Abbreviation reference_orders := (trade_all cap (nanos w) sym sd maxSize DEFAULT_COOLDOWN (events_of ops) Trading_init).1.

Lemma run_from_init m :
∃ o' m', run_ops cap cb ops (o, m, wd) = Some (reference_orders, (o', m', deliver cb wd reference_orders)) ∧
  om_inv (cap := cap) sym sd maxSize w (trades_of ops) reference_orders o' ∧
  totalOrdersSent o' = Z.of_nat (length reference_orders) ∧
  follows (cap := cap) sym sd maxSize w (events_of ops) o'.
Proof using Hcap Hempty Hnil Hw Hinit Hops Hfit Hcount.
assert (Hf := follows_init Hcap sym sd maxSize w empty o Hempty Hnil Hw Hinit).
assert (Htot : totalOrdersSent o = 0)
  by (unfold init in Hinit; repeat (case_match; try done); by injection Hinit as <-).
destruct (run_ops_follows Hcap cb sym sd maxSize w ops [] o m wd Hw Hops Hf) as (os & o' & m' & Hr & Hf' & Hos & Ht);
  [change (0 + offered_pv (trades_of ops) ≤ 2 ^ 51); lia|exact Htot|change (Z.of_nat (length ops) < 2 ^ 64); lia|].
cbn [app] in *. rewrite Hos in Ht. cbn [trade_all foldl fst app] in Hos.
exists o', m'. rewrite Hos. split; [done|]. split; [|done]. rewrite <- event_trades_of, <- Hos. apply (fo_inv _ _ _ _ _ _ Hf').
Qed.

(** C21: the manager trades as the reference does, and never leaves its
  defined behaviour.  Fed any sequence of validated quotes and of trades
  whose total value is below 2^51 cents, every call returns (no conversion
  is undefined); the orders sent are exactly those of the reference, which
  compares prices with the average in exact arithmetic; every order is
  delivered to the callback once and in order, counted, and the history
  shows exactly the last 1000 of them. *)
Theorem manager_runs (m : SystemMetrics) :
∃ o' m', run_ops cap cb ops (o, m, wd) = Some (reference_orders, (o', m', deliver cb wd reference_orders)) ∧
  totalOrdersSent o' = Z.of_nat (length reference_orders) ∧
  record_key <$> getOrderHistory o' =
    drop (length reference_orders - MAX_ORDER_HISTORY) (order_key <$> reference_orders) ∧
  currentState o' ≠ State.ORDER_SENT.
Proof using Hcap Hempty Hnil Hw Hinit Hops Hfit Hcount.
destruct (run_from_init m) as (o' & m' & Hr & Ho & Ht & _). exists o', m'.
split; [done|]. split; [done|]. split; [apply (om_orders _ _ _ _ _ _ _ Ho)|].
apply (om_state _ _ _ _ _ _ _ Ho).
Qed.

(** C5: what an order means.  After any such sequence, a validated quote is
  answered by an order only if the reference's first window is complete
  (when the timestamps are positive: two of the accepted trades lie exactly
  one window apart) and the quoted price is strictly better than the exact
  volume-weighted average of the accepted trades of the last window (as long
  as no trade was overwritten); the order is for the manager's side, at the
  quoted price and time, and for at most the quoted and the configured
  size. *)
Theorem order_beats_average (m : SystemMetrics) (q : QuoteMessage) (elapsed : Z) :
QuoteMessage_ok q → validateQuote q = true →
let final := run cap (nanos w) Spec.init (trades_of ops) in
let accepted := Spec.record <$> taken cap (nanos w) Spec.init (trades_of ops) in
let live := Spec.live (nanos w) (Spec.last final) accepted in
Spec.lostVolume final = 0 →
∃ os s' r s'', run_ops cap cb ops (o, m, wd) = Some (os, s') ∧
  processQuote cb q elapsed s' = Some (r, s'') ∧
  ∀ order, r = Some order →
    Spec.complete final = true ∧
    (Forall (λ t, 0 < Trade.timestamp t) (trades_of ops) →
     ∃ r1 r2, r1 ∈ accepted ∧ r2 ∈ accepted ∧ timestamp r2 = timestamp r1 + nanos w) ∧
    Order.timestamp order = Quote.timestamp q ∧ Order.side order = sd ∧
    Order.quantity order ≤ maxSize ∧
    if sd =? char_B
    then Order.price order = Quote.askPrice q ∧ Order.quantity order ≤ Quote.askQuantity q ∧
         Quote.askPrice q * sum_of quantity live < sum_of priceVolume live
    else Order.price order = Quote.bidPrice q ∧ Order.quantity order ≤ Quote.bidQuantity q ∧
         sum_of priceVolume live < Quote.bidPrice q * sum_of quantity live.
Proof using Hcap Hempty Hnil Hw Hinit Hops Hfit Hcount.
intros Hok Hval final accepted live Hlost. destruct (run_from_init m) as (o' & m' & Hr & Ho & Ht & Hf). set (os := reference_orders) in *.
assert (Htr := trades_of_ok ops Hops). assert (Hpr := run_positive Hcap w (trades_of ops) Hw Htr).
assert (Hpv : Spec.pv final ≤ 2 ^ 51).
{ etransitivity; [|exact Hfit]. apply (pv_run Hcap w (trades_of ops) Hw Htr). }
destruct (processQuote_step Hcap cb _ _ _ _ _ _ o' m' (deliver cb wd os) q elapsed Ho Hpr Hpv Hok Hval)
  as (o2 & m2 & Hq & _).
eexists os, _, _, _. split; [exact Hr|]. split; [exact Hq|].
intros order Horder. case_decide as Hd; [|done]. injection Horder as <-.
assert (Hcomplete : Spec.complete final = true).
{ assert (Hv := verdict_reference Hcap _ _ _ _ _ o' q Hw Hf). rewrite follows_check with (1 := Hf) in Hd.
  rewrite trade_all_spec, event_trades_of in Hv. specialize (Hv Hpv Hok Hval).
  rewrite bool_decide_true in Hv by done. symmetry in Hv. unfold trades_on in Hv.
  rewrite !andb_true_iff, trade_all_spec, event_trades_of in Hv. apply Hv. }
split; [done|]. split.
{ intros Hpos. apply (clocked_run cap (nanos w) [] Spec.init (trades_of ops) Hcap (nanos_nonneg w Hw)
    (spec_init_inv cap) Htr Hpos (clocked_init _) Hlost). exact Hcomplete. }
destruct (trigger_facts Hcap _ _ _ _ _ _ o' q Ho Hw Htr Hpv Hok Hval Hd) as (Hside & Hmax & _ & Hbeats).
destruct (nothing_lost_sums Hcap w _ Hw Htr Hlost) as [HV HP].
fold final live in Hbeats, HV, HP. rewrite HV, HP in Hbeats. set (e := decisionEngine (checkVwapWindowComplete o')) in *. clearbody e.
unfold beats, order_of, buildOrder, calculateOrderSize, relevantQuantity in *.
cbn -[list_inserts seq]. rewrite Hside, Hmax in *.
apply (validateQuote_spec q Hok) in Hval as (_ & _ & Hbp & Hap).
rewrite i32_small by lia. destruct (sd =? char_B); repeat split; try done; lia.
Qed.
End properties.
End OrderManager.

(** ** A concrete session *)

Module Examples.
Import OrderManager.
#[local] Existing Instances VwapCalculator.Examples.small_ops VwapCalculator.Examples.small_deque.
Abbreviation MAX_TRADES := VwapCalculator.Examples.MAX_TRADES.
Abbreviation empty := VwapCalculator.Examples.empty.
Abbreviation trade := VwapCalculator.Examples.trade.
Abbreviation quote := DecisionEngine.Examples.quote.
Abbreviation IBM := DecisionEngine.Examples.IBM.

(** The callback logs the price of every order. *)
Definition log : option (OrderMessage → list Z → list Z) := Some (λ o l, l ++ [Order.price o]).

Definition manager : OrderManager.t VwapWindowBuffer :=
  match init MAX_TRADES empty IBM char_B 150 5 with inl o => o | inr _ => mk [] 0 0 0 State.ORDER_SENT
    (VwapCalculator_init MAX_TRADES empty 5) (DecisionEngine_init [] 0 0 0) 0 0 0 false
    (CircularBuffer.init 1) end.

Definition session : list op :=
  [TradeOp (trade 10 100 14000); QuoteOp (quote 11000000000 13980 13990) 10;
   TradeOp (trade 12 50 14020); TradeOp (trade 15 200 13990); QuoteOp (quote 15500000000 13980 13985) 10].

Lemma session_ok : Forall op_ok session.
Proof. concrete. Defined.
Lemma manager_init : init MAX_TRADES empty IBM char_B 150 5 = inl manager.
Proof. reflexivity. Defined.
Lemma session_fits : offered_pv (trades_of session) ≤ 2 ^ 51.
Proof. vm_compute. discriminate. Defined.

Lemma manager_runs_witness :
  ∃ o' m' orders, run_ops MAX_TRADES log session (manager, SystemMetrics_init, []) = Some (orders, (o', m', [13985])) ∧
    totalOrdersSent o' = 1.
Proof.
  destruct (manager_runs VwapCalculator.Examples.pos empty VwapCalculator.Examples.empty_inv eq_refl log []
    IBM char_B 150 5 VwapCalculator.Examples.five_ok manager manager_init session session_ok session_fits
    ltac:(done) SystemMetrics_init) as (o' & m' & Hr & Ht & _).
  exists o', m'. eexists. split; [rewrite Hr; vm_compute; reflexivity|rewrite Ht; vm_compute; reflexivity].
Defined.

(** Asking 13988 against an average of 13997.1: a second order. *)
Lemma order_beats_average_witness :
  ∃ os s' order s'', run_ops MAX_TRADES log session (manager, SystemMetrics_init, []) = Some (os, s') ∧
    processQuote log (quote 16000000000 13980 13988) 10 s' = Some (Some order, s'') ∧
    Order.price order = 13988 ∧ Order.quantity order ≤ 150 ∧
    (∃ r1 r2, r1 ∈ Spec.record <$> taken MAX_TRADES (nanos 5) Spec.init (trades_of session) ∧
              r2 ∈ Spec.record <$> taken MAX_TRADES (nanos 5) Spec.init (trades_of session) ∧
              timestamp r2 = timestamp r1 + nanos 5).
Proof.
  destruct (order_beats_average VwapCalculator.Examples.pos empty VwapCalculator.Examples.empty_inv eq_refl log []
    IBM char_B 150 5 VwapCalculator.Examples.five_ok manager manager_init session session_ok session_fits
    ltac:(done) SystemMetrics_init (quote 16000000000 13980 13988) 10 ltac:(concrete) ltac:(reflexivity)
    ltac:(vm_compute; reflexivity)) as (os & s' & r & s'' & Hr & Hq & Hord).
  assert (Hsome : match run_ops MAX_TRADES log session (manager, SystemMetrics_init, []) with
    | Some (_, s') => match processQuote log (quote 16000000000 13980 13988) 10 s' with
                      | Some (Some _, _) => true | _ => false end
    | None => false end = true) by (vm_compute; reflexivity).
  rewrite Hr, Hq in Hsome. destruct r as [order|]; [|discriminate].
  destruct (Hord order eq_refl) as (_ & Hpair & _ & _ & Hsize & Hprice & _).
  exists os, s', order, s''. split; [exact Hr|]. split; [exact Hq|]. split; [exact Hprice|]. split; [exact Hsize|].
  apply Hpair. concrete.
Defined.

(** The quote before the window is complete gets no order, the one after
    it does. *)
Example session_orders :
  match run_ops MAX_TRADES log session (manager, SystemMetrics_init, []) with
  | Some (os, (o, _, w)) => map Order.price os = [13985] ∧ totalOrdersSent o = 1 ∧ w = [13985]
  | None => False
  end.
Proof. vm_compute. done. Qed.
End Examples.
