(* ===== verification/TcpClient.v ===== *)
(** * The TCP client ([include/tcp_client.h], [src/tcp_client.cpp])

    The connection state machine shared by the market-data and the order
    client.  The operating system is a parameter: each operation takes the
    answers of the system calls it makes, and the thread's [errno], which a
    failing call overwrites and a successful one leaves alone.  The clock and
    the random jitter are arguments too. *)
From S2P Require Import Prelude Metrics.

Inductive Errno :=
| EAGAIN | EWOULDBLOCK | EINTR | EPIPE | ECONNRESET | ECONNREFUSED | ETIMEDOUT | EINPROGRESS
| EOTHER (code : Z).
#[export] Instance Errno_eq_dec : EqDecision Errno.
Proof. solve_decision. Defined.
Abbreviation is_errno e x := (bool_decide (e = x)).

(** What a system call returns: a non-negative value, or -1 with [errno].
    [errno] is tracked through the calls whose failure the code inspects
    ([connect], [select], [getsockopt], [send], [recv]); after a failing
    [socket], [setsockopt], [fcntl] or [inet_pton] it is not read before the
    next of those. *)
Inductive answer := Ret (n : Z) | Fail (e : Errno).
#[export] Instance answer_eq_dec : EqDecision answer.
Proof. solve_decision. Defined.

Definition result (a : answer) : Z := match a with Ret n => n | Fail _ => -1 end.
Definition errno_after (a : answer) (err : Errno) : Errno :=
  match a with Ret _ => err | Fail e => e end.

Inductive ConnectionState := DISCONNECTED | CONNECTING | CONNECTED | ERROR_STATE.
#[export] Instance ConnectionState_eq_dec : EqDecision ConnectionState.
Proof. solve_decision. Defined.

Inductive ErrorType :=
| NONE | CONNECTION_REFUSED | CONNECTION_TIMEOUT | CONNECTION_LOST | SEND_FAILED | RECEIVE_FAILED
| INVALID_ADDRESS.
#[export] Instance ErrorType_eq_dec : EqDecision ErrorType.
Proof. solve_decision. Defined.

Definition INITIAL_BACKOFF_MS : Z := 1000.
Definition MAX_BACKOFF_MS : Z := 30000.
Definition MAX_RECONNECT_ATTEMPTS : Z := 10.

Record TcpClient := mkClient {
  socketFd : Z; state : ConnectionState; lastError : ErrorType;
  reconnectAttempts : Z; lastConnectAttempt : Z; currentBackoffMs : Z;
  bytesReceived : Z; bytesSent : Z; messagesReceived : Z; messagesSent : Z
}.
#[global] Instance eta_TcpClient : Settable TcpClient := fun r =>
  mkClient (socketFd r) (state r) (lastError r) (reconnectAttempts r) (lastConnectAttempt r)
    (currentBackoffMs r) (bytesReceived r) (bytesSent r) (messagesReceived r) (messagesSent r).

Definition TcpClient_init : TcpClient :=
  mkClient (-1) DISCONNECTED NONE 0 0 INITIAL_BACKOFF_MS 0 0 0 0.

(** [SocketHandle.operator bool], [reset] and [close]. *)
Definition has_socket (c : TcpClient) : bool := 0 <=? socketFd c.
Definition close_socket (c : TcpClient) : TcpClient :=
  if 0 <=? socketFd c then c <| socketFd := -1 |> else c.
Definition reset_socket (f : Z) (c : TcpClient) : TcpClient := close_socket c <| socketFd := f |>.

(** The answers one connection attempt may consume. *)
Record ConnectEnv := mkConnectEnv {
  env_socket : answer;
  env_reuseaddr : answer; env_rcvbuf : answer; env_sndbuf : answer; env_nodelay : answer;
  env_pton : Z;
  env_getfl : answer; env_setfl : answer;
  env_connect : list answer;
  env_select : list answer;
  env_getsockopt : answer; env_so_error : Z
}.

(** [do { r = call(); } while (r < 0 && errno == EINTR)]; [None] when the
    given answers are all interruptions. *)
Fixpoint retry_eintr (answers : list answer) (err : Errno) : option (Z * Errno) :=
  match answers with
  | [] => None
  | a :: answers =>
      let err := errno_after a err in
      if (result a <? 0) && is_errno err EINTR then retry_eintr answers err
      else Some (result a, err)
  end.

Definition setSocketOptions (env : ConnectEnv) : bool :=
  if result (env_reuseaddr env) <? 0 then false else
  if result (env_rcvbuf env) <? 0 then false else
  if result (env_sndbuf env) <? 0 then false else
  if result (env_nodelay env) <? 0 then false else true.

Definition createSocket (env : ConnectEnv) (c : TcpClient) : bool * TcpClient :=
  let fd := result (env_socket env) in
  if fd <? 0 then (false, c <| lastError := INVALID_ADDRESS |>)
  else (setSocketOptions env, reset_socket fd c).

Definition setNonBlocking (env : ConnectEnv) : bool :=
  let flags := result (env_getfl env) in
  if flags <? 0 then false else 0 <=? result (env_setfl env).

Definition resolveAddress (env : ConnectEnv) (c : TcpClient) : bool * TcpClient :=
  if env_pton env <=? 0 then (false, c <| lastError := INVALID_ADDRESS |>) else (true, c).

Definition handleConnectError (err : Errno) (c : TcpClient) : TcpClient :=
  let c :=
    if is_errno err ECONNREFUSED then c <| lastError := CONNECTION_REFUSED |>
    else if is_errno err ETIMEDOUT then c <| lastError := CONNECTION_TIMEOUT |>
    else c <| lastError := CONNECTION_LOST |> in
  c <| state := ERROR_STATE |>.

Definition connected (c : TcpClient) : TcpClient :=
  c <| state := CONNECTED |> <| reconnectAttempts := 0 |>
    <| currentBackoffMs := INITIAL_BACKOFF_MS |> <| lastError := NONE |>.

Definition connectWithTimeout (env : ConnectEnv) (err : Errno) (c : TcpClient)
  : option (bool * TcpClient * Errno) :=
  '(result_, err) ← retry_eintr (env_select env) err;
  if result_ >? 0 then
    let r := result (env_getsockopt env) in
    let err := errno_after (env_getsockopt env) err in
    if (r <? 0) || negb (env_so_error env =? 0)
    then Some (false, handleConnectError err c, err)
    else Some (true, connected c, err)
  else Some (false, c <| lastError := CONNECTION_TIMEOUT |> <| state := ERROR_STATE |>, err).

Definition connect (env : ConnectEnv) (err : Errno) (c : TcpClient)
  : option (bool * TcpClient * Errno) :=
  if bool_decide (state c = CONNECTED) then Some (true, c, err) else
  let '(ok, c) := if has_socket c then (true, c) else createSocket env c in
  if negb ok then Some (false, c, err) else
  let '(ok, c) := resolveAddress env c in
  if negb ok then Some (false, c, err) else
  if negb (setNonBlocking env) then Some (false, c, err) else
  let c := c <| state := CONNECTING |> in
  '(result_, err) ← retry_eintr (env_connect env) err;
  if result_ =? 0 then Some (true, connected c, err) else
  if is_errno err EINPROGRESS then connectWithTimeout env err c
  else Some (false, handleConnectError err c, err).

(** [jitter] is the draw of the uniform distribution on [0 .. backoff / 5]. *)
Definition calculateBackoff (jitter : Z) (c : TcpClient) : TcpClient :=
  let backoff := u32 (currentBackoffMs c * 2) in
  let backoff := u32 (backoff + jitter) in
  let backoff := if backoff >? MAX_BACKOFF_MS then MAX_BACKOFF_MS else backoff in
  c <| currentBackoffMs := backoff |>.

Definition reconnect (env : ConnectEnv) (nowMs jitter : Z) (err : Errno) (c : TcpClient)
  : option (bool * TcpClient * Errno) :=
  if bool_decide (state c = CONNECTED) then Some (true, c, err) else
  if reconnectAttempts c >=? MAX_RECONNECT_ATTEMPTS then Some (false, c, err) else
  if (lastConnectAttempt c >? 0) && (u64 (nowMs - lastConnectAttempt c) <? currentBackoffMs c)
  then Some (false, c, err) else
  let c := if has_socket c then reset_socket (-1) c else c in
  let c := c <| lastConnectAttempt := nowMs |> <| reconnectAttempts ::= λ n, u32 (n + 1) |> in
  '(ok, c, err) ← connect env err c;
  if (ok : bool) then Some (true, c, err) else Some (false, calculateBackoff jitter c, err).

Definition disconnect (c : TcpClient) : TcpClient := reset_socket (-1) c <| state := DISCONNECTED |>.
Definition isConnected (c : TcpClient) : bool := bool_decide (state c = CONNECTED).

(** [send] and [receive]: the returned value, the client, the metrics and
    [errno].  A client that is not connected makes no call and leaves
    [errno] stale. *)
Definition would_block (err : Errno) : bool := is_errno err EAGAIN || is_errno err EWOULDBLOCK.

Definition send (a : answer) (err : Errno) (s : TcpClient * SystemMetrics)
  : Z * (TcpClient * SystemMetrics) * Errno :=
  let '(c, m) := s in
  if negb (isConnected c) then (-1, (c, m), err) else
  let sent := result a in
  let err := errno_after a err in
  if sent >? 0 then
    (sent, (c <| bytesSent ::= λ n, u64 (n + sent) |> <| messagesSent ::= λ n, u64 (n + 1) |>,
            incMessagesSent (addBytesSent sent m)), err)
  else if (sent <? 0) && negb (would_block err) then
    (sent, (c <| lastError := SEND_FAILED |> <| state := ERROR_STATE |>, m), err)
  else (sent, (c, m), err).

Definition receive (a : answer) (err : Errno) (s : TcpClient * SystemMetrics)
  : Z * (TcpClient * SystemMetrics) * Errno :=
  let '(c, m) := s in
  if negb (isConnected c) then (-1, (c, m), err) else
  let received := result a in
  let err := errno_after a err in
  if received >? 0 then
    (received, (c <| bytesReceived ::= λ n, u64 (n + received) |>, addBytesReceived received m), err)
  else if received =? 0 then
    (received, (c <| lastError := CONNECTION_LOST |> <| state := ERROR_STATE |>, m), err)
  else if negb (would_block err) then
    (received, (c <| lastError := RECEIVE_FAILED |> <| state := ERROR_STATE |>, m), err)
  else (received, (c, m), err).

Definition mapErrno (e : Errno) (def : ErrorType) : ErrorType :=
  match e with
  | ECONNREFUSED => CONNECTION_REFUSED
  | ETIMEDOUT => CONNECTION_TIMEOUT
  | EPIPE | ECONNRESET => CONNECTION_LOST
  | _ => def
  end.

(** ** The state machine *)

Record tcp_inv (c : TcpClient) : Prop := {
  ti_backoff : INITIAL_BACKOFF_MS ≤ currentBackoffMs c ≤ MAX_BACKOFF_MS;
  ti_attempts : 0 ≤ reconnectAttempts c ≤ MAX_RECONNECT_ATTEMPTS;
  ti_state : state c ≠ CONNECTING;
  ti_socket : state c = CONNECTED → has_socket c = true
}.

Lemma init_tcp_inv : tcp_inv TcpClient_init.
Proof. constructor; cbn; done || (unfold INITIAL_BACKOFF_MS, MAX_BACKOFF_MS, MAX_RECONNECT_ATTEMPTS; lia). Qed.

Lemma retry_eintr_some answers err :
  Exists (λ a, a ≠ Fail EINTR ∧ ∀ n, a = Ret n → 0 ≤ n) answers → is_Some (retry_eintr answers err).
Proof.
  intros H. revert err. induction H as [a l [Hne Hn]|a l H IH]; intros err; cbn.
  - branch as E; [|by eexists]. apply andb_true_iff in E as [E1 E2].
    apply Z.ltb_lt in E1. apply bool_decide_eq_true in E2. destruct a; cbn in *; [|congruence].
    specialize (Hn n eq_refl). lia.
  - branch; [apply IH|by eexists].
Qed.

(** What changes between two states of one connection attempt. *)
Lemma connected_inv c : has_socket c = true → tcp_inv (connected c) ∧ state (connected c) = CONNECTED.
Proof.
  intros Hs. split; [|done].
  constructor; cbn; done || (unfold INITIAL_BACKOFF_MS, MAX_BACKOFF_MS, MAX_RECONNECT_ATTEMPTS; lia).
Qed.

Lemma failed_inv c e :
  INITIAL_BACKOFF_MS ≤ currentBackoffMs c ≤ MAX_BACKOFF_MS →
  0 ≤ reconnectAttempts c ≤ MAX_RECONNECT_ATTEMPTS →
  tcp_inv (c <| lastError := e |> <| state := ERROR_STATE |>).
Proof. intros. by constructor. Qed.

Lemma handleConnectError_shape err c :
  ∃ e, handleConnectError err c = c <| lastError := e |> <| state := ERROR_STATE |>.
Proof. unfold handleConnectError. destruct (is_errno _ _); [by eexists|]. destruct (is_errno _ _); by eexists. Qed.

(** How a failed attempt leaves the client. *)
Definition keeps_backoff (c c' : TcpClient) : Prop :=
  reconnectAttempts c' = reconnectAttempts c ∧ currentBackoffMs c' = currentBackoffMs c ∧
  lastConnectAttempt c' = lastConnectAttempt c.

(** The three ways a connection attempt ends: before the call (socket,
    address or flags), connected, or failed. *)
Inductive attempt (c : TcpClient) : bool → TcpClient → Prop :=
| at_early c' : keeps_backoff c c' → state c' = state c → attempt c false c'
| at_connected c' : has_socket c' = true → attempt c true (connected c')
| at_failed c' e : keeps_backoff c c' → attempt c false (c' <| lastError := e |> <| state := ERROR_STATE |>).

Lemma createSocket_spec env c :
  let '(ok, c') := createSocket env c in
  keeps_backoff c c' ∧ state c' = state c ∧ (ok = true → has_socket c' = true).
Proof.
  unfold createSocket, reset_socket, close_socket, has_socket. branch; [done|].
  destruct (0 <=? socketFd c); cbn; (split; [done|]; split; [done|]; intros _; apply Z.leb_le; lia).
Qed.

Lemma resolveAddress_spec env c :
  let '(ok, c') := resolveAddress env c in
  keeps_backoff c c' ∧ state c' = state c ∧ has_socket c' = has_socket c.
Proof. unfold resolveAddress. by branch. Qed.

Lemma keeps_trans c1 c2 c3 : keeps_backoff c1 c2 → keeps_backoff c2 c3 → keeps_backoff c1 c3.
Proof. unfold keeps_backoff. intuition congruence. Qed.

Lemma connectWithTimeout_attempt env err c0 c ok c' err' :
  keeps_backoff c0 c → has_socket c = true →
  connectWithTimeout env err c = Some (ok, c', err') → attempt c0 ok c'.
Proof.
  intros Hk Hs. unfold connectWithTimeout.
  destruct (retry_eintr (env_select env) err) as [[r e]|]; [|done]. cbn [mbind option_bind].
  branch; [|intros [= <- <- <-]; exact (at_failed c0 c CONNECTION_TIMEOUT Hk)].
  branch; [|intros [= <- <- <-]; by apply at_connected].
  destruct (handleConnectError_shape (errno_after (env_getsockopt env) e) c) as [e' ->].
  intros [= <- <- <-]. exact (at_failed c0 c e' Hk).
Qed.

Lemma connect_attempt env err c ok c' err' :
  state c ≠ CONNECTED → connect env err c = Some (ok, c', err') → attempt c ok c'.
Proof.
  intros Hne. unfold connect. rewrite bool_decide_false by done.
  assert (H1 : let '(ok1, c1) := if has_socket c then (true, c) else createSocket env c in
            keeps_backoff c c1 ∧ state c1 = state c ∧ (ok1 = true → has_socket c1 = true)).
  { destruct (has_socket c) eqn:E; [done|]. apply createSocket_spec. }
  destruct (if has_socket c then (true, c) else createSocket env c) as [ok1 c1].
  destruct H1 as (Hk1 & Hs1 & Hh1). destruct ok1; cbn [negb]; [|intros [= <- <- <-]; by apply at_early].
  specialize (Hh1 eq_refl). assert (H2 := resolveAddress_spec env c1).
  destruct (resolveAddress env c1) as [ok2 c2]. destruct H2 as (Hk2 & Hs2 & Hh2).
  assert (Hk : keeps_backoff c c2) by by eapply keeps_trans.
  destruct ok2; cbn [negb]; [|intros [= <- <- <-]; apply at_early; [done|congruence]].
  destruct (setNonBlocking env); cbn [negb]; [|intros [= <- <- <-]; apply at_early; [done|congruence]].
  destruct (retry_eintr (env_connect env) err) as [[r e]|]; [|done]. cbn [mbind option_bind].
  assert (Hh : has_socket (c2 <| state := CONNECTING |>) = true).
  { change (has_socket c2 = true). congruence. }
  branch; [intros [= <- <- <-]; by apply at_connected|].
  destruct (is_errno e EINPROGRESS); [by apply connectWithTimeout_attempt|].
  destruct (handleConnectError_shape e (c2 <| state := CONNECTING |>)) as [e' ->].
  intros [= <- <- <-]. exact (at_failed c (c2 <| state := CONNECTING |>) e' Hk).
Qed.

(** Some call of every interrupted system call goes through. *)
Definition settles (env : ConnectEnv) : Prop :=
  ∀ l, l = env_connect env ∨ l = env_select env →
    Exists (λ a, a ≠ Fail EINTR ∧ ∀ n, a = Ret n → 0 ≤ n) l.

Lemma connect_total env err c :
  settles env →
  is_Some (connect env err c).
Proof.
  intros Hl. unfold connect. case_bool_decide; [by eexists|].
  destruct (if has_socket c then _ else _) as [[] c1]; cbn [negb]; [|by eexists].
  destruct (resolveAddress env c1) as [[] c2]; cbn [negb]; [|by eexists].
  destruct (setNonBlocking env); cbn [negb]; [|by eexists].
  destruct (retry_eintr_some (env_connect env) err) as [[r e] ->]; [by apply Hl; left|].
  cbn [mbind option_bind]. branch; [by eexists|]. destruct (is_errno e EINPROGRESS); [|by eexists].
  unfold connectWithTimeout.
  destruct (retry_eintr_some (env_select env) e) as [[r' e'] ->]; [by apply Hl; right|].
  cbn [mbind option_bind]. branch; [|by eexists]. branch; by eexists.
Qed.

Lemma attempt_inv c ok c' :
  tcp_inv c → state c ≠ CONNECTED → attempt c ok c' →
  tcp_inv c' ∧ (ok = true ↔ state c' = CONNECTED) ∧ (ok = false → keeps_backoff c c') ∧
  (ok = true → currentBackoffMs c' = INITIAL_BACKOFF_MS ∧ reconnectAttempts c' = 0).
Proof.
  intros [Hb Ha Hs _] Hne [c1 Hk Hst|c1 Hh|c1 e Hk].
  - destruct (Hk) as (E1 & E2 & _). split; [|split; [|done]].
    + constructor; rewrite ?E1, ?E2, ?Hst; done.
    + rewrite Hst. done.
  - destruct (connected_inv c1 Hh) as [Hi Hc]. done.
  - destruct (Hk) as (E1 & E2 & _). split; [|done]. apply failed_inv; congruence.
Qed.

(** C22: the connection state machine.  From any state the invariant allows
    (in particular the initial one), [connect] answers true exactly when the
    client ends in [CONNECTED], never leaves it in [CONNECTING], resets the
    attempt counter and the backoff on success, and on failure leaves both as
    they were.  When the answers of the interruptible calls are not all
    [EINTR], it does answer. *)
Theorem connect_state_machine (env : ConnectEnv) (err : Errno) (c : TcpClient) :
  tcp_inv c →
  settles env →
  ∃ ok c' err', connect env err c = Some (ok, c', err') ∧ tcp_inv c' ∧
    (ok = true ↔ state c' = CONNECTED) ∧
    (ok = false → keeps_backoff c c') ∧
    (ok = true → c' = c ∨ currentBackoffMs c' = INITIAL_BACKOFF_MS ∧ reconnectAttempts c' = 0).
Proof.
  intros Hinv Hl. destruct (connect_total env err c Hl) as ([[ok c'] err'] & Hc).
  exists ok, c', err'. split; [done|].
  destruct (decide (state c = CONNECTED)) as [Hconn|Hne].
  - unfold connect in Hc. rewrite bool_decide_true in Hc by done. injection Hc as <- <- <-.
    split; [done|]. split; [done|]. split; [done|]. by left.
  - destruct (attempt_inv c ok c' Hinv Hne (connect_attempt _ _ _ _ _ _ Hne Hc)) as (H1 & H2 & H3 & H4).
    split; [done|]. split; [done|]. split; [done|]. intros Hok. right. by apply H4.
Qed.

(** ** Reconnection *)

Lemma reset_fields f c :
  keeps_backoff c (reset_socket f c) ∧ state (reset_socket f c) = state c.
Proof. unfold reset_socket, close_socket. by destruct (0 <=? socketFd c). Qed.

Lemma calculateBackoff_spec jitter c :
  INITIAL_BACKOFF_MS ≤ currentBackoffMs c ≤ MAX_BACKOFF_MS →
  0 ≤ jitter ≤ 2 * currentBackoffMs c / 5 →
  currentBackoffMs (calculateBackoff jitter c) = Z.min MAX_BACKOFF_MS (2 * currentBackoffMs c + jitter).
Proof.
  unfold INITIAL_BACKOFF_MS, MAX_BACKOFF_MS. intros Hb Hj.
  assert (Hj' : jitter ≤ 12000) by (etransitivity; [apply Hj|]; apply Z.div_le_upper_bound; lia).
  unfold calculateBackoff, MAX_BACKOFF_MS. cbn. rewrite !u32_small by (rewrite ?u32_small; lia).
  rewrite Z.gtb_ltb. branch; lia.
Qed.

(** When [reconnect] really tries. *)
Definition tries (nowMs : Z) (c : TcpClient) : bool :=
  negb (bool_decide (state c = CONNECTED)) && (reconnectAttempts c <? MAX_RECONNECT_ATTEMPTS) &&
  negb ((lastConnectAttempt c >? 0) && (u64 (nowMs - lastConnectAttempt c) <? currentBackoffMs c)).

Lemma reconnect_idle env nowMs jitter err c :
  tries nowMs c = false → reconnect env nowMs jitter err c = Some (bool_decide (state c = CONNECTED), c, err).
Proof.
  unfold tries, reconnect. case_bool_decide; [done|]. cbn [negb andb]. rewrite Z.geb_leb, Z.leb_antisym.
  destruct (reconnectAttempts c <? MAX_RECONNECT_ATTEMPTS); cbn [negb andb]; [|done].
  intros Hw. apply negb_false_iff in Hw. by rewrite Hw.
Qed.

(** A real attempt is a [connect] of a client whose socket is closed and whose
    counter and clock have moved. *)
Lemma reconnect_connects env nowMs jitter err c :
  tcp_inv c → tries nowMs c = true →
  ∃ c2, tcp_inv c2 ∧ state c2 ≠ CONNECTED ∧ reconnectAttempts c2 = reconnectAttempts c + 1 ∧
    currentBackoffMs c2 = currentBackoffMs c ∧ lastConnectAttempt c2 = nowMs ∧
    reconnect env nowMs jitter err c =
      '(ok, c, err) ← connect env err c2;
      if (ok : bool) then Some (true, c, err) else Some (false, calculateBackoff jitter c, err).
Proof.
  intros [Hb Ha Hs Hsk] Ht. unfold tries in Ht. unfold reconnect.
  case_bool_decide as Hne; [done|]. cbn [negb andb] in Ht.
  apply andb_true_iff in Ht as [Hlt Hw]. apply Z.ltb_lt in Hlt. apply negb_true_iff in Hw.
  rewrite Z.geb_leb, Hw. destruct (Z.leb_spec MAX_RECONNECT_ATTEMPTS (reconnectAttempts c)); [lia|].
  set (c1 := if has_socket c then reset_socket (-1) c else c).
  assert (H1 : keeps_backoff c c1 ∧ state c1 = state c) 
    by (unfold c1; destruct (has_socket c); [apply reset_fields|done]).
  destruct H1 as ((E1 & E2 & _) & Es). clearbody c1.
  set (c2 := c1 <| lastConnectAttempt := nowMs |> <| reconnectAttempts ::= λ n, u32 (n + 1) |>).
  assert (Hat : reconnectAttempts c2 = reconnectAttempts c + 1).
  { unfold c2. cbn. rewrite E1. unfold MAX_RECONNECT_ATTEMPTS in *. apply u32_small. lia. }
  exists c2. split; [|split; [unfold c2; cbn; congruence|by repeat split]].
  constructor; cbn -[reconnectAttempts]; rewrite ?E2, ?Es; try done. lia.
Qed.

(** One real attempt: a failure doubles the delay, a success resets it. *)
Lemma reconnect_attempt env nowMs jitter err c ok c' err' :
  tcp_inv c → tries nowMs c = true → 0 ≤ jitter ≤ 2 * currentBackoffMs c / 5 →
  reconnect env nowMs jitter err c = Some (ok, c', err') →
  tcp_inv c' ∧ (ok = true ↔ state c' = CONNECTED) ∧
  (ok = true → currentBackoffMs c' = INITIAL_BACKOFF_MS ∧ reconnectAttempts c' = 0) ∧
  (ok = false → reconnectAttempts c' = reconnectAttempts c + 1 ∧ lastConnectAttempt c' = nowMs ∧
                currentBackoffMs c' = Z.min MAX_BACKOFF_MS (2 * currentBackoffMs c + jitter)).
Proof.
  intros Hinv Ht Hj.
  destruct (reconnect_connects env nowMs jitter err c Hinv Ht) as (c2 & Hi2 & Hne & Hat & Hb & Hl & ->).
  assert (Hb0 := ti_backoff c Hinv).
  destruct (connect env err c2) as [[[ok2 c3] err2]|] eqn:Hc; [|done]. cbn [mbind option_bind].
  destruct (attempt_inv c2 ok2 c3 Hi2 Hne (connect_attempt _ _ _ _ _ _ Hne Hc)) as (Hi3 & Hiff & Hkeep & Hok).
  destruct ok2; intros [= <- <- <-]; [done|].
  destruct (Hkeep eq_refl) as (K1 & K2 & K3).
  assert (Hcb : currentBackoffMs c3 = currentBackoffMs c) by congruence.
  assert (Hback := calculateBackoff_spec jitter c3 ltac:(by rewrite Hcb) ltac:(by rewrite Hcb)).
  rewrite Hcb in Hback. split; [|split; [done|split; [done|]]].
  - destruct Hi3. constructor; try done. rewrite Hback.
    unfold INITIAL_BACKOFF_MS, MAX_BACKOFF_MS in *. lia.
  - intros _. split; [cbn; congruence|]. split; [cbn; congruence|exact Hback].
Qed.

(** Whatever the network answers, [reconnect] returns and keeps the
    invariant. *)
Lemma reconnect_safe env nowMs jitter err c :
  tcp_inv c → settles env → 0 ≤ jitter ≤ 2 * MAX_BACKOFF_MS / 5 →
  ∃ ok c' err', reconnect env nowMs jitter err c = Some (ok, c', err') ∧ tcp_inv c' ∧
    (ok = true ↔ state c' = CONNECTED).
Proof.
  intros Hinv Hset Hj. destruct (tries nowMs c) eqn:Ht.
  2: { exists (bool_decide (state c = CONNECTED)), c, err. rewrite reconnect_idle by done.
       split; [done|]. split; [done|]. apply bool_decide_eq_true. }
  destruct (reconnect_connects env nowMs jitter err c Hinv Ht) as (c2 & Hi2 & Hne & _ & _ & _ & ->).
  destruct (connect_total env err c2 Hset) as [[[ok2 c3] err2] Hc]. rewrite Hc. cbn [mbind option_bind].
  destruct (attempt_inv c2 ok2 c3 Hi2 Hne (connect_attempt _ _ _ _ _ _ Hne Hc)) as (Hi3 & Hiff & _ & _).
  destruct ok2; [by exists true, c3, err2|]. exists false, (calculateBackoff jitter c3), err2.
  split; [done|]. split; [|done]. destruct Hi3 as [Hb3 Ha3 Hs3 Hk3]. constructor; try done.
  unfold calculateBackoff, INITIAL_BACKOFF_MS, MAX_BACKOFF_MS in *. cbn. change (2 * 30000 / 5) with 12000 in Hj.
  rewrite !u32_small by (rewrite ?u32_small; lia). rewrite Z.gtb_ltb. branch; lia.
Qed.

(** ** Sequences of calls *)

Definition call : Type := ConnectEnv * Z * Z.

(** [reconnect] called over and over, as the network manager does; the result
    lists the answers. *)
Fixpoint reconnect_all (calls : list call) (err : Errno) (c : TcpClient)
  : option (list bool * TcpClient * Errno) :=
  match calls with
  | [] => Some ([], c, err)
  | (env, nowMs, jitter) :: calls =>
      '(ok, c, err) ← reconnect env nowMs jitter err c;
      '(oks, c, err) ← reconnect_all calls err c;
      Some (ok :: oks, c, err)
  end.

(** the client gives up for good.  Once ten attempts have failed, every
    further [reconnect] answers false without a single system call and leaves
    the client unchanged, whatever the network would answer: only a
    successful [connect] resets the counter, and [reconnect] no longer calls
    it. *)
Theorem reconnect_gives_up (calls : list call) (err : Errno) (c : TcpClient) :
  state c ≠ CONNECTED → reconnectAttempts c = MAX_RECONNECT_ATTEMPTS →
  reconnect_all calls err c = Some (replicate (length calls) false, c, err).
Proof.
  intros Hne Ha. induction calls as [|[[env nowMs] jitter] calls IH]; [done|].
  cbn [reconnect_all]. rewrite reconnect_idle.
  - rewrite bool_decide_false by done. cbn [mbind option_bind]. by rewrite IH.
  - unfold tries. rewrite Ha. destruct (bool_decide _); done.
Qed.

(** A refusal: the connect call fails at once. *)
Definition refused : ConnectEnv :=
  mkConnectEnv (Ret 3) (Ret 0) (Ret 0) (Ret 0) (Ret 0) 1 (Ret 0) (Ret 0)
    [Fail ECONNREFUSED] [Ret 0] (Ret 0) 0.
(** [n] consecutive attempts that failed. *)
Inductive failing : TcpClient → nat → TcpClient → Prop :=
| failing_none c : failing c 0 c
| failing_more c env nowMs jitter err c1 err1 n c2 :
    tries nowMs c = true → 0 ≤ jitter ≤ 2 * currentBackoffMs c / 5 →
    reconnect env nowMs jitter err c = Some (false, c1, err1) →
    failing c1 n c2 → failing c (S n) c2.


(** a refused asynchronous connect is misreported.  When the connection is
    made in the background ([EINPROGRESS]) and [SO_ERROR] reports a failure,
    [lastError] becomes [CONNECTION_LOST] whatever the failure was: the code
    classifies [errno], which still holds [EINPROGRESS], and not [SO_ERROR]. *)
Theorem async_failure_misreported (env : ConnectEnv) (err : Errno) (c : TcpClient) (n : Z) :
  state c ≠ CONNECTED → has_socket c = true → 0 < env_pton env → setNonBlocking env = true →
  env_connect env = [Fail EINPROGRESS] → env_select env = [Ret n] → 0 < n →
  env_getsockopt env = Ret 0 → env_so_error env ≠ 0 →
  ∃ c', connect env err c = Some (false, c', EINPROGRESS) ∧
    lastError c' = CONNECTION_LOST ∧ state c' = ERROR_STATE.
Proof.
  intros Hne Hs Hp Hnb Hc Hsel Hn Hg Hso. unfold connect. rewrite bool_decide_false, Hs by done.
  cbn [negb]. unfold resolveAddress. destruct (Z.leb_spec (env_pton env) 0); [lia|]. cbn [negb].
  rewrite Hnb, Hc. cbn [negb retry_eintr result errno_after].
  replace ((-1 <? 0) && is_errno EINPROGRESS EINTR) with false by done. cbn [mbind option_bind].
  replace (-1 =? 0) with false by done. replace (is_errno EINPROGRESS EINPROGRESS) with true by done.
  unfold connectWithTimeout. rewrite Hsel, Hg. cbn [retry_eintr result errno_after].
  destruct (Z.ltb_spec n 0); [lia|]. cbn [andb mbind option_bind]. rewrite Z.gtb_ltb.
  destruct (Z.ltb_spec 0 n); [|lia]. destruct (Z.eqb_spec (env_so_error env) 0); [done|].
  cbn [negb orb Z.ltb Z.compare]. eexists. split; [reflexivity|]. done.
Qed.

(** ** Sending and receiving *)

Lemma failed_transfer_inv c e : tcp_inv c → tcp_inv (c <| lastError := e |> <| state := ERROR_STATE |>).
Proof. intros []. by apply failed_inv. Qed.

Lemma send_inv a err c m : tcp_inv c → tcp_inv (send a err (c, m)).1.2.1.
Proof.
  intros Hi. unfold send. branch as E1; [done|]. branch as E2; [by destruct Hi|].
  branch as E3; [by apply failed_transfer_inv|done].
Qed.

Lemma receive_inv a err c m : tcp_inv c → tcp_inv (receive a err (c, m)).1.2.1.
Proof.
  intros Hi. unfold receive. branch as E1; [done|]. branch as E2; [by destruct Hi|].
  branch as E3; [by apply failed_transfer_inv|]. branch as E4; [by apply failed_transfer_inv|done].
Qed.

Lemma disconnect_inv c : tcp_inv c → tcp_inv (disconnect c).
Proof.
  intros []. unfold disconnect. destruct (reset_fields (-1) c) as [(H1 & H2 & _) _].
  constructor; cbn [currentBackoffMs reconnectAttempts state set] in *; congruence.
Qed.

(** ** Transfers

    A connected client makes any sequence of [send] and [receive] calls. *)

Inductive io := SendCall (a : answer) | ReceiveCall (a : answer).

Definition io_answer (call : io) : answer := match call with SendCall a | ReceiveCall a => a end.

(** System calls answer with a count or fail. *)
Definition io_ok (call : io) : Prop := ∀ n, io_answer call = Ret n → 0 ≤ n.
#[export] Instance io_ok_dec call : Decision (io_ok call).
Proof.
  destruct call as [[n|e]|[n|e]]; (destruct (decide (0 ≤ n)) || idtac);
    try (left; intros k Hk; cbn in Hk; congruence); right; intros H; by apply n0, H.
Defined.

Definition transfer (call : io) (err : Errno) (s : TcpClient * SystemMetrics)
  : Z * (TcpClient * SystemMetrics) * Errno :=
  match call with SendCall a => send a err s | ReceiveCall a => receive a err s end.

Fixpoint transfers (calls : list io) (err : Errno) (s : TcpClient * SystemMetrics)
  : list Z * (TcpClient * SystemMetrics) * Errno :=
  match calls with
  | [] => ([], s, err)
  | call :: calls =>
      let '(n, s, err) := transfer call err s in
      let '(ns, s, err) := transfers calls err s in (n :: ns, s, err)
  end.

(** The calls that end a connection, and the error they are reported as: a
    failure other than a full or an empty socket buffer, and a [recv] of 0
    bytes, which is the peer's end of stream.  A [send] of 0 bytes is not
    among them. *)
Definition fatal (call : io) : option ErrorType :=
  match call with
  | SendCall (Fail e) => if would_block e then None else Some SEND_FAILED
  | ReceiveCall (Fail e) => if would_block e then None else Some RECEIVE_FAILED
  | ReceiveCall (Ret n) => if n =? 0 then Some CONNECTION_LOST else None
  | SendCall (Ret n) => None
  end.

(** The calls before the first of these. *)
Fixpoint survived (calls : list io) : list io :=
  match calls with
  | [] => []
  | call :: calls => match fatal call with Some _ => [] | None => call :: survived calls end
  end.

(** What a call moves: bytes sent, messages sent, bytes received. *)
Definition moved (call : io) : Z * Z * Z :=
  match call with
  | SendCall (Ret n) => (n, if 0 <? n then 1 else 0, 0)
  | ReceiveCall (Ret n) => (0, 0, n)
  | _ => (0, 0, 0)
  end.

(** The counters of the client and the global ones, each with what a list of
    calls must add to it. *)
Definition counters (s : TcpClient * SystemMetrics) : list Z :=
  [bytesSent s.1; messagesSent s.1; bytesReceived s.1; HotMetrics.bytesSent (hot s.2); HotMetrics.messagesSent (hot s.2);
   HotMetrics.bytesReceived (hot s.2)].
Definition totals (calls : list io) : list Z :=
  let sent := Zsum ((λ c, (moved c).1.1) <$> calls) in
  let messages := Zsum ((λ c, (moved c).1.2) <$> calls) in
  let received := Zsum ((λ c, (moved c).2) <$> calls) in
  [sent; messages; received; sent; messages; received].

(** A client that is not connected makes no call. *)
Lemma transfers_down calls err c m :
  state c ≠ CONNECTED → transfers calls err (c, m) = (replicate (length calls) (-1), (c, m), err).
Proof.
  intros Hc. induction calls as [|[a|a] calls IH]; [done|..]; cbn [transfers transfer]; unfold send, receive, isConnected;
    rewrite bool_decide_false by done; cbn [negb]; by rewrite IH.
Qed.

(** One call on a connected client. *)
Lemma transfer_step call err c m :
  state c = CONNECTED → io_ok call →
  let '(n, (c', m'), err') := transfer call err (c, m) in
  n = result (io_answer call) ∧ err' = errno_after (io_answer call) err ∧
  socketFd c' = socketFd c ∧ currentBackoffMs c' = currentBackoffMs c ∧ reconnectAttempts c' = reconnectAttempts c ∧
  match fatal call with
  | Some e => state c' = ERROR_STATE ∧ lastError c' = e ∧ counters (c', m') = counters (c, m)
  | None => state c' = CONNECTED ∧ lastError c' = lastError c ∧
            (Forall (λ x, is_u64 x) (counters (c, m)) →
             counters (c', m') = zip_with (λ a b, u64 (a + b)) (counters (c, m)) (totals [call]))
  end.
Proof.
  intros Hc Hok. assert (Hsmall : Forall (λ x, is_u64 x) (counters (c, m)) →
    counters (c, m) = zip_with (λ a b, u64 (a + b)) (counters (c, m)) [0; 0; 0; 0; 0; 0]).
  { intros H. unfold counters in *. cbn. repeat apply Forall_cons in H as [? H]. by rewrite !Z.add_0_r, !u64_small. }
  destruct call as [[n|e]|[n|e]]; cbn [transfer io_answer fatal]; unfold send, receive, isConnected;
    rewrite bool_decide_true by done; cbn [negb result errno_after];
    try (assert (Hn : 0 ≤ n) by by apply Hok); rewrite ?Z.gtb_ltb.
  - unfold totals. cbn [fmap list_fmap moved fst snd]. destruct (Z.ltb_spec 0 n).
    + split_and!; try done. intros Hr. unfold counters in *. cbn. repeat apply Forall_cons in Hr as [? Hr].
      by rewrite !Z.add_0_r, !(u64_small (bytesReceived _)), !(u64_small (HotMetrics.bytesReceived _)).
    + assert (n = 0) as -> by lia. cbn [Z.ltb Z.compare andb]. split_and!; try done.
  - change (0 <? -1) with false. change (-1 <? 0) with true. cbn [andb].
    destruct (would_block e); cbn [negb]; split_and!; done.
  - unfold totals. cbn [fmap list_fmap moved fst snd]. destruct (Z.ltb_spec 0 n).
    + destruct (Z.eqb_spec n 0); [lia|]. split_and!; try done. intros Hr. unfold counters in *. cbn. repeat apply Forall_cons in Hr as [? Hr].
      by rewrite !Z.add_0_r, !(u64_small (bytesSent _)), !(u64_small (messagesSent _)), !(u64_small (HotMetrics.bytesSent _)),
        !(u64_small (HotMetrics.messagesSent _)).
    + assert (n = 0) as -> by lia. cbn [Z.eqb]. split_and!; done.
  - change (0 <? -1) with false. change (-1 =? 0) with false.
    destruct (would_block e); cbn [negb]; split_and!; done.
Qed.

Lemma counters_step k calls l :
  length l = 6%nat →
  zip_with (λ a b, u64 (a + b)) (zip_with (λ a b, u64 (a + b)) l (totals [k])) (totals calls) =
    zip_with (λ a b, u64 (a + b)) l (totals (k :: calls)).
Proof.
  intros Hl. do 6 (destruct l as [|? l]; [done|]). destruct l; [|done]. unfold totals. cbn.
  rewrite !Z.add_0_r, !u64_u64_add. fold (Zsum ((λ c, (moved c).1.1) <$> calls))
    (Zsum ((λ c, (moved c).1.2) <$> calls)) (Zsum ((λ c, (moved c).2) <$> calls)). by rewrite !Z.add_assoc.
Qed.

Lemma counters_u64 l k : Forall (λ x, is_u64 x) (zip_with (λ a b, u64 (a + b)) l k).
Proof. revert k. induction l as [|x l IH]; intros [|y k]; constructor; [apply u64_range|apply IH]. Qed.

(** C23: the life of a connection.  On a connected client, whatever sequence
    of [send] and [receive] calls is made and whatever they answer: up to the
    first fatal answer every call returns the kernel's answer and leaves the
    client connected (a [send] of 0 bytes, like a blocked call, changes
    nothing); the client's and the global counters move by exactly the bytes
    and messages transferred, modulo 2^64; the first fatal answer, an
    interrupted call included, puts the client into [ERROR_STATE] with the
    error of its kind, and from then on no call is made: each returns -1, and
    [errno] stays what the last real call made it.  The socket and the
    reconnection state are never touched. *)
Theorem transfer_state_machine (calls : list io) (err : Errno) (c : TcpClient) (m : SystemMetrics) :
  state c = CONNECTED → Forall io_ok calls → Forall (λ x, is_u64 x) (counters (c, m)) →
  let live := survived calls in
  let made := take (S (length live)) calls in
  let '(ns, (c', m'), err') := transfers calls err (c, m) in
  ns = ((λ call, result (io_answer call)) <$> made) ++ replicate (length calls - length made) (-1) ∧
  err' = foldl (λ e call, errno_after (io_answer call) e) err made ∧
  counters (c', m') = zip_with (λ a b, u64 (a + b)) (counters (c, m)) (totals live) ∧
  match calls !! length live with
  | Some call => state c' = ERROR_STATE ∧ fatal call = Some (lastError c')
  | None => state c' = CONNECTED ∧ lastError c' = lastError c
  end ∧
  socketFd c' = socketFd c ∧ currentBackoffMs c' = currentBackoffMs c ∧ reconnectAttempts c' = reconnectAttempts c.
Proof.
  intros Hc Hok. revert err c m Hc. induction Hok as [|call calls Hk Hok IH]; intros err c m Hc Hr.
  { cbn [survived take transfers length lookup list_lookup]. split_and!; try done. unfold counters in *. cbn.
    repeat apply Forall_cons in Hr as [? Hr]. by rewrite !Z.add_0_r, !u64_small. }
  assert (Hs := transfer_step call err c m Hc Hk). cbn [survived transfers].
  destruct (transfer call err (c, m)) as [[n [c1 m1]] err1]. destruct Hs as (-> & -> & H1 & H2 & H3 & Hs).
  destruct (fatal call) as [e|] eqn:Hf; destruct Hs as (K1 & K2 & K3).
  - rewrite transfers_down by congruence. cbn [length take lookup list_lookup].
    split_and!; try done; [cbn; by rewrite Nat.sub_0_r| |by rewrite Hf, K2].
    rewrite K3. unfold counters in *. cbn. repeat apply Forall_cons in Hr as [? Hr]. by rewrite !Z.add_0_r, !u64_small.
  - specialize (K3 Hr). specialize (IH (errno_after (io_answer call) err) c1 m1 K1).
    destruct (transfers calls _ (c1, m1)) as [[ns [c' m']] err'].
    destruct IH as (-> & -> & L3 & L4 & L5 & L6 & L7); [rewrite K3; apply counters_u64|].
    cbn [length take lookup list_lookup]. cbn [fmap list_fmap app foldl]. split_and!; try done; try congruence.
    + by rewrite L3, K3, counters_step.
    + destruct (calls !! _); [done|]. by rewrite <- K2.
Qed.

(** ** Concrete runs *)

Module Examples.
(** An interrupted call, then a refusal. *)
Definition interrupted : ConnectEnv :=
  mkConnectEnv (Ret 3) (Ret 0) (Ret 0) (Ret 0) (Ret 0) 1 (Ret 0) (Ret 0)
    [Fail EINTR; Fail ECONNREFUSED] [Ret 0] (Ret 0) 0.

Lemma connect_state_machine_witness :
  ∃ ok c' err', connect interrupted (EOTHER 0) TcpClient_init = Some (ok, c', err') ∧ tcp_inv c' ∧
    state c' = ERROR_STATE.
Proof.
  destruct (connect_state_machine interrupted (EOTHER 0) TcpClient_init init_tcp_inv)
    as (ok & c' & err' & Hc & Hi & _).
  - intros l [-> | ->]; cbn [env_connect env_select interrupted].
    + right. left. split; [done|]. done.
    + left. split; [done|]. intros n [= <-]. done.
  - exists ok, c', err'. split; [exact Hc|]. split; [exact Hi|].
    vm_compute in Hc. by injection Hc as <- <- <-.
Defined.

Definition online : TcpClient := TcpClient_init <| socketFd := 3 |> <| state := CONNECTED |>.

(** A message, a blocked read, a [send] of nothing, 34 bytes, an interruption,
    and a call too many. *)
Definition calls : list io :=
  [SendCall (Ret 25); ReceiveCall (Fail EAGAIN); SendCall (Ret 0); ReceiveCall (Ret 34); ReceiveCall (Fail EINTR);
   SendCall (Ret 25)].

Lemma transfer_state_machine_witness :
  let '(ns, (c', _), err') := transfers calls (EOTHER 0) (online, SystemMetrics_init) in
  ns = [25; -1; 0; 34; -1; -1] ∧ err' = EINTR ∧ bytesSent c' = 25 ∧ bytesReceived c' = 34 ∧
  state c' = ERROR_STATE ∧ lastError c' = RECEIVE_FAILED.
Proof.
  assert (H := transfer_state_machine calls (EOTHER 0) online SystemMetrics_init eq_refl ltac:(concrete) ltac:(concrete)).
  cbv zeta in H. destruct (transfers calls (EOTHER 0) (online, SystemMetrics_init)) as [[ns [c' m']] err'].
  destruct H as (-> & -> & Hcount & [Hst Herr] & _). injection Hcount as -> _ -> _ _ _.
  injection Herr as <-. by split_and!.
Defined.

Definition down : TcpClient := TcpClient_init <| reconnectAttempts := 10 |> <| state := ERROR_STATE |>.
Definition up : ConnectEnv :=
  mkConnectEnv (Ret 3) (Ret 0) (Ret 0) (Ret 0) (Ret 0) 1 (Ret 0) (Ret 0) [Ret 0] [] (Ret 0) 0.

(** The server is back, and the client no longer asks. *)
Lemma reconnect_gives_up_witness :
  reconnect_all [(up, 5000000, 0); (up, 9000000, 0)] (EOTHER 0) down = Some ([false; false], down, EOTHER 0).
Proof. exact (reconnect_gives_up [(up, 5000000, 0); (up, 9000000, 0)] (EOTHER 0) down ltac:(done) eq_refl). Defined.

(** Ten refusals, each as soon as the backoff allows, lead there. *)
Example ten_refusals :
  match reconnect_all ((λ i, (refused, 100000 + 60000 * Z.of_nat i, 0)) <$> seq 0 10) (EOTHER 0) TcpClient_init with
  | Some (_, c, _) => reconnectAttempts c = 10 ∧ state c = ERROR_STATE ∧ currentBackoffMs c = 30000
  | None => False
  end.
Proof. vm_compute. done. Qed.

Definition after_two : TcpClient :=
  match reconnect_all [(refused, 100000, 0); (refused, 200000, 100)] (EOTHER 0) TcpClient_init with
  | Some (_, c, _) => c | None => TcpClient_init end.


Definition async_refused : ConnectEnv :=
  mkConnectEnv (Ret 3) (Ret 0) (Ret 0) (Ret 0) (Ret 0) 1 (Ret 0) (Ret 0)
    [Fail EINPROGRESS] [Ret 1] (Ret 0) 111.
Definition with_socket : TcpClient := TcpClient_init <| socketFd := 3 |>.

Lemma async_failure_misreported_witness :
  ∃ c', connect async_refused (EOTHER 0) with_socket = Some (false, c', EINPROGRESS) ∧
    lastError c' = CONNECTION_LOST ∧ state c' = ERROR_STATE.
Proof. apply (async_failure_misreported async_refused (EOTHER 0) with_socket 1); done. Defined.
End Examples.
