(* ===== verification/OrderClient.v ===== *)
(** * The order client ([include/order_client.h], [src/order_client.cpp])

    A TCP client with a fixed queue of orders the kernel did not take at
    once.  Besides the program's state, each operation returns the bytes it
    handed to the kernel, so that the theorems can speak of what the order
    server receives.  The queue mutex makes each operation atomic; the
    operations are the critical sections. *)
From S2P Require Import Prelude Ring Metrics Message MessageSerializer MessageParser TcpClient.
Import WireFormat.

Definition MAX_QUEUE_DEPTH : nat := 1000.
Definition QUEUE_CAPACITY : nat := MAX_QUEUE_DEPTH.

Module Pending.
Record PendingSend := mk { data : list Z; length : Z; offset : Z }.
#[global] Instance eta_PendingSend : Settable PendingSend := fun r =>
  mk (data r) (length r) (offset r).
#[global] Instance PendingSend_inhabited : Inhabited PendingSend := populate (mk [] 0 0).

(** [PendingSend ps{}] followed by the copy of [bytes] to its front. *)
Definition make (bytes : list Z) : PendingSend :=
  mk (list_inserts 0 bytes (replicate ORDER_SIZE 0)) (Z.of_nat (List.length bytes)) 0.
End Pending.
Notation PendingSend := Pending.PendingSend.

Record OrderClient := mkOrderClient {
  tcp : TcpClient; queue : list PendingSend; qHead : nat; qTail : nat; qSize : nat }.
#[global] Instance eta_OrderClient : Settable OrderClient := fun r =>
  mkOrderClient (tcp r) (queue r) (qHead r) (qTail r) (qSize r).

(** The array itself is left uninitialised: any [mem] will do. *)
Definition OrderClient_init (mem : list PendingSend) : OrderClient :=
  mkOrderClient TcpClient_init mem 0 0 0.

Definition empty (c : OrderClient) : bool := (qSize c =? 0)%nat.
Definition front (c : OrderClient) : PendingSend := queue c !!! qHead c.
Definition popFront (c : OrderClient) : OrderClient :=
  if (qSize c =? 0)%nat then c
  else c <| qHead ::= λ h, ((h + 1) mod QUEUE_CAPACITY)%nat |> <| qSize ::= Nat.pred |>.

Definition raiseQueueHighWater (n : Z) (m : SystemMetrics) : SystemMetrics :=
  if n >? ColdMetrics.queueHighWater (cold m)
  then m <| cold ::= λ k, k <| ColdMetrics.queueHighWater := n |> |> else m.

Definition enqueue (ps : PendingSend) (s : OrderClient * SystemMetrics)
  : bool * (OrderClient * SystemMetrics) :=
  let '(c, m) := s in
  if (qSize c =? QUEUE_CAPACITY)%nat then (false, (c, m)) else
  let c := c <| queue ::= <[qTail c := ps]> |>
             <| qTail ::= λ t, ((t + 1) mod QUEUE_CAPACITY)%nat |> <| qSize ::= S |> in
  (true, (c, raiseQueueHighWater (Z.of_nat (qSize c)) m)).

(** [::send] takes at most the bytes it is offered. *)
Definition take_up_to (len : Z) (a : answer) : answer :=
  match a with Ret n => Ret (Z.min n len) | Fail e => Fail e end.

(** [this->send(data, len)]: the client, and the bytes the kernel took. *)
Definition transmit (bytes : list Z) (a : answer) (err : Errno) (s : OrderClient * SystemMetrics)
  : Z * list Z * (OrderClient * SystemMetrics) * Errno :=
  let '(c, m) := s in
  let '(sent, (t, m), err) := send (take_up_to (Z.of_nat (length bytes)) a) err (tcp c, m) in
  (sent, take (Z.to_nat sent) bytes, (c <| tcp := t |>, m), err).

(** Queue what is left of an order, or count it as dropped. *)
Definition queue_rest (bytes : list Z) (s : OrderClient * SystemMetrics)
  : bool * (OrderClient * SystemMetrics) :=
  let '(ok, (c, m)) := enqueue (Pending.make bytes) s in
  if ok : bool then (true, (c, incPartialSends m)) else (false, (c, incMessagesDropped m)).

Definition connection_gone (err : Errno) : bool := is_errno err EPIPE || is_errno err ECONNRESET.

(** [mem] is the stack array [buffer], which [serializeOrder] fills. *)
Definition sendOrder (mem : list Z) (order : OrderMessage) (a : answer) (err : Errno)
    (s : OrderClient * SystemMetrics) : bool * list Z * (OrderClient * SystemMetrics) * Errno :=
  if negb (isConnected (tcp s.1)) then (false, [], s, err) else
  if negb (Order.side order =? char_B) && negb (Order.side order =? char_S)
  then (false, [], s, err) else
  if Order.quantity order =? 0 then (false, [], s, err) else
  if Order.price order <=? 0 then (false, [], s, err) else
  let '(buffer, size) := serializeOrder mem ORDER_SIZE order in
  if (size =? 0)%nat then (false, [], s, err) else
  let bytes := take size buffer in
  let '(sent, wire, s, err) := transmit bytes a err s in
  if sent =? Z.of_nat size then (true, wire, (s.1, incOrdersPlaced s.2), err)
  else if (sent <? 0) && (would_block err || is_errno err EINTR) then
    let '(ok, s) := queue_rest bytes s in (ok, wire, s, err)
  else if (0 <=? sent) && (sent <? Z.of_nat size) then
    let '(ok, s) := queue_rest (drop (Z.to_nat sent) bytes) s in (ok, wire, s, err)
  else if sent <? 0 then
    let s := if connection_gone err
             then (s.1 <| tcp ::= λ t, t <| state := DISCONNECTED |> |>, s.2) else s in
    (false, wire, s, err)
  else (true, wire, s, err).

(** [while (!empty()) popFront();] *)
Fixpoint popAll (fuel : nat) (c : OrderClient) : OrderClient :=
  match fuel with
  | O => c
  | S fuel => if empty c then c else popAll fuel (popFront c)
  end.

(** The loop of [processSendQueue] makes one [send] per turn; [None] when it
    is still running after the given answers. *)
Fixpoint processSendQueue (answers : list answer) (err : Errno) (s : OrderClient * SystemMetrics)
  : option (list Z * (OrderClient * SystemMetrics) * Errno) :=
  if negb (empty s.1) && isConnected (tcp s.1) then
    match answers with
    | [] => None
    | a :: answers =>
        let pending := front s.1 in
        let remaining := u64 (Pending.length pending - Pending.offset pending) in
        let '(sent, wire, (c, m), err) :=
          transmit (slice (Z.to_nat (Pending.offset pending)) (Z.to_nat remaining)
                      (Pending.data pending)) a err s in
        let again c m := '(w, s, err) ← processSendQueue answers err (c, m); Some (wire ++ w, s, err) in
        if sent >? 0 then
          let pending := pending <| Pending.offset ::= λ o, u64 (o + sent) |> in
          let c := c <| queue ::= <[qHead c := pending]> |> in
          let c := if Pending.offset pending >=? Pending.length pending then popFront c else c in
          again c m
        else if sent <? 0 then
          if would_block err then Some (wire, (c, m), err)
          else if is_errno err EINTR then again c m
          else if connection_gone err then
            let c := c <| tcp ::= λ t, t <| state := DISCONNECTED |> |> in
            Some (wire, (popAll (qSize c) c, m), err)
          else Some (wire, (popAll (qSize c) c, m), err)
        else again c m
    end
  else Some ([], s, err).

(** ** The queue *)

Lemma QUEUE_CAPACITY_pos : (0 < QUEUE_CAPACITY)%nat.
Proof. unfold QUEUE_CAPACITY, MAX_QUEUE_DEPTH. lia. Qed.
Lemma QUEUE_CAPACITY_Z : Z.of_nat QUEUE_CAPACITY = 1000.
Proof. reflexivity. Qed.
#[global] Opaque QUEUE_CAPACITY.

(** The waiting sends, oldest first, what each still has to send, and the
    bytes they stand for. *)
Definition pending (c : OrderClient) : list PendingSend :=
  ring_view QUEUE_CAPACITY (queue c) (qHead c) (qSize c).
Definition unsent (p : PendingSend) : list Z :=
  slice (Z.to_nat (Pending.offset p)) (Z.to_nat (Pending.length p - Pending.offset p)) (Pending.data p).
Definition pending_bytes (c : OrderClient) : list Z := concat (unsent <$> pending c).

Definition pending_ok (p : PendingSend) : Prop :=
  length (Pending.data p) = ORDER_SIZE ∧
  0 ≤ Pending.offset p < Pending.length p ∧ Pending.length p ≤ Z.of_nat ORDER_SIZE.

(** The ring is well formed. *)
Record oc_shape (c : OrderClient) : Prop := {
  os_len : length (queue c) = QUEUE_CAPACITY;
  os_head : (qHead c < QUEUE_CAPACITY)%nat;
  os_size : (qSize c ≤ QUEUE_CAPACITY)%nat;
  os_tail : qTail c = ((qHead c + qSize c) mod QUEUE_CAPACITY)%nat
}.

Definition oc_inv (c : OrderClient) : Prop := oc_shape c ∧ Forall pending_ok (pending c).

Lemma init_oc_inv mem : length mem = QUEUE_CAPACITY → oc_inv (OrderClient_init mem).
Proof.
  intros Hl. assert (H := QUEUE_CAPACITY_pos). split; [|constructor].
  constructor; cbn; [done|done|lia|]. symmetry. by apply Nat.mod_small.
Qed.

(** The TCP part may change under the queue. *)
Lemma oc_inv_tcp f c : oc_inv c → oc_inv (c <| tcp ::= f |>).
Proof. intros [[] ?]. by split; [constructor|]. Qed.

Lemma length_pending c : length (pending c) = qSize c.
Proof. apply length_ring_view. Qed.

Lemma pending_front c : oc_shape c → qSize c ≠ 0%nat → pending c = front c :: drop 1 (pending c).
Proof.
  intros [Hl Hh Hs Ht] Hne. rewrite <- (take_drop 1 (pending c)) at 1.
  assert (H : pending c !! 0%nat = Some (front c)).
  { unfold pending. rewrite ring_view_lookup by lia. unfold front. do 2 f_equal.
    rewrite Nat.add_0_r. by apply Nat.mod_small. }
  by destruct (pending c); [|injection H as ->].
Qed.

Lemma popFront_pending c :
  oc_shape c → oc_shape (popFront c) ∧ pending (popFront c) = drop 1 (pending c) ∧
  tcp (popFront c) = tcp c.
Proof.
  assert (Hcap := QUEUE_CAPACITY_pos). intros [Hl Hh Hs Ht]. unfold popFront.
  destruct (Nat.eqb_spec (qSize c) 0) as [E|E].
  - split; [done|]. split; [|done].
    assert (H := length_pending c). by destruct (pending c); [|simpl in H; lia].
  - split; [|split; [|done]].
    + constructor; cbn; [done|by apply ring_pos_lt|lia|].
      rewrite Ht, Nat.Div0.add_mod_idemp_l. f_equal. lia.
    + unfold pending. cbn. rewrite <- Nat.sub_1_r. apply ring_view_drop; [done|lia].
Qed.

Lemma set_front_pending p c :
  oc_shape c → qSize c ≠ 0%nat →
  oc_shape (c <| queue ::= <[qHead c := p]> |>) ∧
  pending (c <| queue ::= <[qHead c := p]> |>) = p :: drop 1 (pending c).
Proof.
  assert (Hcap := QUEUE_CAPACITY_pos). intros Hsh Hne. assert (Hsh' := Hsh).
  destruct Hsh' as [Hl Hh Hs Ht]. split.
  - constructor; cbn; [by rewrite length_insert|done..].
  - assert (Hi := ring_view_insert QUEUE_CAPACITY Hcap (queue c) (qHead c) (qSize c) 0 p
              Hh ltac:(lia) Hs Hl).
    rewrite Nat.add_0_r, Nat.mod_small in Hi by done. etransitivity; [exact Hi|].
    fold (pending c). by rewrite (pending_front c Hsh Hne).
Qed.

Lemma popAll_pending fuel c :
  oc_shape c → (qSize c ≤ fuel)%nat →
  oc_inv (popAll fuel c) ∧ pending (popAll fuel c) = [] ∧ tcp (popAll fuel c) = tcp c.
Proof.
  revert c. induction fuel as [|fuel IH]; intros c Hsh Hf.
  - assert (H := length_pending c). destruct (pending c) eqn:E; [|simpl in H; lia].
    cbn [popAll]. by unfold oc_inv; rewrite E.
  - cbn [popAll]. unfold empty. destruct (Nat.eqb_spec (qSize c) 0) as [E|E].
    { assert (H := length_pending c). rewrite E in H. apply nil_length_inv in H.
      unfold oc_inv. by rewrite H. }
    destruct (popFront_pending c Hsh) as (Hsh' & Hp & Htcp).
    destruct (IH (popFront c) Hsh') as (H1 & H2 & H3); [|by rewrite H3].
    assert (H := length_pending (popFront c)). rewrite Hp, length_drop, length_pending in H. lia.
Qed.

(** Enqueueing appends, unless the queue is full. *)
Lemma enqueue_pending ps c m :
  oc_inv c → pending_ok ps →
  let '(ok, (c', m')) := enqueue ps (c, m) in
  oc_inv c' ∧ tcp c' = tcp c ∧
  if ok : bool then (qSize c < QUEUE_CAPACITY)%nat ∧ pending c' = pending c ++ [ps]
  else qSize c = QUEUE_CAPACITY ∧ c' = c ∧ m' = m.
Proof.
  assert (Hcap := QUEUE_CAPACITY_pos). intros [[Hl Hh Hs Ht] Hok] Hps. unfold enqueue.
  destruct (Nat.eqb_spec (qSize c) QUEUE_CAPACITY) as [E|E]; [by repeat split|].
  set (c' := c <| queue ::= _ |> <| qTail ::= _ |> <| qSize ::= S |>).
  assert (Hp : pending c' = pending c ++ [ps]).
  { unfold pending, c'. cbn. rewrite Ht. apply ring_view_snoc; [done|done|lia|done]. }
  split; [split|split; [done|split; [lia|done]]].
  - constructor; cbn; [by rewrite length_insert|done|lia|].
    rewrite Ht, Nat.Div0.add_mod_idemp_l. f_equal. lia.
  - rewrite Hp, Forall_app, Forall_singleton. done.
Qed.

(** ** What one send does *)

(** A waiting send after [n] more bytes have gone out. *)
Lemma unsent_advance p n :
  pending_ok p → 0 ≤ n → Pending.offset p + n < Pending.length p →
  pending_ok (p <| Pending.offset := Pending.offset p + n |>) ∧
  unsent (p <| Pending.offset := Pending.offset p + n |>) = drop (Z.to_nat n) (unsent p).
Proof.
  intros (Hl & Ho & Hn) H0 Hlt. split.
  - unfold pending_ok. cbn. lia.
  - unfold unsent, slice. cbn. rewrite Z2Nat.inj_add by lia.
    rewrite skipn_firstn_comm, drop_drop. f_equal. lia.
Qed.

Lemma length_unsent p : pending_ok p → Z.of_nat (length (unsent p)) = Pending.length p - Pending.offset p.
Proof. intros (Hl & Ho & Hn). unfold unsent. rewrite length_slice; lia. Qed.

Lemma make_ok bytes :
  bytes ≠ [] → (length bytes ≤ ORDER_SIZE)%nat →
  pending_ok (Pending.make bytes) ∧ unsent (Pending.make bytes) = bytes.
Proof.
  intros Hne Hl. assert (length bytes ≠ 0%nat) by by intros ?%nil_length_inv.
  unfold pending_ok, unsent, Pending.make. cbn [Pending.data Pending.length Pending.offset].
  rewrite length_inserts, length_replicate. split; [lia|]. rewrite Z.sub_0_r, Nat2Z.id. apply (slice_inserts 0). by rewrite length_replicate.
Qed.

(** The three results of a send on a connected client. *)
Inductive transmitted (bytes : list Z) (c : OrderClient)
  : Z → list Z → OrderClient → Errno → Errno → Prop :=
| tx_some n c' err :
    0 ≤ n ≤ Z.of_nat (length bytes) → (∃ f, c' = c <| tcp ::= f |>) → state (tcp c') = CONNECTED →
    transmitted bytes c n (take (Z.to_nat n) bytes) c' err err
| tx_blocked err e : would_block e = true → transmitted bytes c (-1) [] c err e
| tx_failed t err e :
    would_block e = false → state t = ERROR_STATE →
    transmitted bytes c (-1) [] (c <| tcp := t |>) err e.

Definition answer_ok (a : answer) : Prop := match a with Ret n => 0 ≤ n | Fail _ => True end.

Lemma transmit_spec bytes a err c m :
  isConnected (tcp c) = true → answer_ok a →
  let '(sent, wire, (c', m'), err') := transmit bytes a err (c, m) in
  transmitted bytes c sent wire c' err err' ∧
  sent = match a with Ret n => Z.min n (Z.of_nat (length bytes)) | Fail _ => -1 end.
Proof.
  intros Hc Ha. assert (Hst := Hc). apply bool_decide_eq_true in Hst. unfold transmit, send.
  rewrite Hc. cbn [negb]. destruct a as [n|e]; cbn [take_up_to result errno_after answer_ok] in *.
  - set (k := Z.min n (Z.of_nat (length bytes))). assert (0 ≤ k ≤ Z.of_nat (length bytes)) by lia.
    rewrite Z.gtb_ltb. destruct (Z.ltb_spec 0 k).
    + split; [|done]. by apply tx_some; [|eexists|].
    + replace (k <? 0) with false by (symmetry; apply Z.ltb_ge; lia). cbn [andb].
      split; [|done]. apply tx_some; [done|by exists id|done].
  - destruct (would_block e) eqn:Hb; cbn [Z.gtb Z.ltb Z.compare andb negb].
    + split; [|done]. by destruct c; apply tx_blocked.
    + split; [|done]. by apply tx_failed.
Qed.

(** ** Draining the queue *)

(** The loop's update of the front entry: [n] more of its bytes are out. *)
Definition advance (n : Z) (c : OrderClient) : OrderClient :=
  let pending := front c <| Pending.offset ::= λ o, u64 (o + n) |> in
  let c := c <| queue ::= <[qHead c := pending]> |> in
  if Pending.offset pending >=? Pending.length pending then popFront c else c.

Lemma advance_spec n c :
  oc_inv c → qSize c ≠ 0%nat → 0 < n ≤ Z.of_nat (length (unsent (front c))) →
  oc_inv (advance n c) ∧ tcp (advance n c) = tcp c ∧
  pending_bytes c = take (Z.to_nat n) (unsent (front c)) ++ pending_bytes (advance n c).
Proof.
  intros [Hsh Hok] Hne Hn. assert (Hf := pending_front c Hsh Hne). rewrite Hf in Hok.
  apply Forall_cons in Hok as [Hpo Hok]. rewrite (length_unsent _ Hpo) in Hn.
  assert (Hpo' := Hpo). destruct Hpo' as (Hl & Ho & HL). unfold ORDER_SIZE in *.
  assert (Hu : u64 (Pending.offset (front c) + n) = Pending.offset (front c) + n)
    by (apply u64_small; lia).
  unfold advance. set (p := front c <| Pending.offset ::= _ |>).
  destruct (set_front_pending p c Hsh Hne) as [Hsh1 Hp1]. set (c1 := c <| queue ::= _ |>) in *.
  assert (Hpb : pending_bytes c = unsent (front c) ++ concat (unsent <$> drop 1 (pending c))).
  { unfold pending_bytes. rewrite Hf at 1. done. }
  assert (Hpo1 : Pending.offset p = Pending.offset (front c) + n) by exact Hu.
  rewrite Hpb, Z.geb_leb, Hpo1. change (Pending.length p) with (Pending.length (front c)).
  destruct (Z.leb_spec (Pending.length (front c)) (Pending.offset (front c) + n)) as [Hge|Hlt].
  - destruct (popFront_pending c1 Hsh1) as (Hsh2 & Hp2 & Ht2). rewrite Hp1 in Hp2. cbn in Hp2.
    split; [split; [done|by rewrite Hp2]|]. split; [done|]. unfold pending_bytes. rewrite Hp2.
    rewrite take_ge; [done|]. assert (H := length_unsent _ Hpo). lia.
  - destruct (unsent_advance (front c) n Hpo ltac:(lia) Hlt) as [Hok1 Hun1].
    assert (Hp : p = front c <| Pending.offset := Pending.offset (front c) + n |>)
      by (unfold p; cbn; by rewrite Hu).
    split; [split; [done|rewrite Hp1, Hp; by constructor]|]. split; [done|].
    unfold pending_bytes. rewrite Hp1. cbn [fmap list_fmap concat].
    by rewrite Hp, Hun1, app_assoc, take_drop.
Qed.

(** How a run of the loop may end. *)
Definition flushed (c : OrderClient) (wire : list Z) (c' : OrderClient) (err' : Errno) : Prop :=
  oc_inv c' ∧
  ((pending_bytes c = wire ++ pending_bytes c' ∧
    (state (tcp c') = CONNECTED → pending c' = [] ∨ would_block err' = true)) ∨
   (state (tcp c') ≠ CONNECTED ∧ pending c' = [] ∧ ∃ lost, pending_bytes c = wire ++ lost)).

Lemma flushed_after sent c c1 wire c' err' :
  pending_bytes c = sent ++ pending_bytes c1 → flushed c1 wire c' err' → flushed c (sent ++ wire) c' err'.
Proof.
  unfold flushed. intros -> (Hi & [[-> H]|(H1 & H2 & lost & ->)]); split; [done| |done|].
  - left. by rewrite app_assoc.
  - right. split; [done|]. split; [done|]. exists lost. by rewrite app_assoc.
Qed.

Lemma flushed_idle c err : oc_inv c → (state (tcp c) = CONNECTED → pending c = []) → flushed c [] c err.
Proof. intros Hi Hc. split; [done|]. left. split; [done|]. auto. Qed.

Lemma flushed_dropped c f err :
  oc_inv c → state (f (tcp c)) ≠ CONNECTED →
  flushed c [] (popAll (qSize c) (c <| tcp ::= f |>)) err.
Proof.
  intros [[] _] Hs. destruct (popAll_pending (qSize c) (c <| tcp ::= f |>)) as (H1 & H2 & H3);
    [by constructor|done|].
  split; [done|]. right. rewrite H3. split; [done|]. split; [done|]. by eexists.
Qed.

Definition makes_progress (a : answer) : Prop := match a with Ret n => 0 < n | Fail _ => True end.

Lemma processSendQueue_stopped answers err c m :
  state (tcp c) ≠ CONNECTED → processSendQueue answers err (c, m) = Some ([], (c, m), err).
Proof.
  intros Hs. destruct answers; cbn [processSendQueue fst]; unfold isConnected;
    by rewrite bool_decide_false, andb_false_r.
Qed.

(** One turn, then the rest of the loop. *)
Lemma outcome_after c c1 sent (run : option (list Z * (OrderClient * SystemMetrics) * Errno)) (Q Q' : Prop) :
  pending_bytes c = sent ++ pending_bytes c1 →
  match run with Some (wire, (c', _), err') => flushed c1 wire c' err' | None => Q end →
  (Q → Q') →
  match '(w, s, err) ← run; Some (sent ++ w, s, err) with
  | Some (wire, (c', _), err') => flushed c wire c' err'
  | None => Q'
  end.
Proof.
  intros Hb Hrun HQ. destruct run as [[[w [c' m']] err']|]; cbn [mbind option_bind]; [|auto].
  by eapply flushed_after.
Qed.

(** The loop stops after at most one answer per waiting byte (a send of a
    non-empty block that succeeds takes at least one), and then nothing is
    lost or reordered unless the connection is. *)
Lemma processSendQueue_flushed answers err c m :
  oc_inv c → Forall answer_ok answers →
  match processSendQueue answers err (c, m) with
  | Some (wire, (c', m'), err') => flushed c wire c' err'
  | None => Forall makes_progress answers → (length answers < length (pending_bytes c))%nat
  end.
Proof.
  revert err c m. induction answers as [|a answers IH]; intros err c m Hinv Hans.
  all: cbn [processSendQueue fst]; destruct (negb (empty c) && isConnected (tcp c)) eqn:Hgo.
  all: try (apply flushed_idle; [done|];
    intros Hst; unfold isConnected in Hgo; rewrite bool_decide_true, andb_true_r in Hgo by done;
    apply negb_false_iff, Nat.eqb_eq in Hgo; apply nil_length_inv; by rewrite length_pending).
  all: apply andb_true_iff in Hgo as [Hne Hconn]; apply negb_true_iff, Nat.eqb_neq in Hne.
  all: assert (Hsh := proj1 Hinv); assert (Hok := proj2 Hinv); assert (Hf := pending_front c Hsh Hne);
    assert (Hpo : pending_ok (front c)) by (rewrite Hf in Hok; by apply Forall_cons in Hok as [? _]).
  all: assert (Hlu := length_unsent _ Hpo); destruct Hpo as (Hl & Ho & HL).
  - intros _. unfold pending_bytes. rewrite Hf. cbn. rewrite length_app. lia.
  - unfold ORDER_SIZE in *. rewrite u64_small by lia. fold (unsent (front c)).
    apply Forall_cons in Hans as [Ha Hans].
    assert (Htx := transmit_spec (unsent (front c)) a err c m Hconn Ha).
    destruct (transmit (unsent (front c)) a err (c, m)) as [[[sent wire] [c1 m1]] err1].
    destruct Htx as [Htx Hsent]. destruct Htx as [n c1 err1 Hn [f ->] Hst|err1 e Hb|t err1 e Hb Hst].
    + rewrite Z.gtb_ltb. destruct (Z.ltb_spec 0 n) as [Hn0|Hn0].
      * destruct (advance_spec n (c <| tcp ::= f |>)) as (Hi2 & Ht2 & Hb2);
          [by apply oc_inv_tcp|done|exact (conj Hn0 (proj2 Hn))|].
        specialize (IH err1 (advance n (c <| tcp ::= f |>)) m1 Hi2 Hans).
        change (pending_bytes (c <| tcp ::= f |>)) with (pending_bytes c) in Hb2.
        change (front (c <| tcp ::= f |>)) with (front c) in Hb2.
        refine (outcome_after c _ _ _ _ _ Hb2 IH _).
        intros Hx Hp%Forall_cons. specialize (Hx (proj2 Hp)). rewrite Hb2, length_app, length_take.
        cbn [length]. clear - Hx Hn Hn0. lia.
      * replace (n <? 0) with false by (symmetry; apply Z.ltb_ge; lia).
        specialize (IH err1 (c <| tcp ::= f |>) m1 (oc_inv_tcp f c Hinv) Hans). replace n with 0 by lia.
        destruct (processSendQueue answers err1 _) as [[[w [c' m']] err']|]; cbn [mbind option_bind]; [done|].
        intros [Hp _]%Forall_cons. destruct a; simpl in *; lia.
    + rewrite Hb. cbn [Z.gtb Z.ltb Z.compare]. split; [done|]. left. split; [done|]. by right.
    + rewrite Hb. cbn [Z.gtb Z.ltb Z.compare]. destruct (is_errno e EINTR) eqn:Hi.
      * rewrite processSendQueue_stopped by (cbn; congruence). cbn [mbind option_bind].
        change (flushed (c <| tcp := t |>) [] (c <| tcp := t |>) e).
        apply flushed_idle; [by split; [destruct Hsh|]|cbn; congruence].
      * destruct (connection_gone e).
        -- apply (flushed_dropped c (λ _, t <| state := DISCONNECTED |>)); done.
        -- apply (flushed_dropped c (λ _, t)); [done|]. by rewrite Hst.
Qed.

(** ** Sending an order *)

(** What [sendOrder] accepts. *)
Definition sendable (o : OrderMessage) : Prop :=
  (Order.side o = char_B ∨ Order.side o = char_S) ∧ Order.quantity o ≠ 0 ∧ 0 < Order.price o.
#[global] Instance sendable_dec o : Decision (sendable o).
Proof. unfold sendable. apply _. Defined.

(** [sendOrder] once the guards have passed. *)
Definition submit (bytes : list Z) (a : answer) (err : Errno) (s : OrderClient * SystemMetrics)
  : bool * list Z * (OrderClient * SystemMetrics) * Errno :=
  let '(sent, wire, s, err) := transmit bytes a err s in
  if sent =? Z.of_nat ORDER_SIZE then (true, wire, (s.1, incOrdersPlaced s.2), err)
  else if (sent <? 0) && (would_block err || is_errno err EINTR) then
    let '(ok, s) := queue_rest bytes s in (ok, wire, s, err)
  else if (0 <=? sent) && (sent <? Z.of_nat ORDER_SIZE) then
    let '(ok, s) := queue_rest (drop (Z.to_nat sent) bytes) s in (ok, wire, s, err)
  else if sent <? 0 then
    let s := if connection_gone err
             then (s.1 <| tcp ::= λ t, t <| state := DISCONNECTED |> |>, s.2) else s in
    (false, wire, s, err)
  else (true, wire, s, err).

Lemma sendOrder_cases mem o a err c m :
  OrderMessage_ok o → length mem = ORDER_SIZE →
  sendOrder mem o a err (c, m) =
    if bool_decide (state (tcp c) = CONNECTED ∧ sendable o) then submit (order_bytes o) a err (c, m)
    else (false, [], (c, m), err).
Proof.
  intros Ho Hm. unfold sendOrder, isConnected, sendable. cbn [fst].
  rewrite serializeOrder_bytes by (done || lia).
  rewrite drop_ge, app_nil_r by lia. cbn [Nat.eqb ORDER_SIZE].
  rewrite take_ge by (rewrite length_order_bytes by done; done).
  destruct (decide (state (tcp c) = CONNECTED)) as [Hs|Hs];
    [|by rewrite (bool_decide_false _ Hs), bool_decide_false by tauto].
  rewrite (bool_decide_true _ Hs). cbn [negb].
  destruct (Z.eqb_spec (Order.side o) char_B), (Z.eqb_spec (Order.side o) char_S),
    (Z.eqb_spec (Order.quantity o) 0), (Z.leb_spec (Order.price o) 0); cbn [negb andb];
    first [rewrite bool_decide_true by (repeat split; auto; lia); done
          |rewrite bool_decide_false by (intros (?&[?|?]&?&?); lia); done].
Qed.

(** Queueing the rest of an order whose first bytes went out. *)
Lemma queue_rest_spec rest c m :
  oc_inv c → rest ≠ [] → (length rest ≤ ORDER_SIZE)%nat →
  let '(ok, (c', m')) := queue_rest rest (c, m) in
  oc_inv c' ∧ tcp c' = tcp c ∧
  if ok : bool then pending_bytes c' = pending_bytes c ++ rest
  else qSize c = QUEUE_CAPACITY ∧ pending c' = pending c.
Proof.
  intros Hinv Hne Hl. destruct (make_ok rest Hne Hl) as [Hok Hun]. unfold queue_rest.
  assert (He := enqueue_pending (Pending.make rest) c m Hinv Hok).
  destruct (enqueue (Pending.make rest) (c, m)) as [[] [c' m']]; destruct He as (Hi & Ht & He).
  - split; [done|]. split; [done|]. destruct He as [_ Hp]. unfold pending_bytes.
    rewrite Hp, fmap_app, concat_app. cbn [fmap list_fmap concat]. by rewrite Hun, app_nil_r.
  - destruct He as (He & -> & _). done.
Qed.

(** What an accepted order leaves behind: some of its bytes on the wire, the
    rest at the end of the queue.  A refused order leaves the queue alone and
    nothing on the wire, except when the kernel cut it and the queue was
    full. *)
Definition order_outcome (bytes : list Z) (c : OrderClient) (ok : bool) (wire : list Z) (c' : OrderClient) : Prop :=
  oc_inv c' ∧
  if ok then ∃ rest, bytes = wire ++ rest ∧ pending_bytes c' = pending_bytes c ++ rest
  else pending c' = pending c ∧
       (wire = [] ∨ qSize c = QUEUE_CAPACITY ∧ ∃ rest, rest ≠ [] ∧ bytes = wire ++ rest).

Lemma submit_outcome bytes a err c m :
  oc_inv c → state (tcp c) = CONNECTED → length bytes = ORDER_SIZE → answer_ok a →
  let '(ok, wire, (c', m'), err') := submit bytes a err (c, m) in order_outcome bytes c ok wire c'.
Proof.
  intros Hinv Hst Hl Ha. unfold submit.
  assert (Htx := transmit_spec bytes a err c m ltac:(by apply bool_decide_eq_true) Ha).
  destruct (transmit bytes a err (c, m)) as [[[sent wire] [c1 m1]] err1].
  destruct Htx as [Htx _]. destruct Htx as [n c1 err1 Hn [f ->] Hst1|err1 e Hb|t err1 e Hb Hst1].
  - assert (Hi1 := oc_inv_tcp f c Hinv). destruct (Z.eqb_spec n (Z.of_nat ORDER_SIZE)) as [->|Hne].
    { split; [done|]. exists []. rewrite !app_nil_r, take_ge by lia. done. }
    replace (n <? 0) with false by (symmetry; apply Z.ltb_ge; lia). cbn [andb].
    destruct (Z.leb_spec 0 n); [|lia]. destruct (Z.ltb_spec n (Z.of_nat ORDER_SIZE)); [|lia]. cbn [andb].
    assert (Hd : length (drop (Z.to_nat n) bytes) = (ORDER_SIZE - Z.to_nat n)%nat) by (rewrite length_drop; lia).
    assert (Hne' : drop (Z.to_nat n) bytes ≠ []) by (intros E; rewrite E in Hd; simpl in Hd; lia).
    assert (Hq := queue_rest_spec (drop (Z.to_nat n) bytes) (c <| tcp ::= f |>) m1 Hi1 Hne' ltac:(lia)).
    destruct (queue_rest _ _) as [[] [c2 m2]]; destruct Hq as (Hi2 & _ & Hq); (split; [done|]).
    + exists (drop (Z.to_nat n) bytes). by rewrite take_drop.
    + destruct Hq as [Hfull Hq]. split; [done|]. right. split; [done|].
      exists (drop (Z.to_nat n) bytes). by rewrite take_drop.
  - cbn [Z.eqb Z.ltb Z.compare Z.of_nat ORDER_SIZE]. rewrite Hb. cbn [andb orb].
    assert (Hq := queue_rest_spec bytes c m1 Hinv ltac:(by intros ->) ltac:(lia)).
    destruct (queue_rest bytes (c, m1)) as [[] [c2 m2]]; destruct Hq as (Hi2 & _ & Hq); (split; [done|]).
    + by exists bytes.
    + split; [by destruct Hq|]. by left.
  - cbn [Z.eqb Z.ltb Z.compare Z.of_nat ORDER_SIZE]. rewrite Hb. cbn [andb orb].
    assert (Hi1 : oc_inv (c <| tcp := t |>)) by by apply (oc_inv_tcp (λ _, t)).
    destruct (is_errno e EINTR).
    + assert (Hq := queue_rest_spec bytes (c <| tcp := t |>) m1 Hi1 ltac:(by intros ->) ltac:(lia)).
      destruct (queue_rest bytes _) as [[] [c2 m2]]; destruct Hq as (Hi2 & _ & Hq); (split; [done|]).
      * by exists bytes.
      * split; [by destruct Hq|]. by left.
    + cbn [Z.leb Z.compare andb]. destruct (connection_gone e); (split; [|by split; [|left]]); [|done].
      by apply (oc_inv_tcp (λ t, t <| state := DISCONNECTED |>)).
Qed.

(** C24: the contract of [sendOrder].  It answers true only on a connected
    client and for an order with a known side, a positive quantity and a
    positive price; then the 25 bytes of the order are split between the wire
    and the end of the queue, none lost and none twice.  When it answers
    false the queue is as before, and unless the kernel cut the order while
    the queue was full, not a byte was sent. *)
Theorem sendOrder_contract (mem : list Z) (o : OrderMessage) (a : answer) (err : Errno)
    (c : OrderClient) (m : SystemMetrics) :
  oc_inv c → OrderMessage_ok o → length mem = ORDER_SIZE → answer_ok a →
  let '(ok, wire, (c', m'), err') := sendOrder mem o a err (c, m) in
  order_outcome (order_bytes o) c ok wire c' ∧
  (ok = true → state (tcp c) = CONNECTED ∧ sendable o) ∧
  (¬ (state (tcp c) = CONNECTED ∧ sendable o) → c' = c ∧ m' = m ∧ err' = err).
Proof.
  intros Hinv Ho Hm Ha. rewrite sendOrder_cases by done. case_bool_decide as Hg.
  - assert (H := submit_outcome (order_bytes o) a err c m Hinv (proj1 Hg) (length_order_bytes o Ho) Ha).
    destruct (submit _ _ _ _) as [[[ok wire] [c' m']] err']. tauto.
  - split; [split; [done|split; [done|by left]]|]. done.
Qed.

(** C25: [processSendQueue] drains the queue in order.  When every send either
    fails or takes at least a byte, the loop ends within one send per waiting
    byte; the bytes sent are then a prefix of the waiting bytes, and the rest
    is still queued, in order, unless the connection failed. *)
Theorem processSendQueue_drains (answers : list answer) (err : Errno) (c : OrderClient) (m : SystemMetrics) :
  oc_inv c → Forall makes_progress answers → (length (pending_bytes c) ≤ length answers)%nat →
  ∃ wire c' m' err', processSendQueue answers err (c, m) = Some (wire, (c', m'), err') ∧ oc_inv c' ∧
    ((pending_bytes c = wire ++ pending_bytes c' ∧
      (state (tcp c') = CONNECTED → pending c' = [] ∨ would_block err' = true)) ∨
     (state (tcp c') ≠ CONNECTED ∧ pending c' = [] ∧ ∃ lost, pending_bytes c = wire ++ lost)).
Proof.
  intros Hinv Hp Hl. assert (Ha : Forall answer_ok answers).
  { eapply Forall_impl; [exact Hp|]. intros [] ?; cbn in *; [lia|done]. }
  assert (H := processSendQueue_flushed answers err c m Hinv Ha).
  destruct (processSendQueue answers err (c, m)) as [[[wire [c' m']] err']|].
  - exists wire, c', m', err'. split; [done|]. exact H.
  - specialize (H Hp). lia.
Qed.

(** ** Orders on the wire *)

(** A connection on which every order is submitted with the queue empty:
    the bytes on the wire and the accepted orders. *)
Inductive calm_run : OrderClient * SystemMetrics → Errno → list Z → list OrderMessage →
                     OrderClient * SystemMetrics → Prop :=
| calm_end s err : calm_run s err [] [] s
| calm_submit s err mem o a ok wire s1 err1 w acc s2 :
    empty s.1 = true → OrderMessage_ok o → length mem = ORDER_SIZE → answer_ok a →
    sendOrder mem o a err s = (ok, wire, s1, err1) → calm_run s1 err1 w acc s2 →
    calm_run s err (wire ++ w) (if ok : bool then o :: acc else acc) s2
| calm_flush s err answers wire s1 err1 w acc s2 :
    Forall answer_ok answers → processSendQueue answers err s = Some (wire, s1, err1) →
    calm_run s1 err1 w acc s2 → calm_run s err (wire ++ w) acc s2.

(** A lost connection stays lost: only the connection manager restores it. *)
Lemma calm_run_disconnected s err wire acc s' :
  calm_run s err wire acc s' → state (tcp s.1) ≠ CONNECTED → state (tcp s'.1) ≠ CONNECTED.
Proof.
  induction 1 as [|s err mem o a ok w1 s1 err1 w acc s2 He Ho Hm Ha Hs Hr IH
    |s err answers w1 s1 err1 w acc s2 Ha Hp Hr IH]; intros Hd; [done|apply IH..]; destruct s as [c m]; cbn [fst] in *.
  - rewrite sendOrder_cases, bool_decide_false in Hs by (done || tauto). by injection Hs as _ _ <- _.
  - rewrite processSendQueue_stopped in Hp by done. by injection Hp as _ <- _.
Qed.

Lemma empty_pending_bytes c : oc_inv c → empty c = true → pending_bytes c = [].
Proof.
  intros Hi He. apply Nat.eqb_eq in He. assert (H := length_pending c). rewrite He in H.
  apply nil_length_inv in H. unfold pending_bytes. by rewrite H.
Qed.

(** C7: the order stream.  As long as the connection stays up and no order is
    submitted while an earlier one is still waiting, the bytes the server
    has received followed by the bytes still queued are exactly the accepted
    orders, whole and in the order they were accepted. *)
Theorem orders_arrive_in_order (s : OrderClient * SystemMetrics) (err : Errno) (wire : list Z)
    (accepted : list OrderMessage) (s' : OrderClient * SystemMetrics) :
  oc_inv s.1 → calm_run s err wire accepted s' → state (tcp s'.1) = CONNECTED →
  wire ++ pending_bytes s'.1 = pending_bytes s.1 ++ concat (order_bytes <$> accepted).
Proof.
  intros Hinv Hrun Hend. revert Hinv Hend.
  induction Hrun as [s err|s err mem o a ok w1 s1 err1 w acc s2 He Ho Hm Ha Hs Hr IH
    |s err answers w1 s1 err1 w acc s2 Ha Hp Hr IH]; intros Hinv Hend.
  - by rewrite app_nil_r.
  - destruct s as [c m], s1 as [c1 m1]. cbn [fst] in *. rewrite (empty_pending_bytes c) by done.
    assert (H := sendOrder_contract mem o a err c m Hinv Ho Hm Ha). rewrite Hs in H.
    destruct H as ([Hi1 Hout] & _). specialize (IH Hi1 Hend). rewrite <- app_assoc, IH.
    destruct ok.
    + destruct Hout as (rest & Hb & ->). rewrite (empty_pending_bytes c) by done.
      cbn [app fmap list_fmap concat]. rewrite Hb. by rewrite !app_assoc.
    + destruct Hout as [Hpend [-> |[Hfull _]]].
      * unfold pending_bytes. rewrite Hpend. fold (pending_bytes c). by rewrite (empty_pending_bytes c).
      * exfalso. assert (H := QUEUE_CAPACITY_pos). apply Nat.eqb_eq in He. lia.
  - destruct s as [c m], s1 as [c1 m1]. cbn [fst] in *.
    assert (H := processSendQueue_flushed answers err c m Hinv Ha). rewrite Hp in H.
    destruct H as [Hi1 [[Hb _]|[Hd _]]].
    + rewrite <- app_assoc, IH, Hb by done. by rewrite app_assoc.
    + by destruct (calm_run_disconnected _ _ _ _ _ Hr Hd Hend).
Qed.

(** Every waiting send has a byte left. *)
Lemma qSize_bytes c : oc_inv c → (qSize c ≤ length (pending_bytes c))%nat.
Proof.
  intros [_ Hok]. rewrite <- length_pending. unfold pending_bytes.
  induction Hok as [|p l Hp Hok IH]; [done|]. rewrite fmap_cons. cbn [concat length].
  rewrite length_app. assert (H := length_unsent p Hp). destruct Hp as (_ & ? & _). lia.
Qed.

(** A send the kernel accepts, in part or whole. *)
Lemma submit_taken bytes n err c m :
  oc_inv c → state (tcp c) = CONNECTED → length bytes = ORDER_SIZE → (qSize c < QUEUE_CAPACITY)%nat →
  0 ≤ n ≤ Z.of_nat ORDER_SIZE →
  let '(ok, wire, (c', m'), err') := submit bytes (Ret n) err (c, m) in
  ok = true ∧ wire = take (Z.to_nat n) bytes ∧ oc_inv c' ∧ state (tcp c') = CONNECTED ∧
  pending_bytes c' = pending_bytes c ++ drop (Z.to_nat n) bytes.
Proof.
  intros Hinv Hst Hl Hq Hn. unfold submit.
  assert (Htx := transmit_spec bytes (Ret n) err c m ltac:(by apply bool_decide_eq_true) ltac:(apply Hn)).
  destruct (transmit bytes (Ret n) err (c, m)) as [[[sent wire] [c1 m1]] err1].
  destruct Htx as [Htx Hs]. rewrite Z.min_l in Hs by lia.
  destruct Htx as [k c1 err1 _ [f ->] Hst1|err1 e Hb|t err1 e Hb Hst1]; [subst k|lia|lia].
  assert (Hi1 := oc_inv_tcp f c Hinv).
  destruct (Z.eqb_spec n (Z.of_nat ORDER_SIZE)) as [->|Hne].
  { rewrite drop_ge, app_nil_r by lia. done. }
  replace (n <? 0) with false by (symmetry; apply Z.ltb_ge; lia). cbn [andb].
  destruct (Z.leb_spec 0 n); [|lia]. destruct (Z.ltb_spec n (Z.of_nat ORDER_SIZE)); [|lia]. cbn [andb].
  assert (Hd : length (drop (Z.to_nat n) bytes) = (ORDER_SIZE - Z.to_nat n)%nat) by (rewrite length_drop; lia).
  assert (Hne' : drop (Z.to_nat n) bytes ≠ []) by (intros E; rewrite E in Hd; simpl in Hd; lia).
  assert (Hr := queue_rest_spec (drop (Z.to_nat n) bytes) (c <| tcp ::= f |>) m1 Hi1 Hne' ltac:(lia)).
  destruct (queue_rest _ _) as [[] [c2 m2]]; destruct Hr as (Hi2 & Ht & Hr).
  - by rewrite Ht.
  - destruct Hr as [Hr _]. cbn in Hr. lia.
Qed.

(** With a kernel that takes the whole order, what [sendOrder] answers is
    whether the order is acceptable. *)
Lemma sendOrder_whole mem o n err c m :
  OrderMessage_ok o → length mem = ORDER_SIZE → state (tcp c) = CONNECTED → Z.of_nat ORDER_SIZE ≤ n →
  let '(ok, wire, (c', m'), err') := sendOrder mem o (Ret n) err (c, m) in
  state (tcp c') = CONNECTED ∧ ok = bool_decide (sendable o) ∧ wire = if ok then order_bytes o else [].
Proof.
  intros Ho Hm Hst Hn. rewrite sendOrder_cases by done.
  destruct (decide (sendable o)) as [Hs|Hs]; [rewrite bool_decide_true by done|rewrite bool_decide_false by tauto].
  2: { by rewrite bool_decide_false. }
  rewrite (bool_decide_true (sendable o)) by done. assert (Hl := length_order_bytes o Ho). unfold submit.
  assert (Htx := transmit_spec (order_bytes o) (Ret n) err c m ltac:(by apply bool_decide_eq_true) ltac:(cbn; lia)).
  destruct (transmit _ _ _ _) as [[[sent wire] [c1 m1]] err1]. destruct Htx as [Htx Hsent].
  rewrite Hl, Z.min_r in Hsent by lia.
  destruct Htx as [k c1 err1 _ [f ->] Hst1|err1 e Hb|t err1 e Hb Hst1]; [subst k|lia|lia].
  rewrite Z.eqb_refl, Nat2Z.id, take_ge by lia. done.
Qed.

(** C26: an order can be split by the next one.  When the kernel takes only the
    first [k] bytes of an order and then the next order whole, [sendOrder]
    answers true for both, and what the server receives is [k] bytes of the
    first order, then the second order, then (once the queue is drained) the
    rest of the first: [sendOrder] does not look at the queue before it
    sends. *)
Theorem order_split_by_next (mem : list Z) (o1 o2 : OrderMessage) (k : Z) (err : Errno)
    (c : OrderClient) (m : SystemMetrics) :
  oc_inv c → empty c = true → state (tcp c) = CONNECTED →
  OrderMessage_ok o1 → sendable o1 → OrderMessage_ok o2 → sendable o2 →
  length mem = ORDER_SIZE → 0 < k < Z.of_nat ORDER_SIZE →
  let '(ok1, wire1, s1, err1) := sendOrder mem o1 (Ret k) err (c, m) in
  let '(ok2, wire2, s2, err2) := sendOrder mem o2 (Ret (Z.of_nat ORDER_SIZE)) err1 s1 in
  ok1 = true ∧ ok2 = true ∧
  wire1 ++ wire2 = take (Z.to_nat k) (order_bytes o1) ++ order_bytes o2 ∧
  pending_bytes s2.1 = drop (Z.to_nat k) (order_bytes o1).
Proof.
  intros Hinv He Hst Ho1 Hs1 Ho2 Hs2 Hm Hk. assert (Hcap := QUEUE_CAPACITY_pos).
  assert (Hcap2 := QUEUE_CAPACITY_Z).
  assert (Hq : (qSize c < QUEUE_CAPACITY)%nat) by (apply Nat.eqb_eq in He; lia).
  rewrite sendOrder_cases, bool_decide_true by done.
  assert (Hsz : (qSize (submit (order_bytes o1) (Ret k) err (c, m)).1.2.1 < QUEUE_CAPACITY)%nat).
  { assert (H1 := submit_taken (order_bytes o1) k err c m Hinv Hst (length_order_bytes o1 Ho1) Hq ltac:(lia)).
    destruct (submit _ _ _ _) as [[[ok1 w1] [c1 m1]] err1]. destruct H1 as (_ & _ & [Hsh Hok] & _ & Hp).
    cbn [fst snd]. rewrite (empty_pending_bytes c Hinv He) in Hp. cbn [app] in Hp.
    assert (Hl : (length (pending_bytes c1) ≤ 25)%nat).
    { rewrite Hp, length_drop, length_order_bytes by done. unfold ORDER_SIZE. lia. }
    assert (Hle := qSize_bytes c1 (conj Hsh Hok)). lia. }
  assert (H1 := submit_taken (order_bytes o1) k err c m Hinv Hst (length_order_bytes o1 Ho1) Hq ltac:(lia)).
  destruct (submit _ _ _ _) as [[[ok1 w1] [c1 m1]] err1]. destruct H1 as (-> & -> & Hi1 & Hst1 & Hp1).
  cbn [fst snd] in Hsz. rewrite sendOrder_cases, bool_decide_true by done.
  assert (H2 := submit_taken (order_bytes o2) (Z.of_nat ORDER_SIZE) err1 c1 m1 Hi1 Hst1
            (length_order_bytes o2 Ho2) Hsz ltac:(lia)).
  destruct (submit _ _ _ _) as [[[ok2 w2] [c2 m2]] err2]. destruct H2 as (-> & -> & _ & _ & Hp2).
  assert (Hl2 := length_order_bytes o2 Ho2).
  rewrite Nat2Z.id, drop_ge, app_nil_r in Hp2 by lia. rewrite Nat2Z.id, (take_ge (order_bytes o2)) by lia.
  cbn [fst]. by rewrite Hp2, Hp1, (empty_pending_bytes c).
Qed.

(** an interrupted send is accepted on a dead connection.  [TcpClient]
    treats [EINTR] as a failure and drops the connection state to
    [ERROR_STATE], while [sendOrder] treats it as a delay: it queues the
    order and answers true, and the queue is not served any more. *)
Theorem interrupted_send (mem : list Z) (o : OrderMessage) (err : Errno) (c : OrderClient) (m : SystemMetrics) :
  oc_inv c → (qSize c < QUEUE_CAPACITY)%nat → state (tcp c) = CONNECTED →
  OrderMessage_ok o → sendable o → length mem = ORDER_SIZE →
  ∃ c' m', sendOrder mem o (Fail EINTR) err (c, m) = (true, [], (c', m'), EINTR) ∧
    state (tcp c') = ERROR_STATE ∧ pending_bytes c' = pending_bytes c ++ order_bytes o ∧
    ∀ answers, processSendQueue answers EINTR (c', m') = Some ([], (c', m'), EINTR).
Proof.
  intros Hinv Hq Hst Ho Hs Hm. rewrite sendOrder_cases, bool_decide_true by done.
  assert (Hl := length_order_bytes o Ho). unfold submit, transmit, send, isConnected.
  rewrite bool_decide_true by done. cbn [negb take_up_to result errno_after Z.gtb Z.ltb Z.compare andb].
  replace (would_block EINTR) with false by done. cbn [negb]. replace (is_errno EINTR EINTR) with true by done.
  replace (-1 =? Z.of_nat ORDER_SIZE) with false by done. cbn [orb].
  set (t := tcp c <| lastError := SEND_FAILED |> <| state := ERROR_STATE |>).
  assert (Hq' := queue_rest_spec (order_bytes o) (c <| tcp := t |>) m
            ltac:(by apply (oc_inv_tcp (λ _, t))) ltac:(by intros E; rewrite E in Hl) ltac:(lia)).
  destruct (queue_rest (order_bytes o) _) as [[] [c' m']]; destruct Hq' as (_ & Ht & Hp);
    [|destruct Hp as [Hp _]; cbn in Hp; lia].
  exists c', m'. split; [done|]. assert (Hst' : state (tcp c') = ERROR_STATE) by by rewrite Ht.
  split; [done|]. split; [done|]. intros answers. apply processSendQueue_stopped. by rewrite Hst'.
Qed.

(** ** The TCP part underneath *)

Lemma transmit_tcp bytes a err c m :
  tcp_inv (tcp c) → tcp_inv (tcp (transmit bytes a err (c, m)).1.2.1).
Proof.
  intros Hi. unfold transmit. assert (H := send_inv (take_up_to (Z.of_nat (length bytes)) a) err (tcp c) m Hi).
  by destruct (send _ err (tcp c, m)) as [[sent [t m']] err'].
Qed.

Lemma queue_rest_tcp rest c m : tcp (queue_rest rest (c, m)).2.1 = tcp c.
Proof. unfold queue_rest, enqueue. by destruct (_ =? _)%nat. Qed.

Lemma gone_tcp_inv t : tcp_inv t → tcp_inv (t <| state := DISCONNECTED |>).
Proof. intros []. by constructor. Qed.

Lemma sendOrder_tcp mem o a err c m :
  tcp_inv (tcp c) → tcp_inv (tcp (sendOrder mem o a err (c, m)).1.2.1).
Proof.
  intros Hi. unfold sendOrder. branch as E1; [done|]. branch as E2; [done|]. branch as E3; [done|].
  branch as E4; [done|]. destruct (serializeOrder mem ORDER_SIZE o) as [buffer size].
  branch as E5; [done|]. assert (H := transmit_tcp (take size buffer) a err c m Hi).
  destruct (transmit _ a err (c, m)) as [[[sent wire] [c1 m1]] err1]. cbn [fst snd] in H.
  branch as E6; [done|]. branch as E7.
  { assert (Hq := queue_rest_tcp (take size buffer) c1 m1). destruct (queue_rest _ _) as [ok [c2 m2]].
    cbn [fst snd] in *. by rewrite Hq. }
  branch as E8.
  { assert (Hq := queue_rest_tcp (drop (Z.to_nat sent) (take size buffer)) c1 m1).
    destruct (queue_rest _ _) as [ok [c2 m2]]. cbn [fst snd] in *. by rewrite Hq. }
  branch as E9; [|done]. branch as E10; [by apply gone_tcp_inv|done].
Qed.

Lemma popAll_tcp fuel c : tcp (popAll fuel c) = tcp c.
Proof.
  revert c. induction fuel as [|fuel IH]; intros c; [done|]. cbn [popAll]. destruct (empty c); [done|].
  rewrite IH. unfold popFront. by destruct (_ =? _)%nat.
Qed.

Lemma processSendQueue_tcp answers err c m wire c' m' err' :
  tcp_inv (tcp c) → processSendQueue answers err (c, m) = Some (wire, (c', m'), err') → tcp_inv (tcp c').
Proof.
  revert err c m wire. induction answers as [|a answers IH]; intros err c m wire Hi; cbn [processSendQueue].
  { branch as E; [done|by intros [= <- <- <- <-]]. }
  branch as E; [|by intros [= <- <- <- <-]].
  assert (H := transmit_tcp (slice (Z.to_nat (Pending.offset (front c)))
    (Z.to_nat (u64 (Pending.length (front c) - Pending.offset (front c)))) (Pending.data (front c))) a err c m Hi).
  cbn [fst]. destruct (transmit _ a err (c, m)) as [[[sent w1] [c1 m1]] err1]. cbn [fst snd] in H.
  assert (Hgo : ∀ c2, tcp c2 = tcp c1 → ('(w, s, err) ← processSendQueue answers err1 (c2, m1);
            Some (w1 ++ w, s, err)) = Some (wire, (c', m'), err') → tcp_inv (tcp c')).
  { intros c2 Ht. destruct (processSendQueue answers err1 (c2, m1)) as [[[w [c3 m3]] err3]|] eqn:Hrun; [|done].
    intros [= <- <- <- <-]. eapply IH; [|exact Hrun]. by rewrite Ht. }
  branch as E1; [apply Hgo; destruct (_ >=? _); [unfold popFront; by destruct (_ =? _)%nat|done]|].
  branch as E2; [|by apply Hgo]. branch as E3; [by intros [= <- <- <- <-]|].
  branch as E4; [by apply Hgo|]. branch as E5; intros [= <- <- <- <-]; rewrite popAll_tcp; [|done].
  by apply gone_tcp_inv.
Qed.

Lemma pending_bytes_bound c : oc_inv c → (length (pending_bytes c) ≤ QUEUE_CAPACITY * ORDER_SIZE)%nat.
Proof.
  intros [Hsh Hok]. assert (Hs := os_size c Hsh). rewrite <- (length_pending c) in Hs.
  assert (H : (length (pending_bytes c) ≤ length (pending c) * ORDER_SIZE)%nat).
  { unfold pending_bytes. clear - Hok. induction Hok as [|p l Hp Hok IH]; [done|].
    rewrite fmap_cons. cbn [concat length]. rewrite length_app. assert (H := length_unsent p Hp).
    destruct Hp as (_ & ? & ?). unfold ORDER_SIZE in *. lia. }
  unfold ORDER_SIZE in *. lia.
Qed.

(** ** Concrete runs *)

Module Examples.
Definition online : TcpClient := TcpClient_init <| socketFd := 3 |> <| state := CONNECTED |>.
Definition client : OrderClient :=
  OrderClient_init (replicate QUEUE_CAPACITY inhabitant) <| tcp := online |>.
Definition stack : list Z := replicate ORDER_SIZE 255.
Definition order2 : OrderMessage := sample_order <| Order.side := char_S |> <| Order.price := 14025 |>.

Lemma client_inv : oc_inv client.
Proof.
  apply (oc_inv_tcp (λ _, online)), init_oc_inv. apply length_replicate.
Qed.

Lemma sendOrder_contract_witness :
  order_outcome (order_bytes sample_order) client true (take 10 (order_bytes sample_order))
    (sendOrder stack sample_order (Ret 10) (EOTHER 0) (client, SystemMetrics_init)).1.2.1.
Proof.
  assert (H := sendOrder_contract stack sample_order (Ret 10) (EOTHER 0) client SystemMetrics_init
    client_inv ltac:(concrete) eq_refl ltac:(done)).
  vm_compute in H. vm_compute. destruct H as [H _]. exact H.
Defined.

(** An order of which the kernel took ten bytes. *)
Definition waiting : OrderClient :=
  (sendOrder stack sample_order (Ret 10) (EOTHER 0) (client, SystemMetrics_init)).1.2.1.

Lemma waiting_inv : oc_inv waiting.
Proof.
  assert (H := sendOrder_contract stack sample_order (Ret 10) (EOTHER 0) client SystemMetrics_init
    client_inv ltac:(concrete) eq_refl ltac:(done)).
  unfold waiting. destruct (sendOrder _ _ _ _ _) as [[[ok w] [c m]] e]. apply H.
Qed.

Example waiting_bytes : pending_bytes waiting = drop 10 (order_bytes sample_order).
Proof. vm_compute. reflexivity. Qed.

(** The kernel takes seven bytes, then blocks. *)
Lemma processSendQueue_drains_witness :
  ∃ wire c' m' err', processSendQueue (Ret 7 :: replicate 14 (Fail EAGAIN)) (EOTHER 0) (waiting, SystemMetrics_init)
    = Some (wire, (c', m'), err') ∧ wire = slice 10 7 (order_bytes sample_order).
Proof.
  destruct (processSendQueue_drains (Ret 7 :: replicate 14 (Fail EAGAIN)) (EOTHER 0) waiting SystemMetrics_init)
    as (wire & c' & m' & err' & Hrun & _).
  - exact waiting_inv.
  - constructor; [exact (eq_refl : 0 ?= 7 = Lt)|]. by apply Forall_replicate.
  - vm_compute. lia.
  - exists wire, c', m', err'. split; [exact Hrun|]. vm_compute in Hrun. by injection Hrun as <- _ _ _.
Defined.

(** An order goes out in two parts, then another in one. *)
Lemma orders_arrive_in_order_witness :
  ∃ wire s', calm_run (client, SystemMetrics_init) (EOTHER 0) wire [sample_order; order2] s' ∧
    wire ++ pending_bytes s'.1 = order_bytes sample_order ++ order_bytes order2.
Proof.
  assert (Hrun : ∃ wire s', calm_run (client, SystemMetrics_init) (EOTHER 0) wire [sample_order; order2] s' ∧
            state (tcp s'.1) = CONNECTED).
  { eexists _, _. split.
    - eapply (calm_submit _ _ stack sample_order (Ret 10) true);
        [reflexivity|concrete|reflexivity|done|vm_compute; reflexivity|].
      eapply (calm_flush _ _ [Ret 15]); [by repeat constructor|vm_compute; reflexivity|].
      eapply (calm_submit _ _ stack order2 (Ret 25) true);
        [reflexivity|concrete|reflexivity|done|vm_compute; reflexivity|].
      apply calm_end.
    - vm_compute. reflexivity. }
  destruct Hrun as (wire & s' & Hrun & Hc). exists wire, s'. split; [exact Hrun|].
  rewrite (orders_arrive_in_order (client, SystemMetrics_init) _ _ _ _ client_inv Hrun Hc). vm_compute. reflexivity.
Defined.

Lemma order_split_by_next_witness :
  let '(ok1, wire1, s1, err1) := sendOrder stack sample_order (Ret 10) (EOTHER 0) (client, SystemMetrics_init) in
  let '(ok2, wire2, s2, err2) := sendOrder stack order2 (Ret 25) err1 s1 in
  wire1 ++ wire2 = take 10 (order_bytes sample_order) ++ order_bytes order2.
Proof.
  assert (H := order_split_by_next stack sample_order order2 10 (EOTHER 0) client SystemMetrics_init
    client_inv eq_refl eq_refl ltac:(concrete) ltac:(concrete) ltac:(concrete) ltac:(concrete) eq_refl ltac:(done)).
  vm_compute in H. vm_compute. apply H.
Defined.

(** What a server that reads 25-byte records makes of it: an order nobody
    placed. *)
Example split_order_parsed :
  let '(_, wire1, s1, err1) := sendOrder stack sample_order (Ret 10) (EOTHER 0) (client, SystemMetrics_init) in
  let '(_, wire2, s2, err2) := sendOrder stack order2 (Ret 25) err1 s1 in
  parseOrder (take 25 (wire1 ++ wire2)) 25 ≠ Some sample_order ∧
  (Order.quantity <$> parseOrder (take 25 (wire1 ++ wire2)) 25) ≠ Some 100.
Proof. vm_compute. split; discriminate. Qed.

Lemma interrupted_send_witness :
  ∃ c' m', sendOrder stack sample_order (Fail EINTR) (EOTHER 0) (client, SystemMetrics_init) = (true, [], (c', m'), EINTR) ∧
    state (tcp c') = ERROR_STATE.
Proof.
  destruct (interrupted_send stack sample_order (EOTHER 0) client SystemMetrics_init) as (c' & m' & H1 & H2 & _).
  - exact client_inv.
  - exact QUEUE_CAPACITY_pos.
  - reflexivity.
  - concrete.
  - concrete.
  - reflexivity.
  - exists c', m'. split; [exact H1|exact H2].
Defined.
End Examples.
