(* ===== verification/Layout.v ===== *)
(** * Layouts and constants

    How the structs of [include/message.h], [include/metrics.h] and
    [include/vwap_calculator.h] lie in memory, by the layout rules of the
    platform's ABI: every member at the next multiple of its alignment, the
    whole a multiple of the largest one.  With it the [static_assert]s of
    these headers are evaluated, which are conditions of compiling the
    program, and what the alignment of the metrics is for is proved: counters
    of different groups are never in one cache line.  The last section is
    [include/constants.h]. *)
From stdpp Require Import strings.
From S2P Require Import Prelude Message Metrics DecisionEngine TcpClient.
From S2P Require OrderClient.

(** ** Layout of a struct *)

Record layout := mkLayout { size : Z; align : Z }.

Definition char_ly : layout := mkLayout 1 1.      (** also [uint8_t] and [bool] *)
Definition u32_ly : layout := mkLayout 4 4.       (** also [int32_t] *)
Definition u64_ly : layout := mkLayout 8 8.       (** also [double] and [std::atomic<uint64_t>] *)
Definition array (n : Z) (ly : layout) : layout := mkLayout (n * size ly) (align ly).

Definition round_up (n a : Z) : Z := (n + a - 1) / a * a.

Record member := mkMember { name : string; offset : Z; type : layout }.

(** The members from [at] on, and the end of the last. *)
Fixpoint place (fields : list (string * layout)) (at_ : Z) : list member * Z :=
  match fields with
  | [] => ([], at_)
  | (x, ly) :: fields =>
      let o := round_up at_ (align ly) in
      let '(ms, e) := place fields (o + size ly) in (mkMember x o ly :: ms, e)
  end.

Record struct := mkStruct { members : list member; whole : layout }.
Definition sizeof (s : struct) : Z := size (whole s).
Definition alignof (s : struct) : Z := align (whole s).

(** [alignas] is 1 where the code has none.  No struct here is empty. *)
Definition struct_of (alignas : Z) (fields : list (string * layout)) : struct :=
  let a := foldr (λ f a, Z.max (align f.2) a) alignas fields in
  let '(ms, e) := place fields 0 in
  mkStruct ms (mkLayout (round_up e a) a).

Definition offsetof (s : struct) (x : string) : option Z :=
  offset <$> head (filter (λ m, name m = x) (members s)).

(** *** The rules are sound *)

Lemma round_up_spec n a : 0 < a → n ≤ round_up n a < n + a ∧ (a | round_up n a).
Proof.
  intros Ha. unfold round_up. assert (H := Z.div_mod (n + a - 1) a ltac:(lia)).
  assert (Hm := Z.mod_pos_bound (n + a - 1) a Ha). split; [lia|]. by apply Z.divide_factor_r.
Qed.

Definition layout_ok (ly : layout) : Prop := 0 ≤ size ly ∧ 0 < align ly.

(** Between [from] and [to], on its alignment. *)
Definition fits (from to : Z) (m : member) : Prop :=
  from ≤ offset m ∧ offset m + size (type m) ≤ to ∧ (align (type m) | offset m).
Definition before (m m' : member) : Prop := offset m + size (type m) ≤ offset m'.

Lemma place_ok fields at_ ms e :
  Forall (λ f, layout_ok f.2) fields → place fields at_ = (ms, e) →
  at_ ≤ e ∧ Forall (fits at_ e) ms ∧ StronglySorted before ms ∧ (λ m, (name m, type m)) <$> ms = fields.
Proof.
  intros Hf. revert at_ ms e. induction Hf as [|[x ly] fields [Hs Ha] Hf IH]; intros at_ ms e; cbn [place].
  { intros [= <- <-]. split; [lia|]. by repeat constructor. }
  destruct (round_up_spec at_ (align ly) Ha) as [Hr Hd]. cbn [snd] in Hs, Hd, Hr.
  destruct (place fields _) as [ms' e'] eqn:Hp. intros [= <- <-]. apply IH in Hp as (He & Hall & Hsort & Hnames).
  split; [lia|]. split_and!.
  - constructor; [split_and!; cbn; (lia || done)|]. eapply Forall_impl; [exact Hall|]. intros m (H1 & H2 & H3).
    split_and!; (lia || done).
  - constructor; [done|]. eapply Forall_impl; [exact Hall|]. intros m (H1 & _). unfold before. cbn. lia.
  - cbn. by rewrite Hnames.
Qed.

(** A struct has its fields as members, in order, each on its alignment,
    disjoint and inside; its size is a multiple of its alignment. *)
Lemma struct_ok alignas fields :
  0 < alignas → Forall (λ f, layout_ok f.2) fields →
  let s := struct_of alignas fields in
  (λ m, (name m, type m)) <$> members s = fields ∧ Forall (fits 0 (sizeof s)) (members s) ∧
  StronglySorted before (members s) ∧ (alignof s | sizeof s) ∧ alignas ≤ alignof s.
Proof.
  intros Ha Hf s. unfold s, struct_of. set (a := foldr _ alignas fields).
  assert (Hle : alignas ≤ a) by (unfold a; clear; induction fields as [|f fields IH]; cbn; lia).
  destruct (place fields 0) as [ms e] eqn:Hp. destruct (place_ok fields 0 ms e Hf Hp) as (He & Hall & Hsort & Hn).
  destruct (round_up_spec e a ltac:(lia)) as [Hr Hd]. unfold sizeof, alignof. cbn [members whole size align].
  split_and!; try done. eapply Forall_impl; [exact Hall|]. intros m (H1 & H2 & H3). split_and!; (lia || done).
Qed.

(** ** Messages *)

Definition MessageHeader_ly : struct := struct_of 1 [("length", char_ly); ("type", char_ly)].
Definition QuoteMessage_ly : struct := struct_of 1
  [("symbol", array 8 char_ly); ("timestamp", u64_ly); ("bidQuantity", u32_ly); ("bidPrice", u32_ly);
   ("askQuantity", u32_ly); ("askPrice", u32_ly)].
Definition TradeMessage_ly : struct := struct_of 1
  [("symbol", array 8 char_ly); ("timestamp", u64_ly); ("quantity", u32_ly); ("price", u32_ly)].
Definition OrderMessage_ly : struct := struct_of 1
  [("symbol", array 8 char_ly); ("timestamp", u64_ly); ("quantity", u32_ly); ("price", u32_ly); ("side", char_ly);
   ("_padding", array 3 char_ly)].

Definition at_offset (s : struct) (x : string) (o : Z) : bool := bool_decide (offsetof s x = Some o).

(** The [static_assert]s of the header that are about layout, and the two of
    [message_parser.cpp]. *)
Definition message_asserts : bool :=
  (sizeof MessageHeader_ly =? 2) && (sizeof QuoteMessage_ly =? 32) && (sizeof TradeMessage_ly =? 24) &&
  (sizeof OrderMessage_ly =? 32) &&
  at_offset MessageHeader_ly "type" 1 && at_offset QuoteMessage_ly "timestamp" 8 &&
  at_offset TradeMessage_ly "timestamp" 8 && at_offset TradeMessage_ly "quantity" 16 &&
  at_offset TradeMessage_ly "price" 20 && at_offset OrderMessage_ly "timestamp" 8 &&
  at_offset OrderMessage_ly "quantity" 16 && at_offset OrderMessage_ly "price" 20 && at_offset OrderMessage_ly "side" 24.
Definition parser_asserts : bool :=
  (sizeof QuoteMessage_ly =? Z.of_nat WireFormat.QUOTE_SIZE) && (sizeof TradeMessage_ly =? Z.of_nat WireFormat.TRADE_SIZE).

Lemma message_asserts_hold : message_asserts = true ∧ parser_asserts = true.
Proof. by vm_compute. Qed.

(** An order is not: it lies in 32 bytes and travels in 25. *)
Example order_is_padded : sizeof OrderMessage_ly = 32 ∧ WireFormat.ORDER_SIZE = 25%nat.
Proof. by vm_compute. Qed.

(** ** Metrics *)

Definition CACHE_LINE_SIZE : Z := 64.
Definition counters (xs : list string) : list (string * layout) := (λ x, (x, u64_ly)) <$> xs.
Definition padding (n : Z) : list (string * layout) := [("_padding", array n char_ly)].

Definition PAD_BYTES_HOT : Z := CACHE_LINE_SIZE - 7 * size u64_ly.
Definition PAD_BYTES_COLD : Z := CACHE_LINE_SIZE - 7 * size u64_ly.
Definition PAD_BYTES_PERF : Z := CACHE_LINE_SIZE - 8 * size u64_ly.

Definition hot_counters : list string :=
  ["messagesSent"; "messagesReceived"; "bytesReceived"; "bytesSent"; "ordersPlaced"; "tradesProcessed"; "quotesProcessed"].
Definition cold_counters : list string :=
  ["connectionsAccepted"; "connectionsClosed"; "connectionErrors"; "queueHighWater"; "messagesDropped"; "completedSends";
   "partialSends"].
Definition perf_counters : list string :=
  ["minLatency"; "maxLatency"; "totalLatency"; "latencyCount"; "lastResetTime"; "peakMessagesPerSecond"; "resyncEvents";
   "failedSends"].

(** A padding of no bytes is made one of one byte, except in the second. *)
Definition HotMetrics_ly : struct := struct_of CACHE_LINE_SIZE
  (counters hot_counters ++ padding (if PAD_BYTES_HOT =? 0 then 1 else PAD_BYTES_HOT)).
Definition ColdMetrics_ly : struct := struct_of CACHE_LINE_SIZE (counters cold_counters ++ padding PAD_BYTES_COLD).
Definition PerformanceMetrics_ly : struct := struct_of CACHE_LINE_SIZE
  (counters perf_counters ++ padding (if PAD_BYTES_PERF =? 0 then 1 else PAD_BYTES_PERF)).
Definition SystemMetrics_ly : struct := struct_of 1
  [("hot", whole HotMetrics_ly); ("cold", whole ColdMetrics_ly); ("perf", whole PerformanceMetrics_ly)].

Definition metrics_asserts : bool :=
  (sizeof HotMetrics_ly =? CACHE_LINE_SIZE) && (sizeof ColdMetrics_ly =? CACHE_LINE_SIZE) &&
  (alignof HotMetrics_ly =? CACHE_LINE_SIZE) && (alignof ColdMetrics_ly =? CACHE_LINE_SIZE) &&
  (alignof PerformanceMetrics_ly =? CACHE_LINE_SIZE).

Lemma metrics_asserts_hold : metrics_asserts = true.
Proof. by vm_compute. Qed.

(** The third group has eight counters, no room is left, and the one byte of
    padding it gets all the same costs a second line. *)
Example performance_takes_two_lines : sizeof PerformanceMetrics_ly = 2 * CACHE_LINE_SIZE.
Proof. by vm_compute. Qed.

(** The groups of [SystemMetrics], and where a counter of one lies. *)
Inductive group := Hot | Cold | Perf.
#[global] Instance group_eq_dec : EqDecision group.
Proof. solve_decision. Defined.
Definition group_ly (g : group) : string * struct :=
  match g with
  | Hot => ("hot", HotMetrics_ly)
  | Cold => ("cold", ColdMetrics_ly)
  | Perf => ("perf", PerformanceMetrics_ly)
  end.
Definition address (base : Z) (g : group) (x : string) : option Z :=
  o ← offsetof SystemMetrics_ly (group_ly g).1;
  o' ← offsetof (group_ly g).2 x;
  Some (base + o + o').
Definition cache_line (address : Z) : Z := address / CACHE_LINE_SIZE.

Lemma offsetof_member s x o (P : Z → Prop) : offsetof s x = Some o → Forall (λ m, P (offset m)) (members s) → P o.
Proof.
  unfold offsetof. intros Ho Hall. destruct (filter _ _) as [|m ms] eqn:Hf; [done|]. injection Ho as <-.
  assert (Hm : m ∈ filter (λ m, name m = x) (members s)) by (rewrite Hf; left).
  apply list_elem_of_filter in Hm as [_ Hm]. rewrite Forall_forall in Hall. by apply Hall.
Qed.

(** The lines of a group, counted from that of the whole. *)
Definition first_line (g : group) : Z := match g with Hot => 0 | Cold => 1 | Perf => 2 end.
Definition lines (g : group) : Z := match g with Perf => 2 | _ => 1 end.

Lemma group_offset g : offsetof SystemMetrics_ly (group_ly g).1 = Some (first_line g * CACHE_LINE_SIZE).
Proof. destruct g; by vm_compute. Qed.

Lemma counter_offset g x o : offsetof (group_ly g).2 x = Some o → 0 ≤ o < lines g * CACHE_LINE_SIZE.
Proof.
  intros Ho. apply (offsetof_member _ _ _ (λ o, 0 ≤ o < lines g * CACHE_LINE_SIZE) Ho).
  destruct g; apply (bool_decide_unpack _); by vm_compute.
Qed.

(** The metrics are laid out against false sharing: two counters of different
    groups are never in one cache line, so a thread that counts messages does
    not take the line of one that measures latencies.  This needs that the
    object lies on its alignment, as the compiler places it. *)
Theorem groups_apart (base : Z) (g g' : group) (x x' : string) (o o' : Z) :
  (alignof SystemMetrics_ly | base) → g ≠ g' → address base g x = Some o → address base g' x' = Some o' →
  cache_line o ≠ cache_line o'.
Proof.
  intros [k ->] Hne. change (alignof SystemMetrics_ly) with CACHE_LINE_SIZE. unfold address. rewrite !group_offset.
  cbn [mbind option_bind]. destruct (offsetof (group_ly g).2 x) as [v|] eqn:Hv; cbn [mbind option_bind]; [|done]. intros [= <-].
  destruct (offsetof (group_ly g').2 x') as [v'|] eqn:Hv'; cbn [mbind option_bind]; [|done]. intros [= <-].
  apply counter_offset in Hv, Hv'. unfold cache_line.
  assert (Hline : ∀ g v, 0 ≤ v < lines g * CACHE_LINE_SIZE →
    k + first_line g ≤ (k * CACHE_LINE_SIZE + first_line g * CACHE_LINE_SIZE + v) / CACHE_LINE_SIZE < k + first_line g + lines g).
  { intros h w Hw. split; [apply Z.div_le_lower_bound|apply Z.div_lt_upper_bound]; unfold CACHE_LINE_SIZE in *; lia. }
  assert (H := Hline g v Hv). assert (H' := Hline g' v' Hv'). destruct g, g'; cbn [first_line lines] in *; (done || lia).
Qed.

(** ** The calculator's hot data *)

(** [alignas] belongs to the member of this type, not to the type. *)
Definition HotData_ly : struct := struct_of 1
  [("sumPriceVolume", u64_ly); ("sumVolume", u64_ly); ("cachedVwap", u64_ly); ("vwapCacheValid", char_ly)].
Definition calculator_assert : bool := sizeof HotData_ly <=? 64.
Lemma calculator_assert_holds : calculator_assert = true.
Proof. by vm_compute. Qed.

(** ** Constants *)

Module Const.
Definition NANOS_PER_SEC : Z := 1000000000.
Definition MICROS_PER_SEC : Z := 1000000.
Definition DEFAULT_BACKOFF_MS : Z := 1000.
Definition MAX_BACKOFF_MS : Z := 60000.
Definition MAX_QUEUE_DEPTH : Z := 1000.
Definition MAX_DECISION_HISTORY : Z := 1000.
End Const.
Definition nanosPerSec : Z := Const.NANOS_PER_SEC.
Definition priceTicksPerDollar : Z := 100.

(** No file includes the header; the classes have constants of their own,
    which agree with it but for the largest backoff. *)
Lemma constants_agree :
  Const.DEFAULT_BACKOFF_MS = INITIAL_BACKOFF_MS ∧ Const.MAX_QUEUE_DEPTH = Z.of_nat OrderClient.MAX_QUEUE_DEPTH ∧
  Const.MAX_DECISION_HISTORY = Z.of_nat MAX_HISTORY_SIZE ∧ Const.MAX_BACKOFF_MS ≠ MAX_BACKOFF_MS.
Proof. by vm_compute. Qed.
