(* ===== verification/MarketDataClient.v ===== *)
(** * The market data client ([include/market_data_client.h],
      [src/market_data_client.cpp])

    A TCP client with a receive buffer.  [processIncomingData] reads up to
    four blocks, extracts every complete message, validates it and hands it
    to the callback.  The callback acts on a state [World] of its own and on
    the global metrics; the kernel is the list of what successive [recv]
    calls return. *)
From S2P Require Import Prelude Metrics Message MessageSerializer MessageParser MessageBuffer TcpClient.
Import WireFormat.

Record MarketDataClient := mkMarketData { tcp : TcpClient; receiveBuffer : MessageBuffer }.
#[global] Instance eta_MarketDataClient : Settable MarketDataClient := fun r =>
  mkMarketData (tcp r) (receiveBuffer r).

Definition MarketDataClient_init (mem : list Z) : MarketDataClient :=
  mkMarketData TcpClient_init (MessageBuffer_init mem).

(** A message as the callback gets it: the header and the decoded body behind
    the [void] pointer. *)
Inductive MarketData := MdQuote (quote : QuoteMessage) | MdTrade (trade : TradeMessage).

(** What one [recv] does: it delivers some bytes (none at the end of the
    stream) or fails.  When the list is exhausted there is nothing more to
    read for now. *)
Inductive delivery := Delivered (bytes : list Z) | RecvFails (e : Errno).

Definition TEMP_SIZE : nat := 4096.
Definition recv_answer (d : delivery) : answer :=
  match d with
  | Delivered bytes => Ret (Z.of_nat (length (take TEMP_SIZE bytes)))
  | RecvFails e => Fail e
  end.
Definition recv_bytes (d : delivery) : list Z :=
  match d with Delivered bytes => take TEMP_SIZE bytes | RecvFails _ => [] end.
Definition next_delivery (ds : list delivery) : delivery * list delivery :=
  match ds with [] => (RecvFails EAGAIN, []) | d :: ds => (d, ds) end.

Section client.
Context {World : Type}.
Context (messageCallback : option (MessageHeader → MarketData → World * SystemMetrics → World * SystemMetrics)).

Definition run_callback (header : MessageHeader) (d : MarketData) (s : World * SystemMetrics) : World * SystemMetrics :=
  match messageCallback with Some cb => cb header d s | None => s end.
Definition dropped (s : World * SystemMetrics) : World * SystemMetrics := (s.1, incMessagesDropped s.2).

(** The first loop: at most [iters] reads.  The first component is false
    when the function returns early. *)
Fixpoint read_loop (iters : nat) (ds : list delivery) (err : Errno) (localBytes : Z)
    (c : MarketDataClient) (m : SystemMetrics)
  : bool * Z * (MarketDataClient * SystemMetrics) * list delivery * Errno :=
  match iters with
  | O => (true, localBytes, (c, m), ds, err)
  | S iters =>
      let '(d, ds') := if isConnected (tcp c) then next_delivery ds else (RecvFails err, ds) in
      let '(bytesRead, (t, m), err) := receive (recv_answer d) err (tcp c, m) in
      let c := c <| tcp := t |> in
      if bytesRead <=? 0 then
        if bytesRead =? 0 then (false, localBytes, (c, m), ds', err)
        else if would_block err || is_errno err EINTR then (true, localBytes, (c, m), ds', err)
        else (false, localBytes, (c, m), ds', err)
      else
        let localBytes := u64 (localBytes + bytesRead) in
        let '(ok, b) := append (receiveBuffer c) (recv_bytes d) in
        let c := c <| receiveBuffer := b |> in
        if negb ok then
          (true, localBytes, (c <| receiveBuffer ::= clear |>, incMessagesDropped m), ds', err)
        else if bytesRead <? Z.of_nat TEMP_SIZE then (true, localBytes, (c, m), ds', err)
        else read_loop iters ds' err localBytes c m
  end.

(** One message: the counters of quotes and trades, and the callback's
    state.  [body] holds the bytes of the body, contiguous or assembled in
    [temp]. *)
Definition handle_body (header : MessageHeader) (body : list Z) (s : Z * Z * (World * SystemMetrics))
  : Z * Z * (World * SystemMetrics) :=
  let '(localQuotes, localTrades, w) := s in
  let len := Z.to_nat (Header.length header) in
  if Header.type header =? Header.QUOTE_TYPE then
    match parseQuote body len with
    | Some quote =>
        if validateQuote quote then (u64 (localQuotes + 1), localTrades, run_callback header (MdQuote quote) w)
        else (localQuotes, localTrades, dropped w)
    | None => (localQuotes, localTrades, dropped w)
    end
  else if Header.type header =? Header.TRADE_TYPE then
    match parseTrade body len with
    | Some trade =>
        if validateTrade trade then (localQuotes, u64 (localTrades + 1), run_callback header (MdTrade trade) w)
        else (localQuotes, localTrades, dropped w)
    | None => (localQuotes, localTrades, dropped w)
    end
  else (localQuotes, localTrades, dropped w).

(** The second loop, with [fuel] for the number of turns; every turn but
    the last consumes a message. *)
Fixpoint process_loop (fuel : nat) (c : MarketDataClient) (localMsgs : Z) (s : Z * Z * (World * SystemMetrics))
  : option (MarketDataClient * Z * (Z * Z * (World * SystemMetrics))) :=
  match fuel with
  | O => None
  | S fuel =>
      match peekMessage (receiveBuffer c) with
      | (SUCCESS, Some header, Some (bodyPtr, contiguous)) =>
          let c := c <| tcp ::= λ t, t <| messagesReceived ::= λ n, u64 (n + 1) |> |> in
          let body := gather (receiveBuffer c) header bodyPtr contiguous in
          let s := handle_body header body s in
          let c := c <| receiveBuffer ::= λ b, consume b header |> in
          process_loop fuel c (u64 (localMsgs + 1)) s
      | (INVALID_HEADER, _, _) =>
          let '(localQuotes, localTrades, w) := s in
          let '(w, m) := dropped w in
          let '(_, b, m) := resync (receiveBuffer c) m in
          Some (c <| receiveBuffer := b |>, localMsgs, (localQuotes, localTrades, (w, m)))
      | _ => Some (c, localMsgs, s)
      end
  end.

(** The counters added to the global metrics at the end. *)
Definition publish_counts (localBytes localMsgs localQuotes localTrades : Z) (m : SystemMetrics) : SystemMetrics :=
  let m := if negb (localBytes =? 0) then addBytesReceived localBytes m else m in
  if negb (localMsgs =? 0) then
    let m := addMessagesReceived localMsgs m in
    let m := if negb (localQuotes =? 0) then addQuotesProcessed localQuotes m else m in
    if negb (localTrades =? 0) then addTradesProcessed localTrades m else m
  else m.

Definition processIncomingData (ds : list delivery) (err : Errno) (s : MarketDataClient * (World * SystemMetrics))
  : option (bool * (MarketDataClient * (World * SystemMetrics)) * list delivery * Errno) :=
  let '(c, (w, m)) := s in
  let '(go, localBytes, (c, m), ds, err) := read_loop 4 ds err 0 c m in
  if negb go then Some (false, (c, (w, m)), ds, err) else
  '(c, localMsgs, (localQuotes, localTrades, (w, m))) ←
    process_loop (S (Z.to_nat (used (receiveBuffer c)))) c 0 (0, 0, (w, m));
  Some (true, (c, (w, publish_counts localBytes localMsgs localQuotes localTrades m)), ds, err).
End client.

(** ** Reading *)

(** A block the feed delivers: some bytes, at most one read's worth. *)
Definition block_ok (d : delivery) : Prop :=
  match d with Delivered bytes => (0 < length bytes ≤ TEMP_SIZE)%nat | RecvFails _ => False end.
#[global] Instance block_ok_dec d : Decision (block_ok d).
Proof. destruct d; apply _. Defined.

Definition feed_bytes (ds : list delivery) : list Z := concat (recv_bytes <$> ds).

Lemma block_bytes d : block_ok d → (0 < length (recv_bytes d) ≤ TEMP_SIZE)%nat ∧
  recv_answer d = Ret (Z.of_nat (length (recv_bytes d))).
Proof. destruct d as [bytes|]; [|done]. intros Hb. cbn. rewrite length_take. unfold block_ok in Hb. split; [lia|done]. Qed.

Lemma receive_block n err c m :
  isConnected c = true → 0 < n →
  ∃ f, receive (Ret n) err (c, m) = (n, (f c, addBytesReceived n m), err) ∧ state (f c) = state c.
Proof.
  intros Hc Hn. unfold receive. rewrite Hc. cbn [negb result errno_after]. rewrite Z.gtb_ltb.
  destruct (Z.ltb_spec 0 n); [|lia]. by exists (λ c, c <| bytesReceived ::= λ b, u64 (b + n) |>).
Qed.

Lemma addBytesReceived_hot n m :
  HotMetrics.bytesReceived (hot (addBytesReceived n m)) = u64 (HotMetrics.bytesReceived (hot m) + n).
Proof. done. Qed.

(** The result of reading the first [n] blocks of the feed. *)
Record blocks_read (ds : list delivery) (lb : Z) (c : MarketDataClient) (m : SystemMetrics)
    (n : nat) (lb' : Z) (c' : MarketDataClient) (m' : SystemMetrics) : Prop := {
  br_conn : isConnected (tcp c') = true;
  br_inv : buffer_inv (receiveBuffer c');
  br_contents : contents (receiveBuffer c') = contents (receiveBuffer c) ++ feed_bytes (take n ds);
  br_le : (n ≤ length ds)%nat;
  br_local : lb' = u64 (lb + Z.of_nat (length (feed_bytes (take n ds))));
  br_global : is_u64 (HotMetrics.bytesReceived (hot m)) →
    HotMetrics.bytesReceived (hot m') =
      u64 (HotMetrics.bytesReceived (hot m) + Z.of_nat (length (feed_bytes (take n ds))))
}.

Lemma blocks_read_none ds lb c m :
  isConnected (tcp c) = true → buffer_inv (receiveBuffer c) → is_u64 lb → blocks_read ds lb c m 0 lb c m.
Proof.
  intros Hc Hb Hl. split; cbn; rewrite ?app_nil_r, ?Z.add_0_r; try done; [lia|by rewrite u64_small|].
  intros Hr. by rewrite u64_small.
Qed.

Lemma blocks_read_cons d ds lb c m c1 n lb' c' m' :
  let k := Z.of_nat (length (recv_bytes d)) in
  contents (receiveBuffer c1) = contents (receiveBuffer c) ++ recv_bytes d →
  blocks_read ds (u64 (lb + k)) c1 (addBytesReceived k m) n lb' c' m' →
  blocks_read (d :: ds) lb c m (S n) lb' c' m'.
Proof.
  intros k Hc1 [H1 H2 H3 H4 H5 H6].
  assert (Hf : feed_bytes (take (S n) (d :: ds)) = recv_bytes d ++ feed_bytes (take n ds)) by done.
  split; rewrite ?Hf; [done|done|by rewrite H3, Hc1, app_assoc|cbn; lia|..].
  - rewrite H5, u64_u64_add, length_app. f_equal. unfold k. lia.
  - intros Hr. rewrite H6; rewrite addBytesReceived_hot; [|apply u64_range].
    rewrite u64_u64_add, length_app. f_equal. unfold k. lia.
Qed.

Lemma append_used b data b' :
  buffer_inv b → append b data = (true, b') → used b' = used b + Z.of_nat (length data).
Proof.
  intros Hb Happ. assert (H := append_refines b data Hb). rewrite Happ in H.
  destruct H as [(_ & _ & Hu' & _) [Hc _]]. destruct Hb as (_ & _ & Hu & _).
  assert (H := length_contents b'). rewrite Hc, length_app, length_contents in H. lia.
Qed.

(** With blocks that fit, the first loop appends a non-empty prefix of the
    feed to the buffer and goes on. *)
Lemma read_loop_blocks iters ds err lb c m :
  isConnected (tcp c) = true → buffer_inv (receiveBuffer c) → Forall block_ok ds → is_u64 lb →
  used (receiveBuffer c) + Z.of_nat (length (feed_bytes ds)) ≤ BUFFER_SIZE ∨
    used (receiveBuffer c) + Z.of_nat (iters * TEMP_SIZE) ≤ BUFFER_SIZE →
  ∃ n c' m' err' lb', read_loop iters ds err lb c m = (true, lb', (c', m'), drop n ds, err') ∧
    blocks_read ds lb c m n lb' c' m' ∧ (iters ≠ 0%nat → ds ≠ [] → n ≠ 0%nat).
Proof.
  revert ds err lb c m. induction iters as [|iters IH]; intros ds err lb c m Hc Hinv Hds Hlb Hfit.
  { exists 0%nat, c, m, err, lb. split; [done|]. split; [by apply blocks_read_none|done]. }
  cbn [read_loop]. rewrite Hc. destruct ds as [|d ds]; cbn [next_delivery].
  { exists 0%nat, c, m, EAGAIN, lb. cbn [recv_answer]. unfold receive. rewrite Hc. cbn.
    split; [by destruct c|]. split; [by apply blocks_read_none|done]. }
  apply Forall_cons in Hds as [Hd Hds]. destruct (block_bytes d Hd) as [Hlen ->].
  set (k := Z.of_nat (length (recv_bytes d))).
  destruct (receive_block k err (tcp c) m Hc ltac:(lia)) as (f & -> & Hf).
  destruct (Z.leb_spec k 0); [lia|]. change (receiveBuffer (c <| tcp := f (tcp c) |>)) with (receiveBuffer c).
  assert (Hk : k + used (receiveBuffer c) ≤ BUFFER_SIZE).
  { unfold feed_bytes in Hfit. rewrite fmap_cons in Hfit. cbn [concat] in Hfit.
    rewrite length_app in Hfit. lia. }
  assert (Happ := append_refines (receiveBuffer c) (recv_bytes d) Hinv).
  assert (Hus := append_used (receiveBuffer c) (recv_bytes d)).
  destruct (append (receiveBuffer c) (recv_bytes d)) as [[] b]; [|destruct Happ as (_ & _ & ?); lia].
  specialize (Hus b Hinv eq_refl). destruct Happ as [Hinv1 [Hc1 _]]. cbn [negb].
  set (c1 := c <| tcp := f (tcp c) |> <| receiveBuffer := b |>).
  assert (Hconn : isConnected (tcp c1) = true) by (unfold isConnected; cbn; by rewrite Hf).
  destruct (Z.ltb_spec k (Z.of_nat TEMP_SIZE)).
  - exists 1%nat, c1, (addBytesReceived k m), err, (u64 (lb + k)). split; [done|]. split; [|done].
    apply (blocks_read_cons d ds lb c m c1); [done|]. apply blocks_read_none; [done|done|apply u64_range].
  - destruct (IH ds err (u64 (lb + k)) c1 (addBytesReceived k m)) as (n & c' & m' & err' & lb' & Hrun & Hbr & _);
      [done|done|done|apply u64_range| |].
    { unfold feed_bytes in *. rewrite fmap_cons in Hfit. cbn [concat] in Hfit. rewrite length_app in Hfit.
      unfold c1. cbn [receiveBuffer set]. lia. }
    exists (S n), c', m', err', lb'. split; [exact Hrun|]. split; [|done].
    by apply (blocks_read_cons d ds lb c m c1).
Qed.

(** ** Dispatching *)

Section dispatching.
Context {World : Type}.
Context (messageCallback : option (MessageHeader → MarketData → World * SystemMetrics → World * SystemMetrics)).

Definition handle_all (ms : list (MessageHeader * list Z)) (s : Z * Z * (World * SystemMetrics))
  : Z * Z * (World * SystemMetrics) :=
  foldl (λ s m, handle_body messageCallback m.1 m.2 s) s ms.

(** The second loop takes off and handles every complete message at the
    front of the buffer, in order, and then does one last turn. *)
Lemma process_loop_drain fuel c k s :
  buffer_inv (receiveBuffer c) → (Z.to_nat (used (receiveBuffer c)) < fuel)%nat →
  let '(ms, rest) := drain_all (contents (receiveBuffer c)) in
  ∃ c' k', process_loop messageCallback fuel c k s = process_loop messageCallback 1 c' k' (handle_all ms s) ∧
    buffer_inv (receiveBuffer c') ∧ contents (receiveBuffer c') = rest ∧
    isConnected (tcp c') = isConnected (tcp c) ∧
    (is_u64 k → k' = u64 (k + Z.of_nat (length ms))).
Proof.
  revert c k s. induction fuel as [|fuel IH]; intros c k s Hinv Hf; [lia|].
  rewrite drain_all_unfold. assert (Hpk := peek_refines (receiveBuffer c) Hinv). unfold Spec.next.
  destruct (peekMessage (receiveBuffer c)) as [[r oh] ob] eqn:Hpeek.
  destruct (decide (r = SUCCESS)) as [->|Hr].
  - destruct oh as [h|]; [|destruct ob; [done|by destruct Hpk]].
    destruct ob as [[bs co]|]; [|by destruct Hpk]. destruct Hpk as (-> & Hv & Hl & Hu & -> & ->).
    destruct (consume_refines (receiveBuffer c) h Hinv Hl Hu) as [Hinv' Hc].
    assert (Hg := gather_contents (receiveBuffer c) h Hinv Hl Hu). cbv zeta in Hg.
    set (n := Z.to_nat (Header.length h)) in *.
    assert (Hc' : contents (consume (receiveBuffer c) h) = drop (2 + n) (contents (receiveBuffer c))).
    { rewrite Hc. f_equal. unfold n. lia. }
    set (c1 := c <| tcp ::= λ t, t <| messagesReceived ::= λ n, u64 (n + 1) |> |>
                 <| receiveBuffer ::= λ b, consume b h |>).
    assert (Hu1 : (Z.to_nat (used (receiveBuffer c1)) < fuel)%nat).
    { rewrite <- length_contents. unfold c1. cbn [receiveBuffer set]. rewrite Hc', length_drop, length_contents.
      apply validHeader_length in Hv. lia. }
    specialize (IH c1 (u64 (k + 1)) (handle_body messageCallback h (slice 2 n (contents (receiveBuffer c))) s) Hinv' Hu1).
    change (contents (receiveBuffer c1)) with (contents (consume (receiveBuffer c) h)) in IH. rewrite Hc' in IH.
    destruct (drain_all (drop (2 + n) (contents (receiveBuffer c)))) as [ms rest].
    destruct IH as (c' & k' & Hrun & Hi & Hco & Hconn & Hk). exists c', k'.
    split; [|split; [done|split; [done|split; [done|]]]].
    + etransitivity; [|exact Hrun]. cbn [process_loop]. rewrite Hpeek. cbn [receiveBuffer set].
      by rewrite Hg.
    + intros Hk0. rewrite Hk by apply u64_range. rewrite u64_u64_add. f_equal. cbn [length]. lia.
  - assert (Hsp : Spec.peek (contents (receiveBuffer c)) = (r, oh)).
    { destruct r; try done; destruct oh, ob as [[]|]; try done; by destruct Hpk. }
    rewrite Hsp. destruct r; try done; (exists c, k; split;
      [cbn [process_loop handle_all foldl]; by rewrite Hpeek|]; do 3 (split; [done|]);
      intros; cbn [length]; by rewrite Z.add_0_r, u64_small).
Qed.

(** The last turn of the loop, when no message is complete. *)
Lemma process_end_clean c k s h :
  buffer_inv (receiveBuffer c) → Spec.peek (contents (receiveBuffer c)) = (NEED_MORE_DATA, h) →
  process_loop messageCallback 1 c k s = Some (c, k, s).
Proof.
  intros Hinv Hp. assert (Hpk := peek_refines (receiveBuffer c) Hinv). cbn [process_loop].
  destruct (peekMessage (receiveBuffer c)) as [[r oh] ob].
  assert (Hr : r = NEED_MORE_DATA).
  { destruct r, oh, ob as [[]|]; try done; destruct Hpk as [Hpk _]; rewrite Hp in Hpk; congruence. }
  by rewrite Hr.
Qed.

(** The front of the buffer is not a header, and a later position within
    reach of [resync] looks like one. *)
Definition stalled (l : list Z) : Prop :=
  (∃ h, Spec.peek l = (INVALID_HEADER, h)) ∧
  ∃ j, 1 ≤ j ∧ j + 1 < Z.min (Z.of_nat (length l)) MAX_SCAN ∧ plausible_at l j.

Lemma process_end_stalled c k s :
  buffer_inv (receiveBuffer c) → stalled (contents (receiveBuffer c)) →
  ∃ m', process_loop messageCallback 1 c k s = Some (c, k, (s.1.1, s.1.2, (s.2.1, m'))).
Proof.
  intros Hinv [[h Hp] (j & Hj1 & Hj2 & Hj)].
  assert (Hpk := peek_refines (receiveBuffer c) Hinv). cbn [process_loop].
  assert (Hlen : Z.of_nat (length (contents (receiveBuffer c))) = used (receiveBuffer c)).
  { rewrite length_contents. destruct Hinv as (_ & _ & ? & _). lia. }
  destruct (peekMessage (receiveBuffer c)) as [[r oh] ob].
  assert (Hr : r = INVALID_HEADER).
  { destruct r, oh, ob as [[]|]; try done; destruct Hpk as [Hpk _]; rewrite Hp in Hpk; congruence. }
  rewrite Hr. destruct s as [[lq lt] [w m]]. unfold dropped. cbn [fst snd].
  assert (Hc := resync_cases (receiveBuffer c) (incMessagesDropped m) Hinv).
  destruct (resync (receiveBuffer c) (incMessagesDropped m)) as [[n b'] m'].
  destruct Hc as [(Hlt & _)|[(_ & _ & _ & _ & _ & -> & _)|(_ & Hn & Hno & _)]].
  - lia.
  - exists m'. by destruct c.
  - exfalso. apply (Hno j); [done| |done]. rewrite Hn. unfold scan_limit. lia.
Qed.

(** One call of [processIncomingData] on blocks that fit. *)
Lemma processIncomingData_blocks ds err c w m :
  isConnected (tcp c) = true → buffer_inv (receiveBuffer c) → Forall block_ok ds →
  used (receiveBuffer c) + Z.of_nat (length (feed_bytes ds)) ≤ BUFFER_SIZE ∨
    used (receiveBuffer c) + Z.of_nat (4 * TEMP_SIZE) ≤ BUFFER_SIZE →
  ∃ n c1 m1 lb err1, blocks_read ds 0 c m n lb c1 m1 ∧ (ds ≠ [] → n ≠ 0%nat) ∧
    ∃ c2, buffer_inv (receiveBuffer c2) ∧ isConnected (tcp c2) = true ∧
      contents (receiveBuffer c2) = (drain_all (contents (receiveBuffer c1))).2 ∧
      processIncomingData messageCallback ds err (c, (w, m)) =
        '(c', localMsgs, (localQuotes, localTrades, (w, m))) ←
          process_loop messageCallback 1 c2 (u64 (Z.of_nat (length (drain_all (contents (receiveBuffer c1))).1)))
            (handle_all (drain_all (contents (receiveBuffer c1))).1 (0, 0, (w, m1)));
        Some (true, (c', (w, publish_counts lb localMsgs localQuotes localTrades m)), drop n ds, err1).
Proof.
  intros Hc Hinv Hds Hfit.
  destruct (read_loop_blocks 4 ds err 0 c m Hc Hinv Hds ltac:(done) Hfit)
    as (n & c1 & m1 & err1 & lb & Hrun & Hbr & Hn).
  exists n, c1, m1, lb, err1. split; [done|]. split; [by apply Hn|].
  unfold processIncomingData. rewrite Hrun. cbn [negb].
  assert (Hd := process_loop_drain (S (Z.to_nat (used (receiveBuffer c1)))) c1 0 (0, 0, (w, m1))
            (br_inv _ _ _ _ _ _ _ _ Hbr) ltac:(lia)).
  destruct (drain_all (contents (receiveBuffer c1))) as [ms rest].
  destruct Hd as (c2 & k & -> & Hi2 & Hc2 & Hconn & Hk). cbn [fst snd]. exists c2.
  rewrite Hk by done. rewrite Hconn. split; [done|]. split; [apply Hbr|]. done.
Qed.
End dispatching.

(** ** Serving a feed *)

Section feed.
Context {World : Type}.
Context (cb : MessageHeader → MarketData → World * SystemMetrics → World * SystemMetrics).

(** [processIncomingData] called over and over, as the event loop does. *)
Fixpoint poll (calls : nat) (ds : list delivery) (err : Errno) (s : MarketDataClient * (World * SystemMetrics))
  : option ((MarketDataClient * (World * SystemMetrics)) * list delivery * Errno) :=
  match calls with
  | O => Some (s, ds, err)
  | S calls => '(_, s, ds, err) ← processIncomingData (Some cb) ds err s; poll calls ds err s
  end.

(** What a message means to the callback: nothing when its body is not
    valid. *)
Definition decode (m : MessageHeader * list Z) : option MarketData :=
  let len := Z.to_nat (Header.length m.1) in
  if Header.type m.1 =? Header.QUOTE_TYPE then
    q ← parseQuote m.2 len; if validateQuote q then Some (MdQuote q) else None
  else if Header.type m.1 =? Header.TRADE_TYPE then
    t ← parseTrade m.2 len; if validateTrade t then Some (MdTrade t) else None
  else None.

Lemma handle_body_decode m lq lt w mt :
  (handle_body (Some cb) m.1 m.2 (lq, lt, (w, mt))).2 =
    match decode m with Some d => cb m.1 d (w, mt) | None => (w, incMessagesDropped mt) end.
Proof using Type.
  unfold handle_body, decode, run_callback, dropped.
  destruct (Header.type m.1 =? Header.QUOTE_TYPE).
  - destruct (parseQuote _ _) as [q|]; cbn [mbind option_bind]; [by destruct (validateQuote q)|done].
  - destruct (Header.type m.1 =? Header.TRADE_TYPE); [|done].
    destruct (parseTrade _ _) as [t|]; cbn [mbind option_bind]; [by destruct (validateTrade t)|done].
Qed.

(** The messages of a stream that reach the callback. *)
Definition delivered (ms : list (MessageHeader * list Z)) : list (MessageHeader * MarketData) :=
  omap (λ m, d ← decode m; Some (m.1, d)) ms.

Lemma delivered_app ms1 ms2 : delivered (ms1 ++ ms2) = delivered ms1 ++ delivered ms2.
Proof using Type. apply omap_app. Qed.

(** The unread tail of a well-formed stream never looks corrupt. *)
Lemma frames_peek p suffix ms :
  Forall frame_ok ms → p ++ suffix = concat (frame <$> ms) → Spec.next p = None →
  ∃ h, Spec.peek p = (NEED_MORE_DATA, h).
Proof.
  intros Hms Hp Hn. destruct p as [|x [|y p]]; [by eexists..|].
  destruct Hms as [|[[len type] body] ms [Hv Hb] Hms]; [done|].
  cbn in Hp. injection Hp as -> -> Hp. unfold Spec.next in Hn. cbn [Spec.peek] in *.
  cbn [fst Header.length Header.type] in Hv. rewrite Hv in *. cbn [negb] in *.
  destruct (Z.ltb_spec (Z.of_nat (length p)) len); [by eexists|done].
Qed.

(** [P log w] relates the messages delivered so far to the callback's state;
    [M] is what is known of the bodies. *)
Section logged.
Context (M : MessageHeader * list Z → Prop) (P : list (MessageHeader * MarketData) → World → Prop).
Context (HP : ∀ log m d w mt, M m → decode m = Some d → P log w → P (log ++ [(m.1, d)]) (cb m.1 d (w, mt)).1).

Lemma handle_body_log log m lq lt w mt :
  M m → P log w → P (log ++ delivered [m]) (handle_body (Some cb) m.1 m.2 (lq, lt, (w, mt))).2.1.
Proof using HP.
  intros Hm Hw. rewrite handle_body_decode. unfold delivered. cbn [omap list_omap].
  destruct (decode m) as [d|] eqn:Hd; cbn [mbind option_bind]; [by apply HP|].
  rewrite app_nil_r. exact Hw.
Qed.

Lemma handle_all_log log ms s :
  Forall M ms → P log s.2.1 → P (log ++ delivered ms) (handle_all (Some cb) ms s).2.1.
Proof using HP.
  intros Hms. revert log s. unfold handle_all. induction Hms as [|m ms Hm Hms IH]; intros log [[lq lt] [w mt]] Hw.
  { by rewrite app_nil_r. }
  cbn [foldl]. change (m :: ms) with ([m] ++ ms). rewrite delivered_app, app_assoc.
  apply IH. by apply (handle_body_log log m lq lt w mt).
Qed.

Lemma poll_frames calls ds err c w m ms suffix log :
  isConnected (tcp c) = true → buffer_inv (receiveBuffer c) → Forall block_ok ds → Forall frame_ok ms →
  (length (contents (receiveBuffer c)) < 34)%nat →
  contents (receiveBuffer c) ++ feed_bytes ds ++ suffix = concat (frame <$> ms) → (length ds ≤ calls)%nat →
  Spec.next (contents (receiveBuffer c)) = None → Forall M ms → P log w →
  ∃ n c' w' m' err', poll calls ds err (c, (w, m)) = Some ((c', (w', m')), [], err') ∧
    P (log ++ delivered (take n ms)) w' ∧
    contents (receiveBuffer c) ++ feed_bytes ds = concat (frame <$> take n ms) ++ contents (receiveBuffer c') ∧
    (length (contents (receiveBuffer c')) < 34)%nat ∧
    contents (receiveBuffer c') ++ suffix = concat (frame <$> drop n ms) ∧
    Spec.next (contents (receiveBuffer c')) = None.
Proof using HP.
  revert ds err c w m ms log.
  induction calls as [|calls IH]; intros ds err c w m ms log Hc Hinv Hds Hms Hlen Hcat Hcalls Hnone HM Hw.
  { destruct ds; [|simpl in Hcalls; lia]. exists 0%nat, c, w, m, err. cbn. rewrite !app_nil_r. auto 10. }
  assert (Hu := length_contents (receiveBuffer c)). assert (Hi := Hinv). destruct Hi as (_ & _ & Hu' & _).
  destruct (processIncomingData_blocks (Some cb) ds err c w m Hc Hinv Hds)
    as (n & c1 & m1 & lb & err1 & Hbr & Hn & c2 & Hi2 & Hconn2 & Hc2 & Hrun).
  { right. change (Z.of_nat (4 * TEMP_SIZE)) with 16384. unfold BUFFER_SIZE in *. lia. }
  rewrite <- (take_drop n ds) in Hcat at 1. unfold feed_bytes in Hcat.
  rewrite fmap_app, concat_app, <- !app_assoc in Hcat. fold (feed_bytes (take n ds)) (feed_bytes (drop n ds)) in Hcat.
  rewrite app_assoc, <- (br_contents _ _ _ _ _ _ _ _ Hbr) in Hcat.
  destruct (drain_all_prefix ms _ _ Hms Hcat) as (k & p & Hd & Hp & Hl & Hs).
  rewrite Hd in Hc2, Hrun. cbn [fst snd] in *. apply drain_all_rest in Hd. rewrite drain_all_unfold in Hd.
  assert (Hnp : Spec.next p = None).
  { destruct (Spec.next p) as [[[h body] rest]|]; [|done]. by destruct (drain_all rest). }
  destruct (frames_peek p _ (drop k ms) ltac:(by apply Forall_drop) Hs Hnp) as [h Hpk].
  rewrite (process_end_clean _ _ _ _ h) in Hrun by (rewrite ?Hc2; done). cbn [mbind option_bind] in Hrun.
  cbn [poll]. rewrite Hrun.
  assert (Hw2 := handle_all_log log (take k ms) (0, 0, (w, m1)) (Forall_take _ _ _ HM) Hw).
  destruct (handle_all (Some cb) (take k ms) (0, 0, (w, m1))) as [[lq lt] [w2 m2]]. cbn [fst snd] in Hw2.
  cbn [mbind option_bind].
  destruct (IH (drop n ds) err1 c2 w2 (publish_counts lb (u64 (Z.of_nat (length (take k ms)))) lq lt m2)
    (drop k ms) (log ++ delivered (take k ms)))
    as (n' & c' & w' & m' & err' & Hrun' & HP' & Hc' & Hlen' & Hs' & Hn'); rewrite ?Hc2; try done.
  { by apply Forall_drop. } { by apply Forall_drop. }
  { rewrite length_drop. destruct ds; [simpl; lia|]. specialize (Hn ltac:(done)). simpl in *. lia. }
  { by apply Forall_drop. }
  exists (k + n')%nat, c', w', m', err'.
  split; [exact Hrun'|]. split; [|split; [|split; [done|split; [by rewrite drop_drop in Hs'|done]]]].
  - by rewrite <- app_assoc, <- delivered_app, take_take_drop in HP'.
  - rewrite <- (take_drop n ds) at 1. unfold feed_bytes at 1. rewrite fmap_app, concat_app, app_assoc.
    fold (feed_bytes (take n ds)) (feed_bytes (drop n ds)). rewrite <- (br_contents _ _ _ _ _ _ _ _ Hbr), Hl, <- app_assoc.
    rewrite Hc2 in Hc'. rewrite Hc', app_assoc. f_equal.
    by rewrite <- concat_app, <- fmap_app, take_take_drop.
Qed.

(** A feed from the first byte of a connection. *)
Lemma poll_feed calls ds err c w m ms suffix log :
  isConnected (tcp c) = true → buffer_inv (receiveBuffer c) → contents (receiveBuffer c) = [] →
  Forall block_ok ds → (length ds ≤ calls)%nat →
  Forall frame_ok ms → feed_bytes ds ++ suffix = concat (frame <$> ms) → Forall M ms → P log w →
  ∃ c' w' m' err', let complete := arrived ms (length (feed_bytes ds)) in
    poll calls ds err (c, (w, m)) = Some ((c', (w', m')), [], err') ∧
    P (log ++ delivered complete) w' ∧
    feed_bytes ds = concat (frame <$> complete) ++ contents (receiveBuffer c') ∧
    (length (contents (receiveBuffer c')) < 34)%nat ∧ complete `prefix_of` ms.
Proof using HP.
  intros Hc Hinv H0 Hds Hcalls Hms Hcat HM Hw.
  destruct (poll_frames calls ds err c w m ms suffix log)
    as (n & c' & w' & m' & err' & Hrun & Hw' & Hl & Hlt & Hs & Hn); rewrite ?H0; try done; [simpl; lia|].
  rewrite H0 in Hl. cbn [app] in Hl. exists c', w', m', err'. cbv zeta.
  assert (Ha := arrived_take n _ _ _ Hms Hs Hn). rewrite <- Hl in Ha. rewrite Ha.
  do 4 (split; [done|]). exists (drop n ms). by rewrite take_drop.
Qed.
End logged.

(** The callback's state does not depend on the global metrics: [step] is
    what it does to it. *)
Section pure_callback.
Context (step : MessageHeader → MarketData → World → World).
Context (Hcb : ∀ h d w m, (cb h d (w, m)).1 = step h d w).

(** C6: delivery.  However a stream of frames is cut into blocks, once the
    event loop has called [processIncomingData] at least once per block,
    the callback has been run on exactly the messages whose last byte has
    been received and which pass validation, in order and once each, and on
    nothing else; the buffer keeps exactly the bytes of the unfinished
    message. *)
Theorem feed_delivery (calls : nat) (ds : list delivery) (err : Errno) (c : MarketDataClient) (w : World)
    (m : SystemMetrics) (ms : list (MessageHeader * list Z)) (suffix : list Z) :
  isConnected (tcp c) = true → buffer_inv (receiveBuffer c) → contents (receiveBuffer c) = [] →
  Forall block_ok ds → (length ds ≤ calls)%nat →
  Forall frame_ok ms → feed_bytes ds ++ suffix = concat (frame <$> ms) →
  ∃ c' m' err', let complete := arrived ms (length (feed_bytes ds)) in
    poll calls ds err (c, (w, m)) =
      Some ((c', (foldl (λ w x, step x.1 x.2 w) w (delivered complete), m')), [], err') ∧
    feed_bytes ds = concat (frame <$> complete) ++ contents (receiveBuffer c') ∧
    (length (contents (receiveBuffer c')) < 34)%nat ∧ (suffix = [] → complete = ms).
Proof using Hcb.
  intros Hc Hinv H0 Hds Hcalls Hms Hcat.
  destruct (poll_feed (λ _, True) (λ log w', w' = foldl (λ w x, step x.1 x.2 w) w log))
    with (calls := calls) (ds := ds) (err := err) (c := c) (w := w) (m := m) (ms := ms) (suffix := suffix)
      (log := @nil (MessageHeader * MarketData))
    as (c' & w' & m' & err' & Hrun & -> & Hbytes & Hlt & _);
    [|done..|by apply Forall_true|done|].
  - intros log m1 d w1 mt _ _ ->. by rewrite foldl_app, Hcb.
  - exists c', m', err'. do 3 (split; [done|]).
    intros ->. rewrite app_nil_r in Hcat. rewrite Hcat. by apply arrived_all.
Qed.
End pure_callback.

Lemma stalled_app l k : stalled l → stalled (l ++ k).
Proof.
  intros [[h Hp] (j & Hj1 & Hj2 & Hj)]. split.
  - destruct l as [|len [|type body]]; try done. cbn [Spec.peek app] in *. exists h.
    destruct (negb _); [done|]. by destruct (_ <? _).
  - exists j. split; [done|]. rewrite length_app. split; [lia|]. unfold plausible_at in *.
    rewrite !lookup_total_app_l by lia. done.
Qed.

Lemma stalled_drain l : stalled l → drain_all l = ([], l).
Proof. intros [[h Hp] _]. rewrite drain_all_unfold. unfold Spec.next. by rewrite Hp. Qed.

(** C27: a corrupt header with a good one behind it stops the feed.  When the
    front of the buffer is not a header while [resync] can see a plausible
    one further on, [resync] reports its position and leaves the buffer as
    it is, and the client ignores what it reports: however many blocks
    arrive and however often [processIncomingData] is called, no message is
    delivered and the buffer only grows, until it is full. *)
Theorem corrupt_header_stalls (calls : nat) (ds : list delivery) (err : Errno) (c : MarketDataClient) (w : World)
    (m : SystemMetrics) :
  isConnected (tcp c) = true → buffer_inv (receiveBuffer c) → stalled (contents (receiveBuffer c)) →
  Forall block_ok ds → (length ds ≤ calls)%nat →
  used (receiveBuffer c) + Z.of_nat (length (feed_bytes ds)) ≤ BUFFER_SIZE →
  ∃ c' m' err', poll calls ds err (c, (w, m)) = Some ((c', (w, m')), [], err') ∧
    contents (receiveBuffer c') = contents (receiveBuffer c) ++ feed_bytes ds.
Proof using Type.
  revert ds err c m. induction calls as [|calls IH]; intros ds err c m Hc Hinv Hst Hds Hcalls Hfit.
  { destruct ds; [|simpl in Hcalls; lia]. exists c, m, err. by rewrite app_nil_r. }
  destruct (processIncomingData_blocks (Some cb) ds err c w m Hc Hinv Hds (or_introl Hfit))
    as (n & c1 & m1 & lb & err1 & Hbr & Hn & c2 & Hi2 & Hconn2 & Hc2 & Hrun).
  assert (Hst1 : stalled (contents (receiveBuffer c1))).
  { rewrite (br_contents _ _ _ _ _ _ _ _ Hbr). by apply stalled_app. }
  rewrite (stalled_drain _ Hst1) in Hc2, Hrun. cbn [fst snd handle_all foldl] in *.
  rewrite <- Hc2 in Hst1. destruct (process_end_stalled (Some cb) c2 (u64 (Z.of_nat (length (@nil (MessageHeader * list Z)))))
    (0, 0, (w, m1)) Hi2 Hst1) as [m2 Hend]. rewrite Hend in Hrun. cbn [mbind option_bind fst snd] in Hrun.
  cbn [poll]. rewrite Hrun. cbn [mbind option_bind].
  assert (Hsplit : feed_bytes ds = feed_bytes (take n ds) ++ feed_bytes (drop n ds)).
  { unfold feed_bytes. by rewrite <- concat_app, <- fmap_app, take_drop. }
  rewrite (br_contents _ _ _ _ _ _ _ _ Hbr) in Hc2.
  edestruct (IH (drop n ds) err1 c2) as (c' & m' & err' & Hrun' & Hc'); rewrite ?Hc2; try done.
  - by apply stalled_app.
  - by apply Forall_drop.
  - rewrite length_drop. destruct ds; [simpl; lia|]. specialize (Hn ltac:(done)). simpl in *. lia.
  - assert (H2 := length_contents (receiveBuffer c2)). rewrite Hc2, length_app, length_contents in H2.
    rewrite Hsplit, length_app in Hfit. destruct Hi2 as (_&_&?&_). destruct Hinv as (_&_&?&_). lia.
  - exists c', m', err'. split; [exact Hrun'|]. by rewrite Hc', Hc2, <- app_assoc, <- Hsplit.
Qed.

(** ** Byte accounting *)

Definition bytes_in (m : SystemMetrics) : Z := HotMetrics.bytesReceived (hot m).
Context (Hquiet : ∀ h d s, bytes_in (cb h d s).2 = bytes_in s.2).

Lemma handle_body_bytes h body s : bytes_in (handle_body (Some cb) h body s).2.2 = bytes_in s.2.2.
Proof using Hquiet.
  destruct s as [[lq lt] w]. unfold handle_body, run_callback.
  destruct (Header.type h =? Header.QUOTE_TYPE).
  - destruct (parseQuote _ _) as [q|]; [|done]. destruct (validateQuote q); [apply Hquiet|done].
  - destruct (Header.type h =? Header.TRADE_TYPE); [|done].
    destruct (parseTrade _ _) as [t|]; [|done]. destruct (validateTrade t); [apply Hquiet|done].
Qed.

Lemma handle_all_bytes ms s : bytes_in (handle_all (Some cb) ms s).2.2 = bytes_in s.2.2.
Proof using Hquiet.
  unfold handle_all. revert s. induction ms as [|m ms IH]; intros s; [done|].
  cbn [foldl]. by rewrite IH, handle_body_bytes.
Qed.

Lemma process_end_bytes c k s :
  buffer_inv (receiveBuffer c) → Spec.next (contents (receiveBuffer c)) = None →
  ∃ c' s', process_loop (Some cb) 1 c k s = Some (c', k, s') ∧ bytes_in s'.2.2 = bytes_in s.2.2.
Proof using Type.
  intros Hinv Hn. assert (Hpk := peek_refines (receiveBuffer c) Hinv). cbn [process_loop].
  destruct (peekMessage (receiveBuffer c)) as [[r oh] ob].
  destruct (decide (r = INVALID_HEADER)) as [->|Hr].
  - destruct s as [[lq lt] [w m]]. unfold dropped. cbn [fst snd].
    assert (H := resync_cases (receiveBuffer c) (incMessagesDropped m) Hinv).
    destruct (resync (receiveBuffer c) (incMessagesDropped m)) as [[n b'] m'].
    eexists _, _. split; [reflexivity|]. cbn [fst snd].
    destruct H as [(_ & _ & _ & ->)|[(_ & _ & _ & _ & _ & _ & ->)|(_ & _ & _ & _ & _ & ->)]]; try done.
    by destruct (8 <=? n).
  - destruct r; try done; [|by eexists _, _..]. exfalso. unfold Spec.next in Hn.
    destruct oh as [h|], ob as [[bs co]|]; try done; [|by destruct Hpk..].
    destruct Hpk as (Hp & _). by rewrite Hp in Hn.
Qed.

(** every byte is counted twice.  [TcpClient::receive] adds what it reads
    to the global byte counter, and [processIncomingData] adds the sum of
    the same reads again. *)
Theorem bytes_counted_twice (ds : list delivery) (err : Errno) (c : MarketDataClient) (w : World) (m : SystemMetrics) :
  isConnected (tcp c) = true → buffer_inv (receiveBuffer c) → Forall block_ok ds → is_u64 (bytes_in m) →
  used (receiveBuffer c) + Z.of_nat (length (feed_bytes ds)) ≤ BUFFER_SIZE →
  ∃ n c' w' m' err', processIncomingData (Some cb) ds err (c, (w, m)) = Some (true, (c', (w', m')), drop n ds, err') ∧
    (ds ≠ [] → n ≠ 0%nat) ∧
    bytes_in m' = u64 (bytes_in m + 2 * Z.of_nat (length (feed_bytes (take n ds)))).
Proof using Hquiet.
  intros Hc Hinv Hds Hm Hfit.
  destruct (processIncomingData_blocks (Some cb) ds err c w m Hc Hinv Hds (or_introl Hfit))
    as (n & c1 & m1 & lb & err1 & Hbr & Hn & c2 & Hi2 & Hconn2 & Hc2 & Hrun).
  destruct (drain_all (contents (receiveBuffer c1))) as [ms rest] eqn:Hd. cbn [fst snd] in *.
  apply drain_all_rest in Hd. rewrite drain_all_unfold, <- Hc2 in Hd.
  edestruct (process_end_bytes c2) as (c' & [[lq lt] [w' m']] & Hend & Hb); [done| |rewrite Hend in Hrun].
  { destruct (Spec.next (contents (receiveBuffer c2))) as [[[h b] r]|]; [|done]. by destruct (drain_all r). }
  cbn [mbind option_bind] in Hrun. eexists n, _, _, _, _. split; [exact Hrun|]. split; [done|].
  rewrite handle_all_bytes in Hb. cbn [fst snd] in Hb.
  set (len := Z.of_nat (length (feed_bytes (take n ds)))) in *.
  assert (Hglob := br_global _ _ _ _ _ _ _ _ Hbr Hm). fold (bytes_in m) (bytes_in m1) len in Hglob.
  assert (Hloc := br_local _ _ _ _ _ _ _ _ Hbr). fold len in Hloc. rewrite Z.add_0_l in Hloc.
  assert (Hpub : bytes_in (publish_counts lb (u64 (Z.of_nat (length ms))) lq lt m') =
            if negb (lb =? 0) then u64 (bytes_in m' + lb) else bytes_in m').
  { unfold publish_counts. destruct (negb (lb =? 0)), (negb (u64 _ =? 0)), (negb (lq =? 0)), (negb (lt =? 0)); done. }
  rewrite Hpub, Hb, Hglob. replace (bytes_in m + 2 * len) with (len + (bytes_in m + len)) by lia.
  rewrite <- (u64_u64_add len), <- Hloc. destruct (Z.eqb_spec lb 0) as [->|_]; cbn [negb].
  - by rewrite Z.add_0_l.
  - rewrite u64_u64_add. f_equal. lia.
Qed.

(** the end of the stream strands what was read.  When the server's last
    block fills a read and the next read finds the connection closed,
    [processIncomingData] returns at once: the messages in that block are
    not handed to the callback, and they stay in the buffer, in front of
    whatever the next connection will deliver. *)
Theorem eof_strands_block (block : list Z) (ds : list delivery) (err : Errno) (c : MarketDataClient) (w : World)
    (m : SystemMetrics) :
  isConnected (tcp c) = true → buffer_inv (receiveBuffer c) → length block = TEMP_SIZE →
  used (receiveBuffer c) + Z.of_nat TEMP_SIZE ≤ BUFFER_SIZE →
  ∃ c' m', processIncomingData (Some cb) (Delivered block :: Delivered [] :: ds) err (c, (w, m)) =
      Some (false, (c', (w, m')), ds, err) ∧
    state (tcp c') = ERROR_STATE ∧ contents (receiveBuffer c') = contents (receiveBuffer c) ++ block.
Proof using Type.
  intros Hc Hinv Hlen Hfit. unfold processIncomingData. cbn [read_loop]. rewrite Hc. cbn [next_delivery recv_bytes recv_answer].
  rewrite take_ge, Hlen by lia.
  destruct (receive_block (Z.of_nat TEMP_SIZE) err (tcp c) m Hc ltac:(done)) as (f & -> & Hf).
  replace (Z.of_nat TEMP_SIZE <=? 0) with false by done.
  change (receiveBuffer (c <| tcp := f (tcp c) |>)) with (receiveBuffer c).
  assert (Happ := append_refines (receiveBuffer c) block Hinv).
  destruct (append (receiveBuffer c) block) as [[] b]; [|destruct Happ as (_ & _ & ?); lia].
  destruct Happ as [_ [Hc1 _]]. cbn [negb]. rewrite Z.ltb_irrefl.
  assert (Hf' : isConnected (f (tcp c)) = true) by (unfold isConnected in *; by rewrite Hf).
  cbn [tcp receiveBuffer set]. rewrite Hf'. unfold receive. rewrite Hf'.
  cbn [negb length take result Z.of_nat Z.gtb Z.compare Z.eqb Z.leb].
  eexists _, _. split; [reflexivity|]. done.
Qed.
End feed.

(** ** Whatever the network does

    For any deliveries, failures and any bytes, a call of
    [processIncomingData] returns, and the client stays well formed; a
    property [P] of the callback's state that the callback preserves is
    preserved. *)

Record md_inv (c : MarketDataClient) : Prop := {
  mi_tcp : tcp_inv (tcp c);
  mi_buffer : buffer_inv (receiveBuffer c)
}.

Lemma append_inv b data : buffer_inv b → buffer_inv (append b data).2.
Proof. intros Hb. assert (H := append_refines b data Hb). destruct (append b data). apply H. Qed.

Lemma md_inv_buffer c b : md_inv c → buffer_inv b → md_inv (c <| receiveBuffer := b |>).
Proof. intros [] ?. by constructor. Qed.

Lemma read_loop_inv iters ds err lb c m : md_inv c → md_inv (read_loop iters ds err lb c m).1.1.2.1.
Proof.
  revert ds err lb c m. induction iters as [|iters IH]; intros ds err lb c m Hi; [done|]. cbn [read_loop].
  destruct (if isConnected (tcp c) then next_delivery ds else (RecvFails err, ds)) as [d ds'].
  assert (Hr := receive_inv (recv_answer d) err (tcp c) m (mi_tcp c Hi)).
  destruct (receive (recv_answer d) err (tcp c, m)) as [[n [t m']] err']. cbn [fst snd] in Hr.
  assert (Hi1 : md_inv (c <| tcp := t |>)) by (by destruct Hi).
  destruct (n <=? 0); [by destruct (n =? 0); [|destruct (would_block err' || is_errno err' EINTR)]|].
  assert (Ha := append_inv (receiveBuffer c) (recv_bytes d) (mi_buffer c Hi)).
  change (receiveBuffer (c <| tcp := t |>)) with (receiveBuffer c).
  destruct (append (receiveBuffer c) (recv_bytes d)) as [ok b]. cbn [snd] in Ha.
  assert (Hi2 := md_inv_buffer _ b Hi1 Ha). destruct ok; cbn [negb].
  - destruct (n <? Z.of_nat TEMP_SIZE); [done|by apply IH].
  - apply (md_inv_buffer _ (clear b) Hi2). by apply clear_refines.
Qed.

Section safety.
Context {World : Type} (P : World → Prop).
Context (cb : MessageHeader → MarketData → World * SystemMetrics → World * SystemMetrics).
Context (Hcb : ∀ h d w m, P w → P (cb h d (w, m)).1).

Lemma handle_body_safe h body s : P s.2.1 → P (handle_body (Some cb) h body s).2.1.
Proof using Hcb.
  destruct s as [[lq lt] [w m]]. unfold handle_body, run_callback, dropped. intros Hw.
  destruct (Header.type h =? Header.QUOTE_TYPE).
  - destruct (parseQuote _ _) as [q|]; [|done]. destruct (validateQuote q); [by apply Hcb|done].
  - destruct (Header.type h =? Header.TRADE_TYPE); [|done].
    destruct (parseTrade _ _) as [t|]; [|done]. destruct (validateTrade t); [by apply Hcb|done].
Qed.

Lemma process_loop_safe fuel c k s :
  md_inv c → (Z.to_nat (used (receiveBuffer c)) < fuel)%nat → P s.2.1 →
  ∃ c' k' s', process_loop (Some cb) fuel c k s = Some (c', k', s') ∧ md_inv c' ∧ P s'.2.1.
Proof using Hcb.
  revert c k s. induction fuel as [|fuel IH]; intros c k s Hi Hf Hw; [lia|]. cbn [process_loop].
  assert (Hinv := mi_buffer c Hi). assert (Hpk := peek_refines (receiveBuffer c) Hinv).
  destruct (peekMessage (receiveBuffer c)) as [[r oh] ob].
  destruct (decide (r = SUCCESS)) as [->|Hs].
  - destruct oh as [h|], ob as [[bs co]|]; try (by destruct Hpk).
    destruct Hpk as (_ & Hv & Hl & Hu & -> & ->).
    destruct (consume_refines (receiveBuffer c) h Hinv Hl Hu) as [Hinv' Hc].
    match goal with |- context [process_loop _ fuel ?c1 _ ?s1] =>
      destruct (IH c1 (u64 (k + 1)) s1) as (c' & k' & s' & -> & Hi' & Hw') end.
    + destruct Hi as [[] _]. by split.
    + rewrite <- length_contents. cbn [receiveBuffer set]. rewrite Hc, length_drop, length_contents.
      apply validHeader_length in Hv. lia.
    + by apply handle_body_safe.
    + by exists c', k', s'.
  - destruct r; try done; try by exists c, k, s. destruct s as [[lq lt] [w m]]. unfold dropped. cbn [fst snd] in *.
    assert (H := resync_cases (receiveBuffer c) (incMessagesDropped m) Hinv).
    destruct (resync (receiveBuffer c) (incMessagesDropped m)) as [[n b'] m'].
    eexists _, _, _. split; [reflexivity|]. split; [|done].
    apply md_inv_buffer; [done|].
    by destruct H as [(_ & _ & -> & _)|[(_ & _ & _ & _ & _ & -> & _)|(_ & _ & _ & ? & _)]].
Qed.

Lemma processIncomingData_safe ds err c w m :
  md_inv c → P w →
  ∃ ok c' w' m' ds' err', processIncomingData (Some cb) ds err (c, (w, m)) =
    Some (ok, (c', (w', m')), ds', err') ∧ md_inv c' ∧ P w'.
Proof using Hcb.
  intros Hi Hw. unfold processIncomingData.
  assert (Hr := read_loop_inv 4 ds err 0 c m Hi).
  destruct (read_loop 4 ds err 0 c m) as [[[[go lb] [c1 m1]] ds1] err1]. cbn [fst snd] in Hr.
  destruct go; cbn [negb]; [|by eexists false, c1, w, m1, ds1, err1].
  destruct (process_loop_safe (S (Z.to_nat (used (receiveBuffer c1)))) c1 0 (0, 0, (w, m1)) Hr ltac:(lia) Hw)
    as (c' & k' & [[lq lt] [w' m']] & -> & Hi' & Hw'). cbn [mbind option_bind].
  by eexists true, c', w', _, ds1, err1.
Qed.
End safety.

(** ** Concrete feeds *)

Module Examples.
Definition logger (h : MessageHeader) (d : MarketData) (s : list MarketData * SystemMetrics)
  : list MarketData * SystemMetrics := (s.1 ++ [d], s.2).
Definition log (h : MessageHeader) (d : MarketData) (w : list MarketData) : list MarketData := w ++ [d].

Definition online : TcpClient := TcpClient_init <| socketFd := 3 |> <| state := CONNECTED |>.
Definition client : MarketDataClient := MarketDataClient_init (replicate cap 0) <| tcp := online |>.

Lemma feed_client_inv : buffer_inv (receiveBuffer client).
Proof. apply buffer_init_inv, length_replicate. Qed.

Definition two : list (MessageHeader * list Z) :=
  [(Header.mk 32 1, quote_bytes sample_quote); (Header.mk 24 2, trade_bytes sample_trade)].
Definition stream : list Z := concat (frame <$> two).

(** The stream in three blocks, cut inside both messages. *)
Definition blocks : list delivery :=
  [Delivered (take 20 stream); Delivered (slice 20 30 stream); Delivered (drop 50 stream)].

Lemma feed_delivery_witness :
  ∃ c' m' err', poll logger 3 blocks (EOTHER 0) (client, ([], SystemMetrics_init)) =
    Some ((c', ([MdQuote sample_quote; MdTrade sample_trade], m')), [], err').
Proof.
  destruct (feed_delivery logger log ltac:(done) 3 blocks (EOTHER 0) client [] SystemMetrics_init two [])
    as (c' & m' & err' & Hrun & _ & _ & Htwo).
  - reflexivity.
  - exact feed_client_inv.
  - reflexivity.
  - concrete.
  - done.
  - concrete.
  - concrete.
  - exists c', m', err'. rewrite (Htwo eq_refl) in Hrun. exact Hrun.
Defined.

(** Two stray bytes in front of the first message. *)
Definition corrupt : MarketDataClient :=
  client <| receiveBuffer := (append (MessageBuffer_init (replicate cap 0)) ([255; 255] ++ stream)).2 |>.

Lemma corrupt_inv : buffer_inv (receiveBuffer corrupt).
Proof.
  assert (H := append_refines (receiveBuffer client) ([255; 255] ++ stream) feed_client_inv).
  unfold corrupt. change (receiveBuffer client) with (MessageBuffer_init (replicate cap 0)) in H.
  destruct (append _ _) as [ok b]. apply H.
Qed.

Lemma corrupt_contents : contents (receiveBuffer corrupt) = [255; 255] ++ stream.
Proof. vm_compute. reflexivity. Qed.

Lemma corrupt_stalled : stalled (contents (receiveBuffer corrupt)).
Proof.
  rewrite corrupt_contents. split; [eexists; vm_compute; reflexivity|].
  exists 2. split; [done|]. split; [done|]. left. done.
Qed.

(** Two complete messages are there, more arrive, and none is delivered. *)
Lemma corrupt_header_stalls_witness :
  ∃ c' m' err', poll logger 5 blocks (EOTHER 0) (corrupt, ([], SystemMetrics_init)) =
      Some ((c', ([], m')), [], err') ∧
    contents (receiveBuffer c') = [255; 255] ++ stream ++ stream.
Proof.
  destruct (corrupt_header_stalls logger 5 blocks (EOTHER 0) corrupt [] SystemMetrics_init)
    as (c' & m' & err' & Hrun & Hc).
  - reflexivity.
  - exact corrupt_inv.
  - exact corrupt_stalled.
  - concrete.
  - cbn. lia.
  - vm_compute. discriminate.
  - exists c', m', err'. split; [exact Hrun|]. rewrite Hc, corrupt_contents. vm_compute. reflexivity.
Defined.

Lemma bytes_counted_twice_witness :
  ∃ c' w' m' err', processIncomingData (Some logger) [Delivered stream] (EOTHER 0) (client, ([], SystemMetrics_init))
    = Some (true, (c', (w', m')), [], err') ∧ bytes_in m' = 2 * Z.of_nat (length stream).
Proof.
  destruct (bytes_counted_twice logger ltac:(done) [Delivered stream] (EOTHER 0) client [] SystemMetrics_init)
    as (n & c' & w' & m' & err' & Hrun & Hn & Hb).
  - reflexivity.
  - exact feed_client_inv.
  - concrete.
  - done.
  - vm_compute. discriminate.
  - destruct n as [|n]; [by destruct (Hn ltac:(done))|].
    exists c', w', m', err'. split; [destruct n; exact Hrun|].
    rewrite Hb. destruct n; vm_compute; reflexivity.
Defined.

(** The last block of a connection holds a complete trade. *)
Lemma eof_strands_block_witness :
  ∃ c' m', processIncomingData (Some logger)
      [Delivered (trade_frame sample_trade ++ replicate 4070 0); Delivered []] (EOTHER 0)
      (client, ([], SystemMetrics_init)) = Some (false, (c', ([], m')), [], EOTHER 0) ∧
    state (tcp c') = ERROR_STATE.
Proof.
  destruct (eof_strands_block logger (trade_frame sample_trade ++ replicate 4070 0) [] (EOTHER 0) client []
    SystemMetrics_init) as (c' & m' & Hrun & Hs & _).
  - reflexivity.
  - exact feed_client_inv.
  - vm_compute. reflexivity.
  - vm_compute. discriminate.
  - exists c', m'. split; [exact Hrun|exact Hs].
Defined.
End Examples.
