(* ===== verification/NetworkManager.v ===== *)
(** * The network manager ([include/network_manager.h], [src/network_manager.cpp],
      [include/config.h])

    Owns the two clients, drives them from one [select] loop and reconnects
    them.  The order client is part of what a market-data callback can reach
    (through [sendOrder]), so it is threaded through the callbacks together
    with the application's own state. *)
From S2P Require Import Prelude Metrics Message MessageSerializer MessageParser MessageBuffer TcpClient.
From S2P Require OrderClient MarketDataClient.
Import WireFormat.
Abbreviation OrderClientT := OrderClient.OrderClient.
Abbreviation MarketClientT := MarketDataClient.MarketDataClient.

(** ** Configuration *)

Module Config.
Record Config := mk {
  symbol : list Z; side : Z; maxOrderSize : Z; vwapWindowSeconds : Z;
  marketDataHost : list Z; marketDataPort : Z; orderHost : list Z; orderPort : Z }.
#[global] Instance eta_Config : Settable Config := fun r =>
  mk (symbol r) (side r) (maxOrderSize r) (vwapWindowSeconds r) (marketDataHost r) (marketDataPort r)
    (orderHost r) (orderPort r).
Definition init : Config := mk [] char_B 0 0 [] 0 [] 0.
End Config.
Notation Config := Config.Config.

(** ** State *)

(** The owned pointers are null until [initialize]; the clocks are in
    nanoseconds, the delays in milliseconds. *)
Record NetworkManager := mkNetwork {
  marketClient : option MarketClientT; orderClient : option OrderClientT; running : bool;
  marketReconnectDelay : Z; orderReconnectDelay : Z;
  lastMarketReconnect : Z; lastOrderReconnect : Z }.
#[global] Instance eta_NetworkManager : Settable NetworkManager := fun r =>
  mkNetwork (marketClient r) (orderClient r) (running r) (marketReconnectDelay r) (orderReconnectDelay r)
    (lastMarketReconnect r) (lastOrderReconnect r).

Definition NetworkManager_init (nowMarket nowOrder : Z) : NetworkManager :=
  mkNetwork None None false 1000 1000 nowMarket nowOrder.

(** ** Reconnection *)

(** [pct] is the draw of the uniform distribution on [85 .. 115]. *)
Definition applyJitter (baseMs pct : Z) : Z := u64 (baseMs * pct) / 100.

(** The clock of the manager (ns) and of the client (ms), the answers of the
    system calls and the two random draws. *)
Record ReconnectEnv := mkReconnectEnv {
  re_now : Z; re_nowMs : Z; re_connect : ConnectEnv; re_jitter : Z; re_pct : Z }.

(** [tryReconnectMarket] and [tryReconnectOrder] are the same code on
    different members: a delay, the time of the last attempt and a client. *)
Definition tryReconnect (env : ReconnectEnv) (err : Errno) (delay last : Z) (t : TcpClient) (m : SystemMetrics)
  : option (Z * Z * TcpClient * SystemMetrics * Errno) :=
  if re_now env - last <? delay * 1000000 then Some (delay, last, t, m, err) else
  let last := re_now env in
  '(ok, t, err) ← reconnect (re_connect env) (re_nowMs env) (re_jitter env) err t;
  if (ok : bool) then Some (1000, last, t, incConnectionsAccepted m, err)
  else
    let delay := Z.min (u64 (delay * 2)) 60000 in
    Some (applyJitter delay (re_pct env), last, t, incConnectionErrors m, err).

Definition tryReconnectMarket (env : ReconnectEnv) (err : Errno) (c : MarketClientT) (n : NetworkManager)
    (m : SystemMetrics) : option (MarketClientT * NetworkManager * SystemMetrics * Errno) :=
  '(delay, last, t, m, err) ←
    tryReconnect env err (marketReconnectDelay n) (lastMarketReconnect n) (MarketDataClient.tcp c) m;
  Some (c <| MarketDataClient.tcp := t |>,
        n <| marketReconnectDelay := delay |> <| lastMarketReconnect := last |>, m, err).

Definition tryReconnectOrder (env : ReconnectEnv) (err : Errno) (c : OrderClientT) (n : NetworkManager)
    (m : SystemMetrics) : option (OrderClientT * NetworkManager * SystemMetrics * Errno) :=
  '(delay, last, t, m, err) ←
    tryReconnect env err (orderReconnectDelay n) (lastOrderReconnect n) (OrderClient.tcp c) m;
  Some (c <| OrderClient.tcp := t |>,
        n <| orderReconnectDelay := delay |> <| lastOrderReconnect := last |>, m, err).

(** What a callback can reach, and the state of the whole process. *)
Abbreviation reach App := ((App * OrderClientT) * SystemMetrics)%type.
Abbreviation net_state App := (NetworkManager * (App * SystemMetrics))%type.

Section manager.
Context {App : Type}.
Context (quoteCallback : option (QuoteMessage → reach App → reach App)).
Context (tradeCallback : option (TradeMessage → reach App → reach App)).

(** The [void] pointer has the type the header announces: the two other
    combinations do not arise. *)
Definition handleMarketData (header : MessageHeader) (data : MarketDataClient.MarketData) (s : reach App) : reach App :=
  if Header.type header =? Header.QUOTE_TYPE then
    match data, quoteCallback with MarketDataClient.MdQuote q, Some cb => cb q s | _, _ => s end
  else if Header.type header =? Header.TRADE_TYPE then
    match data, tradeCallback with MarketDataClient.MdTrade t, Some cb => cb t s | _, _ => s end
  else s.

(** [mem] and [queue]: the uninitialised arrays of the new clients. *)
Definition initialize (mem : list Z) (queue : list OrderClient.PendingSend) (marketEnv orderEnv : ConnectEnv)
    (err : Errno) (n : NetworkManager) : option (bool * NetworkManager * Errno) :=
  let c := MarketDataClient.MarketDataClient_init mem in
  let o := OrderClient.OrderClient_init queue in
  '(ok, t, err) ← connect marketEnv err (MarketDataClient.tcp c);
  let n := n <| marketClient := Some (c <| MarketDataClient.tcp := t |>) |> <| orderClient := Some o |> in
  if negb ok then Some (false, n, err) else
  '(ok, t, err) ← connect orderEnv err (OrderClient.tcp o);
  let n := n <| orderClient := Some (o <| OrderClient.tcp := t |>) |> in
  if negb ok then Some (false, n, err) else
  Some (true, n <| running := true |>, err).

(** One turn of the loop: the answers of [select] (its result, and which
    of the two sockets it reports), of [recv] and of [send]. *)
Record EventsEnv := mkEventsEnv {
  ev_market : ReconnectEnv; ev_order : ReconnectEnv;
  ev_select : answer; ev_readable : bool; ev_writable : bool;
  ev_send : list answer }.

(** [kernel] is what the market socket will deliver.  The bytes handed to
    the order socket are the last component; [handlePeriodicTasks] only
    touches a clock of its own. *)
Definition processEvents (env : EventsEnv) (kernel : list MarketDataClient.delivery) (err : Errno) (s : net_state App)
  : option (net_state App * list MarketDataClient.delivery * Errno * list Z) :=
  let '(n, (app, m)) := s in
  if negb (running n) then Some (s, kernel, err, []) else
  c ← marketClient n;
  o ← orderClient n;
  let readSet := isConnected (MarketDataClient.tcp c) in
  '(c, n, m, err) ← (if readSet then Some (c, n, m, err) else tryReconnectMarket (ev_market env) err c n m);
  let writeSet := isConnected (OrderClient.tcp o) in
  '(o, n, m, err) ← (if writeSet then Some (o, n, m, err) else tryReconnectOrder (ev_order env) err o n m);
  let close c o n app m err kernel wire :=
    Some ((n <| marketClient := Some c |> <| orderClient := Some o |>, (app, m)), kernel, err, wire) in
  if negb readSet && negb writeSet then close c o n app m err kernel [] else
  let activity := result (ev_select env) in
  let err := errno_after (ev_select env) err in
  if activity <? 0 then close c o n app m err kernel [] else
  '((c, ((app, o), m)), kernel, err) ←
    (if isConnected (MarketDataClient.tcp c) && (readSet && ev_readable env) then
       '(_, s, kernel, err) ← MarketDataClient.processIncomingData (Some handleMarketData) kernel err (c, ((app, o), m));
       Some (s, kernel, err)
     else Some ((c, ((app, o), m)), kernel, err));
  '(wire, (o, m), err) ←
    (if isConnected (OrderClient.tcp o) && (writeSet && ev_writable env)
     then OrderClient.processSendQueue (ev_send env) err (o, m)
     else Some ([], (o, m), err));
  close c o n app m err kernel wire.

Definition stop (n : NetworkManager) : NetworkManager :=
  if negb (running n) then n else
  n <| running := false |>
    <| marketClient ::= option_map (λ c, c <| MarketDataClient.tcp ::= disconnect |>) |>
    <| orderClient ::= option_map (λ o, o <| OrderClient.tcp ::= disconnect |>) |>.
End manager.

(** [sendOrder] as the callbacks see it. *)
Definition sendOrder (mem : list Z) (order : OrderMessage) (a : answer) (err : Errno)
    (orderClient : option OrderClientT) (m : SystemMetrics)
  : bool * list Z * (option OrderClientT * SystemMetrics) * Errno :=
  match orderClient with
  | Some o =>
      let '(ok, wire, (o, m), err) := OrderClient.sendOrder mem order a err (o, m) in (ok, wire, (Some o, m), err)
  | None => (false, [], (None, m), err)
  end.

(** ** Reconnection delays *)

Definition delay_ok (d : Z) : Prop := 1000 ≤ d ≤ 69000.

Record reconnect_env_ok (env : ReconnectEnv) : Prop := {
  ro_settles : settles (re_connect env);
  ro_jitter : 0 ≤ re_jitter env ≤ 2 * MAX_BACKOFF_MS / 5;
  ro_pct : 85 ≤ re_pct env ≤ 115
}.

(** The three outcomes of [tryReconnect]. *)
Lemma tryReconnect_cases env err delay last t m :
  reconnect_env_ok env → delay_ok delay → tcp_inv t →
  ∃ delay' last' t' m' err', tryReconnect env err delay last t m = Some (delay', last', t', m', err') ∧
    tcp_inv t' ∧ delay_ok delay' ∧
    ((re_now env - last < delay * 1000000 ∧ delay' = delay ∧ last' = last ∧ t' = t ∧ m' = m) ∨
     (delay * 1000000 ≤ re_now env - last ∧ last' = re_now env ∧ state t' = CONNECTED ∧ delay' = 1000 ∧
        m' = incConnectionsAccepted m) ∨
     (delay * 1000000 ≤ re_now env - last ∧ last' = re_now env ∧ state t' ≠ CONNECTED ∧
        delay' = Z.min (delay * 2) 60000 * re_pct env / 100 ∧ m' = incConnectionErrors m)).
Proof.
  intros [Hset Hj Hp] Hd Ht. unfold tryReconnect. destruct (Z.ltb_spec (re_now env - last) (delay * 1000000)).
  { exists delay, last, t, m, err. split; [done|]. split; [done|]. split; [done|]. by left. }
  destruct (reconnect_safe (re_connect env) (re_nowMs env) (re_jitter env) err t Ht Hset Hj)
    as (ok & t' & err' & -> & Hi' & Hok). cbn [mbind option_bind]. destruct ok.
  - exists 1000, (re_now env), t', (incConnectionsAccepted m), err'. split; [done|]. split; [done|].
    split; [by unfold delay_ok|]. right; left. by rewrite <- Hok.
  - unfold delay_ok in *.
    assert (Hj' : applyJitter (Z.min (u64 (delay * 2)) 60000) (re_pct env) = Z.min (delay * 2) 60000 * re_pct env / 100).
    { unfold applyJitter. rewrite (u64_small (delay * 2)) by lia. rewrite u64_small; [done|]. nia. }
    exists (Z.min (delay * 2) 60000 * re_pct env / 100), (re_now env), t', (incConnectionErrors m), err'.
    rewrite Hj'. split; [done|]. split; [done|]. split.
    + split; [apply Z.div_le_lower_bound; nia|]. apply Z.div_le_upper_bound; nia.
    + right; right. split; [done|]. split; [done|]. split; [|done].
      intros Hs. apply Hok in Hs. done.
Qed.

(** ** The invariant *)

Definition oc_safe (o : OrderClientT) : Prop := OrderClient.oc_inv o ∧ tcp_inv (OrderClient.tcp o).

Record nm_inv (n : NetworkManager) : Prop := {
  ni_clients : running n = true → ∃ c o, marketClient n = Some c ∧ orderClient n = Some o;
  ni_market c : marketClient n = Some c → MarketDataClient.md_inv c;
  ni_order o : orderClient n = Some o → oc_safe o;
  ni_market_delay : delay_ok (marketReconnectDelay n);
  ni_order_delay : delay_ok (orderReconnectDelay n)
}.

Lemma init_nm_inv nowM nowO : nm_inv (NetworkManager_init nowM nowO).
Proof. by constructor. Qed.

Lemma oc_safe_tcp t o : oc_safe o → tcp_inv t → oc_safe (o <| OrderClient.tcp := t |>).
Proof. intros [Ho _] Ht. split; [by apply (OrderClient.oc_inv_tcp (λ _, t))|done]. Qed.

Lemma md_inv_tcp t c : MarketDataClient.md_inv c → tcp_inv t →
  MarketDataClient.md_inv (c <| MarketDataClient.tcp := t |>).
Proof. intros [] ?. by constructor. Qed.

(** Both [tryReconnect] functions keep the client and the delays well
    formed, and the rest of the manager as it is. *)
Definition same_but_delays (n n' : NetworkManager) : Prop :=
  running n' = running n ∧ marketClient n' = marketClient n ∧ orderClient n' = orderClient n ∧
  delay_ok (marketReconnectDelay n') ∧ delay_ok (orderReconnectDelay n').

Lemma tryReconnectMarket_safe env err c n m :
  reconnect_env_ok env → MarketDataClient.md_inv c →
  delay_ok (marketReconnectDelay n) → delay_ok (orderReconnectDelay n) →
  ∃ c' n' m' err', tryReconnectMarket env err c n m = Some (c', n', m', err') ∧
    MarketDataClient.md_inv c' ∧ same_but_delays n n'.
Proof.
  intros He Hc Hd1 Hd2. unfold tryReconnectMarket.
  destruct (tryReconnect_cases env err (marketReconnectDelay n) (lastMarketReconnect n) (MarketDataClient.tcp c) m
    He Hd1 (MarketDataClient.mi_tcp c Hc)) as (d & l & t & m' & err' & -> & Ht & Hd & _). cbn [mbind option_bind].
  eexists _, _, _, _. split; [reflexivity|]. split; [by apply md_inv_tcp|done].
Qed.

Lemma tryReconnectOrder_safe env err o n m :
  reconnect_env_ok env → oc_safe o →
  delay_ok (marketReconnectDelay n) → delay_ok (orderReconnectDelay n) →
  ∃ o' n' m' err', tryReconnectOrder env err o n m = Some (o', n', m', err') ∧
    oc_safe o' ∧ same_but_delays n n'.
Proof.
  intros He Hc Hd1 Hd2. unfold tryReconnectOrder.
  destruct (tryReconnect_cases env err (orderReconnectDelay n) (lastOrderReconnect n) (OrderClient.tcp o) m
    He Hd2 (proj2 Hc)) as (d & l & t & m' & err' & -> & Ht & Hd & _). cbn [mbind option_bind].
  eexists _, _, _, _. split; [reflexivity|]. split; [by apply oc_safe_tcp|done].
Qed.

Record events_env_ok (env : EventsEnv) : Prop := {
  eo_market : reconnect_env_ok (ev_market env);
  eo_order : reconnect_env_ok (ev_order env);
  eo_send : Forall OrderClient.makes_progress (ev_send env);
  eo_enough : (OrderClient.QUEUE_CAPACITY * ORDER_SIZE ≤ length (ev_send env))%nat
}.

Section proofs.
Context {App : Type}.
Context (quoteCallback : option (QuoteMessage → reach App → reach App)).
Context (tradeCallback : option (TradeMessage → reach App → reach App)).

(** What the manager expects of the callbacks: they leave the order client
    well formed. *)
Definition safe_callback {A} (cb : A → reach App → reach App) : Prop :=
  ∀ x app o m, oc_safe o → oc_safe (cb x ((app, o), m)).1.2.
Context (Hq : ∀ cb, quoteCallback = Some cb → safe_callback cb).
Context (Htr : ∀ cb, tradeCallback = Some cb → safe_callback cb).

Lemma handleMarketData_safe h d w m :
  oc_safe w.2 → oc_safe (handleMarketData quoteCallback tradeCallback h d (w, m)).1.2.
Proof using Hq Htr.
  destruct w as [app o]. unfold handleMarketData. intros Ho.
  destruct (Header.type h =? Header.QUOTE_TYPE).
  - destruct d as [q|t]; [|done]. destruct quoteCallback as [cb|]; [|done]. by apply (Hq cb eq_refl).
  - destruct (Header.type h =? Header.TRADE_TYPE); [|done].
    destruct d as [q|t]; [done|]. destruct tradeCallback as [cb|]; [|done]. by apply (Htr cb eq_refl).
Qed.

Lemma processSendQueue_safe answers err o m :
  oc_safe o → Forall OrderClient.makes_progress answers →
  (OrderClient.QUEUE_CAPACITY * ORDER_SIZE ≤ length answers)%nat →
  ∃ wire o' m' err', OrderClient.processSendQueue answers err (o, m) = Some (wire, (o', m'), err') ∧ oc_safe o'.
Proof using Type.
  intros [Ho Ht] Hp Hl. assert (Hb := OrderClient.pending_bytes_bound o Ho).
  assert (H := OrderClient.processSendQueue_flushed answers err o m Ho).
  destruct (OrderClient.processSendQueue answers err (o, m)) as [[[wire [o' m']] err']|] eqn:Hrun.
  - exists wire, o', m', err'. split; [done|]. split; [|by eapply OrderClient.processSendQueue_tcp].
    apply H. eapply Forall_impl; [exact Hp|]. intros [] ?; cbn in *; [lia|done].
  - exfalso. apply H in Hp; [lia|]. eapply Forall_impl; [exact Hp|]. intros [] ?; cbn in *; [lia|done].
Qed.

(** The two reconnection turns of the event loop: a connected client is left
    alone, a disconnected one may try again. *)
Lemma market_turn_safe env err c n m :
  reconnect_env_ok env → MarketDataClient.md_inv c →
  delay_ok (marketReconnectDelay n) → delay_ok (orderReconnectDelay n) →
  ∃ c' n' m' err', (if isConnected (MarketDataClient.tcp c) then Some (c, n, m, err)
      else tryReconnectMarket env err c n m) = Some (c', n', m', err') ∧
    MarketDataClient.md_inv c' ∧ same_but_delays n n'.
Proof using Type.
  intros. destruct (isConnected (MarketDataClient.tcp c)); [by exists c, n, m, err|].
  by apply tryReconnectMarket_safe.
Qed.

Lemma order_turn_safe env err o n m :
  reconnect_env_ok env → oc_safe o →
  delay_ok (marketReconnectDelay n) → delay_ok (orderReconnectDelay n) →
  ∃ o' n' m' err', (if isConnected (OrderClient.tcp o) then Some (o, n, m, err)
      else tryReconnectOrder env err o n m) = Some (o', n', m', err') ∧
    oc_safe o' ∧ same_but_delays n n'.
Proof using Type.
  intros. destruct (isConnected (OrderClient.tcp o)); [by exists o, n, m, err|].
  by apply tryReconnectOrder_safe.
Qed.

Lemma processEvents_safe env kernel err n app m :
  nm_inv n → events_env_ok env →
  ∃ n' app' m' kernel' err' wire, processEvents quoteCallback tradeCallback env kernel err (n, (app, m)) =
    Some ((n', (app', m')), kernel', err', wire) ∧ nm_inv n' ∧ running n' = running n.
Proof using Hq Htr.
  intros Hn [Hem Heo Hsp Hsl]. unfold processEvents. destruct (running n) eqn:Hrun; cbn [negb].
  2: { by exists n, app, m, kernel, err, []. }
  destruct (ni_clients n Hn Hrun) as (c & o & Ec & Eo). rewrite Ec, Eo. cbn [mbind option_bind].
  assert (Hc := ni_market n Hn c Ec). assert (Ho := ni_order n Hn o Eo).
  destruct (market_turn_safe (ev_market env) err c n m Hem Hc (ni_market_delay n Hn) (ni_order_delay n Hn))
    as (c1 & n1 & m1 & err1 & -> & Hc1 & Hs1). cbn [mbind option_bind].
  destruct (order_turn_safe (ev_order env) err1 o n1 m1 Heo Ho) as (o1 & n2 & m2 & err2 & -> & Ho1 & Hs2);
    [apply Hs1..|]. cbn [mbind option_bind].
  (* any way out leaves a well-formed manager *)
  assert (Hclose : ∀ c' o', MarketDataClient.md_inv c' → oc_safe o' →
            nm_inv (n2 <| marketClient := Some c' |> <| orderClient := Some o' |>)).
  { intros c' o' Hc' Ho'. destruct Hs1 as (R1 & _ & _ & _ & _), Hs2 as (R2 & _ & _ & D1 & D2).
    constructor; cbn; [by eexists _, _|by intros ? [= <-]|by intros ? [= <-]|done|done]. }
  assert (Hrun' : running n2 = true) by (destruct Hs1, Hs2; congruence).
  branch as E1; [by eexists _, app, m2, kernel, err2, []; split; [reflexivity|]; split; [by apply Hclose|]|].
  branch as E2; [by eexists _, app, m2, kernel, _, []; split; [reflexivity|]; split; [by apply Hclose|]|].
  assert (H3 : ∃ c2 app2 o2 m3 kernel2 err3,
      (if isConnected (MarketDataClient.tcp c1) && (isConnected (MarketDataClient.tcp c) && ev_readable env) then
         '(_, s, kernel, err) ← MarketDataClient.processIncomingData
            (Some (handleMarketData quoteCallback tradeCallback)) kernel (errno_after (ev_select env) err2) (c1, ((app, o1), m2));
         Some (s, kernel, err)
       else Some ((c1, ((app, o1), m2)), kernel, errno_after (ev_select env) err2)) =
      Some ((c2, ((app2, o2), m3)), kernel2, err3) ∧ MarketDataClient.md_inv c2 ∧ oc_safe o2).
  { branch as E3; [|by eexists _, _, _, _, _, _].
    destruct (MarketDataClient.processIncomingData_safe (λ w, oc_safe w.2) (handleMarketData quoteCallback tradeCallback)
      handleMarketData_safe kernel (errno_after (ev_select env) err2) c1 (app, o1) m2 Hc1 Ho1)
      as (ok & c2 & [app2 o2] & m3 & ds & err3 & Hpid & Hc2 & Ho2).
    exists c2, app2, o2, m3, ds, err3. split; [|done].
    exact (f_equal (λ r, '(_, s, kernel, err) ← r; Some (s, kernel, err)) Hpid). }
  destruct H3 as (c2 & app2 & o2 & m3 & kernel2 & err3 & -> & Hc2 & Ho2). cbn [mbind option_bind].
  branch as E4.
  - destruct (processSendQueue_safe (ev_send env) err3 o2 m3 Ho2 Hsp Hsl) as (wire & o3 & m4 & err4 & -> & Ho3).
    cbn [mbind option_bind]. eexists _, _, _, _, _, _. split; [reflexivity|]. split; [by apply Hclose|done].
  - cbn [mbind option_bind]. eexists _, _, _, _, _, _. split; [reflexivity|]. split; [by apply Hclose|done].
Qed.

(** The main loop: one turn per environment. *)
Fixpoint run_events (envs : list EventsEnv) (kernel : list MarketDataClient.delivery) (err : Errno)
    (s : net_state App) : option (net_state App * list MarketDataClient.delivery * Errno) :=
  match envs with
  | [] => Some (s, kernel, err)
  | env :: envs =>
      '(s, kernel, err, _) ← processEvents quoteCallback tradeCallback env kernel err s;
      run_events envs kernel err s
  end.

(** C8: the event loop is safe.  Suppose the kernel does not interrupt one
    [connect] or [select] for ever (some answer is not [EINTR]), that a
    [send] which does not fail takes at least a byte, so that flushing a queue
    needs at most as many calls as the queue can hold bytes, and that the
    callbacks leave a well-formed order client well formed (as those of [main]
    do).  Then, whatever the
    network delivers and whichever other system calls fail, every turn of the
    loop returns, no step of it is undefined or trips over a missing client, and
    both clients stay well formed (ring and queue consistent, the send queue
    within its capacity), as do the reconnection counters and delays (between 1
    and 69 seconds); the turn changes nothing of [running]. *)
Theorem event_loop_safe (envs : list EventsEnv) (kernel : list MarketDataClient.delivery) (err : Errno)
    (n : NetworkManager) (app : App) (m : SystemMetrics) :
  nm_inv n → Forall events_env_ok envs →
  ∃ n' app' m' kernel' err', run_events envs kernel err (n, (app, m)) = Some ((n', (app', m')), kernel', err') ∧
    nm_inv n' ∧ running n' = running n.
Proof using Hq Htr.
  intros Hn Henvs. revert n app m kernel err Hn.
  induction Henvs as [|env envs Henv Henvs IH]; intros n app m kernel err Hn; cbn [run_events].
  { by exists n, app, m, kernel, err. }
  destruct (processEvents_safe env kernel err n app m Hn Henv)
    as (n1 & app1 & m1 & k1 & err1 & wire & -> & Hn1 & Hr1). cbn [mbind option_bind].
  destruct (IH n1 app1 m1 k1 err1 Hn1) as (n2 & app2 & m2 & k2 & err2 & -> & Hn2 & Hr2).
  exists n2, app2, m2, k2, err2. split; [done|]. split; [done|]. congruence.
Qed.

(** A market client that has used up its attempts. *)
Definition given_up (t : TcpClient) : Prop :=
  state t ≠ CONNECTED ∧ reconnectAttempts t = MAX_RECONNECT_ATTEMPTS.

Lemma given_up_idle env nowMs jitter err t :
  given_up t → reconnect env nowMs jitter err t = Some (false, t, err).
Proof using Type.
  intros [Hs Ha]. rewrite reconnect_idle; [by rewrite bool_decide_false|].
  unfold tries. rewrite Ha. by destruct (bool_decide _).
Qed.

Lemma tryReconnectMarket_given_up env err c n m :
  given_up (MarketDataClient.tcp c) →
  ∃ n' m', tryReconnectMarket env err c n m = Some (c, n', m', err).
Proof using Type.
  intros Hg. unfold tryReconnectMarket, tryReconnect. rewrite given_up_idle by done.
  destruct (_ <? _); cbn [mbind option_bind]; eexists _, _; by destruct c.
Qed.

Lemma processEvents_given_up env kernel err n app m c r :
  running n = true → marketClient n = Some c → given_up (MarketDataClient.tcp c) →
  processEvents quoteCallback tradeCallback env kernel err (n, (app, m)) = Some r →
  ∃ n' m' err' wire, r = ((n', (app, m')), kernel, err', wire) ∧ marketClient n' = Some c.
Proof using Type.
  intros Hrun Ec Hg. unfold processEvents. rewrite Hrun, Ec. cbn [negb mbind option_bind].
  destruct (orderClient n) as [o|]; [|done]. cbn [mbind option_bind].
  assert (Hc : isConnected (MarketDataClient.tcp c) = false) by (apply bool_decide_eq_false; apply Hg).
  rewrite Hc. destruct (tryReconnectMarket_given_up (ev_market env) err c n m Hg) as (n1 & m1 & ->).
  cbn [mbind option_bind andb negb]. rewrite Hc. cbn [andb].
  destruct (if isConnected (OrderClient.tcp o) then _ else _) as [[[[o1 n2] m2] err2]|]; [|done].
  cbn [mbind option_bind].
  branch as E1; [intros [= <-]; by eexists _, _, _, _|].
  branch as E2; [intros [= <-]; by eexists _, _, _, _|].
  destruct (if isConnected (OrderClient.tcp o1) && _ then _ else _) as [[[w [o3 m4]] err4]|]; [|done].
  cbn [mbind option_bind]. intros [= <-]. by eexists _, _, _, _.
Qed.

(** C28: a market connection lost for good.  Once ten reconnection attempts
    have failed, the event loop goes on for ever without the feed: whatever
    the network would answer, the market client stays as it is, no byte is
    read and no callback runs, although the manager keeps announcing
    further attempts. *)
Theorem deaf_for_good (envs : list EventsEnv) (kernel : list MarketDataClient.delivery) (err : Errno)
    (n : NetworkManager) (app : App) (m : SystemMetrics) (c : MarketClientT) :
  nm_inv n → Forall events_env_ok envs → running n = true → marketClient n = Some c →
  given_up (MarketDataClient.tcp c) →
  ∃ n' m' err', run_events envs kernel err (n, (app, m)) = Some ((n', (app, m')), kernel, err') ∧
    marketClient n' = Some c ∧ running n' = true.
Proof using Hq Htr.
  intros Hn Henvs Hrun Ec Hg. revert n m err Hn Hrun Ec.
  induction Henvs as [|env envs Henv Henvs IH]; intros n m err Hn Hrun Ec; cbn [run_events].
  { by exists n, m, err. }
  destruct (processEvents_safe env kernel err n app m Hn Henv)
    as (n1 & app1 & m1 & k1 & err1 & wire & Hpe & Hn1 & Hr1).
  assert (Hd := Hpe). apply (processEvents_given_up _ _ _ _ _ _ c) in Hd; [|done..].
  destruct Hd as (n2 & m2 & err2 & wire2 & [= <- -> <- -> <- <-] & Ec1).
  rewrite Hpe. cbn [mbind option_bind]. apply IH; [done|congruence|done].
Qed.

Lemma stop_spec n :
  nm_inv n →
  nm_inv (stop n) ∧ running (stop n) = false ∧
  (running n = true →
   (∀ c, marketClient (stop n) = Some c → state (MarketDataClient.tcp c) = DISCONNECTED) ∧
   (∀ o, orderClient (stop n) = Some o → state (OrderClient.tcp o) = DISCONNECTED)).
Proof using Type.
  intros Hn. unfold stop. destruct (running n) eqn:Hrun; cbn [negb]; [|by rewrite Hrun].
  destruct Hn as [H1 H2 H3 H4 H5]. split; [|split; [done|]].
  - constructor; cbn; [done| | |done|done].
    + intros c' Hc. destruct (marketClient n) as [c|]; [|done]. injection Hc as <-.
      destruct (H2 c eq_refl) as [Ht Hb]. constructor; [by apply disconnect_inv|done].
    + intros o' Ho. destruct (orderClient n) as [o|]; [|done]. injection Ho as <-.
      destruct (H3 o eq_refl) as [Ho Ht]. split; [by apply (OrderClient.oc_inv_tcp disconnect)|by apply disconnect_inv].
  - intros _. cbn. split; [destruct (marketClient n)|destruct (orderClient n)]; (done || by intros ? [= <-]).
Qed.

Lemma fresh_connect env e :
  settles env → ∃ ok t e', connect env e TcpClient_init = Some (ok, t, e') ∧
    tcp_inv t ∧ (ok = true → isConnected t = true).
Proof using Type.
  intros Hs. destruct (connect_total env e TcpClient_init Hs) as [[[ok t] e'] Hc].
  exists ok, t, e'. split; [done|]. assert (Hne : state TcpClient_init ≠ CONNECTED) by done.
  destruct (attempt_inv _ ok t init_tcp_inv Hne (connect_attempt _ _ _ _ _ _ Hne Hc)) as (H1 & H2 & _).
  split; [done|]. intros Hok. apply bool_decide_eq_true. by apply H2.
Qed.

Lemma initialize_spec mem queue marketEnv orderEnv err n :
  nm_inv n → length mem = cap → length queue = OrderClient.QUEUE_CAPACITY →
  settles marketEnv → settles orderEnv → running n = false →
  ∃ ok n1 err1, initialize mem queue marketEnv orderEnv err n = Some (ok, n1, err1) ∧ nm_inv n1 ∧
    running n1 = ok ∧
    (ok = true → ∃ c o, marketClient n1 = Some c ∧ orderClient n1 = Some o ∧
       isConnected (MarketDataClient.tcp c) = true ∧ isConnected (OrderClient.tcp o) = true).
Proof using Type.
  intros [_ _ _ H4 H5] Hmem Hqueue Hme Hoe Hrun. unfold initialize.
  set (c0 := MarketDataClient.MarketDataClient_init mem). set (o0 := OrderClient.OrderClient_init queue).
  assert (Hmd : ∀ t, tcp_inv t → MarketDataClient.md_inv (c0 <| MarketDataClient.tcp := t |>)).
  { intros t Ht. constructor; [done|by apply buffer_init_inv]. }
  assert (Hoc : ∀ t, tcp_inv t → oc_safe (o0 <| OrderClient.tcp := t |>)).
  { intros t Ht. split; [|done]. by apply (OrderClient.oc_inv_tcp (λ _, t)), OrderClient.init_oc_inv. }
  destruct (fresh_connect marketEnv err Hme) as (ok1 & t1 & e1 & Hc1 & Ht1 & Hok1).
  change (MarketDataClient.tcp c0) with TcpClient_init. change (OrderClient.tcp o0) with TcpClient_init.
  rewrite Hc1. cbn [mbind option_bind]. destruct ok1; cbn [negb].
  2: { eexists false, _, e1. split; [reflexivity|]. split; [|done].
       constructor; cbn; [congruence|intros ? [= <-]; by apply Hmd|
         intros ? [= <-]; by apply (Hoc TcpClient_init), init_tcp_inv|done|done]. }
  destruct (fresh_connect orderEnv e1 Hoe) as (ok2 & t2 & e2 & Hc2 & Ht2 & Hok2).
  rewrite Hc2. cbn [mbind option_bind]. destruct ok2; cbn [negb]; eexists _, _, e2; (split; [reflexivity|]).
  - split; [|split; [done|]].
    + constructor; cbn; [by eexists _, _|intros ? [= <-]; by apply Hmd|intros ? [= <-]; by apply Hoc|done|done].
    + intros _. eexists _, _. split; [reflexivity|]. split; [reflexivity|]. split; [by apply Hok1|by apply Hok2].
  - split; [|done].
    constructor; cbn; [congruence|intros ? [= <-]; by apply Hmd|intros ? [= <-]; by apply Hoc|done|done].
Qed.

(** start and stop.  [initialize] returns; it answers true exactly when
    both connections are up, and only then does the loop run.  After [stop]
    both connections are down and [processEvents] does nothing. *)
Theorem lifecycle (mem : list Z) (queue : list OrderClient.PendingSend) (marketEnv orderEnv : ConnectEnv)
    (err : Errno) (n : NetworkManager) :
  nm_inv n → length mem = cap → length queue = OrderClient.QUEUE_CAPACITY →
  settles marketEnv → settles orderEnv → running n = false →
  ∃ ok n1 err1, initialize mem queue marketEnv orderEnv err n = Some (ok, n1, err1) ∧ nm_inv n1 ∧
    running n1 = ok ∧
    (ok = true → ∃ c o, marketClient n1 = Some c ∧ orderClient n1 = Some o ∧
       isConnected (MarketDataClient.tcp c) = true ∧ isConnected (OrderClient.tcp o) = true) ∧
    (ok = true → ∀ c o, marketClient (stop n1) = Some c → orderClient (stop n1) = Some o →
       state (MarketDataClient.tcp c) = DISCONNECTED ∧ state (OrderClient.tcp o) = DISCONNECTED) ∧
    ∀ env kernel err s, processEvents quoteCallback tradeCallback env kernel err (stop n1, s) =
      Some ((stop n1, s), kernel, err, []).
Proof using Type.
  intros Hn Hmem Hqueue Hme Hoe Hrun.
  destruct (initialize_spec mem queue marketEnv orderEnv err n Hn Hmem Hqueue Hme Hoe Hrun)
    as (ok & n1 & err1 & Hi & Hn1 & Hr1 & Hup).
  destruct (stop_spec n1 Hn1) as (_ & Hoff & Hdown).
  exists ok, n1, err1. split; [done|]. split; [done|]. split; [done|]. split; [done|]. split.
  - intros ->. intros c o Hc Ho. destruct (Hdown Hr1) as [H1 H2]. split; [by apply H1|by apply H2].
  - intros env kernel e [app m]. unfold processEvents. by rewrite Hoff.
Qed.
End proofs.

(** ** Concrete runs *)

Module Examples.
Definition refused_at (now pct : Z) : ReconnectEnv :=
  mkReconnectEnv now (now / 1000000) refused 0 pct.

Lemma refused_settles : settles refused.
Proof. intros l [-> | ->]; left; (split; [done|]); [done|]. intros n [= <-]. done. Qed.

Lemma refused_ok now : reconnect_env_ok (refused_at now 115).
Proof. constructor; cbn; [exact refused_settles|done|done]. Qed.

Definition turn (now : Z) : EventsEnv :=
  mkEventsEnv (refused_at now 115) (refused_at now 115) (Ret 0) false false
    (replicate (OrderClient.QUEUE_CAPACITY * ORDER_SIZE) (Ret 25)).

Lemma turn_ok now : events_env_ok (turn now).
Proof.
  constructor; [apply refused_ok..| |]; cbn [turn ev_send].
  - by apply Forall_replicate.
  - by rewrite length_replicate.
Qed.

(** Both clients down, the market client out of attempts. *)
Definition market : MarketClientT :=
  MarketDataClient.MarketDataClient_init (replicate cap 0)
    <| MarketDataClient.tcp := TcpClient_init <| reconnectAttempts := 10 |> <| state := ERROR_STATE |> |>.
Definition orders : OrderClientT :=
  OrderClient.OrderClient_init (replicate OrderClient.QUEUE_CAPACITY inhabitant).
Definition manager : NetworkManager := mkNetwork (Some market) (Some orders) true 1000 1000 0 0.

Lemma manager_inv : nm_inv manager.
Proof.
  constructor; cbn; [by eexists _, _| | |done|done].
  - intros ? [= <-]. constructor; [|apply buffer_init_inv, length_replicate].
    constructor; done.
  - intros ? [= <-]. split; [apply OrderClient.init_oc_inv, length_replicate|exact init_tcp_inv].
Qed.

Definition no_quotes : option (QuoteMessage → reach unit → reach unit) := None.
Definition no_trades : option (TradeMessage → reach unit → reach unit) := None.

Lemma event_loop_safe_witness :
  ∃ n' app' m' kernel' err', run_events no_quotes no_trades [turn 2000000000; turn 9000000000] [] (EOTHER 0)
    (manager, (tt, SystemMetrics_init)) = Some ((n', (app', m')), kernel', err') ∧ nm_inv n'.
Proof.
  destruct (event_loop_safe no_quotes no_trades ltac:(done) ltac:(done) [turn 2000000000; turn 9000000000] []
    (EOTHER 0) manager tt SystemMetrics_init manager_inv
    (Forall_cons_2 _ _ _ (turn_ok 2000000000) (Forall_cons_2 _ _ _ (turn_ok 9000000000) (Forall_nil_2 _))))
    as (n' & app' & m' & k' & err' & Hrun & Hn & _).
  exists n', app', m', k', err'. split; [exact Hrun|exact Hn].
Defined.

Lemma deaf_for_good_witness :
  ∃ n' m' err', run_events no_quotes no_trades [turn 2000000000; turn 9000000000]
    [MarketDataClient.Delivered [1; 2; 3]] (EOTHER 0) (manager, (tt, SystemMetrics_init)) =
      Some ((n', (tt, m')), [MarketDataClient.Delivered [1; 2; 3]], err') ∧ marketClient n' = Some market.
Proof.
  destruct (deaf_for_good no_quotes no_trades ltac:(done) ltac:(done) [turn 2000000000; turn 9000000000]
    [MarketDataClient.Delivered [1; 2; 3]] (EOTHER 0) manager tt SystemMetrics_init market manager_inv
    (Forall_cons_2 _ _ _ (turn_ok 2000000000) (Forall_cons_2 _ _ _ (turn_ok 9000000000) (Forall_nil_2 _)))
    eq_refl eq_refl ltac:(split; [discriminate|reflexivity])) as (n' & m' & err' & Hrun & Hc & _).
  exists n', m', err'. split; [exact Hrun|exact Hc].
Defined.

Definition accepts : ConnectEnv :=
  mkConnectEnv (Ret 3) (Ret 0) (Ret 0) (Ret 0) (Ret 0) 1 (Ret 0) (Ret 0) [Fail EINTR; Ret 0] [Ret 0] (Ret 0) 0.

Lemma accepts_settles : settles accepts.
Proof.
  intros l [-> | ->]; [right|]; left; (split; [done|]); intros n [= <-]; done.
Qed.

Lemma lifecycle_witness :
  ∃ n1 err1, initialize (replicate cap 0) (replicate OrderClient.QUEUE_CAPACITY inhabitant) accepts accepts
      (EOTHER 0) (NetworkManager_init 0 0) = Some (true, n1, err1) ∧ running n1 = true.
Proof.
  destruct (lifecycle no_quotes no_trades (replicate cap 0)
    (replicate OrderClient.QUEUE_CAPACITY inhabitant) accepts accepts (EOTHER 0) (NetworkManager_init 0 0)
    (init_nm_inv 0 0) ltac:(apply length_replicate) ltac:(apply length_replicate)
    accepts_settles accepts_settles eq_refl) as (ok & n1 & err1 & Hi & _ & Hr & _).
  assert (Hok : ok = true) by (cbn in Hi; by injection Hi as <- _ _).
  rewrite Hok in Hi, Hr. exists n1, err1. split; [exact Hi|exact Hr].
Defined.

(** The cap on the delay applies before the jitter: 69 seconds. *)
Example delay_above_cap : applyJitter (Z.min (u64 (60000 * 2)) 60000) 115 = 69000.
Proof. reflexivity. Qed.
End Examples.
