(* ===== verification/Reports.v ===== *)
(** * What the components print

    One definition per function or method that writes to [std::cout],
    [std::cerr] or [stdout]: it appends to the streams what the code of that
    name writes in the state it finds, and the state itself is that of the
    component's own file.  The names are those of the code, in a module per
    component.  The last section proves what the reports say. *)
From Stdlib Require Strings.String.
From stdpp Require Import pretty.
From S2P Require Import Prelude Binary64 Text Console Metrics Message MessageSerializer MessageParser CircularBuffer VwapSpec VwapCalculator DecisionEngine TradingSpec OrderManager TcpClient NetworkManager.
From S2P Require OrderClient MarketDataClient.
Import WireFormat.
#[local] Open Scope console_scope.

(** The two streams of the process. *)
Record console := mkConsole { cout : ostream; cerr : ostream }.
#[global] Instance eta_console : Settable console := fun r => mkConsole (cout r) (cerr r).
Definition console_init : console := mkConsole ostream_init ostream_init.

(** A literal that begins with a newline. *)
Definition ln (s : String.string) : list Z := 10 :: bytes s.
Arguments ln s%_string_scope.

(** [side == 'B' ? "BUY" : "SELL"] *)
Definition side_name (side : Z) : list Z := if side =? char_B then bytes "BUY" else bytes "SELL".
(** [x / 100.0] *)
Definition dollars (x : double) : double := d_div x (d_of_Z 100).

(** ** The decision engine *)

Module EngineOutput.
Definition onVwapWindowComplete (e : DecisionEngine) (os : ostream) : ostream :=
  if decide (currentState e = WAITING_FOR_FIRST_WINDOW)
  then os << "Decision Engine: First VWAP window complete, ready to trade" << Endl else os.

Definition recordDecision (e : DecisionEngine) (d : Decision.t) (os : ostream) : ostream :=
  if decide (Decision.type d = Decision.ORDER_TRIGGERED) then
    os << "[ORDER] " << side_name (side e) << " " << Decision.orderSize d
       << " @ $" << Fixed << Setprecision 2 << dollars (Decision.quotePrice d)
       << " (VWAP: $" << dollars (Decision.vwap d) << ")"
       << " Reason: " << Decision.reason d << Endl
  else os.

(** Each call records one decision, the newest of the history it leaves. *)
Definition evaluateQuote (quote : QuoteMessage) (vwap : double) (elapsed : Z) (s : DecisionEngine * SystemMetrics)
    (os : ostream) : ostream :=
  match DecisionEngine.evaluateQuote quote vwap elapsed s with
  | Some (_, (e, _)) =>
      match last (decisionHistory e) with Some d => recordDecision e d os | None => os end
  | None => os
  end.

Definition printStatistics (e : DecisionEngine) (os : ostream) : ostream :=
  let os := os << ln "=== Decision Engine Statistics ===" << Endl << "State: " in
  let os := match currentState e with
            | WAITING_FOR_FIRST_WINDOW => os << "WAITING_FOR_FIRST_WINDOW"
            | READY_TO_TRADE => os << "READY_TO_TRADE"
            | ORDER_SENT => os << "ORDER_SENT"
            end << Endl in
  let os := os << "Quotes Processed: " << quotesProcessed e << Endl
               << "Orders Triggered: " << ordersTriggered e << Endl
               << "Orders Rejected: " << ordersRejected e << Endl in
  let os := if negb (ordersRejected e =? 0)%Z then
              os << "  - Waiting Window:    " << rejWaitingWindow e << Endl
                 << "  - Price Unfavorable: " << rejPriceUnfavorable e << Endl
                 << "  - Cooldown:          " << rejCooldown e << Endl
                 << "  - Duplicate:         " << rejDuplicate e << Endl
            else os in
  let os := if (quotesProcessed e >? 0)%Z then
              let triggerRate := d_div (d_mul (d_of_Z 100) (d_of_Z (ordersTriggered e))) (d_of_Z (quotesProcessed e)) in
              os << "Trigger Rate: " << Fixed << Setprecision 2 << triggerRate << "%" << Endl
            else os in
  os << "=================================" << Endl.
End EngineOutput.

(** ** The calculator and the order manager *)

(** What a [std::string] reads as after its content was moved into another.
    The C++ standard leaves it valid but unspecified, so it is a parameter, as
    a function of the content that was moved; every mainstream library leaves
    the empty string, and so does libstdc++, which the Makefile builds with. *)
Class MovedString := moved_from : list Z → list Z.
Definition libstdcxx_moved : MovedString := λ _, [].

Module ManagerOutput.
Section output.
Context {Q : Type} `{DequeOps VwapTradeRecord Q} {moved : MovedString} (MAX_TRADES : nat).
Implicit Types (o : OrderManager.t Q) (m : SystemMetrics).

(** [VwapCalculator::printStatistics]; it reads the average, which refreshes
    the cache. *)
Definition printVwapStatistics (c : VwapCalculator Q) (os : ostream) : VwapCalculator Q * ostream :=
  let os := os << ln "=== VWAP Stats ===" << Char 10
               << "Window Trades: " << dq_size (tradeWindow c) << Char 10
               << "Total Trades:  " << VwapCalculator.totalTradesProcessed c << Char 10
               << "Rejected:      " << rejectedTrades c << Char 10 in
  let '(vwap, c) := getCurrentVwap c in
  let os := os << "VWAP ($):      " << dollars vwap << Char 10
               << "Window Done:   " << (if hasCompleteWindow c then bytes "Yes" else bytes "No") << Char 10
               << "==================" << Char 10 in
  (c, os).

(** The constructor, once nothing was thrown. *)
Definition init (sym : list Z) (sd maxSize windowSeconds : Z) (os : ostream) : ostream :=
  os << "OrderManager initialized:" << Endl
     << "  Symbol: " << sym << Endl
     << "  Side: " << Char sd << " (" << side_name sd << ")" << Endl
     << "  Max Order Size: " << maxSize << Endl
     << "  VWAP Window: " << windowSeconds << " seconds" << Endl.

Definition checkVwapWindowComplete o (os : ostream) : ostream :=
  if bool_decide (OrderManager.currentState o = OrderManager.State.WAITING_FOR_FIRST_WINDOW)
     && hasCompleteWindow (OrderManager.vwapCalculator o)
  then
    let os := EngineOutput.onVwapWindowComplete (OrderManager.decisionEngine o) os in
    if negb (OrderManager.vwapWindowCompleteNotified o)
    then os << "VWAP window complete - ready to trade" << Endl else os
  else os.

(** The record is printed after [push_back(std::move(record))] has moved its
    strings into the history: the numbers are still there, the symbol is what
    the move left of it. *)
Definition recordOrder (order : OrderMessage) (reason : String.string) (os : ostream) : ostream :=
  let recordSymbol := OrderManager.c_string (take 8 (Order.symbol order)) in
  os << "[ORDER SENT] " << moved_from recordSymbol
     << " " << side_name (u8 (Order.side order))
     << " " << Order.quantity order
     << " @ $" << dollars (d_of_Z (Order.price order))
     << " | " << reason << Endl.

Definition processTrade (trade : TradeMessage) (s : OrderManager.t Q * SystemMetrics) (os : ostream) : ostream :=
  let '(o, m) := s in
  let o := o <| OrderManager.totalTradesProcessed ::= λ n, u64 (n + 1) |> in
  let '(c, m) := addTrade MAX_TRADES trade (OrderManager.vwapCalculator o, m) in
  let o := o <| OrderManager.vwapCalculator := c |> in
  let os := checkVwapWindowComplete o os in
  let o := OrderManager.checkVwapWindowComplete o in
  if (OrderManager.totalTradesProcessed o mod 10 =? 0)%Z then
    let vwap := (getCurrentVwap (OrderManager.vwapCalculator o)).1 in
    os << "[VWAP UPDATE] Current VWAP: $" << dollars vwap
       << " (after " << OrderManager.totalTradesProcessed o << " trades)" << Endl
  else os.

Definition processQuote (quote : QuoteMessage) (elapsed : Z) (s : OrderManager.t Q * SystemMetrics) (os : ostream)
    : ostream :=
  let '(o, m) := s in
  let o := o <| OrderManager.totalQuotesProcessed ::= λ n, u64 (n + 1) |> in
  let os := checkVwapWindowComplete o os in
  let o := OrderManager.checkVwapWindowComplete o in
  let '(currentVwap, c) := getCurrentVwap (OrderManager.vwapCalculator o) in
  let os := EngineOutput.evaluateQuote quote currentVwap elapsed (OrderManager.decisionEngine o, m) os in
  match evaluateQuote quote currentVwap elapsed (OrderManager.decisionEngine o, m) with
  | Some (Some order, _) =>
      match d_to_i32 currentVwap with
      | Some vwapCents => recordOrder order (OrderManager.buildReason o quote vwapCents) os
      | None => os
      end
  | _ => os
  end.

Definition printStatistics o (os : ostream) : OrderManager.t Q * ostream :=
  let os := os << ln "=== Order Manager Statistics ===" << Endl << "State: " in
  let os := match OrderManager.currentState o with
            | OrderManager.State.WAITING_FOR_FIRST_WINDOW => os << "WAITING_FOR_FIRST_WINDOW"
            | OrderManager.State.READY_TO_TRADE => os << "READY_TO_TRADE"
            | OrderManager.State.ORDER_SENT => os << "ORDER_SENT"
            end << Endl in
  let os := os << "Quotes Processed: " << OrderManager.totalQuotesProcessed o << Endl
               << "Trades Processed: " << OrderManager.totalTradesProcessed o << Endl
               << "Orders Sent: " << OrderManager.totalOrdersSent o << Endl
               << "================================" << Endl in
  let '(c, os) := printVwapStatistics (OrderManager.vwapCalculator o) os in
  (o <| OrderManager.vwapCalculator := c |>, os).

Definition history_row (record : OrderRecord.t) (os : ostream) : ostream :=
  os << Setw 10 << OrderRecord.symbol record
     << Setw 8 << side_name (OrderRecord.side record)
     << Setw 10 << OrderRecord.quantity record
     << Setw 12 << Fixed << Setprecision 2 << dollars (d_of_Z (OrderRecord.price record))
     << "  " << OrderRecord.reason record << Endl.

Definition printOrderHistory (count : nat) o (os : ostream) : ostream :=
  let h := OrderManager.orderHistory o in
  let os := os << ln "=== Order History ===" << Endl in
  let os :=
    if CircularBuffer.empty h then os << "No orders sent yet" << Endl
    else
      let os := os << Setw 10 << "Symbol" << Setw 8 << "Side" << Setw 10 << "Quantity" << Setw 12 << "Price"
                   << "  Reason" << Endl in
      let os := os << replicate 60 45%Z << Endl in
      let toShow := Nat.min count (CircularBuffer.size h) in
      let start := if (toShow <? CircularBuffer.size h)%nat then (CircularBuffer.size h - toShow)%nat else 0%nat in
      foldl (λ os i, history_row (CircularBuffer.at_ OrderManager.MAX_ORDER_HISTORY h i) os) os
        (seq start (CircularBuffer.size h - start)) in
  os << "=====================" << Endl.

(** The overload without an argument. *)
Definition printWholeHistory o (os : ostream) : ostream :=
  printOrderHistory (CircularBuffer.size (OrderManager.orderHistory o)) o os.
End output.
End ManagerOutput.

(** ** The connections

    [strerror] is the C library's; a client's host and port are given with
    it. *)

Module NetworkOutput.
Section output.
Context (strerror : Errno → list Z).

Definition getErrorString (c : TcpClient) : list Z :=
  match lastError c with
  | NONE => bytes "No error"
  | CONNECTION_REFUSED => bytes "Connection refused"
  | CONNECTION_TIMEOUT => bytes "Connection timeout"
  | CONNECTION_LOST => bytes "Connection lost"
  | SEND_FAILED => bytes "Send failed"
  | RECEIVE_FAILED => bytes "Receive failed"
  | INVALID_ADDRESS => bytes "Invalid address"
  end.

Definition printStatistics (host : list Z) (port : Z) (c : TcpClient) (os : ostream) : ostream :=
  let os := os << ln "=== TCP Client Statistics [" << host << ":" << port << "] ===" << Endl << "State: " in
  let os := match state c with
            | DISCONNECTED => os << "DISCONNECTED"
            | CONNECTING => os << "CONNECTING"
            | CONNECTED => os << "CONNECTED"
            | ERROR_STATE => os << "ERROR"
            end << Endl in
  let os := os << "Bytes Received: " << bytesReceived c << Endl
               << "Bytes Sent: " << bytesSent c << Endl
               << "Messages Received: " << messagesReceived c << Endl
               << "Messages Sent: " << messagesSent c << Endl
               << "Reconnect Attempts: " << reconnectAttempts c << Endl
               << "Current Backoff: " << currentBackoffMs c << "ms" << Endl in
  let os := if decide (lastError c = NONE) then os else os << "Last Error: " << getErrorString c << Endl in
  os << "=================================" << Endl.

(** Only a connection that took [select] is announced. *)
Definition connectWithTimeout (host : list Z) (port : Z) (env : ConnectEnv) (err : Errno) (c : TcpClient) (con : console)
    : console :=
  match connectWithTimeout env err c with
  | Some (true, _, _) => con <| cout ::= λ os, os << "Connected to " << host << ":" << port << Endl |>
  | _ => con
  end.

Definition connect (host : list Z) (port : Z) (env : ConnectEnv) (err : Errno) (c : TcpClient) (con : console) : console :=
  if bool_decide (state c = CONNECTED) then con else
  let '(ok, c) := if has_socket c then (true, c) else createSocket env c in
  if negb ok then con else
  let '(ok, c) := resolveAddress env c in
  if negb ok then con else
  if negb (setNonBlocking env) then con else
  match retry_eintr (env_connect env) err with
  | Some (result_, err) =>
      if result_ =? 0 then con
      else if is_errno err EINPROGRESS then connectWithTimeout host port env err (c <| state := CONNECTING |>) con
      else con
  | None => con
  end.

Definition reconnect (host : list Z) (port : Z) (env : ConnectEnv) (nowMs : Z) (err : Errno) (c : TcpClient) (con : console)
    : console :=
  if bool_decide (state c = CONNECTED) then con else
  if reconnectAttempts c >=? MAX_RECONNECT_ATTEMPTS then
    con <| cerr ::= λ os, os << "Max reconnection attempts reached" << Endl |>
  else if (lastConnectAttempt c >? 0) && (u64 (nowMs - lastConnectAttempt c) <? currentBackoffMs c) then con else
  let con := con <| cout ::= λ os, os << "Reconnection attempt " << u32 (reconnectAttempts c + 1)
                                      << " after " << currentBackoffMs c << "ms backoff" << Endl |> in
  let c := if has_socket c then reset_socket (-1) c else c in
  let c := c <| lastConnectAttempt := nowMs |> <| reconnectAttempts ::= λ n, u32 (n + 1) |> in
  connect host port env err c con.

Definition sendOrder (mem : list Z) (order : OrderMessage) (a : answer) (err : Errno) (s : OrderClientT * SystemMetrics)
    (con : console) : console :=
  if negb (isConnected (OrderClient.tcp s.1)) then
    con <| cerr ::= λ os, os << "Cannot send order: not connected" << Endl |>
  else if negb (Order.side order =? char_B) && negb (Order.side order =? char_S) then con
  else if Order.quantity order =? 0 then con
  else if Order.price order <=? 0 then con
  else
    let '(buffer, size) := serializeOrder mem ORDER_SIZE order in
    if (size =? 0)%nat then con else
    let '(sent, _, _, err) := OrderClient.transmit (take size buffer) a err s in
    if sent =? Z.of_nat size then
      con <| cout ::= λ os, os << "Order sent: " << side_name (Order.side order) << " " << Order.quantity order
                               << " @ $" << Fixed << Setprecision 2 << dollars (d_of_Z (Order.price order)) << Endl |>
    else if (sent <? 0) && (would_block err || is_errno err EINTR) then con
    else if (0 <=? sent) && (sent <? Z.of_nat size) then con
    else if sent <? 0 then
      if OrderClient.connection_gone err
      then con <| cerr ::= λ os, os << "Connection lost: " << strerror err << Endl |>
      else con <| cerr ::= λ os, os << "Send error: " << strerror err << Endl |>
    else con.

(** [tryReconnectMarket] and [tryReconnectOrder]: the name is "Market data"
    or "Order client". *)
Definition tryReconnect (name host : list Z) (port : Z) (env : ReconnectEnv) (err : Errno) (delay last : Z) (t : TcpClient)
    (con : console) : console :=
  if re_now env - last <? delay * 1000000 then con else
  let con := reconnect host port (re_connect env) (re_nowMs env) err t con in
  match TcpClient.reconnect (re_connect env) (re_nowMs env) (re_jitter env) err t with
  | Some (true, _, _) => con <| cout ::= λ os, os << name << " reconnected" << Endl |>
  | Some (false, _, _) =>
      let delay := applyJitter (Z.min (u64 (delay * 2)) 60000) (re_pct env) in
      con <| cerr ::= λ os, os << name << " reconnect failed, next attempt in " << delay << "ms" << Endl |>
  | None => con
  end.

Definition initialize (config : Config) (mem : list Z) (queue : list OrderClient.PendingSend) (marketEnv orderEnv : ConnectEnv)
    (err : Errno) (con : console) : console :=
  let t := MarketDataClient.tcp (MarketDataClient.MarketDataClient_init mem) in
  let con := connect (Config.marketDataHost config) (Config.marketDataPort config) marketEnv err t con in
  match TcpClient.connect marketEnv err t with
  | None => con
  | Some (false, _, _) => con <| cerr ::= λ os, os << "Failed to connect to market data" << Endl |>
  | Some (true, _, err) =>
      let t := OrderClient.tcp (OrderClient.OrderClient_init queue) in
      let con := connect (Config.orderHost config) (Config.orderPort config) orderEnv err t con in
      match TcpClient.connect orderEnv err t with
      | Some (false, _, _) => con <| cerr ::= λ os, os << "Failed to connect to order server" << Endl |>
      | _ => con
      end
  end.

(** What a turn prints before any message is handled; nothing is printed
    after that but by the callbacks. *)
Definition processEvents {App} (config : Config) (env : EventsEnv) (err : Errno) (s : net_state App) (con : console) : console :=
  let '(n, (_, m)) := s in
  if negb (running n) then con else
  match marketClient n, orderClient n with
  | Some c, Some o =>
      let readSet := isConnected (MarketDataClient.tcp c) in
      let con := if readSet then con else
        tryReconnect (bytes "Market data") (Config.marketDataHost config) (Config.marketDataPort config)
          (ev_market env) err (marketReconnectDelay n) (lastMarketReconnect n) (MarketDataClient.tcp c) con in
      match (if readSet then Some (c, n, m, err) else tryReconnectMarket (ev_market env) err c n m) with
      | None => con
      | Some (c, n, m, err) =>
          let writeSet := isConnected (OrderClient.tcp o) in
          let con := if writeSet then con else
            tryReconnect (bytes "Order client") (Config.orderHost config) (Config.orderPort config)
              (ev_order env) err (orderReconnectDelay n) (lastOrderReconnect n) (OrderClient.tcp o) con in
          match (if writeSet then Some (o, n, m, err) else tryReconnectOrder (ev_order env) err o n m) with
          | None => con
          | Some (o, n, m, err) =>
              if negb readSet && negb writeSet then con else
              let err := errno_after (ev_select env) err in
              if (result (ev_select env) <? 0) && negb (is_errno err EINTR)
              then con <| cerr ::= λ os, os << "Select error: " << strerror err << Endl |> else con
          end
      end
  | _, _ => con
  end.
End output.
End NetworkOutput.

(** ** The metrics

    [MetricsSnapshot::print] writes with [printf]. *)

Module MetricsOutput.
Import MetricsSnapshot.
Definition print (s : MetricsSnapshot.t) : list Z :=
  bytes "Msgs Rcvd/Sent: " ++ digits (messagesReceived s) ++ bytes "/" ++ digits (messagesSent s) ++
  bytes "  Bytes Rcvd/Sent: " ++ digits (bytesReceived s) ++ bytes "/" ++ digits (bytesSent s) ++
  bytes "  Orders: " ++ digits (ordersPlaced s) ++ bytes "  Trades: " ++ digits (tradesProcessed s) ++
  bytes "  Quotes: " ++ digits (quotesProcessed s) ++ [10] ++
  (if negb (latencyCount s =? 0) then
     let avg := d_div (d_of_Z (totalLatency s)) (d_of_Z (latencyCount s)) in
     bytes "Latency ns min/avg/max: " ++ digits (minLatency s) ++ bytes "/" ++ fixed_text 0 avg ++ bytes "/" ++
     digits (maxLatency s) ++ bytes "  samples=" ++ digits (latencyCount s) ++ [10]
   else []) ++
  bytes "Drops=" ++ digits (messagesDropped s) ++ bytes " Resync=" ++ digits (resyncEvents s) ++
  bytes " ConnErr=" ++ digits (connectionErrors s) ++ bytes " QHighWater=" ++ digits (queueHighWater s) ++ [10].
End MetricsOutput.

(** ** What an order prints *)

Lemma dollars_cents c : 0 ≤ c < 2 ^ 31 → fixed_text 2 (dollars (d_of_Z c)) = price_text c.
Proof. apply cents_print. Qed.

(** The engine speaks when it orders, and only then. *)
Lemma evaluateQuote_prints e q vwap elapsed m os :
  QuoteMessage_ok q → validateQuote q = true →
  EngineOutput.evaluateQuote q vwap elapsed (e, m) os =
    if decide (decide_quote e q vwap = Trigger) then EngineOutput.recordDecision e (trigger_decision e q vwap) os else os.
Proof.
  intros Hok Hv. apply (validateQuote_spec q Hok) in Hv. destruct Hv as (_ & _ & Hp & Ha).
  unfold EngineOutput.evaluateQuote, evaluateQuote, decide_quote. set (e0 := e <| quotesProcessed ::= incr |>).
  change (isDuplicateQuote e0 q) with (isDuplicateQuote e q).
  change (isInCooldown e0 (Quote.timestamp q)) with (isInCooldown e (Quote.timestamp q)).
  change (shouldTriggerOrder e0 q vwap) with (shouldTriggerOrder e q vwap).
  change (currentState e0) with (currentState e).
  assert (Hrej : ∀ ty price size reason count,
    ty ≠ Decision.ORDER_TRIGGERED → (∀ e, decisionHistory (count e) = decisionHistory e) →
    match last (decisionHistory (rejectQuote ty (Quote.timestamp q) price vwap size reason count e0)) with
    | Some d => EngineOutput.recordDecision (rejectQuote ty (Quote.timestamp q) price vwap size reason count e0) d os
    | None => os
    end = os).
  { intros ty price size reason count Hty Hc. unfold rejectQuote at 1. rewrite Hc.
    set (d := Decision.mk ty _ _ _ _ _ _). change (decisionHistory (_ <| ordersRejected ::= _ |>))
      with (decisionHistory (DecisionEngine.recordDecision d e0)). rewrite recordDecision_last.
    unfold EngineOutput.recordDecision. by rewrite decide_False. }
  destruct (decide (currentState e = WAITING_FOR_FIRST_WINDOW)); [by rewrite Hrej, decide_False|].
  destruct (isDuplicateQuote e q); [by rewrite Hrej, decide_False|].
  destruct (isInCooldown e (Quote.timestamp q)); [by rewrite Hrej, decide_False|].
  destruct (shouldTriggerOrder e q vwap); cbn [negb]; [|by rewrite Hrej, decide_False].
  rewrite decide_True by done. cbv zeta. rewrite price_if. change (side e0) with (side e). fold (relevantPrice e q).
  rewrite price_to_i32 by (unfold relevantPrice; branch; lia). cbn [mbind option_bind].
  change (decisionHistory (?e <| ordersTriggered ::= incr |> <| currentState := READY_TO_TRADE |>)) with (decisionHistory e).
  rewrite recordDecision_last. done.
Qed.

(** The two lines, with the price in dollars and cents. *)
Definition decision_text (sd quantity price : Z) (vwap : double) : list Z :=
  bytes "[ORDER] " ++ side_name sd ++ bytes " " ++ digits quantity ++ bytes " @ $" ++ price_text price ++
  bytes " (VWAP: $" ++ fixed_text 2 (dollars vwap) ++ bytes ")" ++ bytes " Reason: " ++ bytes (trigger_reason sd) ++ [10].

Definition recorded_text {moved : MovedString} (order : OrderMessage) (reason : String.string) : list Z :=
  bytes "[ORDER SENT] " ++ moved_from (OrderManager.c_string (take 8 (Order.symbol order))) ++ bytes " " ++ side_name (Order.side order) ++
  bytes " " ++ digits (Order.quantity order) ++ bytes " @ $" ++ price_text (Order.price order) ++ bytes " | " ++
  bytes reason ++ [10].

(** The stream with its decimal settings and no width. *)
Definition in_cents (os : ostream) : Prop := width os = 0 ∧ precision os = 2%nat ∧ fixedfield os = true.

Lemma insert_plain os : width os = 0 → os = mkOstream (text os) 0 (precision os) (fixedfield os) (leftfield os).
Proof. destruct os. cbn. by intros ->. Qed.

Lemma recordDecision_text e q vwap os :
  QuoteMessage_ok q → validateQuote q = true → 0 ≤ maxOrderSize e → width os = 0 →
  EngineOutput.recordDecision e (trigger_decision e q vwap) os =
    mkOstream (text os ++ decision_text (side e) (calculateOrderSize e (relevantQuantity e q)) (relevantPrice e q) vwap)
      0 2 true (leftfield os).
Proof.
  intros Hok Hv Hmax Hw. apply (validateQuote_spec q Hok) in Hv. destruct Hv as (_ & _ & Hp & Ha).
  destruct Hok as (_ & _ & Hbq & _ & Haq & _). rewrite (insert_plain os Hw) at 1.
  unfold EngineOutput.recordDecision, trigger_decision. cbn [Decision.type Decision.orderSize Decision.quotePrice Decision.vwap Decision.reason].
  rewrite decide_True by done. autorewrite with console.
  rewrite dollars_cents by (unfold relevantPrice; branch; lia). unfold decision_text.
  rewrite unsigned_digits by (unfold calculateOrderSize, relevantQuantity; branch; lia).
  by rewrite <- !app_assoc.
Qed.

Lemma recordOrder_text {moved : MovedString} order reason os :
  is_u8 (Order.side order) → 0 ≤ Order.quantity order → 0 ≤ Order.price order < 2 ^ 31 → in_cents os →
  ManagerOutput.recordOrder order reason os = mkOstream (text os ++ recorded_text order reason) 0 2 true (leftfield os).
Proof.
  intros Hs Hq Hp (Hw & Hpr & Hf). rewrite (insert_plain os Hw) at 1. rewrite Hpr, Hf.
  unfold ManagerOutput.recordOrder. autorewrite with console.
  rewrite dollars_cents, unsigned_digits, u8_small by done. unfold recorded_text. by rewrite <- !app_assoc.
Qed.

Section quote_output.
Context {moved : MovedString} {Q : Type} {cap : nat} `{!DequeOps VwapTradeRecord Q} `{!Deque VwapTradeRecord Q cap} (Hcap : (0 < cap)%nat).
Context (sym : list Z) (sd maxSize w : Z) (Hsd : is_u8 sd) (Hmax : 0 ≤ maxSize) (Hw : is_u32 w).
Abbreviation reference evs := (trade_all cap (nanos w) sym sd maxSize DEFAULT_COOLDOWN evs Trading_init).
Abbreviation follows := (OrderManager.follows (cap := cap) sym sd maxSize w).
Implicit Types (o : OrderManager.t Q) (m : SystemMetrics).

(** The average of the reference, as a double. *)
Definition reference_vwap (r : Trading) : double :=
  if Spec.volume (spec r) =? 0 then dzero else d_div (d_of_Z (Spec.pv (spec r))) (d_of_Z (Spec.volume (spec r))).

Definition order_reason (q : QuoteMessage) (vwap : double) : String.string :=
  let cents := default 0 (d_to_i32 vwap) in
  if sd =? char_B
  then String.append "Buy Order: Ask (" (String.append (pretty (Quote.askPrice q)) (String.append ") < VWAP (" (String.append (pretty cents) ")")))
  else String.append "Sell Order: Bid (" (String.append (pretty (Quote.bidPrice q)) (String.append ") > VWAP (" (String.append (pretty cents) ")"))).

(** The test for the first window has already spoken. *)
Lemma check_silent evs o n os :
  follows evs o →
  ManagerOutput.checkVwapWindowComplete (o <| OrderManager.totalQuotesProcessed := n |>) os = os ∧
  OrderManager.checkVwapWindowComplete (o <| OrderManager.totalQuotesProcessed := n |>) = o <| OrderManager.totalQuotesProcessed := n |>.
Proof using Type.
  intros Hf. unfold ManagerOutput.checkVwapWindowComplete, OrderManager.checkVwapWindowComplete. cbn.
  replace (bool_decide _ && _) with false; [done|]. symmetry.
  destruct (Spec.complete (spec (reference evs).2)) eqn:Hc.
  - apply (OrderManager.fo_ready _ _ _ _ _ _ Hf) in Hc. by rewrite Hc.
  - unfold hasCompleteWindow. rewrite (rf_complete _ _ _ (OrderManager.follows_calc _ _ _ _ _ _ Hf)), Hc. apply andb_false_r.
Qed.

Lemma processQuote_prints evs o m q elapsed os :
  follows evs o → Spec.pv (spec (reference evs).2) ≤ 2 ^ 51 → QuoteMessage_ok q → validateQuote q = true → width os = 0 →
  let r := (reference evs).2 in let vwap := reference_vwap r in let order := order_for sym sd maxSize q in
  ManagerOutput.processQuote q elapsed (o, m) os =
    if trades_on sd DEFAULT_COOLDOWN q r
    then mkOstream (text os ++ decision_text sd (Order.quantity order) (Order.price order) vwap ++
                    recorded_text order (order_reason q vwap)) 0 2 true (leftfield os)
    else os.
Proof using Hcap Hw Hmax Hsd.
  intros Hf Hpv Hok Hval Hos r vwap order.
  assert (Hverdict := OrderManager.verdict_reference Hcap _ _ _ _ evs o q Hw Hf Hpv Hok Hval).
  assert (Hinv := OrderManager.fo_inv _ _ _ _ _ _ Hf). destruct (OrderManager.om_engine _ _ _ _ _ _ _ Hinv) as (Hsy & Hside & Hmx).
  destruct (OrderManager.om_config _ _ _ _ _ _ _ Hinv) as (_ & Hside' & _).
  assert (Hcalc := OrderManager.follows_calc _ _ _ _ _ _ Hf).
  destruct (OrderManager.refresh_refines _ _ _ Hcalc) as [_ Hv]. assert (Hvs := OrderManager.vwap_value_spec _ _ _ Hcalc).
  unfold ManagerOutput.processQuote. set (o1 := o <| OrderManager.totalQuotesProcessed ::= _ |>).
  destruct (check_silent evs o (u64 (OrderManager.totalQuotesProcessed o + 1)) os Hf) as [E1 E2].
  change (o <| OrderManager.totalQuotesProcessed := _ |>) with o1 in E1, E2. rewrite E1, E2.
  change (OrderManager.vwapCalculator o1) with (OrderManager.vwapCalculator o).
  change (OrderManager.decisionEngine o1) with (OrderManager.decisionEngine o).
  destruct (getCurrentVwap (OrderManager.vwapCalculator o)) as [v c]. cbn [fst] in Hv. subst v.
  rewrite evaluateQuote_prints by done. set (e := OrderManager.decisionEngine o) in *.
  destruct (evaluateQuote_outcome e q (vwap_value (OrderManager.vwapCalculator o)) elapsed m Hok Hval) as (e' & -> & _).
  fold r in Hverdict. rewrite <- Hverdict. destruct (decide (decide_quote e q _ = Trigger)) as [Ht|Hn];
    [rewrite bool_decide_true by done|by rewrite bool_decide_false].
  destruct (OrderManager.vwap_to_i32 Hcap _ _ _ Hcalc) as [cents Hcents]; [| |exact Hpv|].
  { rewrite trade_all_spec. apply (OrderManager.om_spec _ _ _ _ _ _ _ Hinv). }
  { rewrite trade_all_spec. apply (priced_run_positive _ _ _ _ Hcap (nanos_nonneg w Hw) (spec_init_inv cap) (priced_init _ _)).
    apply (OrderManager.fo_trades _ _ _ _ _ _ Hf). }
  rewrite Hcents, recordDecision_text by (done || by rewrite Hmx).
  rewrite (order_of_reference _ _ Hok Hval), Hsy, Hside, Hmx. fold order.
  assert (Hq := Hval). apply (validateQuote_spec q Hok) in Hq as (_ & _ & Hbp & Hap).
  destruct Hok as (_ & _ & Hbq & _ & Haq & _).
  rewrite recordOrder_text; [|exact Hsd|cbn; unfold quoted; branch; cbn; lia|cbn; unfold quoted; branch; cbn; lia|done].
  cbn [text leftfield]. unfold vwap, reference_vwap. fold r in Hvs. rewrite Hvs in *. rewrite <- app_assoc. f_equal. f_equal. f_equal.
  - unfold calculateOrderSize, relevantQuantity, relevantPrice, order, order_for, quoted. rewrite Hside, Hmx. by destruct (sd =? char_B).
  - unfold OrderManager.buildReason, order_reason. cbn. rewrite Hside', Hcents. done.
Qed.
End quote_output.

(** ** The order history *)

Definition row_text (record : OrderRecord.t) : list Z :=
  pad 10 (OrderRecord.symbol record) ++ pad 8 (side_name (OrderRecord.side record)) ++
  pad 10 (digits (OrderRecord.quantity record)) ++ pad 12 (price_text (OrderRecord.price record)) ++
  bytes "  " ++ bytes (OrderRecord.reason record) ++ [10].

Definition history_text (rows : list OrderRecord.t) : list Z :=
  pad 10 (bytes "Symbol") ++ pad 8 (bytes "Side") ++ pad 10 (bytes "Quantity") ++ pad 12 (bytes "Price") ++
  bytes "  Reason" ++ [10] ++ replicate 60 45 ++ [10] ++ concat (row_text <$> rows).

Definition row_ok (record : OrderRecord.t) : Prop :=
  0 ≤ OrderRecord.quantity record ∧ 0 ≤ OrderRecord.price record < 2 ^ 31.

(** A stream that has only ever adjusted to the right and waits for no width. *)
Definition right_plain (os : ostream) : Prop := width os = 0 ∧ leftfield os = false.

Lemma history_row_text record os :
  row_ok record → right_plain os →
  ManagerOutput.history_row record os = mkOstream (text os ++ row_text record) 0 2 true false.
Proof.
  intros [Hq Hp] [Hw Hl]. rewrite (insert_plain os Hw) at 1. rewrite Hl. unfold ManagerOutput.history_row.
  rewrite put_width, pad_string, put_width, pad_string, put_width, pad_integer, put_width, put_fixed, put_precision, pad_double.
  autorewrite with console. rewrite dollars_cents, unsigned_digits by done. unfold row_text. by rewrite <- !app_assoc.
Qed.

Lemma history_rows_text rows os :
  Forall row_ok rows → right_plain os →
  let os' := foldl (λ os r, ManagerOutput.history_row r os) os rows in
  right_plain os' ∧ text os' = text os ++ concat (row_text <$> rows).
Proof.
  intros Hrows. revert os. induction Hrows as [|r rows Hr _ IH]; intros os Hos; cbn [foldl].
  - split; [done|]. cbn. by rewrite app_nil_r.
  - rewrite history_row_text by done. destruct (IH (mkOstream (text os ++ row_text r) 0 2 true false)) as [H1 H2]; [done|].
    split; [exact H1|]. rewrite H2. cbn [text fmap list_fmap concat]. by rewrite <- app_assoc.
Qed.


(** The loop over the indexes from [start] visits the newest records. *)
Lemma history_indexes (h : CircularBuffer.t OrderRecord.t) start :
  (start ≤ CircularBuffer.count h)%nat →
  CircularBuffer.at_ OrderManager.MAX_ORDER_HISTORY h <$> seq start (CircularBuffer.size h - start) =
    drop start (CircularBuffer.iterate OrderManager.MAX_ORDER_HISTORY h).
Proof.
  intros Hs. unfold CircularBuffer.iterate, CircularBuffer.size. rewrite <- fmap_drop. f_equal. by rewrite skipn_seq.
Qed.

Lemma printOrderHistory_text {Q} count (o : OrderManager.t Q) os :
  let records := OrderManager.getOrderHistory o in
  let rows := drop (length records - count) records in
  Forall row_ok records → right_plain os →
  text (ManagerOutput.printOrderHistory count o os) =
    text os ++ ln "=== Order History ===" ++ [10] ++
    (if decide (records = []) then bytes "No orders sent yet" ++ [10] else history_text rows) ++
    bytes "=====================" ++ [10].
Proof.
  intros records rows Hok [Hw Hl]. rewrite (insert_plain os Hw) at 1. rewrite Hl. unfold ManagerOutput.printOrderHistory.
  set (h := OrderManager.orderHistory o). autorewrite with console.
  assert (Hlen : length records = CircularBuffer.count h).
  { unfold records, OrderManager.getOrderHistory, CircularBuffer.iterate. by rewrite length_fmap, length_seq. }
  unfold CircularBuffer.empty. destruct (Nat.eqb_spec (CircularBuffer.count h) 0) as [E|E].
  { rewrite decide_True by (apply nil_length_inv; lia). autorewrite with console. cbn [text]. by rewrite <- !app_assoc. }
  rewrite decide_False by (intros Hn; rewrite Hn in Hlen; cbn in Hlen; lia).
  do 4 (rewrite pad_literal; autorewrite with console). set (start := if (_ <? _)%nat then _ else _).
  assert (Hstart : start = (length records - count)%nat).
  { unfold start, CircularBuffer.size. rewrite Hlen. destruct (Nat.ltb_spec (Nat.min count (CircularBuffer.count h)) (CircularBuffer.count h)); lia. }
  rewrite <- (foldl_fmap (λ os r, ManagerOutput.history_row r os)), history_indexes by lia. rewrite Hstart. change (drop _ _) with rows.
  match goal with |- context [foldl _ ?os rows] => set (os1 := os) end. destruct (history_rows_text rows os1) as [[Hw2 Hl2] Ht]; [by apply Forall_drop|done|].
  rewrite (insert_plain _ Hw2), Ht. autorewrite with console. unfold os1, history_text. cbn [text]. by rewrite <- !app_assoc.
Qed.

(** The orders of the reference print as they are. *)
Definition order_printable (order : OrderMessage) : Prop := 0 ≤ Order.quantity order ∧ 0 ≤ Order.price order < 2 ^ 31.

Lemma orders_printable cap W sym sd maxSize cooldown ops :
  0 ≤ maxSize → Forall OrderManager.op_ok ops →
  Forall order_printable (trade_all cap W sym sd maxSize cooldown (OrderManager.events_of ops) Trading_init).1.
Proof.
  intros Hmax. induction ops as [|c ops IH] using rev_ind; intros Hops; [constructor|].
  apply Forall_app in Hops as [Hops Hc]. apply Forall_inv in Hc. specialize (IH Hops).
  unfold OrderManager.events_of. rewrite fmap_app. cbn [fmap list_fmap]. rewrite trade_all_snoc.
  fold (OrderManager.events_of ops). destruct (trade_all _ _ _ _ _ _ _ _) as [os r]. cbn [fst] in IH.
  destruct c as [q el|t]; cbn [OrderManager.event_of on_event]; [|by rewrite app_nil_r].
  destruct (trades_on _ _ _ _); [|by rewrite app_nil_r]. cbn [fst]. apply Forall_app. split; [done|].
  apply Forall_singleton. destruct Hc as [Hok Hval]. apply (validateQuote_spec q Hok) in Hval as (_ & _ & Hbp & Hap).
  destruct Hok as (_ & _ & Hbq & _ & Haq & _). unfold order_printable, order_for, quoted. branch; cbn; lia.
Qed.

(** The records of a history with these keys print too. *)
Lemma records_ok records orders k :
  OrderManager.record_key <$> records = drop k (OrderManager.order_key <$> orders) →
  Forall order_printable orders → Forall row_ok records.
Proof.
  intros Hkeys Horders. apply Forall_forall. intros r Hr.
  assert (H : OrderManager.record_key r ∈ OrderManager.order_key <$> orders).
  { apply (list_elem_of_fmap_2 OrderManager.record_key) in Hr. rewrite Hkeys in Hr.
    rewrite <- (take_drop k (_ <$> orders)). apply elem_of_app. by right. }
  apply list_elem_of_fmap in H as (order & [= _ _ Hq Hp] & Ho). unfold row_ok. rewrite Hq, Hp.
  exact (proj1 (Forall_forall _ _) Horders order Ho).
Qed.

Section history.
Context {Q : Type} {cap : nat} `{!DequeOps VwapTradeRecord Q} `{!Deque VwapTradeRecord Q cap} (Hcap : (0 < cap)%nat).
Context (empty : Q) (Hempty : dq_inv empty) (Hnil : dq_list empty = []).
Context {World : Type} (cb : option (OrderMessage → World → World)) (wd : World).
Context (sym : list Z) (sd maxSize w : Z) (Hmax : 0 ≤ maxSize) (Hw : is_u32 w) (o : OrderManager.t Q)
  (Hinit : OrderManager.init cap empty sym sd maxSize w = inl o).
Context (ops : list OrderManager.op) (Hops : Forall OrderManager.op_ok ops)
  (Hfit : offered_pv (OrderManager.trades_of ops) ≤ 2 ^ 51) (Hcount : Z.of_nat (length ops) < 2 ^ 64).
Abbreviation orders_of ops :=
  (trade_all cap (nanos w) sym sd maxSize DEFAULT_COOLDOWN (OrderManager.events_of ops) Trading_init).1.


(** the order history on paper.  After any run of the order manager,
    [printOrderHistory count] prints a heading and then one row per order, for
    the newest [count] of them but at most 1000, oldest first: the symbol,
    the side, the quantity and the price in dollars and cents, exactly; a
    manager that has sent no order says so. *)
Theorem history_report (m : SystemMetrics) (count : nat) (os : ostream) :
  right_plain os →
  ∃ o' s' rows, OrderManager.run_ops cap cb ops (o, m, wd) = Some (orders_of ops, (o', s'.1, s'.2)) ∧
    OrderManager.record_key <$> rows =
      drop (length (orders_of ops) - Nat.min count OrderManager.MAX_ORDER_HISTORY) (OrderManager.order_key <$> orders_of ops) ∧
    text (ManagerOutput.printOrderHistory count o' os) =
      text os ++ ln "=== Order History ===" ++ [10] ++
      (if decide (orders_of ops = []) then bytes "No orders sent yet" ++ [10] else history_text rows) ++
      bytes "=====================" ++ [10].
Proof using Hcap Hempty Hnil Hmax Hw Hinit Hops Hfit Hcount.
  intros Hos. destruct (OrderManager.run_from_init Hcap empty Hempty Hnil cb wd sym sd maxSize w Hw o Hinit ops Hops Hfit Hcount m)
    as (o' & m' & Hrun & Hinv & _).
  assert (Hkeys := OrderManager.om_orders _ _ _ _ _ _ _ Hinv). set (orders := orders_of ops) in *.
  set (records := OrderManager.getOrderHistory o'). change (CircularBuffer.elements _ _) with records in Hkeys.
  assert (Hlen := f_equal length Hkeys). rewrite length_drop, !length_fmap in Hlen.
  assert (Hrec : Forall row_ok records) by (eapply records_ok; [exact Hkeys|by apply orders_printable]).
  exists o', (m', OrderManager.deliver cb wd orders), (drop (length records - count) records).
  split; [exact Hrun|]. split.
  - rewrite fmap_drop, Hkeys, drop_drop. f_equal. clear - Hlen. unfold OrderManager.MAX_ORDER_HISTORY in *. lia.
  - rewrite printOrderHistory_text by done. fold records. f_equal. f_equal. f_equal. f_equal.
    assert (Hnil' : records = [] ↔ orders = []).
    { rewrite <- !length_zero_iff_nil. clear - Hlen. unfold OrderManager.MAX_ORDER_HISTORY in *. lia. }
    destruct (decide (records = [])) as [E|E]; [rewrite decide_True by tauto|rewrite decide_False by tauto]; done.
Qed.
End history.

(** ** Concrete runs *)

Module ReportExamples.
Import OrderManager.Examples.
#[local] Existing Instances VwapCalculator.Examples.small_ops VwapCalculator.Examples.small_deque.

Lemma history_report_witness :
  ∃ o' s' rows, OrderManager.run_ops MAX_TRADES log session (manager, SystemMetrics_init, []) =
      Some ((trade_all MAX_TRADES (nanos 5) IBM char_B 150 DEFAULT_COOLDOWN (OrderManager.events_of session) Trading_init).1, (o', s'.1, s'.2)) ∧
    OrderManager.record_key <$> rows = [(15500000000, char_B, 150, 13985)] ∧
    text (ManagerOutput.printOrderHistory 10 o' ostream_init) =
      ln "=== Order History ===" ++ [10] ++ history_text rows ++ bytes "=====================" ++ [10].
Proof.
  destruct (history_report VwapCalculator.Examples.pos empty VwapCalculator.Examples.empty_inv eq_refl log []
    IBM char_B 150 5 ltac:(done) ltac:(done) manager manager_init session session_ok session_fits ltac:(done)
    SystemMetrics_init 10 ostream_init ltac:(done)) as (o' & s' & rows & Hrun & Hkeys & Htext).
  exists o', s', rows. split; [exact Hrun|]. split; [rewrite Hkeys; vm_compute; reflexivity|].
  rewrite Htext, decide_False by (vm_compute; discriminate). reflexivity.
Defined.

(** [OrderManager::processTrade] does not set the format of its report: until
    something else has, six significant digits are shown, and an average of
    12345.67 dollars loses its cents. *)
Example default_format :
  (ostream_init << "$" << dollars (d_of_Z 1234567)) = mkOstream (bytes "$12345.7") 0 6 false false ∧
  (ostream_init << Fixed << Setprecision 2 << "$" << dollars (d_of_Z 1234567)) = mkOstream (bytes "$12345.67") 0 2 true false.
Proof. vm_compute. done. Qed.
End ReportExamples.
