(* ===== verification/Trader.v ===== *)
(** * The trading program ([src/main.cpp])

    The command line, the two callbacks that connect the network to the
    order manager, and what the whole program does with a feed.  C strings
    are the lists of their bytes, without the terminator. *)
From S2P Require Import Prelude Text Binary64 Metrics Message MessageSerializer MessageParser CircularBuffer VwapSpec VwapCalculator DecisionEngine TradingSpec OrderManager MessageBuffer TcpClient NetworkManager.
From S2P Require OrderClient MarketDataClient.
Import WireFormat.

(** ** The command line *)

(** [argv] with [argc] entries.  The members are written before they are
    checked, so a refused command line leaves a half-filled [config]. *)
Definition parse_arguments (argv : list (list Z)) (config : Config) : bool * Config :=
  if negb (length argv =? 9)%nat then (false, config) else
  let arg i := argv !!! i in
  let config := config <| Config.symbol := arg 1%nat |> in
  if (length (Config.symbol config) =? 0)%nat || (8 <? length (Config.symbol config))%nat then (false, config) else
  if negb (length (arg 2) =? 1)%nat || (negb (arg 2%nat !!! 0%nat =? char_B) && negb (arg 2%nat !!! 0%nat =? char_S))
  then (false, config) else
  let config := config <| Config.side := arg 2%nat !!! 0%nat |> in
  let '(v, endptr) := strtoul (arg 3%nat) in
  let config := config <| Config.maxOrderSize := u32 v |> in
  if negb (length endptr =? 0)%nat || (Config.maxOrderSize config =? 0) || (Config.maxOrderSize config >? 1000000)
  then (false, config) else
  let '(v, endptr) := strtoul (arg 4%nat) in
  let config := config <| Config.vwapWindowSeconds := u32 v |> in
  if negb (length endptr =? 0)%nat || (Config.vwapWindowSeconds config =? 0) || (Config.vwapWindowSeconds config >? 3600)
  then (false, config) else
  let config := config <| Config.marketDataHost := arg 5%nat |> in
  if (length (Config.marketDataHost config) =? 0)%nat then (false, config) else
  let '(v, endptr) := strtoul (arg 6%nat) in
  let config := config <| Config.marketDataPort := u16 v |> in
  if negb (length endptr =? 0)%nat || (Config.marketDataPort config =? 0) || (Config.marketDataPort config >? 65535)
  then (false, config) else
  let config := config <| Config.orderHost := arg 7%nat |> in
  if (length (Config.orderHost config) =? 0)%nat then (false, config) else
  let '(v, endptr) := strtoul (arg 8%nat) in
  let config := config <| Config.orderPort := u16 v |> in
  if negb (length endptr =? 0)%nat || (Config.orderPort config =? 0) || (Config.orderPort config >? 65535)
  then (false, config) else
  (true, config).

(** ** What the command line accepts *)

Record config_ok (c : Config) : Prop := {
  co_symbol : (1 ≤ length (Config.symbol c) ≤ 8)%nat;
  co_side : Config.side c = char_B ∨ Config.side c = char_S;
  co_size : 1 ≤ Config.maxOrderSize c ≤ 1000000;
  co_window : 1 ≤ Config.vwapWindowSeconds c ≤ 3600;
  co_market : Config.marketDataHost c ≠ [] ∧ 1 ≤ Config.marketDataPort c ≤ 65535;
  co_order : Config.orderHost c ≠ [] ∧ 1 ≤ Config.orderPort c ≤ 65535
}.

(** The command line that asks for a configuration, with a market port given
    as [port]. *)
Definition command_line (program : list Z) (c : Config) (port : Z) : list (list Z) :=
  [program; Config.symbol c; [Config.side c]; decimal (Config.maxOrderSize c); decimal (Config.vwapWindowSeconds c);
   Config.marketDataHost c; decimal port; Config.orderHost c; decimal (Config.orderPort c)].

Lemma in_range_check v hi : 1 ≤ v ≤ hi → (v =? 0) || (v >? hi) = false.
Proof. intros. apply orb_false_iff. rewrite Z.eqb_neq, Z.gtb_ltb, Z.ltb_ge. lia. Qed.

Lemma checked_range v hi : 0 ≤ v → (v =? 0) || (v >? hi) = false → 1 ≤ v ≤ hi.
Proof. rewrite orb_false_iff, Z.eqb_neq, Z.gtb_ltb, Z.ltb_ge. lia. Qed.

Lemma nonempty_length {A} (l : list A) : l ≠ [] → (length l =? 0)%nat = false.
Proof. by destruct l. Qed.

Lemma parse_command_line program c port c0 :
  config_ok c → is_u64 port → u16 port ≠ 0 →
  parse_arguments (command_line program c port) c0 = (true, c <| Config.marketDataPort := u16 port |>).
Proof.
  intros [Hsym Hside Hsize Hwin [Hmh Hmp] [Hoh Hop]] Hp Hp0. destruct c as [sym sd size win mh mp oh op].
  cbn [Config.symbol Config.side Config.maxOrderSize Config.vwapWindowSeconds Config.marketDataHost
    Config.marketDataPort Config.orderHost Config.orderPort] in *.
  unfold parse_arguments, command_line. cbn [length Nat.eqb negb].
  cbn [lookup_total list_lookup_total Config.symbol Config.side Config.maxOrderSize Config.vwapWindowSeconds
    Config.marketDataHost Config.marketDataPort Config.orderHost Config.orderPort set].
  destruct (Nat.eqb_spec (length sym) 0); [lia|]. destruct (Nat.ltb_spec 8 (length sym)); [lia|]. cbn [orb].
  cbn [length Nat.eqb negb orb lookup_total list_lookup_total].
  assert (Hsd : negb (sd =? char_B) && negb (sd =? char_S) = false).
  { destruct Hside as [-> | ->]; done. }
  rewrite Hsd, !strtoul_decimal by lia. cbn [length Nat.eqb negb orb].
  rewrite !(u32_small size), !(u32_small win), !(u16_small op) by lia.
  assert (Hu := u16_range port).
  rewrite !in_range_check by lia. rewrite !nonempty_length by done. done.
Qed.

Lemma parse_arguments_ok argv c0 c : parse_arguments argv c0 = (true, c) → config_ok c.
Proof.
  unfold parse_arguments.
  branch as E1; [done|]. branch as E2; [done|]. branch as E3; [done|].
  destruct (strtoul (argv !!! 3%nat)) as [v3 r3]. branch as E4; [done|].
  destruct (strtoul (argv !!! 4%nat)) as [v4 r4]. branch as E5; [done|]. branch as E6; [done|].
  destruct (strtoul (argv !!! 6%nat)) as [v6 r6]. branch as E7; [done|]. branch as E8; [done|].
  destruct (strtoul (argv !!! 8%nat)) as [v8 r8]. branch as E9; [done|]. intros [= <-].
  cbn [Config.symbol Config.side Config.maxOrderSize Config.vwapWindowSeconds Config.marketDataHost
    Config.marketDataPort Config.orderHost Config.orderPort set] in *.
  apply orb_false_iff in E2 as [E2a E2b]. apply orb_false_iff in E3 as [_ E3].
  rewrite <- orb_assoc in E4, E5, E7, E9.
  apply orb_false_iff in E4 as [_ E4], E5 as [_ E5], E7 as [_ E7], E9 as [_ E9].
  constructor; cbn.
  - apply Nat.eqb_neq in E2a. apply Nat.ltb_ge in E2b. lia.
  - apply andb_false_iff in E3 as [E3|E3]; apply negb_false_iff, Z.eqb_eq in E3; auto.
  - apply checked_range in E4; [done|apply u32_range].
  - apply checked_range in E5; [done|apply u32_range].
  - split; [by intros E; rewrite E in E6|]. apply checked_range in E7; [done|apply u16_range].
  - split; [by intros E; rewrite E in E8|]. apply checked_range in E9; [done|apply u16_range].
Qed.


(** ** The symbol filter *)

(** [std::strncmp(a, b, n) == 0]. *)
Fixpoint strncmp_eq (a b : list Z) (n : nat) : bool :=
  match n with
  | O => true
  | S n =>
      let x := hd 0 a in let y := hd 0 b in
      if negb (x =? y) then false else if x =? 0 then true else strncmp_eq (tl a) (tl b) n
  end.

Definition symbol_matches (config : Config) (symbol : list Z) : bool :=
  strncmp_eq symbol (Config.symbol config) (Nat.min 8 (length (Config.symbol config))).

Lemma strncmp_prefix a b n :
  (n ≤ length a)%nat → (n ≤ length b)%nat → Forall (λ x, x ≠ 0) b → 
  strncmp_eq a b n = bool_decide (take n a = take n b).
Proof.
  intros Ha Hb H0. revert a b Ha Hb H0. induction n as [|n IH]; intros [|x a] [|y b] Ha Hb H0; try (simpl in *; lia); try done.
  apply Forall_cons in H0 as [Hy H0]. cbn [strncmp_eq hd tl take]. simpl in Ha, Hb.
  destruct (Z.eqb_spec x y) as [->|Hne]; cbn [negb].
  - destruct (Z.eqb_spec y 0); [done|]. rewrite IH by (done || lia). apply bool_decide_ext. split; congruence.
  - symmetry. apply bool_decide_eq_false. congruence.
Qed.

(** C32: the filter compares prefixes.  A message passes when its symbol starts
    with the configured one: also messages of every longer symbol with that
    prefix are traded. *)
Theorem symbol_filter_is_prefix (config : Config) (symbol : list Z) :
  (length (Config.symbol config) ≤ 8)%nat → Forall (λ x, x ≠ 0) (Config.symbol config) → symbol_ok symbol →
  symbol_matches config symbol = true ↔ ∃ rest, symbol = Config.symbol config ++ rest.
Proof.
  intros Hl H0 [Hs _]. unfold symbol_matches. rewrite Nat.min_r by done.
  rewrite strncmp_prefix, bool_decide_eq_true, (take_ge (Config.symbol config)) by (done || lia). split.
  - intros <-. exists (drop (length (Config.symbol config)) symbol). by rewrite take_drop.
  - intros [rest ->]. by rewrite take_app_length.
Qed.

(** ** The callbacks *)

(** What the callbacks capture: the order manager and the counters of
    [main]; [sentBytes] is the byte stream they have handed to the order
    socket. *)
Record Trader (Q : Type) := mkTrader {
  orderManager : OrderManager.t Q; totalQuotes : Z; totalTrades : Z; totalOrders : Z; sentBytes : list Z }.
Arguments mkTrader {Q} _ _ _ _ _.
Arguments orderManager {Q} _.
Arguments totalQuotes {Q} _.
Arguments totalTrades {Q} _.
Arguments totalOrders {Q} _.
Arguments sentBytes {Q} _.
#[global] Instance eta_Trader Q : Settable (Trader Q) := fun r =>
  mkTrader (orderManager r) (totalQuotes r) (totalTrades r) (totalOrders r) (sentBytes r).

Section callbacks.
Context {Q : Type} `{DequeOps VwapTradeRecord Q} (MAX_TRADES : nat) (emptyWindow : Q).
Context (config : Config).
(** The stack array of [sendOrder]; the latency the engine measures and the
    answer of the kernel to the order, by the number of the quote. *)
Context (stack : list Z) (latency : Z → Z) (answers : Z → answer).

(** [None] after an undefined conversion. *)
Abbreviation AppT := (option (Trader Q)).

Definition refreshVwap (o : OrderManager.t Q) : OrderManager.t Q :=
  o <| OrderManager.vwapCalculator ::= λ c, (getCurrentVwap c).2 |>.

Definition onQuote (quote : QuoteMessage) (s : reach AppT) : reach AppT :=
  let '((app, o), m) := s in
  match app with
  | None => s
  | Some t =>
      if negb (symbol_matches config (Quote.symbol quote)) then s else
      let t := t <| totalQuotes ::= λ n, u64 (n + 1) |> in
      match OrderManager.processQuote None quote (latency (totalQuotes t)) (orderManager t, m, tt) with
      | None => ((None, o), m)
      | Some (None, (om, m, _)) => ((Some (t <| orderManager := om |>), o), m)
      | Some (Some order, (om, m, _)) =>
          let t := t <| orderManager := om |> in
          let '(ok, wire, (o, m), _) :=
            OrderClient.sendOrder stack order (answers (totalQuotes t)) (EOTHER 0) (o, m) in
          let t := t <| sentBytes ::= λ l, l ++ wire |> in
          let t := if ok : bool then t <| totalOrders ::= λ n, u64 (n + 1) |> else t in
          ((Some t, o), m)
      end
  end.

Definition onTrade (trade : TradeMessage) (s : reach AppT) : reach AppT :=
  let '((app, o), m) := s in
  match app with
  | None => s
  | Some t =>
      if negb (symbol_matches config (Trade.symbol trade)) then s else
      let t := t <| totalTrades ::= λ n, u64 (n + 1) |> in
      let '(om, m) := OrderManager.processTrade MAX_TRADES trade (orderManager t, m) in
      let t := t <| orderManager := if totalTrades t mod 10 =? 0 then refreshVwap om else om |> in
      ((Some t, o), m)
  end.

(** ** Signals and the main loop *)

Definition SIGINT : Z := 2.
Definition SIGTERM : Z := 15.

(** The handler sets [g_shutdown_requested]. *)
Definition signal_handler (requested : bool) (sig : Z) : bool :=
  if (sig =? SIGINT) || (sig =? SIGTERM) then true else requested.

(** What the kernel does on a signal, and what [main] makes of it before it
    connects. *)
Inductive disposition := Default | Ignored | Handled.
Definition SIGPIPE : Z := 13.
Definition setup_signal_handlers (actions : Z → disposition) (sig : Z) : disposition :=
  if (sig =? SIGINT) || (sig =? SIGTERM) then Handled
  else if sig =? SIGPIPE then Ignored else actions sig.

(** The handler is called for the two signals it reacts to and no other; a
    write to a closed connection does not end the program. *)
Lemma setup_signal_handlers_spec (sig : Z) :
  let actions := setup_signal_handlers (λ _, Default) in
  (actions sig = Handled ↔ ∀ requested, signal_handler requested sig = true) ∧ actions SIGPIPE = Ignored.
Proof.
  split; [|done]. unfold setup_signal_handlers, signal_handler.
  destruct (_ || _); [done|]. destruct (sig =? SIGPIPE); split; try done; intros Hall; by specialize (Hall false).
Qed.

(** What happens in one turn of the loop: the answers of the system calls,
    the clock (in nanoseconds) after the events, the signals handled before
    the flag is looked at again. *)
Record Turn := mkTurn { tu_events : EventsEnv; tu_now : Z; tu_signals : list Z }.

Definition stats_due (now lastStatsTime : Z) : bool := 30 <=? Z.quot (now - lastStatsTime) 1000000000.

(** The loop, until a signal is seen; the periodic report reads the average,
    which refreshes the cache.  [None]: no signal among the given turns, or
    a call in one of them does not return. *)
Fixpoint main_loop (turns : list Turn) (kernel : list MarketDataClient.delivery) (err : Errno)
    (g_shutdown_requested : bool) (lastStatsTime : Z) (s : net_state AppT)
  : option (net_state AppT * list MarketDataClient.delivery * Errno) :=
  if g_shutdown_requested then Some (s, kernel, err) else
  match turns with
  | [] => None
  | turn :: turns =>
      '((n, (app, m)), kernel, err, _) ← processEvents (Some onQuote) (Some onTrade) (tu_events turn) kernel err s;
      let due := stats_due (tu_now turn) lastStatsTime in
      let app := if due then option_map (λ t, t <| orderManager ::= refreshVwap |>) app else app in
      main_loop turns kernel err (foldl signal_handler g_shutdown_requested (tu_signals turn))
        (if due then tu_now turn else lastStatsTime) (n, (app, m))
  end.
End callbacks.

(** [main]: the exit code, and the state at the end when the loop was
    entered.  The constructor's exception is caught and gives 1.  [early]
    are the signals handled before the first turn. *)
Definition main {Q} `{DequeOps VwapTradeRecord Q} (MAX_TRADES : nat) (emptyWindow : Q) (argv : list (list Z))
    (stack mem : list Z) (queue : list OrderClient.PendingSend) (latency : Z → Z) (answers : Z → answer)
    (marketEnv orderEnv : ConnectEnv) (now : Z) (early : list Z) (turns : list Turn)
    (kernel : list MarketDataClient.delivery) (err : Errno)
  : option (Z * option (net_state (option (Trader Q)))) :=
  let '(ok, config) := parse_arguments argv Config.init in
  if negb ok then Some (1, None) else
  match OrderManager.init MAX_TRADES emptyWindow (Config.symbol config) (Config.side config)
          (Config.maxOrderSize config) (Config.vwapWindowSeconds config) with
  | inr _ => Some (1, None)
  | inl om =>
      '(ok, n, err) ← initialize mem queue marketEnv orderEnv err (NetworkManager_init now now);
      if negb ok then Some (1, None) else
      '((n, s), _, _) ← main_loop MAX_TRADES config stack latency answers turns kernel err
                          (foldl signal_handler false early) now
                          (n, (Some (mkTrader om 0 0 0 []), SystemMetrics_init));
      Some (0, Some (stop n, s))
  end.

(** ** A session *)

(** A well-formed body. *)
Definition body_ok (m : MessageHeader * list Z) : Prop :=
  bytes_ok m.2 ∧ Z.of_nat (length m.2) = Header.length m.1.

Lemma decode_ok m d :
  body_ok m → MarketDataClient.decode m = Some d →
  match d with
  | MarketDataClient.MdQuote q => Header.type m.1 = Header.QUOTE_TYPE ∧ QuoteMessage_ok q ∧ validateQuote q = true
  | MarketDataClient.MdTrade t => Header.type m.1 = Header.TRADE_TYPE ∧ TradeMessage_ok t
  end.
Proof.
  intros [Hb Hl]. unfold MarketDataClient.decode.
  destruct (Z.eqb_spec (Header.type m.1) Header.QUOTE_TYPE).
  - destruct (parseQuote m.2 _) as [q|] eqn:Hp; [|done]. cbn [mbind option_bind].
    destruct (validateQuote q) eqn:Hv; [|done]. intros [= <-]. split; [done|]. split; [|done].
    eapply parseQuote_ok; [done| |done]. lia.
  - destruct (Z.eqb_spec (Header.type m.1) Header.TRADE_TYPE); [|done].
    destruct (parseTrade m.2 _) as [t|] eqn:Hp; [|done]. cbn [mbind option_bind].
    destruct (validateTrade t) eqn:Hv; [|done]. intros [= <-]. split; [done|].
    eapply parseTrade_ok; [done| |done]. lia.
Qed.

Lemma bytes_replicate n : bytes_ok (replicate n 0).
Proof. by apply Forall_replicate. Qed.

(** The orders of the reference fit their types. *)
Lemma order_for_ok config q :
  config_ok config → bytes_ok (Config.symbol config) → QuoteMessage_ok q → validateQuote q = true →
  OrderMessage_ok (order_for (Config.symbol config) (Config.side config) (Config.maxOrderSize config) q).
Proof.
  intros Hconfig Hsymbol Hok Hval. assert (Hq := Hval). apply (validateQuote_spec q Hok) in Hq as (_ & _ & Hbp & Hap).
  destruct Hok as (Hqs & Hts & Hbq & _ & Haq & _).
  assert (Hsz := co_size config Hconfig). assert (Hside := co_side config Hconfig).
  unfold order_for, quoted. split; cbn [Order.symbol Order.timestamp Order.quantity Order.price Order.side Order._padding].
  { split; [apply length_symbol_field|]. unfold symbol_field. apply Forall_take, Forall_app. split; [done|apply bytes_replicate]. }
  split; [done|]. destruct Hside as [-> | ->]; cbn [Z.eqb char_B char_S Pos.eqb QuoteIdentifier.price QuoteIdentifier.quantity]; repeat split; (lia || done).
Qed.

(** Handing an order to the client keeps it safe, whatever the order. *)
Lemma serializeOrder_length mem o :
  length mem = ORDER_SIZE → ∃ buffer, serializeOrder mem ORDER_SIZE o = (buffer, ORDER_SIZE) ∧ length buffer = ORDER_SIZE.
Proof.
  intros Hm. unfold serializeOrder. rewrite Nat.ltb_irrefl. eexists. split; [reflexivity|].
  by rewrite !length_inserts, length_insert, !length_inserts.
Qed.

Lemma sendOrder_any mem o a err c m :
  length mem = ORDER_SIZE →
  OrderClient.sendOrder mem o a err (c, m) = (false, [], (c, m), err) ∨
  ∃ bytes, length bytes = ORDER_SIZE ∧ state (OrderClient.tcp c) = CONNECTED ∧
    OrderClient.sendOrder mem o a err (c, m) = OrderClient.submit bytes a err (c, m).
Proof.
  intros Hm. unfold OrderClient.sendOrder, isConnected. cbn [fst].
  case_bool_decide as Hst; cbn [negb]; [|by left].
  destruct (negb _ && negb _); [by left|]. destruct (_ =? 0); [by left|]. destruct (_ <=? 0); [by left|].
  destruct (serializeOrder_length mem o Hm) as (buffer & -> & Hl). right. exists (take ORDER_SIZE buffer).
  split; [by rewrite length_take, Hl|]. done.
Qed.

Lemma sendOrder_safe stack order a err o m :
  length stack = ORDER_SIZE → oc_safe o → OrderClient.answer_ok a →
  oc_safe (OrderClient.sendOrder stack order a err (o, m)).1.2.1.
Proof.
  intros Hstack [Ho Ht] Ha. split; [|by apply OrderClient.sendOrder_tcp].
  destruct (sendOrder_any stack order a err o m Hstack) as [-> | (bytes & Hl & Hst & ->)]; [done|].
  assert (H := OrderClient.submit_outcome bytes a err o m Ho Hst Hl Ha).
  destruct (OrderClient.submit _ _ _ _) as [[[ok wire] [o' m']] err']. apply H.
Qed.
Lemma window_u32 c : config_ok c → is_u32 (Config.vwapWindowSeconds c).
Proof. intros Hc. assert (H := co_window c Hc). lia. Qed.

Section session.
Context {Q : Type} {cap : nat} `{!DequeOps VwapTradeRecord Q} `{!Deque VwapTradeRecord Q cap}
  (Hcap : (0 < cap)%nat).
Context (emptyWindow : Q) (Hempty : dq_inv emptyWindow) (Hnil : dq_list emptyWindow = []).
Context (config : Config) (Hconfig : config_ok config) (Hsymbol : bytes_ok (Config.symbol config)).
Context (stack : list Z) (Hstack : length stack = ORDER_SIZE) (latency : Z → Z) (answers : Z → answer)
  (Hanswers : ∀ n, OrderClient.answer_ok (answers n)).
Abbreviation window := (Config.vwapWindowSeconds config).
Abbreviation callback := (handleMarketData (Some (onQuote config stack latency answers))
                                           (Some (onTrade cap config))).

(** The messages of the traded symbol, in order. *)
Definition quotes_seen (log : list (MessageHeader * MarketDataClient.MarketData)) : list QuoteMessage :=
  omap (λ x, match x.2 with
             | MarketDataClient.MdQuote q => if symbol_matches config (Quote.symbol q) then Some q else None
             | _ => None end) log.
Definition trades_seen (log : list (MessageHeader * MarketDataClient.MarketData)) : list TradeMessage :=
  omap (λ x, match x.2 with
             | MarketDataClient.MdTrade t => if symbol_matches config (Trade.symbol t) then Some t else None
             | _ => None end) log.

(** All of them, as the reference sees them, and what it orders. *)
Definition event_seen (x : MessageHeader * MarketDataClient.MarketData) : option event :=
  match x.2 with
  | MarketDataClient.MdQuote q => if symbol_matches config (Quote.symbol q) then Some (QuoteEvent q) else None
  | MarketDataClient.MdTrade t => if symbol_matches config (Trade.symbol t) then Some (TradeEvent t) else None
  end.
Definition events_seen (log : list (MessageHeader * MarketDataClient.MarketData)) : list event := omap event_seen log.
Abbreviation reference log :=
  (trade_all cap (nanos window) (Config.symbol config) (Config.side config) (Config.maxOrderSize config)
     DEFAULT_COOLDOWN (events_seen log) Trading_init).

(** The trader after the messages [log], having started with the order client
    [o0]; [prompt]: it is connected, and the kernel takes every order whole. *)
Definition prompt (o0 : OrderClientT) : Prop :=
  state (OrderClient.tcp o0) = CONNECTED ∧ ∀ n, ∃ k, answers n = Ret k ∧ Z.of_nat ORDER_SIZE ≤ k.

Record session_ok (o0 : OrderClientT) (log : list (MessageHeader * MarketDataClient.MarketData)) (t : Trader Q)
    (o : OrderClientT) : Prop := {
  so_client : oc_safe o;
  so_manager : OrderManager.follows (cap := cap) (Config.symbol config) (Config.side config)
                 (Config.maxOrderSize config) window (events_seen log) (orderManager t);
  so_quotes : totalQuotes t = Z.of_nat (length (quotes_seen log));
  so_count : totalTrades t = Z.of_nat (length (trades_seen log));
  so_orders : 0 ≤ totalOrders t ≤ Z.of_nat (length (reference log).1);
  so_bound : (length (reference log).1 ≤ length (quotes_seen log))%nat;
  so_sent : prompt o0 →
    state (OrderClient.tcp o) = CONNECTED ∧
    sentBytes t = concat (order_bytes <$> filter OrderClient.sendable (reference log).1) ∧
    totalOrders t = Z.of_nat (length (filter OrderClient.sendable (reference log).1))
}.

Definition session_inv (o0 : OrderClientT) (log : list (MessageHeader * MarketDataClient.MarketData))
    (w : option (Trader Q) * OrderClientT) : Prop :=
  offered_pv (trades_seen log) ≤ 2 ^ 51 → Z.of_nat (length log) < 2 ^ 64 →
  ∃ t o, w = (Some t, o) ∧ session_ok o0 log t o.

Lemma events_snoc log x : events_seen (log ++ [x]) = events_seen log ++ option_list (event_seen x).
Proof using Type. unfold events_seen. rewrite omap_app. cbn. by destruct (event_seen x). Qed.

Lemma quotes_snoc log h q :
  quotes_seen (log ++ [(h, MarketDataClient.MdQuote q)]) =
    quotes_seen log ++ (if symbol_matches config (Quote.symbol q) then [q] else []).
Proof using Type.
  unfold quotes_seen. rewrite omap_app. f_equal. cbn [omap list_omap snd]. by destruct (symbol_matches config (Quote.symbol q)).
Qed.
Lemma quotes_snoc_trade log h t :
  quotes_seen (log ++ [(h, MarketDataClient.MdTrade t)]) = quotes_seen log.
Proof using Type. unfold quotes_seen. rewrite omap_app. apply app_nil_r. Qed.
Lemma trades_snoc log h t :
  trades_seen (log ++ [(h, MarketDataClient.MdTrade t)]) =
    trades_seen log ++ (if symbol_matches config (Trade.symbol t) then [t] else []).
Proof using Type.
  unfold trades_seen. rewrite omap_app. f_equal. cbn [omap list_omap snd]. by destruct (symbol_matches config (Trade.symbol t)).
Qed.
Lemma trades_snoc_quote log h q :
  trades_seen (log ++ [(h, MarketDataClient.MdQuote q)]) = trades_seen log.
Proof using Type. unfold trades_seen. rewrite omap_app. apply app_nil_r. Qed.

Lemma trades_events log : event_trades (events_seen log) = trades_seen log.
Proof using Type.
  induction log as [|[h [q|t]] log IH] using rev_ind; [done|..]; rewrite events_snoc, event_trades_app, IH.
  - rewrite trades_snoc_quote. cbn [event_seen snd]. destruct (symbol_matches config (Quote.symbol q)); apply app_nil_r.
  - rewrite trades_snoc. f_equal. cbn [event_seen snd]. by destruct (symbol_matches config (Trade.symbol t)).
Qed.

Lemma onQuote_step o0 log h q mt t o :
  QuoteMessage_ok q → validateQuote q = true → offered_pv (trades_seen log) ≤ 2 ^ 51 →
  Z.of_nat (length log) + 1 < 2 ^ 64 → session_ok o0 log t o →
  ∃ t' o', (onQuote config stack latency answers q ((Some t, o), mt)).1 = (Some t', o') ∧
    session_ok o0 (log ++ [(h, MarketDataClient.MdQuote q)]) t' o'.
Proof using Hcap Hconfig Hsymbol Hstack Hanswers.
  intros Hok Hval Hpv Hlen [Hcl Hom Hqs Hts Hto Hbd Hsent]. assert (Hw := window_u32 config Hconfig).
  assert (Hql : (length (quotes_seen log) ≤ length log)%nat) by apply length_omap_le.
  assert (Hev : event_seen (h, MarketDataClient.MdQuote q) =
                if symbol_matches config (Quote.symbol q) then Some (QuoteEvent q) else None) by done.
  unfold onQuote. destruct (symbol_matches config (Quote.symbol q)) eqn:Hm; cbn [negb].
  2: { exists t, o. split; [done|]. constructor; rewrite ?events_snoc, ?Hev, ?quotes_snoc, ?trades_snoc_quote, ?Hm, ?app_nil_r; done. }
  destruct (OrderManager.follows_quote Hcap _ _ _ _ (World := unit) None (events_seen log) (orderManager t) mt tt q
    (latency (u64 (totalQuotes t + 1))) Hw Hom) as (om & m1 & Hrun & Hom' & Hos & _); [|done..|].
  { rewrite trade_all_spec, trades_events. etransitivity; [|exact Hpv]. apply OrderManager.pv_run; [done..|].
    rewrite <- trades_events. apply (OrderManager.fo_trades _ _ _ _ _ _ Hom). }
  set (r := if trades_on _ _ _ _ then _ else _) in *.
  assert (Hr : ∀ order, r = Some order → order = order_for (Config.symbol config) (Config.side config) (Config.maxOrderSize config) q).
  { unfold r. intros order. by destruct (trades_on _ _ _ _); [intros [= <-]|]. }
  assert (Hevs : events_seen (log ++ [(h, MarketDataClient.MdQuote q)]) = events_seen log ++ [QuoteEvent q]) by (rewrite events_snoc, Hev; done).
  clearbody r. cbn [orderManager totalQuotes set]. rewrite Hrun. destruct r as [order|].
  - change (option_list (Some order)) with [order] in Hos. assert (Ho := order_for_ok config q Hconfig Hsymbol Hok Hval). rewrite <- (Hr order eq_refl) in Ho.
    assert (Hs := sendOrder_safe stack order (answers (u64 (totalQuotes t + 1))) (EOTHER 0) o m1 Hstack Hcl (Hanswers _)).
    assert (Hwhole := λ n, OrderClient.sendOrder_whole stack order n (EOTHER 0) o m1 Ho Hstack).
    assert (Hprompt : prompt o0 → state (OrderClient.tcp o) = CONNECTED → let '(ok, wire, (o', _), _) :=
      OrderClient.sendOrder stack order (answers (u64 (totalQuotes t + 1))) (EOTHER 0) (o, m1) in
      state (OrderClient.tcp o') = CONNECTED ∧ ok = bool_decide (OrderClient.sendable order) ∧
      wire = if ok then order_bytes order else []).
    { intros [_ Hp] Hst. destruct (Hp (u64 (totalQuotes t + 1))) as (k & -> & Hk). by apply Hwhole. }
    clear Hwhole. destruct (OrderClient.sendOrder _ _ _ _ _) as [[[ok wire] [o' m2]] err2]. cbn [fst snd] in Hs |- *.
    eexists _, o'. split; [reflexivity|].
    constructor; rewrite ?Hevs, ?quotes_snoc, ?trades_snoc_quote, ?Hm, ?Hos, ?length_app; try done.
    + by destruct ok.
    + destruct ok; cbn; rewrite Hqs, u64_small; lia.
    + by destruct ok.
    + destruct ok; cbn [totalOrders set length]; [rewrite u64_small|]; lia.
    + cbn [length]. lia.
    + intros Hp. destruct (Hsent Hp) as (Hst & Hbytes & Hn). destruct (Hprompt Hp Hst) as (Hst' & -> & ->).
      split; [done|]. rewrite filter_app, fmap_app, concat_app, length_app. case_bool_decide as Hsd.
      * rewrite filter_cons_True by done. cbn. rewrite Hbytes, app_nil_r. split; [done|]. rewrite u64_small; lia.
      * rewrite filter_cons_False by done. cbn. rewrite Hbytes. split; [done|]. lia.
  - change (option_list None) with (@nil OrderMessage) in Hos. rewrite app_nil_r in Hos. eexists _, o. split; [reflexivity|].
    constructor; rewrite ?Hevs, ?quotes_snoc, ?trades_snoc_quote, ?Hm, ?Hos, ?length_app; try done.
    + cbn. rewrite Hqs, u64_small; lia.
    + cbn [length]. lia.
Qed.

Lemma refreshVwap_follows evs om :
  OrderManager.follows (cap := cap) (Config.symbol config) (Config.side config) (Config.maxOrderSize config) window evs om →
  OrderManager.follows (cap := cap) (Config.symbol config) (Config.side config) (Config.maxOrderSize config) window evs (refreshVwap om).
Proof using Type.
  intros [[] ? ? ?]. constructor; cbn; try done. constructor; cbn; try done. by apply OrderManager.refresh_refines.
Qed.

Lemma onTrade_step o0 log h trade mt t o :
  TradeMessage_ok trade → Z.of_nat (length log) + 1 < 2 ^ 64 → session_ok o0 log t o →
  ∃ t', (onTrade cap config trade ((Some t, o), mt)).1 = (Some t', o) ∧
    session_ok o0 (log ++ [(h, MarketDataClient.MdTrade trade)]) t' o.
Proof using Hcap Hconfig.
  intros Hok Hlen [Hcl Hom Hqs Hts Hto Hbd Hsent]. assert (Hw := window_u32 config Hconfig). clear Hstack.
  assert (Htl : (length (trades_seen log) ≤ length log)%nat) by apply length_omap_le.
  assert (Hev : event_seen (h, MarketDataClient.MdTrade trade) =
                if symbol_matches config (Trade.symbol trade) then Some (TradeEvent trade) else None) by done.
  unfold onTrade. destruct (symbol_matches config (Trade.symbol trade)) eqn:Hm; cbn [negb].
  2: { exists t. split; [done|]. constructor; rewrite ?events_snoc, ?Hev, ?quotes_snoc_trade, ?trades_snoc, ?Hm, ?app_nil_r; done. }
  assert (Hom' := OrderManager.follows_trade Hcap _ _ _ _ (events_seen log) (orderManager t) mt trade Hw Hok Hom).
  assert (Hevs : events_seen (log ++ [(h, MarketDataClient.MdTrade trade)]) = events_seen log ++ [TradeEvent trade]) by (rewrite events_snoc, Hev; done).
  assert (Hos : (reference (log ++ [(h, MarketDataClient.MdTrade trade)])).1 = (reference log).1).
  { rewrite Hevs, trade_all_snoc. destruct (reference log). apply app_nil_r. }
  cbn [orderManager set]. destruct (OrderManager.processTrade cap trade (orderManager t, mt)) as [om m1].
  cbn [fst] in *. eexists. split; [reflexivity|].
  constructor; rewrite ?Hos, ?Hevs, ?quotes_snoc_trade, ?trades_snoc, ?Hm; try done.
  - cbn [orderManager set]. destruct (_ =? 0); [by apply refreshVwap_follows|done].
  - cbn. rewrite Hts, u64_small, length_app by lia. cbn. lia.
Qed.

Lemma callback_step o0 log m d w mt :
  body_ok m → MarketDataClient.decode m = Some d → session_inv o0 log w →
  session_inv o0 (log ++ [(m.1, d)]) (callback m.1 d (w, mt)).1.
Proof using Hcap Hconfig Hsymbol Hstack Hanswers.
  intros Hb Hd Hinv Hpv Hlen. rewrite length_app in Hlen. cbn [length] in Hlen.
  apply (decode_ok m d Hb) in Hd. destruct d as [q|trade]; unfold handleMarketData.
  - destruct Hd as (-> & Hq & Hv). rewrite trades_snoc_quote in Hpv.
    destruct (Hinv Hpv ltac:(lia)) as (t & o & -> & Hok). cbn [Z.eqb Header.QUOTE_TYPE Pos.eqb].
    destruct (onQuote_step o0 log m.1 q mt t o Hq Hv Hpv ltac:(lia) Hok) as (t' & o' & -> & Hok'). by exists t', o'.
  - destruct Hd as (-> & Ht). rewrite trades_snoc, offered_app in Hpv.
    assert (Hnn := offered_nonneg (if symbol_matches config (Trade.symbol trade) then [trade] else [])).
    destruct (Hinv ltac:(lia) ltac:(lia)) as (t & o & -> & Hok).
    cbn [Z.eqb Header.QUOTE_TYPE Header.TRADE_TYPE Pos.eqb].
    destruct (onTrade_step o0 log m.1 trade mt t o Ht ltac:(lia) Hok) as (t' & -> & Hok'). by exists t', o.
Qed.

(** C1: the program, from bytes to orders.  Feed a freshly started trader a
    stream of market data frames, cut into blocks however the network likes
    (and of total trade value at most 2^51 cents).  Every block is consumed
    and nothing is undefined; the trader has counted exactly the quotes and
    trades of its symbol among the messages whose last byte has been received
    (and which pass validation), wherever the stream stops; the orders in its
    history are the last 1000 of those of the reference trader run on these
    messages, which decides in exact arithmetic; its average is the correctly
    rounded quotient of the reference's sums; the order client is still well
    formed; and if it is connected and the kernel takes every order whole,
    the bytes handed to the order socket are the wire forms of these orders,
    in order, less those at a price of zero, which the client refuses. *)
Theorem trader_session (calls : nat) (ds : list MarketDataClient.delivery) (err : Errno) (c : MarketClientT)
    (o : OrderClientT) (m : SystemMetrics) (ms : list (MessageHeader * list Z)) (suffix : list Z)
    (om : OrderManager.t Q) :
  OrderManager.init cap emptyWindow (Config.symbol config) (Config.side config) (Config.maxOrderSize config) window
    = inl om →
  isConnected (MarketDataClient.tcp c) = true → buffer_inv (MarketDataClient.receiveBuffer c) →
  contents (MarketDataClient.receiveBuffer c) = [] → oc_safe o →
  Forall MarketDataClient.block_ok ds → (length ds ≤ calls)%nat →
  Forall frame_ok ms → Forall body_ok ms →
  MarketDataClient.feed_bytes ds ++ suffix = concat (frame <$> ms) →
  offered_pv (trades_seen (MarketDataClient.delivered ms)) ≤ 2 ^ 51 → Z.of_nat (length ms) < 2 ^ 64 →
  ∃ c' t o' m' err',
    MarketDataClient.poll callback calls ds err (c, ((Some (mkTrader om 0 0 0 []), o), m)) =
      Some ((c', ((Some t, o'), m')), [], err') ∧
    let log := MarketDataClient.delivered (arrived ms (length (MarketDataClient.feed_bytes ds))) in
    let orders := (reference log).1 in let r := (reference log).2 in
    totalQuotes t = Z.of_nat (length (quotes_seen log)) ∧
    totalTrades t = Z.of_nat (length (trades_seen log)) ∧
    OrderManager.record_key <$> OrderManager.getOrderHistory (orderManager t) =
      drop (length orders - OrderManager.MAX_ORDER_HISTORY) (OrderManager.order_key <$> orders) ∧
    (getCurrentVwap (OrderManager.vwapCalculator (orderManager t))).1 =
      (if Spec.volume (spec r) =? 0 then dzero else d_div (d_of_Z (Spec.pv (spec r))) (d_of_Z (Spec.volume (spec r)))) ∧
    totalOrders t ≤ Z.of_nat (length orders) ≤ totalQuotes t ∧ oc_safe o' ∧
    (prompt o → sentBytes t = concat (order_bytes <$> filter OrderClient.sendable orders) ∧
                totalOrders t = Z.of_nat (length (filter OrderClient.sendable orders))).
Proof using Hcap Hempty Hnil Hconfig Hsymbol Hstack Hanswers.
  intros Hinit Hc Hb H0 Ho Hds Hcalls Hms Hbody Hcat Hpv Hlen. assert (Hw := window_u32 config Hconfig).
  destruct (MarketDataClient.poll_feed callback body_ok (session_inv o) (callback_step o))
    with (calls := calls) (ds := ds) (err := err) (c := c) (w := (Some (mkTrader om 0 0 0 []), o)) (m := m)
      (ms := ms) (suffix := suffix) (log := @nil (MessageHeader * MarketDataClient.MarketData))
    as (c' & w' & m' & err' & Hrun & Hinv & _ & _ & [rest Hrest]); try done.
  { intros _ _. exists (mkTrader om 0 0 0 []), o. split; [done|]. constructor; try done.
    + by apply (OrderManager.follows_init Hcap _ _ _ _ emptyWindow).
    + by intros [Hst _]. }
  cbn [app] in Hinv. destruct Hinv as (t & o' & -> & [Hcl Hom Hqs Hts Hto Hbd Hsent]).
  - etransitivity; [|exact Hpv]. rewrite Hrest at 2.
    rewrite MarketDataClient.delivered_app. unfold trades_seen. rewrite omap_app, offered_app.
    assert (H := offered_nonneg (trades_seen (MarketDataClient.delivered rest))).
    unfold trades_seen in H. lia.
  - assert (H1 : (length (MarketDataClient.delivered (arrived ms (length (MarketDataClient.feed_bytes ds)))) ≤
      length (arrived ms (length (MarketDataClient.feed_bytes ds))))%nat) by apply length_omap_le.
    rewrite Hrest, length_app in Hlen. lia.
  - exists c', t, o', m', err'. split; [exact Hrun|]. cbv zeta.
    assert (Hcalc := OrderManager.follows_calc _ _ _ _ _ _ Hom).
    assert (Hrec := OrderManager.om_orders _ _ _ _ _ _ _ (OrderManager.fo_inv _ _ _ _ _ _ Hom)).
    split; [done|]. split; [done|]. split; [done|]. split; [|split; [lia|split; [done|intros Hp; by apply Hsent]]].
    destruct (OrderManager.refresh_refines _ _ _ Hcalc) as [_ ->]. apply (OrderManager.vwap_value_spec _ _ _ Hcalc).
Qed.
End session.

(** ** Shutdown *)

(** A signal among these asks for the shutdown. *)
Definition stops (signals : list Z) : Prop := SIGINT ∈ signals ∨ SIGTERM ∈ signals.

Lemma handled b signals : foldl signal_handler b signals = true ↔ b = true ∨ stops signals.
Proof.
  unfold stops. revert b. induction signals as [|s signals IH]; intros b; cbn [foldl].
  - set_solver.
  - rewrite IH, !elem_of_cons. unfold signal_handler.
    destruct (Z.eqb_spec s SIGINT), (Z.eqb_spec s SIGTERM); cbn [orb]; naive_solver.
Qed.

Lemma unhandled signals : ¬ stops signals → foldl signal_handler false signals = false.
Proof. intros Hn. apply not_true_iff_false. rewrite handled. by intros [|]. Qed.

Section shutdown.
Context {Q : Type} `{DequeOps VwapTradeRecord Q} (MAX_TRADES : nat) (emptyWindow : Q).
Context (stack : list Z) (Hstack : length stack = ORDER_SIZE) (latency : Z → Z) (answers : Z → answer)
  (Hanswers : ∀ n, OrderClient.answer_ok (answers n)).

Lemma onQuote_safe config : safe_callback (onQuote (Q := Q) config stack latency answers).
Proof using Hstack Hanswers.
  intros q [t|] o m Ho; [|done]. unfold onQuote. destruct (negb _); [done|].
  destruct (OrderManager.processQuote _ _ _ _) as [[[order|] [[om m1] w]]|]; try done. cbn [totalQuotes set].
  assert (Hs := sendOrder_safe stack order (answers (u64 (totalQuotes t + 1))) (EOTHER 0) o m1 Hstack Ho (Hanswers _)).
  by destruct (OrderClient.sendOrder _ _ _ _ _) as [[[ok wire] [o' m2]] err2].
Qed.

Lemma onTrade_safe config : safe_callback (onTrade (Q := Q) MAX_TRADES config).
Proof using Type.
  intros trade [t|] o m Ho; [|done]. unfold onTrade. destruct (negb _); [done|].
  by destruct (OrderManager.processTrade _ _ _) as [om m1].
Qed.

Abbreviation loop config := (main_loop MAX_TRADES config stack latency answers).

(** The loop runs until the first turn with such a signal, and no further. *)
Lemma main_loop_until config before turn kernel err last n app m :
  nm_inv n → Forall (λ t, events_env_ok (tu_events t)) (before ++ [turn]) →
  Forall (λ t, ¬ stops (tu_signals t)) before → stops (tu_signals turn) →
  ∃ r kernel' err', (∀ later, loop config (before ++ turn :: later) kernel err false last (n, (app, m)) = Some (r, kernel', err')) ∧
    nm_inv r.1 ∧ running r.1 = running n.
Proof using Hstack Hanswers.
  intros Hn Henv Hbefore Hstop.
  assert (Hsafe := λ env kernel err n app m, processEvents_safe (Some (onQuote config stack latency answers))
    (Some (onTrade MAX_TRADES config)) ltac:(intros ? [= <-]; apply onQuote_safe) ltac:(intros ? [= <-]; apply onTrade_safe)
    env kernel err n app m). revert kernel err last n app m Hn.
  induction before as [|t before IH]; intros kernel err last n app m Hn; cbn [Datatypes.app] in *;
    apply Forall_cons in Henv as [Ht Henv]; cbn [main_loop];
    destruct (Hsafe _ kernel err n app m Hn Ht) as (n1 & app1 & m1 & k1 & err1 & wire & Hpe & Hn1 & Hr1).
  - exists (n1, (if stats_due (tu_now turn) last
                 then option_map (λ t, t <| orderManager ::= refreshVwap |>) app1 else app1, m1)), k1, err1.
    split; [|done]. intros later. rewrite Hpe. cbn [mbind option_bind].
    rewrite (proj2 (handled _ _)) by (by right). by destruct later.
  - apply Forall_cons in Hbefore as [Hb Hbefore].
    edestruct (IH Henv Hbefore) as (r & k' & err' & Hrun & Hn' & Hr'); [exact Hn1|].
    exists r, k', err'. split; [|split; [exact Hn'|congruence]].
    intros later. rewrite Hpe. cbn [mbind option_bind]. rewrite unhandled by done. apply Hrun.
Qed.

(** Without one it does not end. *)
Lemma main_loop_on config turns kernel err last s :
  Forall (λ t, ¬ stops (tu_signals t)) turns → loop config turns kernel err false last s = None.
Proof using stack latency answers.
  intros Hts. revert kernel err last s. induction Hts as [|t turns Ht _ IH]; intros; cbn [main_loop]; [done|].
  destruct (processEvents _ _ _ _ _ _) as [[[[[n [app m]] k] e] w]|]; cbn [mbind option_bind]; [|done].
  rewrite unhandled by done. apply IH.
Qed.

Definition closed (t : TcpClient) : Prop := state t = DISCONNECTED ∧ socketFd t = -1.

(** What [stop] leaves of the clients: the sockets are closed, and what the
    order client had queued stays queued. *)
Lemma stop_closes n :
  running n = true →
  (∀ c, marketClient (stop n) = Some c → closed (MarketDataClient.tcp c)) ∧
  (∀ o, orderClient (stop n) = Some o → closed (OrderClient.tcp o)) ∧
  (OrderClient.pending <$> orderClient (stop n)) = (OrderClient.pending <$> orderClient n).
Proof using Type.
  intros Hrun. unfold stop. rewrite Hrun. cbn. unfold closed.
  destruct (marketClient n), (orderClient n); cbn; split_and!; (done || by intros ? [= <-]).
Qed.

(** A checked configuration is one the order manager accepts. *)
Lemma manager_starts config :
  config_ok config → ∃ om, OrderManager.init MAX_TRADES emptyWindow (Config.symbol config) (Config.side config)
    (Config.maxOrderSize config) (Config.vwapWindowSeconds config) = inl om.
Proof using Type.
  clear Hstack. intros [_ Hside Hsize Hwin _ _]. unfold OrderManager.init.
  replace (negb _ && negb _) with false by (by destruct Hside as [-> | ->]).
  destruct (Z.eqb_spec (Config.maxOrderSize config) 0); [lia|].
  destruct (Z.eqb_spec (Config.vwapWindowSeconds config) 0); [lia|]. by eexists.
Qed.

(** C9: from start to shutdown.  With an accepted command line the program
    either fails to connect and exits with 1, or it runs until the first turn
    in which SIGINT or SIGTERM is handled, whatever the network does: it
    finishes that turn, closes both sockets and exits with 0, and nothing
    that would come later matters.  Before such a signal it does not end.
    The orders that wait in the send queue when the loop ends are still there
    at the exit: they are never sent. *)
Theorem shutdown (argv : list (list Z)) (config : Config) (mem : list Z) (queue : list OrderClient.PendingSend)
    (marketEnv orderEnv : ConnectEnv) (now : Z) (early : list Z) (before : list Turn) (turn : Turn)
    (kernel : list MarketDataClient.delivery) (err : Errno) :
  parse_arguments argv Config.init = (true, config) →
  length mem = cap → length queue = OrderClient.QUEUE_CAPACITY → settles marketEnv → settles orderEnv →
  Forall (λ t, events_env_ok (tu_events t)) (before ++ [turn]) →
  ¬ stops early → Forall (λ t, ¬ stops (tu_signals t)) before → stops (tu_signals turn) →
  let run turns := main MAX_TRADES emptyWindow argv stack mem queue latency answers marketEnv orderEnv now early turns kernel err in
  ∃ connected n1 err1,
    initialize mem queue marketEnv orderEnv err (NetworkManager_init now now) = Some (connected, n1, err1) ∧
    if connected : bool then
      ∃ t n s rest,
        (∀ later, loop config (before ++ turn :: later) kernel err1 false now (n1, (Some t, SystemMetrics_init)) =
          Some ((n, s), rest.1, rest.2)) ∧
        (∀ later, run (before ++ turn :: later) = Some (0, Some (stop n, s))) ∧ run before = None ∧
        running (stop n) = false ∧
        (∀ c, marketClient (stop n) = Some c → closed (MarketDataClient.tcp c)) ∧
        (∀ o, orderClient (stop n) = Some o → closed (OrderClient.tcp o)) ∧
        (OrderClient.pending <$> orderClient (stop n)) = (OrderClient.pending <$> orderClient n)
    else ∀ turns, run turns = Some (1, None).
Proof using Hstack Hanswers.
  intros Hparse Hmem Hqueue Hme Hoe Henv Hearly Hbefore Hstop run.
  assert (Hok := parse_arguments_ok _ _ _ Hparse).
  destruct (initialize_spec mem queue marketEnv orderEnv err (NetworkManager_init now now) (init_nm_inv now now)
    Hmem Hqueue Hme Hoe eq_refl) as (ok & n1 & err1 & Hinit & Hn1 & Hr1 & _).
  exists ok, n1, err1. split; [done|]. subst run. unfold main. rewrite Hparse. cbn [negb].
  destruct (manager_starts config Hok) as [om ->]. rewrite Hinit. cbn [mbind option_bind].
  destruct ok; cbn [negb]; [|done].
  destruct (main_loop_until config before turn kernel err1 now n1 (Some (mkTrader om 0 0 0 [])) SystemMetrics_init
    Hn1 Henv Hbefore Hstop) as ([n2 s] & k' & err' & Hrun & Hn2 & Hr2). cbn [fst] in *.
  destruct (stop_closes n2) as (Hc & Ho & Hp); [congruence|]. rewrite (unhandled early Hearly).
  exists (mkTrader om 0 0 0 []), n2, s, (k', err'). split; [exact Hrun|]. split; [intros later; by rewrite Hrun|].
  split; [by rewrite main_loop_on|]. split; [by eapply stop_spec|]. done.
Qed.
End shutdown.

(** ** Concrete runs *)

Module Examples.
#[local] Existing Instances VwapCalculator.Examples.small_ops VwapCalculator.Examples.small_deque.
Abbreviation MAX_TRADES := VwapCalculator.Examples.MAX_TRADES.
Abbreviation emptyWindow := VwapCalculator.Examples.empty.

Definition ibm : list Z := [73; 66; 77].
Definition localhost : list Z := [49; 50; 55; 46; 48; 46; 48; 46; 49].
Definition config : Config := Config.mk ibm char_B 150 5 localhost 14000 localhost 15000.

Lemma ibm_config : config_ok config.
Proof. constructor; cbn; (done || lia || auto). Qed.


(** "IBMX" is traded as "IBM". *)
Lemma symbol_filter_is_prefix_witness : symbol_matches config [73; 66; 77; 88; 0; 0; 0; 0] = true.
Proof.
  apply (symbol_filter_is_prefix config [73; 66; 77; 88; 0; 0; 0; 0]); [cbn; lia|by repeat constructor|concrete|].
  by exists [88; 0; 0; 0; 0].
Defined.

(** A negative size is negated, cut to 32 bits and accepted; letters and the
    empty string are not numbers. *)
Example strtoul_corners :
  strtoul [45; 52; 50; 57; 52; 57; 54; 55; 49; 57; 54] = (2 ^ 64 - 4294967196, []) ∧ u32 (2 ^ 64 - 4294967196) = 100 ∧
  strtoul [51; 48; 120] = (30, [120]) ∧ strtoul [] = (0, []) ∧ strtoul [32; 43; 55] = (7, []).
Proof. vm_compute. done. Qed.

Definition md_trade (t : TradeMessage) : MessageHeader * list Z := (Header.mk 24 2, trade_bytes t).
Definition md_quote (q : QuoteMessage) : MessageHeader * list Z := (Header.mk 32 1, quote_bytes q).
Abbreviation trade := VwapCalculator.Examples.trade.
Abbreviation quote := DecisionEngine.Examples.quote.

Definition session_messages : list (MessageHeader * list Z) :=
  [md_trade (trade 10 100 14000); md_quote (quote 11000000000 13980 13990);
   md_trade (trade 12 50 14020); md_trade (trade 15 200 13990); md_quote (quote 15500000000 13980 13985)].
Definition bytes : list Z := concat (frame <$> session_messages).
Definition blocks : list MarketDataClient.delivery :=
  [MarketDataClient.Delivered (take 40 bytes); MarketDataClient.Delivered (drop 40 bytes)].

Definition market : MarketClientT := MarketDataClient.Examples.client.
Definition orders : OrderClientT := OrderClient.Examples.client.
Definition stack : list Z := replicate ORDER_SIZE 0.

Lemma orders_safe : oc_safe orders.
Proof. split; [exact OrderClient.Examples.client_inv|]. by constructor. Qed.

Definition manager : OrderManager.t VwapWindowBuffer :=
  match OrderManager.init MAX_TRADES emptyWindow ibm char_B 150 5 with
  | inl o => o | inr _ => OrderManager.Examples.manager end.

Abbreviation callback := (handleMarketData (Some (onQuote config stack (λ _, 10) (λ _, Ret 25)))
                                           (Some (onTrade MAX_TRADES config))).
Abbreviation start := (Some (mkTrader manager 0 0 0 []), orders, SystemMetrics_init).

Lemma trader_session_witness :
  ∃ c' t o' m' err',
    MarketDataClient.poll callback 2 blocks (EOTHER 0) (market, start) = Some ((c', ((Some t, o'), m')), [], err') ∧
    totalQuotes t = 2 ∧ totalTrades t = 3 ∧
    OrderManager.record_key <$> OrderManager.getOrderHistory (orderManager t) = [(15500000000, char_B, 150, 13985)] ∧
    length (sentBytes t) = 25%nat ∧
    (getCurrentVwap (OrderManager.vwapCalculator (orderManager t))).1 = d_div (d_of_Z 4899000) (d_of_Z 350).
Proof.
  destruct (trader_session VwapCalculator.Examples.pos emptyWindow VwapCalculator.Examples.empty_inv eq_refl
    config ibm_config ltac:(concrete) stack ltac:(apply length_replicate) (λ _, 10) (λ _, Ret 25) ltac:(done)
    2 blocks (EOTHER 0) market orders SystemMetrics_init session_messages [] manager)
    as (c' & t & o' & m' & err' & Hrun & Hq & Ht & Hh & Hv & _ & _ & Hsent).
  - reflexivity.
  - reflexivity.
  - exact MarketDataClient.Examples.feed_client_inv.
  - reflexivity.
  - exact orders_safe.
  - concrete.
  - done.
  - concrete.
  - concrete.
  - concrete.
  - vm_compute. discriminate.
  - done.
  - exists c', t, o', m', err'. split; [exact Hrun|].
    split; [rewrite Hq; vm_compute; reflexivity|]. split; [rewrite Ht; vm_compute; reflexivity|].
    split; [rewrite Hh; vm_compute; reflexivity|]. split.
    { destruct Hsent as [-> _]; [|vm_compute; reflexivity]. split; [reflexivity|]. intros k. exists 25. split; [reflexivity|vm_compute; discriminate]. }
    rewrite Hv. vm_compute. reflexivity.
Defined.

(** The order of that session goes out whole. *)
Example session_order_sent :
  match MarketDataClient.poll callback 2 blocks (EOTHER 0) (market, start) with
  | Some ((_, ((Some t, _), _)), _, _) =>
      totalOrders t = 1 ∧ (Order.price <$> parseOrder (sentBytes t) 25) = Some 13985
  | _ => False
  end.
Proof. vm_compute. done. Qed.

(** Two turns, in the second SIGTERM. *)
Definition turn (now : Z) (signals : list Z) : Turn := mkTurn (NetworkManager.Examples.turn now) now signals.
Lemma signalled_turn_ok now signals : events_env_ok (tu_events (turn now signals)).
Proof. apply NetworkManager.Examples.turn_ok. Qed.

Lemma shutdown_witness :
  ∃ n s, (∀ later, main MAX_TRADES emptyWindow (command_line [116] config 14000) stack (replicate cap 0)
      (replicate OrderClient.QUEUE_CAPACITY inhabitant) (λ _, 10) (λ _, Ret 25) NetworkManager.Examples.accepts
      NetworkManager.Examples.accepts 0 [] ([turn 2000000000 []] ++ turn 9000000000 [1; SIGTERM] :: later) [] (EOTHER 0) =
        Some (0, Some (n, s))) ∧
    ∀ o, orderClient n = Some o → closed (OrderClient.tcp o).
Proof.
  destruct (shutdown MAX_TRADES emptyWindow stack ltac:(apply length_replicate) (λ _, 10) (λ _, Ret 25) ltac:(done)
    (command_line [116] config 14000) config (replicate cap 0) (replicate OrderClient.QUEUE_CAPACITY inhabitant)
    NetworkManager.Examples.accepts NetworkManager.Examples.accepts 0 [] [turn 2000000000 []]
    (turn 9000000000 [1; SIGTERM]) [] (EOTHER 0)) as (ok & n1 & err1 & Hinit & Hrun).
  - vm_compute. reflexivity.
  - apply length_replicate.
  - apply length_replicate.
  - exact NetworkManager.Examples.accepts_settles.
  - exact NetworkManager.Examples.accepts_settles.
  - apply Forall_cons_2; [apply signalled_turn_ok|apply Forall_cons_2; [apply signalled_turn_ok|apply Forall_nil_2]].
  - by intros [H|H]; apply elem_of_nil in H.
  - apply Forall_cons_2; [by intros [H|H]; apply elem_of_nil in H|apply Forall_nil_2].
  - right. cbn. apply list_elem_of_further, list_elem_of_here.
  - assert (Hok : ok = true) by (cbn in Hinit; by injection Hinit as <- _ _). rewrite Hok in Hrun.
    destruct Hrun as (t & n & s & rest & _ & Hrun & _ & _ & _ & Ho & _). exists (stop n), s. split; [exact Hrun|exact Ho].
Defined.
End Examples.
