(* ===== verification/TraderConsole.v ===== *)
(** * The output of the trading program ([src/main.cpp])

    What [main] and its callbacks print, and the whole program with its two
    streams: the program of [Trader], with the console as a further part of
    what the callbacks act on.  The theorems say that printing changes
    nothing, and what is printed for an order. *)
From Stdlib Require Strings.String.
From S2P Require Import Prelude Binary64 Text Console Metrics Message MessageSerializer MessageParser MessageBuffer CircularBuffer VwapSpec VwapCalculator DecisionEngine TradingSpec OrderManager TcpClient NetworkManager Trader Reports.
From S2P Require OrderClient MarketDataClient.
Import WireFormat.
#[local] Open Scope console_scope.

(** ** Start-up *)

Definition print_usage (program_name : list Z) (os : ostream) : ostream :=
  os << "Usage: " << program_name << " <symbol> <side> <max_order_size> <vwap_window_seconds>"
     << " <market_data_ip> <market_data_port>" << " <order_ip> <order_port>" << Endl
     << ln "Parameters:" << Endl
     << "  symbol              - Trading symbol (e.g., IBM)" << Endl
     << "  side                - Order side: 'B' for Buy, 'S' for Sell" << Endl
     << "  max_order_size      - Maximum order size (positive integer)" << Endl
     << "  vwap_window_seconds - VWAP calculation window in seconds" << Endl
     << "  market_data_ip      - Market data server IP address" << Endl
     << "  market_data_port    - Market data server port" << Endl
     << "  order_ip            - Order server IP address" << Endl
     << "  order_port          - Order server port" << Endl
     << ln "Example:" << Endl
     << "  " << program_name << " IBM B 100 30 127.0.0.1 14000 127.0.0.1 15000" << Endl.

(** What [parse_arguments] writes to [std::cerr] when it refuses. *)
Definition argument_error (argv : list (list Z)) (os : ostream) : ostream :=
  if negb (length argv =? 9)%nat then
    os << "Error: Invalid number of arguments (expected 8, got " << (Z.of_nat (length argv) - 1)%Z << ")" << Endl else
  let arg i := argv !!! i in
  if (length (arg 1%nat) =? 0)%nat || (8 <? length (arg 1%nat))%nat then
    os << "Error: Symbol must be 1-8 characters" << Endl else
  if negb (length (arg 2%nat) =? 1)%nat || (negb (arg 2%nat !!! 0%nat =? char_B) && negb (arg 2%nat !!! 0%nat =? char_S)) then
    os << "Error: Side must be 'B' or 'S'" << Endl else
  let refused i cast hi :=
    let '(v, endptr) := strtoul (arg i) in negb (length endptr =? 0)%nat || (cast v =? 0) || (cast v >? hi) in
  if refused 3%nat u32 1000000 then
    os << "Error: Max order size must be a positive integer (1-1000000)" << Endl else
  if refused 4%nat u32 3600 then os << "Error: VWAP window must be between 1 and 3600 seconds" << Endl else
  if (length (arg 5%nat) =? 0)%nat then os << "Error: Invalid market data IP address" << Endl else
  if refused 6%nat u16 65535 then os << "Error: Market data port must be between 1 and 65535" << Endl else
  if (length (arg 7%nat) =? 0)%nat then os << "Error: Invalid order server IP address" << Endl else
  if refused 8%nat u16 65535 then os << "Error: Order port must be between 1 and 65535" << Endl else os.

Definition print_config (config : Config) (os : ostream) : ostream :=
  os << ln "=== VWAP Trading System Configuration ===" << Endl
     << "Trading Parameters:" << Endl
     << "  Symbol: " << Config.symbol config << Endl
     << "  Side: " << Char (Config.side config) << " (" << side_name (Config.side config) << ")" << Endl
     << "  Max Order Size: " << Config.maxOrderSize config << Endl
     << "  VWAP Window: " << Config.vwapWindowSeconds config << " seconds" << Endl
     << ln "Network Configuration:" << Endl
     << "  Market Data: " << Config.marketDataHost config << ":" << Config.marketDataPort config << Endl
     << "  Order Server: " << Config.orderHost config << ":" << Config.orderPort config << Endl
     << "==========================================" << Char 10 << Endl.

Definition print_startup_banner (os : ostream) : ostream :=
  os << "╔═══════════════════════════════════════╗" << Endl
     << "║    VWAP Trading System v1.0.0         ║" << Endl
     << "║    Press Ctrl+C to shutdown           ║" << Endl
     << "╚═══════════════════════════════════════╝" << Endl.

Definition say_signal (con : console) (sig : Z) : console :=
  if (sig =? SIGINT) || (sig =? SIGTERM)
  then con <| cout ::= λ os, os << ln "Shutdown requested..." << Endl |> else con.

(** ** The callbacks and the reports *)

Section program.
Context {moved : MovedString} {Q : Type} `{DequeOps VwapTradeRecord Q} (MAX_TRADES : nat) (emptyWindow : Q).
Context (strerror : Errno → list Z) (config : Config).
Context (stack : list Z) (latency : Z → Z) (answers : Z → answer).
Abbreviation AppT := (option (Trader Q)).

Definition order_line (order : OrderMessage) (number : Z) (os : ostream) : ostream :=
  os << "[ORDER SENT] " << side_name (Order.side order) << " " << Order.quantity order << " "
     << OrderManager.c_string (take 8 (Order.symbol order)) << " @ $" << Fixed << Setprecision 2
     << dollars (d_of_Z (Order.price order)) << " (Order #" << number << ")" << Endl.

Definition onQuote_prints (quote : QuoteMessage) (s : reach AppT) (con : console) : console :=
  let '((app, o), m) := s in
  match app with
  | None => con
  | Some t =>
      if negb (symbol_matches config (Quote.symbol quote)) then con else
      let t := t <| totalQuotes ::= λ n, u64 (n + 1) |> in
      let elapsed := latency (totalQuotes t) in
      let con := con <| cout ::= ManagerOutput.processQuote quote elapsed (orderManager t, m) |> in
      match OrderManager.processQuote None quote elapsed (orderManager t, m, tt) with
      | Some (Some order, (_, m, _)) =>
          let a := answers (totalQuotes t) in
          let con := NetworkOutput.sendOrder strerror stack order a (EOTHER 0) (o, m) con in
          let '(ok, _, _, _) := OrderClient.sendOrder stack order a (EOTHER 0) (o, m) in
          if ok : bool then con <| cout ::= order_line order (u64 (totalOrders t + 1)) |>
          else con <| cerr ::= λ os, os << "[ERROR] Failed to send order to server" << Endl |>
      | _ => con
      end
  end.

Definition onTrade_prints (trade : TradeMessage) (s : reach AppT) (con : console) : console :=
  let '((app, _), m) := s in
  match app with
  | None => con
  | Some t =>
      if negb (symbol_matches config (Trade.symbol trade)) then con else
      let t := t <| totalTrades ::= λ n, u64 (n + 1) |> in
      let con := con <| cout ::= ManagerOutput.processTrade MAX_TRADES trade (orderManager t, m) |> in
      let '(om, m) := OrderManager.processTrade MAX_TRADES trade (orderManager t, m) in
      if totalTrades t mod 10 =? 0 then
        let currentVwap := (getCurrentVwap (OrderManager.vwapCalculator om)).1 in
        if d_lt dzero currentVwap then
          con <| cout ::= λ os, os << "[VWAP UPDATE] Current VWAP: $" << Fixed << Setprecision 2 << dollars currentVwap
                                   << " (after " << totalTrades t << " trades)" << Endl |>
        else con
      else con
  end.

Definition seconds (now since : Z) : Z := Z.quot (now - since) 1000000000.

Definition stats_line (t : Trader Q) (uptime : Z) (os : ostream) : ostream :=
  let os := os << ln "[STATS] Uptime: " << uptime << "s"
               << " | Quotes: " << totalQuotes t
               << " | Trades: " << totalTrades t
               << " | Orders: " << totalOrders t in
  let os := if OrderManager.isReadyToTrade (orderManager t) then os << " | Status: READY" else os << " | Status: WAITING" in
  let currentVwap := (getCurrentVwap (OrderManager.vwapCalculator (orderManager t))).1 in
  let os := if d_lt dzero currentVwap
            then os << " | VWAP: $" << Fixed << Setprecision 2 << dollars currentVwap else os in
  os << Endl.

Definition final_report (t : Trader Q) (uptime : Z) (os : ostream) : ostream :=
  let os := os << ln "=== Final Statistics ===" << Endl
               << "Total Runtime: " << uptime << " seconds" << Endl
               << "Total Quotes Processed: " << totalQuotes t << Endl
               << "Total Trades Processed: " << totalTrades t << Endl
               << "Total Orders Sent: " << totalOrders t << Endl in
  let os := if totalQuotes t >? 0 then
              let orderRate := d_div (d_mul (d_of_Z 100) (d_of_Z (totalOrders t))) (d_of_Z (totalQuotes t)) in
              os << "Order Rate: " << Fixed << Setprecision 2 << orderRate << "%" << Endl
            else os in
  let '(om, os) := ManagerOutput.printStatistics (orderManager t) os in
  if totalOrders t >? 0 then ManagerOutput.printOrderHistory 10 om os else os.

(** ** The program with its console *)

Definition onQuote (quote : QuoteMessage) (s : reach (AppT * console)) : reach (AppT * console) :=
  let '(((app, con), o), m) := s in
  let '((app', o'), m') := Trader.onQuote config stack latency answers quote ((app, o), m) in
  (((app', onQuote_prints quote ((app, o), m) con), o'), m').

Definition onTrade (trade : TradeMessage) (s : reach (AppT * console)) : reach (AppT * console) :=
  let '(((app, con), o), m) := s in
  let '((app', o'), m') := Trader.onTrade MAX_TRADES config trade ((app, o), m) in
  (((app', onTrade_prints trade ((app, o), m) con), o'), m').

Definition say (f : ostream → ostream) (con : console) : console := con <| cout ::= f |>.

(** A signal is handled while the turn runs; here it prints at its end. *)
Fixpoint main_loop (turns : list Turn) (kernel : list MarketDataClient.delivery) (err : Errno)
    (g_shutdown_requested : bool) (startTime lastStatsTime : Z) (s : net_state (AppT * console))
  : option (net_state (AppT * console) * list MarketDataClient.delivery * Errno) :=
  if g_shutdown_requested then Some (s, kernel, err) else
  match turns with
  | [] => None
  | turn :: turns =>
      let '(n, ((app, con), m)) := s in
      let con := NetworkOutput.processEvents strerror config (tu_events turn) err s con in
      '((n, ((app, con), m)), kernel, err, _) ←
        processEvents (Some onQuote) (Some onTrade) (tu_events turn) kernel err (n, ((app, con), m));
      let due := stats_due (tu_now turn) lastStatsTime in
      let con := match app with
                 | Some t => if due then say (stats_line t (seconds (tu_now turn) startTime)) con else con
                 | None => con
                 end in
      let app := if due then option_map (λ t, t <| orderManager ::= refreshVwap |>) app else app in
      main_loop turns kernel err (foldl signal_handler g_shutdown_requested (tu_signals turn)) startTime
        (if due then tu_now turn else lastStatsTime) (n, ((app, foldl say_signal con (tu_signals turn)), m))
  end.
End program.

(** [main]: the exit code, the console at the exit, and the state that
    [Trader.main] gives.  [finish] is the clock at the end. *)
Definition main {moved : MovedString} {Q} `{DequeOps VwapTradeRecord Q} (MAX_TRADES : nat) (emptyWindow : Q) (strerror : Errno → list Z)
    (argv : list (list Z)) (stack mem : list Z) (queue : list OrderClient.PendingSend) (latency : Z → Z)
    (answers : Z → answer) (marketEnv orderEnv : ConnectEnv) (now : Z) (early : list Z) (turns : list Turn) (finish : Z)
    (kernel : list MarketDataClient.delivery) (err : Errno)
  : option (Z * console * option (net_state (option (Trader Q)))) :=
  let con := console_init in
  let '(ok, config) := parse_arguments argv Config.init in
  if negb ok then Some (1, con <| cerr ::= λ os, print_usage (hd [] argv) (argument_error argv os) |>, None) else
  let con := say (print_config config ∘ print_startup_banner) con in
  let con := say (λ os, os << "Initializing Order Manager..." << Endl) con in
  match OrderManager.init MAX_TRADES emptyWindow (Config.symbol config) (Config.side config)
          (Config.maxOrderSize config) (Config.vwapWindowSeconds config) with
  | inr what => Some (1, con <| cerr ::= λ os, os << ln "[FATAL ERROR] " << what << Endl |>, None)
  | inl om =>
      let con := say (ManagerOutput.init (Config.symbol config) (Config.side config) (Config.maxOrderSize config)
                        (Config.vwapWindowSeconds config)) con in
      let con := say (λ os, os << "Initializing Network Manager..." << Endl) con in
      let con := NetworkOutput.initialize config mem queue marketEnv orderEnv err con in
      '(ok, n, err) ← initialize mem queue marketEnv orderEnv err (NetworkManager_init now now);
      if negb ok then
        Some (1, con <| cerr ::= λ os, os << "Failed to initialize network connections" << Endl
               << "Please check that the market data and order servers are running" << Endl |>, None) else
      let con := say (λ os, os << "Network connections established successfully" << Endl
                              << ln "=== Trading System Started ===" << Endl
                              << "Waiting for market data..." << Endl
                              << "System will be ready to trade after first VWAP window completes" << Endl) con in
      let con := foldl say_signal con early in
      '((n, ((app, con), m)), _, _) ←
        main_loop MAX_TRADES strerror config stack latency answers turns kernel err
          (foldl signal_handler false early) now now (n, ((Some (mkTrader om 0 0 0 []), con), SystemMetrics_init));
      let con := say (λ os, os << ln "=== Shutting Down ===" << Endl) con in
      let con := match app with Some t => say (final_report t (seconds finish now)) con | None => con end in
      let con := say (λ os, os << ln "Shutdown complete. Goodbye!" << Endl) con in
      Some (0, con, Some (stop n, (app, m)))
  end.

(** ** Printing changes nothing

    A part of the state that the callbacks carry along can be left out: the
    client and the event loop commute with the projection. *)

Section erase.
Context {A B : Type} (π : A → B).

Definition erase_pair {C} (s : A * C) : B * C := (π s.1, s.2).

Section client.
Context (cb : MessageHeader → MarketDataClient.MarketData → A * SystemMetrics → A * SystemMetrics).
Context (cb' : MessageHeader → MarketDataClient.MarketData → B * SystemMetrics → B * SystemMetrics).
Context (Hcb : ∀ h d s, erase_pair (cb h d s) = cb' h d (erase_pair s)).

Definition erase_counted {C} (s : C * (A * SystemMetrics)) : C * (B * SystemMetrics) := (s.1, erase_pair s.2).

Lemma erase_handle_body h body s :
  erase_counted (MarketDataClient.handle_body (Some cb) h body s) =
    MarketDataClient.handle_body (Some cb') h body (erase_counted s).
Proof using Hcb.
  destruct s as [[lq lt] w]. unfold MarketDataClient.handle_body. cbn [erase_counted fst snd].
  destruct (_ =? Header.QUOTE_TYPE); [|destruct (_ =? Header.TRADE_TYPE); [|done]].
  - destruct (parseQuote _ _) as [q|]; [|done]. destruct (validateQuote q); [|done].
    unfold erase_counted. cbn. by rewrite Hcb.
  - destruct (parseTrade _ _) as [t|]; [|done]. destruct (validateTrade t); [|done].
    unfold erase_counted. cbn. by rewrite Hcb.
Qed.

Lemma erase_process_loop fuel c k s :
  MarketDataClient.process_loop (Some cb') fuel c k (erase_counted s) =
    option_map (λ r, (r.1, erase_counted r.2)) (MarketDataClient.process_loop (Some cb) fuel c k s).
Proof using Hcb.
  revert c k s. induction fuel as [|fuel IH]; intros c k s; [done|]. cbn [MarketDataClient.process_loop].
  destruct (peekMessage _) as [[[] [h|]] [[p b]|]];
    first [ by rewrite <- erase_handle_body, IH | done
          | destruct s as [[lq lt] [w m]]; cbn; by destruct (resync _ _) as [[? ?] ?] ].
Qed.

Lemma erase_processIncomingData ds err c s :
  MarketDataClient.processIncomingData (Some cb') ds err (c, erase_pair s) =
    option_map (λ '(ok, (c, s), ds, err), (ok, (c, erase_pair s), ds, err))
      (MarketDataClient.processIncomingData (Some cb) ds err (c, s)).
Proof using Hcb.
  destruct s as [w m]. unfold MarketDataClient.processIncomingData. cbn [erase_pair fst snd].
  destruct (MarketDataClient.read_loop _ _ _ _ _ _) as [[[[go lb] [c1 m1]] ds1] err1]. destruct go; cbn [negb]; [|done].
  rewrite (erase_process_loop _ c1 0 (0, 0, (w, m1))).
  by destruct (MarketDataClient.process_loop _ _ _ _ _) as [[[c2 k] [[lq lt] [w2 m2]]]|].
Qed.
End client.

End erase.

Section erase_loop.
Context {A B : Type} (π : A → B).
Context (onQ : QuoteMessage → reach A → reach A) (onQ' : QuoteMessage → reach B → reach B).
Context (onT : TradeMessage → reach A → reach A) (onT' : TradeMessage → reach B → reach B).
Abbreviation erase := (erase_pair (erase_pair π)).
Context (HQ : ∀ q s, erase (onQ q s) = onQ' q (erase s)).
Context (HT : ∀ t s, erase (onT t s) = onT' t (erase s)).

Lemma erase_handleMarketData h d s :
  erase (handleMarketData (Some onQ) (Some onT) h d s) = handleMarketData (Some onQ') (Some onT') h d (erase s).
Proof using HQ HT.
  unfold handleMarketData. destruct (_ =? Header.QUOTE_TYPE); [|destruct (_ =? Header.TRADE_TYPE); [|done]];
    destruct d as [q|t]; (apply HQ || apply HT || done).
Qed.

Definition erase_net (s : net_state A) : net_state B := (s.1, erase_pair π s.2).

Lemma erase_processEvents env kernel err s :
  processEvents (Some onQ') (Some onT') env kernel err (erase_net s) =
    option_map (λ '(s, kernel, err, wire), (erase_net s, kernel, err, wire))
      (processEvents (Some onQ) (Some onT) env kernel err s).
Proof using HQ HT.
  destruct s as [n [app m]]. unfold processEvents. cbn [erase_net erase_pair fst snd].
  destruct (running n); cbn [negb]; [|done].
  destruct (marketClient n) as [c|]; cbn [mbind option_bind option_map]; [|done].
  destruct (orderClient n) as [o|]; cbn [mbind option_bind option_map]; [|done].
  destruct (if isConnected (MarketDataClient.tcp c) then _ else _) as [[[[c1 n1] m1] err1]|]; cbn [mbind option_bind option_map]; [|done].
  destruct (if isConnected (OrderClient.tcp o) then _ else _) as [[[[o1 n2] m2] err2]|]; cbn [mbind option_bind option_map]; [|done].
  destruct (negb _ && negb _); [done|]. destruct (_ <? 0); [done|].
  assert (H := erase_processIncomingData (erase_pair π) _ _ erase_handleMarketData kernel
    (errno_after (ev_select env) err2) c1 ((app, o1), m2)).
  destruct (isConnected (MarketDataClient.tcp c1) && _).
  - change (π app, o1, m2) with (erase ((app, o1), m2)). rewrite H. clear H.
    set (r := MarketDataClient.processIncomingData (Some (handleMarketData (Some onQ) (Some onT))) _ _ _).
    destruct r as [[[[ok [c2 [[app2 o2] m3]]] ds] err3]|]; cbn [mbind option_bind option_map]; [|done]. cbn [erase_pair fst snd].
    by destruct (if isConnected (OrderClient.tcp o2) && _ then _ else _) as [[[wire [o3 m4]] err4]|].
  - cbn [mbind option_bind option_map].
    by destruct (if isConnected (OrderClient.tcp o1) && _ then _ else _) as [[[wire [o3 m4]] err4]|].
Qed.
End erase_loop.

Section silent.
Context {moved : MovedString} {Q : Type} `{DequeOps VwapTradeRecord Q} (MAX_TRADES : nat) (strerror : Errno → list Z).
Context (config : Config) (stack : list Z) (latency : Z → Z) (answers : Z → answer).
Abbreviation forget := (@fst (option (Trader Q)) console).
Abbreviation erase := (erase_pair (erase_pair forget)).

Lemma erase_onQuote q s :
  erase (onQuote strerror config stack latency answers q s) = Trader.onQuote config stack latency answers q (erase s).
Proof using Type.
  destruct s as [[[app con] o] m]. unfold onQuote. cbn [erase_pair fst snd].
  by destruct (Trader.onQuote _ _ _ _ _ _) as [[app' o'] m'].
Qed.

Lemma erase_onTrade t s :
  erase (onTrade MAX_TRADES config t s) = Trader.onTrade MAX_TRADES config t (erase s).
Proof using Type.
  destruct s as [[[app con] o] m]. unfold onTrade. cbn [erase_pair fst snd].
  by destruct (Trader.onTrade _ _ _ _) as [[app' o'] m'].
Qed.

Lemma erase_main_loop turns kernel err g start last s :
  Trader.main_loop MAX_TRADES config stack latency answers turns kernel err g last (erase_net forget s) =
    option_map (λ '(s, kernel, err), (erase_net forget s, kernel, err))
      (main_loop MAX_TRADES strerror config stack latency answers turns kernel err g start last s).
Proof using Type.
  revert kernel err g last s. induction turns as [|turn turns IH]; intros kernel err g last s;
    cbn [Trader.main_loop main_loop]; (destruct g; [done|]); [done|].
  destruct s as [n [[app con] m]]. set (con' := NetworkOutput.processEvents _ _ _ _ _ _).
  change (erase_net forget (n, ((app, con), m))) with (erase_net forget (n, ((app, con'), m))).
  rewrite (erase_processEvents forget _ _ _ _ erase_onQuote erase_onTrade).
  destruct (processEvents _ _ _ _ _ (n, ((app, con'), m))) as [[[[[n1 [[app1 con1] m1]] k1] e1] w1]|];
    cbn [mbind option_bind option_map]; [|done]. cbn [erase_net erase_pair fst snd]. by rewrite <- IH.
Qed.
End silent.

(** The output of the program is only output.  The program with its two
    streams exits like the program without, with the same code, after the
    same turns and in the same state, whatever the network delivers and
    whichever signals arrive. *)
Lemma console_is_silent {moved : MovedString} {Q} `{DequeOps VwapTradeRecord Q} (MAX_TRADES : nat) (emptyWindow : Q)
    (strerror : Errno → list Z) (argv : list (list Z)) (stack mem : list Z) (queue : list OrderClient.PendingSend)
    (latency : Z → Z) (answers : Z → answer) (marketEnv orderEnv : ConnectEnv) (now : Z) (early : list Z)
    (turns : list Turn) (finish : Z) (kernel : list MarketDataClient.delivery) (err : Errno) :
  Trader.main MAX_TRADES emptyWindow argv stack mem queue latency answers marketEnv orderEnv now early turns kernel err =
    option_map (λ r, (r.1.1, r.2))
      (main MAX_TRADES emptyWindow strerror argv stack mem queue latency answers marketEnv orderEnv now early turns
         finish kernel err).
Proof.
  unfold Trader.main, main. destruct (parse_arguments argv Config.init) as [[] config]; cbn [negb]; [|done].
  destruct (OrderManager.init _ _ _ _ _ _) as [om|what]; [|done].
  destruct (initialize _ _ _ _ _ _) as [[[[] n] e]|]; cbn [mbind option_bind option_map negb]; [|done|done].
  set (con := foldl say_signal _ early).
  change (n, (Some (mkTrader om 0 0 0 []), SystemMetrics_init)) with
    (erase_net fst (n, ((Some (mkTrader om 0 0 0 []), con), SystemMetrics_init))).
  rewrite (erase_main_loop MAX_TRADES strerror config stack latency answers turns kernel e _ now now).
  by destruct (main_loop _ _ _ _ _ _ _ _ _ _ _ _ _) as [[[[n2 [[app con2] m2]] k2] e2]|].
Qed.

(** ** What is printed for an order *)

(** The lines of the order client and of [main]. *)
Definition client_text (order : OrderMessage) : list Z :=
  bytes "Order sent: " ++ side_name (Order.side order) ++ bytes " " ++ digits (Order.quantity order) ++ bytes " @ $" ++
  price_text (Order.price order) ++ [10].
Definition program_text (order : OrderMessage) (number : Z) : list Z :=
  bytes "[ORDER SENT] " ++ side_name (Order.side order) ++ bytes " " ++ digits (Order.quantity order) ++ bytes " " ++
  OrderManager.c_string (take 8 (Order.symbol order)) ++ bytes " @ $" ++ price_text (Order.price order) ++
  bytes " (Order #" ++ digits number ++ bytes ")" ++ [10].

(** A stream after some more text in cents. *)
Definition shown (os : ostream) (s : list Z) : ostream := mkOstream (text os ++ s) 0 2 true (leftfield os).

Lemma order_line_text order number os :
  0 ≤ Order.quantity order → 0 ≤ Order.price order < 2 ^ 31 → 0 ≤ number → width os = 0 →
  order_line order number os = shown os (program_text order number).
Proof.
  intros Hq Hp Hn Hw. rewrite (insert_plain os Hw) at 1. unfold order_line. autorewrite with console.
  rewrite dollars_cents, !unsigned_digits by done. unfold shown, program_text. by rewrite <- !app_assoc.
Qed.

(** The client announces an order that went out whole, and complains on
    [cerr] about what it refuses to send or cannot. *)
Definition client_said (order : OrderMessage) (con : console) (ok : bool) (wire : list Z) (con' : console) : Prop :=
  ∃ said, con' =
    mkConsole (if (length wire =? ORDER_SIZE)%nat then shown (cout con) (client_text order) else cout con)
      (cerr con <| text ::= λ t, t ++ said |>) ∧
  (length wire = ORDER_SIZE → ok = true).

Lemma client_silent order con ok wire : length wire ≠ ORDER_SIZE → client_said order con ok wire con.
Proof.
  intros Hne. exists []. rewrite (proj2 (Nat.eqb_neq _ _) Hne). split; [|done].
  destruct con as [os [t wd p f l]]. cbn. by rewrite app_nil_r.
Qed.

Lemma client_complains order con ok wire s f :
  length wire ≠ ORDER_SIZE → f (cerr con) = cerr con <| text ::= λ t, t ++ s |> →
  client_said order con ok wire (con <| cerr ::= f |>).
Proof. intros Hne Hf. exists s. rewrite (proj2 (Nat.eqb_neq _ _) Hne), <- Hf. done. Qed.

Lemma client_announces order con wire f :
  length wire = ORDER_SIZE → f (cout con) = shown (cout con) (client_text order) →
  client_said order con true wire (con <| cout ::= f |>).
Proof.
  intros Hl Hf. exists []. rewrite Hl, <- Hf. split; [|done].
  destruct con as [os [t wd p g l]]. cbn. by rewrite app_nil_r.
Qed.

(** One complaint of several pieces. *)
Lemma complain_text (s1 : String.string) (s2 : list Z) es :
  width es = 0 → es << s1 << s2 << Endl = es <| text ::= λ t, t ++ (bytes s1 ++ s2 ++ [10]) |>.
Proof. intros Hw. rewrite (insert_plain es Hw). autorewrite with console. cbn. by rewrite <- !app_assoc. Qed.
Lemma complain_literal (s : String.string) es :
  width es = 0 → es << s << Endl = es <| text ::= λ t, t ++ (bytes s ++ [10]) |>.
Proof. intros Hw. rewrite (insert_plain es Hw). autorewrite with console. cbn. by rewrite <- !app_assoc. Qed.

Lemma client_line order os :
  0 ≤ Order.quantity order → 0 ≤ Order.price order < 2 ^ 31 → width os = 0 →
  os << "Order sent: " << side_name (Order.side order) << " " << Order.quantity order
     << " @ $" << Fixed << Setprecision 2 << dollars (d_of_Z (Order.price order)) << Endl = shown os (client_text order).
Proof.
  intros Hq Hp Hw. rewrite (insert_plain os Hw) at 1. autorewrite with console.
  rewrite dollars_cents, unsigned_digits by done. unfold shown, client_text. by rewrite <- !app_assoc.
Qed.

Lemma sendOrder_prints strerror mem order a err c m con :
  OrderMessage_ok order → length mem = ORDER_SIZE → OrderClient.answer_ok a → width (cout con) = 0 → width (cerr con) = 0 →
  let '(ok, wire, _, _) := OrderClient.sendOrder mem order a err (c, m) in
  client_said order con ok wire (NetworkOutput.sendOrder strerror mem order a err (c, m) con).
Proof.
  intros (_ & _ & Hq & Hp & _) Hmem Ha Hw1 Hw2. unfold OrderClient.sendOrder, NetworkOutput.sendOrder. cbn [fst].
  destruct (isConnected (OrderClient.tcp c)) eqn:Hc; cbn [negb].
  2: { eapply client_complains; [done|]. cbv beta. exact (complain_literal _ _ Hw2). }
  destruct (negb _ && negb _); [by apply client_silent|]. destruct (_ =? 0); [by apply client_silent|].
  destruct (Z.leb_spec (Order.price order) 0); [by apply client_silent|].
  destruct (serializeOrder_length mem order Hmem) as (buffer & -> & Hl). unfold ORDER_SIZE in *. cbn [Nat.eqb].
  assert (Hb : length (take 25 buffer) = 25%nat) by (rewrite length_take; lia).
  assert (Htx := OrderClient.transmit_spec (take 25 buffer) a err c m Hc Ha).
  destruct (OrderClient.transmit _ _ _ _) as [[[sent wire] [c' m']] err']. destruct Htx as [Htx _].
  destruct Htx as [n c' err' Hn _ _|err' e He|t err' e He _].
  - assert (Hlw : length (take (Z.to_nat n) (take 25 buffer)) = Z.to_nat n) by (rewrite length_take; lia).
    destruct (Z.eqb_spec n (Z.of_nat 25)) as [->|Hne].
    { apply client_announces; [exact Hlw|]. cbv beta. apply client_line; (done || lia). }
    assert (Hw : length (take (Z.to_nat n) (take 25 buffer)) ≠ 25%nat) by (rewrite Hlw; lia).
    destruct (Z.ltb_spec n 0); [lia|]. cbn [andb]. destruct (Z.leb_spec 0 n); [|lia].
    destruct (Z.ltb_spec n (Z.of_nat 25)); [|lia]. cbn [andb].
    destruct (OrderClient.queue_rest _ _) as [ok s]. by apply client_silent.
  - cbn [Z.eqb Z.ltb Z.compare Z.of_nat]. rewrite He. cbn [andb orb].
    destruct (OrderClient.queue_rest _ _) as [ok s]. by apply client_silent.
  - cbn [Z.eqb Z.ltb Z.compare Z.of_nat Z.leb]. rewrite He. cbn [andb orb].
    destruct (is_errno e EINTR); [destruct (OrderClient.queue_rest _ _) as [ok s]; by apply client_silent|].
    destruct (OrderClient.connection_gone e); (eapply client_complains; [done|]); cbv beta; exact (complain_text _ _ _ Hw2).
Qed.

(** What the attempt to send an order adds to the two streams, after the two
    lines of the order manager. *)
Definition attempt_text (order : OrderMessage) (wire : list Z) (ok : bool) (number : Z) : list Z :=
  (if (length wire =? ORDER_SIZE)%nat then client_text order else []) ++ (if ok then program_text order number else []).

Lemma attempt_prints strerror stack order a o m con number :
  length stack = ORDER_SIZE → OrderMessage_ok order → 0 ≤ Order.price order → OrderClient.answer_ok a → 0 ≤ number → width (cerr con) = 0 → in_cents (cout con) →
  let '(ok, wire, _, _) := OrderClient.sendOrder stack order a (EOTHER 0) (o, m) in
  let con1 := NetworkOutput.sendOrder strerror stack order a (EOTHER 0) (o, m) con in
  ∃ said,
    (if ok : bool then con1 <| cout ::= order_line order number |>
     else con1 <| cerr ::= λ os, os << "[ERROR] Failed to send order to server" << Endl |>) =
      mkConsole (shown (cout con) (attempt_text order wire ok number)) (cerr con <| text ::= λ t, t ++ said |>) ∧
    (ok = false → ∃ pre, said = pre ++ bytes "[ERROR] Failed to send order to server" ++ [10]).
Proof.
  intros Hstack Hok Hpr Ha Hn Hwe (Hw & Hprec & Hfix). assert (H := sendOrder_prints strerror stack order a (EOTHER 0) o m con Hok Hstack Ha Hw Hwe).
  destruct (OrderClient.sendOrder _ _ _ _ _) as [[[ok wire] s] err]. destruct H as (said & -> & Hwhole). cbv zeta.
  destruct Hok as (_ & _ & Hq & Hp & _). unfold attempt_text.
  assert (Hos : ∀ b : bool, width (if b then shown (cout con) (client_text order) else cout con) = 0) by by intros [].
  destruct ok.
  - exists said. split; [|done]. cbn [set eta_console cout cerr]. f_equal. rewrite order_line_text by (done || lia).
    unfold shown. destruct (length wire =? ORDER_SIZE)%nat; cbn [text leftfield Datatypes.app]; by rewrite ?app_assoc.
  - exists (said ++ bytes "[ERROR] Failed to send order to server" ++ [10]). split; [|by exists said].
    destruct (Nat.eqb_spec (length wire) ORDER_SIZE) as [E|_]; [by apply Hwhole in E|].
    cbn [set eta_console cout cerr]. f_equal.
    + unfold shown. destruct (cout con). cbn in *. subst. by rewrite app_nil_r.
    + etransitivity; [apply (complain_literal "[ERROR] Failed to send order to server"%string); by destruct (cerr con)|].
      destruct (cerr con). cbn. by rewrite <- app_assoc.
Qed.

Section orders.
Context {moved : MovedString} {Q : Type} {cap : nat} `{!DequeOps VwapTradeRecord Q} `{!Deque VwapTradeRecord Q cap} (Hcap : (0 < cap)%nat).
Context (config : Config) (Hconfig : config_ok config) (Hsymbol : bytes_ok (Config.symbol config)).
Context (stack : list Z) (Hstack : length stack = ORDER_SIZE) (latency : Z → Z) (answers : Z → answer)
  (Hanswers : ∀ n, OrderClient.answer_ok (answers n)) (strerror : Errno → list Z).
Abbreviation sd := (Config.side config).
Abbreviation reference log :=
  (trade_all cap (nanos (Config.vwapWindowSeconds config)) (Config.symbol config) sd (Config.maxOrderSize config)
     DEFAULT_COOLDOWN (events_seen config log) Trading_init).

(** The callback once the order manager has answered. *)
Lemma onQuote_prints_order t o m q con order om m1 os1 :
  symbol_matches config (Quote.symbol q) = true →
  let n := u64 (totalQuotes t + 1) in
  OrderManager.processQuote None q (latency n) (orderManager t, m, tt) = Some (Some order, (om, m1, tt)) →
  ManagerOutput.processQuote q (latency n) (orderManager t, m) (cout con) = os1 →
  let '(ok, wire, s, _) := OrderClient.sendOrder stack order (answers n) (EOTHER 0) (o, m1) in
  let con1 := mkConsole os1 (cerr con) in
  let con2 := NetworkOutput.sendOrder strerror stack order (answers n) (EOTHER 0) (o, m1) con1 in
  onQuote_prints (Q := Q) strerror config stack latency answers q ((Some t, o), m) con =
    (if ok : bool then con2 <| cout ::= order_line order (u64 (totalOrders t + 1)) |>
     else con2 <| cerr ::= λ os, os << "[ERROR] Failed to send order to server" << Endl |>) ∧
  ∃ t', Trader.onQuote config stack latency answers q ((Some t, o), m) = ((Some t', s.1), s.2) ∧
    sentBytes t' = sentBytes t ++ wire ∧ totalOrders t' = (if ok then u64 (totalOrders t + 1) else totalOrders t).
Proof using Type.
  intros Hm n Hrun Hprints. unfold onQuote_prints, Trader.onQuote. rewrite Hm. cbn [negb].
  set (t1 := t <| totalQuotes ::= _ |>). change (totalQuotes t1) with n. change (orderManager t1) with (orderManager t).
  change (totalOrders t1) with (totalOrders t). rewrite Hrun.
  change (con <| cout ::= ManagerOutput.processQuote q (latency n) (orderManager t, m) |>) with
    (mkConsole (ManagerOutput.processQuote q (latency n) (orderManager t, m) (cout con)) (cerr con)). rewrite Hprints.
  destruct (OrderClient.sendOrder _ _ _ _ _) as [[[ok wire] [o' m']] err']. split; [done|].
  eexists. split; [reflexivity|]. by destruct ok.
Qed.

(** C10: what is printed for a quote.  Let the trader have followed the
    messages [log], and a quote of its symbol arrive.  If the reference trader
    does not trade on it nothing is printed.  If it does, the order is
    announced on [cout] by the engine and as sent by the order manager, both
    before it is handed to the client (the manager's line shows, for the
    symbol, what is left of a string whose content was moved away: nothing,
    with libstdc++); by the client if all its bytes went
    out; and by [main] if the client took it.  Each line shows the price in
    dollars and cents exactly, and the first the average the decision was
    made on.  An order the client refuses stays announced as sent, and is
    reported on [cerr]. *)
Theorem quote_output (o0 : OrderClientT) (log : list (MessageHeader * MarketDataClient.MarketData)) (t : Trader Q)
    (o : OrderClientT) (m : SystemMetrics) (q : QuoteMessage) (con : console) :
  session_ok (cap := cap) config answers o0 log t o → offered_pv (trades_seen config log) ≤ 2 ^ 51 →
  QuoteMessage_ok q → validateQuote q = true → symbol_matches config (Quote.symbol q) = true →
  width (cout con) = 0 → width (cerr con) = 0 →
  let r := (reference log).2 in
  let order := order_for (Config.symbol config) sd (Config.maxOrderSize config) q in
  let con' := onQuote_prints strerror config stack latency answers q ((Some t, o), m) con in
  if trades_on sd DEFAULT_COOLDOWN q r then
    ∃ t' s' wire ok said,
      Trader.onQuote config stack latency answers q ((Some t, o), m) = ((Some t', s'.1), s'.2) ∧
      sentBytes t' = sentBytes t ++ wire ∧ totalOrders t' = (if ok : bool then u64 (totalOrders t + 1) else totalOrders t) ∧
      con' = mkConsole
        (shown (cout con)
          (decision_text sd (Order.quantity order) (Order.price order) (reference_vwap r) ++
           recorded_text order (order_reason sd q (reference_vwap r)) ++ attempt_text order wire ok (totalOrders t')))
        (cerr con <| text ::= λ l, l ++ said |>) ∧
      (ok = false → ∃ pre, said = pre ++ bytes "[ERROR] Failed to send order to server" ++ [10])
  else con' = con.
Proof using Hcap Hconfig Hsymbol Hstack Hanswers.
  intros Hs Hpv Hok Hval Hm Hw1 Hw2 r order con'. assert (Hw := window_u32 config Hconfig).
  assert (Hsize := co_size config Hconfig). assert (Hside := co_side config Hconfig).
  assert (Hsd : is_u8 sd) by (destruct Hside as [-> | ->]; done).
  assert (Hf := so_manager _ _ _ _ _ _ Hs). assert (Ho := order_for_ok config q Hconfig Hsymbol Hok Hval). fold order in Ho.
  assert (Hprice : 0 ≤ Order.price order).
  { apply (validateQuote_spec q Hok) in Hval as (_ & _ & Hbp & Hap). unfold order, order_for, quoted. branch; cbn; lia. }
  assert (Hpv' : Spec.pv (spec r) ≤ 2 ^ 51).
  { unfold r. rewrite trade_all_spec, trades_events. etransitivity; [|exact Hpv]. apply OrderManager.pv_run; [done..|].
    rewrite <- trades_events. apply (OrderManager.fo_trades _ _ _ _ _ _ Hf). }
  set (elapsed := latency (u64 (totalQuotes t + 1))).
  destruct (OrderManager.follows_quote Hcap _ _ _ _ (World := unit) None (events_seen config log) (orderManager t) m tt q elapsed
    Hw Hf Hpv' Hok Hval) as (om & m1 & Hrun & _). fold r order in Hrun.
  assert (Hprints := processQuote_prints Hcap _ sd (Config.maxOrderSize config) _ Hsd ltac:(lia) Hw (events_seen config log) (orderManager t) m q elapsed
    (cout con) Hf Hpv' Hok Hval Hw1). fold r in Hprints. cbv zeta in Hprints. fold order in Hprints.
  destruct (trades_on sd DEFAULT_COOLDOWN q r) eqn:Htr.
  2: { unfold con', onQuote_prints. rewrite Hm. cbn [negb]. set (t1 := t <| totalQuotes ::= _ |>).
       change (orderManager t1) with (orderManager t). change (latency (totalQuotes t1)) with elapsed. rewrite Hrun.
       destruct con as [os es]. cbn [set eta_console cout cerr] in *. by rewrite Hprints. }
  set (lines := decision_text _ _ _ _ ++ _) in *. fold (shown (cout con) lines) in Hprints.
  assert (Hq := onQuote_prints_order t o m q con order om m1 (shown (cout con) lines) Hm Hrun Hprints). cbv zeta in Hq.
  assert (H := attempt_prints strerror stack order (answers (u64 (totalQuotes t + 1))) o m1 (mkConsole (shown (cout con) lines) (cerr con))
    (u64 (totalOrders t + 1)) Hstack Ho Hprice (Hanswers _) ltac:(apply u64_range) Hw2 ltac:(done)).
  destruct (OrderClient.sendOrder _ _ _ _ _) as [[[ok wire] s'] err']. destruct H as (said & Hsaid & Herr).
  destruct Hq as (Hcon & t' & Hrun' & Hsent & Hord). exists t', s', wire, ok, said.
  split; [exact Hrun'|]. split; [exact Hsent|]. split; [exact Hord|]. split; [|exact Herr].
  unfold con'. rewrite Hcon, Hsaid, Hord. unfold lines, shown. cbn [cout cerr text leftfield].
  rewrite <- !app_assoc. by destruct ok.
Qed.

(** The average of the reference is positive, and within a small range. *)
Lemma average_range log t o0 o :
  session_ok (cap := cap) config answers o0 log t o → offered_pv (trades_seen config log) ≤ 2 ^ 51 →
  let s := spec (reference log).2 in
  0 ≤ Spec.volume s ≤ Spec.pv s ∧ Spec.pv s ≤ 2 ^ 51 ∧ Spec.pv s ≤ 2 ^ 31 * Spec.volume s.
Proof using Hcap Hconfig.
  clear Hstack. intros Hs Hpv. assert (Hw := window_u32 config Hconfig). assert (Hf := so_manager _ _ _ _ _ _ Hs).
  split; [by apply (OrderManager.follows_sums Hcap _ _ _ _ _ (orderManager t))|]. split.
  - rewrite trade_all_spec, trades_events. etransitivity; [|exact Hpv]. apply OrderManager.pv_run; [done..|].
    rewrite <- trades_events. apply (OrderManager.fo_trades _ _ _ _ _ _ Hf).
  - assert (Hspec := OrderManager.om_spec _ _ _ _ _ _ _ (OrderManager.fo_inv _ _ _ _ _ _ Hf)). rewrite trade_all_spec.
    assert (Hp := priced_total _ _ _ _ Hspec (priced_run_positive _ _ _ _ Hcap (nanos_nonneg _ Hw) (spec_init_inv cap)
      (priced_init _ _) (OrderManager.fo_trades _ _ _ _ _ _ Hf))). lia.
Qed.

Lemma positive_average pv v : 0 < v ≤ pv → pv ≤ 2 ^ 51 → d_lt dzero (d_div (d_of_Z pv) (d_of_Z v)) = true.
Proof using Type.
  clear Hstack Hcap. intros Hv Hpv. assert (HR := d_div_rounds _ _ (d_of_Z_in_range pv ltac:(lia)) (d_of_Z_in_range v ltac:(lia))).
  destruct HR as [HR _]. by destruct (d_div _ _) as [|[]| |[] mx e].
Qed.

(** The text of the periodic report. *)
Definition stats_text (quotes trades orders uptime : Z) (ready : bool) (average : option Z) : list Z :=
  ln "[STATS] Uptime: " ++ digits uptime ++ bytes "s" ++ bytes " | Quotes: " ++ digits quotes ++
  bytes " | Trades: " ++ digits trades ++ bytes " | Orders: " ++ digits orders ++
  (if ready then bytes " | Status: READY" else bytes " | Status: WAITING") ++
  match average with Some cents => bytes " | VWAP: $" ++ point 2 cents | None => [] end ++ [10].

(** C31: the periodic report tells the truth.  For a trader that has followed
    the messages [log] it shows the number of quotes and of trades of its
    symbol among them, the orders sent, READY exactly when the reference's
    first window is complete, and, once there is volume in the window, the
    average in dollars with two decimals: within half a cent of the exact
    quotient (up to 2^-11), whatever the format of the stream before. *)
Theorem stats_report (o0 : OrderClientT) (log : list (MessageHeader * MarketDataClient.MarketData)) (t : Trader Q)
    (o : OrderClientT) (uptime : Z) (os : ostream) :
  session_ok (cap := cap) config answers o0 log t o → offered_pv (trades_seen config log) ≤ 2 ^ 51 →
  0 ≤ uptime → width os = 0 →
  let s := spec (reference log).2 in
  ∃ average,
    text (stats_line t uptime os) = text os ++
      stats_text (Z.of_nat (length (quotes_seen config log))) (Z.of_nat (length (trades_seen config log))) (totalOrders t)
        uptime (Spec.complete s) average ∧
    match average with
    | Some cents => 0 < Spec.volume s ∧ 2 ^ 11 * Z.abs (2 * cents * Spec.volume s - 2 * Spec.pv s) ≤ (2 ^ 11 + 1) * Spec.volume s
    | None => Spec.volume s = 0
    end.
Proof using Hcap Hconfig.
  clear Hstack. intros Hs Hpv Hup Hw s. destruct (average_range log t o0 o Hs Hpv) as (Hv & Hfit & Hratio). fold s in Hv, Hfit, Hratio.
  assert (Hcalc := OrderManager.follows_calc _ _ _ _ _ _ (so_manager _ _ _ _ _ _ Hs)).
  destruct (OrderManager.refresh_refines _ _ _ Hcalc) as [_ Hval]. rewrite (OrderManager.vwap_value_spec _ _ _ Hcalc) in Hval.
  assert (Hready : OrderManager.isReadyToTrade (orderManager t) = Spec.complete s).
  { apply eq_true_iff_eq. unfold OrderManager.isReadyToTrade. rewrite bool_decide_eq_true.
    apply (OrderManager.fo_ready _ _ _ _ _ _ (so_manager _ _ _ _ _ _ Hs)). }
  destruct os as [tx wd p f l]. cbn [width text] in *. subst wd. unfold stats_line. autorewrite with console. rewrite Hval, Hready. fold s.
  rewrite (so_quotes _ _ _ _ _ _ Hs), (so_count _ _ _ _ _ _ Hs), !unsigned_digits by (apply (so_orders _ _ _ _ _ _ Hs) || lia).
  unfold stats_text. destruct (Z.eqb_spec (Spec.volume s) 0) as [E|E].
  - exists None. split; [|done]. change (d_lt dzero dzero) with false.
    destruct (Spec.complete s); autorewrite with console; cbn [text]; by rewrite <- !app_assoc.
  - rewrite positive_average by lia. destruct (average_units (Spec.pv s) (Spec.volume s)) as (r & Hr & Hb); [lia..|].
    exists (Some r). split; [|split; [lia|exact Hb]]. fold (dollars (d_div (d_of_Z (Spec.pv s)) (d_of_Z (Spec.volume s)))) in Hr.
    destruct (Spec.complete s); autorewrite with console; rewrite Hr; cbn [text]; by rewrite <- !app_assoc.
Qed.
End orders.

(** ** Concrete runs *)

Module ConsoleExamples.
Import Trader.Examples.
#[local] Existing Instances VwapCalculator.Examples.small_ops VwapCalculator.Examples.small_deque libstdcxx_moved.
Abbreviation answers := (λ _ : Z, Ret 25).

Definition h_trade : MessageHeader := Header.mk 24 2.
Definition h_quote : MessageHeader := Header.mk 32 1.
Definition log : list (MessageHeader * MarketDataClient.MarketData) :=
  [(h_trade, MarketDataClient.MdTrade (trade 10 100 14000)); (h_trade, MarketDataClient.MdTrade (trade 12 50 14020));
   (h_trade, MarketDataClient.MdTrade (trade 15 200 13990))].
Definition ask : QuoteMessage := quote 15500000000 13980 13985.

(** The trader after three trades. *)
Lemma trader_after : ∃ t : Trader VwapWindowBuffer, session_ok (cap := MAX_TRADES) config answers orders log t orders.
Proof.
  assert (Hcap := VwapCalculator.Examples.pos).
  assert (H0 : session_ok (cap := MAX_TRADES) config answers orders [] (mkTrader manager 0 0 0 []) orders).
  { constructor; try done.
    - exact orders_safe.
    - apply (OrderManager.follows_init Hcap _ _ _ _ emptyWindow); [exact VwapCalculator.Examples.empty_inv|done|done|reflexivity]. }
  destruct (onTrade_step Hcap config ibm_config answers orders [] h_trade (trade 10 100 14000) SystemMetrics_init _ orders
    ltac:(concrete) ltac:(done) H0) as (t1 & _ & H1).
  destruct (onTrade_step Hcap config ibm_config answers orders (take 1 log) h_trade (trade 12 50 14020) SystemMetrics_init _ orders
    ltac:(concrete) ltac:(vm_compute; done) H1) as (t2 & _ & H2).
  destruct (onTrade_step Hcap config ibm_config answers orders (take 2 log) h_trade (trade 15 200 13990) SystemMetrics_init _ orders
    ltac:(concrete) ltac:(vm_compute; done) H2) as (t3 & _ & H3).
  exists t3. exact H3.
Qed.

Lemma order_lines rest :
  let order := order_for (Config.symbol config) (Config.side config) (Config.maxOrderSize config) ask in
  let vwap := reference_vwap (trade_all MAX_TRADES (nanos (Config.vwapWindowSeconds config)) (Config.symbol config)
    (Config.side config) (Config.maxOrderSize config) DEFAULT_COOLDOWN (events_seen config log) Trading_init).2 in
  decision_text (Config.side config) (Order.quantity order) (Order.price order) vwap ++
    recorded_text order (order_reason (Config.side config) ask vwap) ++ rest =
  Text.bytes "[ORDER] BUY 150 @ $139.85 (VWAP: $139.97) Reason: Buy: Ask < VWAP" ++ [10] ++
  Text.bytes "[ORDER SENT]  BUY 150 @ $139.85 | Buy Order: Ask (13985) < VWAP (13997)" ++ [10] ++ rest.
Proof. intros order vwap. rewrite !app_assoc. f_equal. Qed.

Abbreviation after_log := (trade_all MAX_TRADES (nanos (Config.vwapWindowSeconds config)) (Config.symbol config)
  (Config.side config) (Config.maxOrderSize config) DEFAULT_COOLDOWN (events_seen config log) Trading_init).
Lemma log_fits : offered_pv (trades_seen config log) ≤ 2 ^ 51.
Proof. vm_compute. discriminate. Qed.
Lemma ask_ok : QuoteMessage_ok ask.
Proof. concrete. Qed.
Lemma ask_valid : validateQuote ask = true.
Proof. vm_compute. reflexivity. Qed.
Lemma ask_matches : symbol_matches config (Quote.symbol ask) = true.
Proof. vm_compute. reflexivity. Qed.
Lemma log_trades : trades_on (Config.side config) DEFAULT_COOLDOWN ask after_log.2 = true.
Proof. vm_compute. reflexivity. Qed.
Lemma log_orders : after_log.1 = [].
Proof. vm_compute. reflexivity. Qed.
Lemma log_volume : Spec.volume (spec after_log.2) = 350.
Proof. vm_compute. reflexivity. Qed.
Lemma log_pv : Spec.pv (spec after_log.2) = 4899000.
Proof. vm_compute. reflexivity. Qed.

(** The order of the session, on an empty console: 150 shares at 139.85 when
    the average is 139.97.  The second line has lost its symbol. *)
Lemma quote_output_witness :
  ∃ (t : Trader VwapWindowBuffer) rest,
    text (cout (onQuote_prints (λ _, []) config stack (λ _, 10) answers ask ((Some t, orders), SystemMetrics_init) console_init)) =
      Text.bytes "[ORDER] BUY 150 @ $139.85 (VWAP: $139.97) Reason: Buy: Ask < VWAP" ++ [10] ++
      Text.bytes "[ORDER SENT]  BUY 150 @ $139.85 | Buy Order: Ask (13985) < VWAP (13997)" ++ [10] ++ rest.
Proof.
  destruct trader_after as [t Ht].
  assert (H := quote_output VwapCalculator.Examples.pos config ibm_config ltac:(concrete) stack ltac:(apply length_replicate)
    (λ _, 10) answers ltac:(done) (λ _, []) orders log t orders SystemMetrics_init ask console_init Ht
    log_fits ask_ok ask_valid ask_matches eq_refl eq_refl).
  cbv zeta in H. rewrite log_trades in H. destruct H as (t' & s' & wire & ok & said & _ & _ & _ & Hcon & _).
  exists t. eexists. rewrite Hcon, order_lines. cbn [cout]. unfold shown. cbn [text ostream_init console_init cout]. reflexivity.
Defined.

Lemma stats_report_witness :
  ∃ t : Trader VwapWindowBuffer,
    text (stats_line t 31 ostream_init) =
      ln "[STATS] Uptime: 31s | Quotes: 0 | Trades: 3 | Orders: 0 | Status: READY | VWAP: $139.97" ++ [10].
Proof.
  destruct trader_after as [t Ht]. exists t.
  assert (Ho : totalOrders t = 0).
  { assert (H := so_orders _ _ _ _ _ _ Ht). rewrite log_orders in H. cbn in H. lia. }
  destruct (stats_report VwapCalculator.Examples.pos config ibm_config answers orders log t orders 31
    ostream_init Ht ltac:(vm_compute; discriminate) ltac:(done) eq_refl) as ([cents|] & Htext & H);
    [|by rewrite log_volume in H].
  rewrite log_volume, log_pv in H. destruct H as [_ H]. assert (cents = 13997) as -> by lia.
  rewrite Htext, Ho. vm_compute. reflexivity.
Defined.

(** The tenth trade is reported twice, by the order manager in the format it
    finds and by [main] in cents: at an average of 12345.67 dollars the two
    lines differ. *)
Definition tenth : console :=
  let ten := (λ i, trade (Z.of_nat i) 100 1234567) <$> seq 0 10 in
  let s := foldl (λ s t, onTrade MAX_TRADES config t s)
             (((Some (mkTrader manager 0 0 0 []), console_init), orders), SystemMetrics_init) ten in
  s.1.1.2.

Example tenth_trade_reported_twice :
  let t := text (cout tenth) in
  drop (length t - 111) t =
    Text.bytes "[VWAP UPDATE] Current VWAP: $12345.7 (after 10 trades)" ++ [10] ++
    Text.bytes "[VWAP UPDATE] Current VWAP: $12345.67 (after 10 trades)" ++ [10].
Proof. vm_compute. reflexivity. Qed.
End ConsoleExamples.
