(* ===== verification/MemoryPool.v ===== *)
(** * The object pools ([include/memory_pool.h])

    [SimplePool] marks slots in an array; [MemoryPool] keeps its free nodes
    in a linked stack updated by compare-and-swap.  A pointer to an object is
    the index of its slot.  For the lock-free stack there is the sequential
    reading, which is correct, and a step relation for several threads, in
    which the ABA problem hands out a node twice. *)
From S2P Require Import Prelude.
From stdpp Require Import gmap sets.
#[local] Open Scope Z_scope.

(** ** [SimplePool]: a cyclic first-fit search *)

Module SimplePool.
Record t := mk { inUse : list bool; searchStart : nat }.

Section ops.
Context (POOL_SIZE : nat).

Definition init : t := mk (replicate POOL_SIZE false) 0.

(** The loop of [allocate] from its [i]-th turn, [fuel] turns before the
    end. *)
Fixpoint search (p : t) (i fuel : nat) : option nat * t :=
  match fuel with
  | O => (None, p)
  | S fuel =>
      let idx := ((searchStart p + i) mod POOL_SIZE)%nat in
      if negb (inUse p !!! idx)
      then (Some idx, mk (<[idx := true]> (inUse p)) ((idx + 1) mod POOL_SIZE))
      else search p (S i) fuel
  end.

Definition allocate (p : t) : option nat * t := search p 0 POOL_SIZE.

(** Any pointer may be given: [None] is null, an index beyond the array a
    foreign object. *)
Definition deallocate (ptr : option nat) (p : t) : t :=
  match ptr with
  | None => p
  | Some i => if (i <? POOL_SIZE)%nat then mk (<[i := false]> (inUse p)) (searchStart p) else p
  end.

Definition reset (p : t) : t := mk ((λ _, false) <$> inUse p) 0.
End ops.

(** The slots in use. *)
Definition held (p : t) : gset nat :=
  list_to_set (filter (λ i, inUse p !!! i = true) (seq 0 (length (inUse p)))).

Section proofs.
Context (POOL_SIZE : nat) (Hpos : (0 < POOL_SIZE)%nat).
Implicit Types p : t.

Definition inv p : Prop := length (inUse p) = POOL_SIZE ∧ (searchStart p < POOL_SIZE)%nat.

Lemma elem_of_held p i : inv p → i ∈ held p ↔ (i < POOL_SIZE)%nat ∧ inUse p !!! i = true.
Proof using Hpos.
  intros [Hl _]. unfold held. rewrite elem_of_list_to_set, list_elem_of_filter, elem_of_seq, Hl. split; intros; (split; [|lia] || idtac); intuition lia.
Qed.

Lemma simple_init_inv : inv (init POOL_SIZE).
Proof using Hpos. split; cbn; [apply length_replicate|done]. Qed.

Lemma held_insert p i (b : bool) st :
  inv p → (i < POOL_SIZE)%nat → (st < POOL_SIZE)%nat →
  inv (mk (<[i := b]> (inUse p)) st) ∧
  held (mk (<[i := b]> (inUse p)) st) = (if b then {[ i ]} ∪ held p else held p ∖ {[ i ]}).
Proof using Hpos.
  intros Hp Hi Hst. assert (Hi1 : inv (mk (<[i := b]> (inUse p)) st)).
  { split; cbn; [rewrite length_insert; apply Hp|done]. }
  split; [done|]. apply set_eq. intros j. rewrite (elem_of_held _ _ Hi1). cbn.
  assert (Hl : length (inUse p) = POOL_SIZE) by apply Hp.
  destruct (decide (i = j)) as [<-|Hne].
  - rewrite list_lookup_total_insert_eq by lia.
    destruct b; rewrite ?elem_of_union, ?elem_of_difference, elem_of_singleton; intuition congruence.
  - rewrite list_lookup_total_insert_ne by done. rewrite <- (elem_of_held _ _ Hp).
    destruct b; rewrite ?elem_of_union, ?elem_of_difference, elem_of_singleton; intuition congruence.
Qed.

(** The search visits every slot once, so it fails only on a full pool. *)
Lemma search_spec p i fuel :
  inv p → (i + fuel = POOL_SIZE)%nat →
  (∀ k, (k < i)%nat → inUse p !!! ((searchStart p + k) mod POOL_SIZE)%nat = true) →
  match search POOL_SIZE p i fuel with
  | (Some j, p') =>
      inUse p !!! j = false ∧ inv p' ∧ held p' = {[ j ]} ∪ held p ∧
      (∃ k, j = ((searchStart p + k) mod POOL_SIZE)%nat ∧ searchStart p' = ((j + 1) mod POOL_SIZE)%nat ∧
         ∀ k', (k' < k)%nat → inUse p !!! ((searchStart p + k') mod POOL_SIZE)%nat = true)
  | (None, p') => p' = p ∧ ∀ k, (k < POOL_SIZE)%nat → inUse p !!! k = true
  end.
Proof using Hpos.
  intros Hp. revert i. induction fuel as [|fuel IH]; intros i Hi Hbefore; cbn [search].
  { split; [done|]. intros k Hk. rewrite Nat.add_0_r in Hi. subst i. destruct Hp as [Hl Hs].
    (* slot [k] is the one visited after going around from the start *)
    specialize (Hbefore ((k + POOL_SIZE - searchStart p) mod POOL_SIZE)%nat
      ltac:(apply Nat.mod_upper_bound; lia)).
    rewrite Nat.Div0.add_mod_idemp_r in Hbefore.
    replace (searchStart p + (k + POOL_SIZE - searchStart p))%nat with (k + 1 * POOL_SIZE)%nat in Hbefore by lia.
    by rewrite Nat.Div0.mod_add, Nat.mod_small in Hbefore. }
  destruct (inUse p !!! ((searchStart p + i) mod POOL_SIZE)%nat) eqn:Hu; cbn [negb].
  - apply IH; [lia|]. intros k Hk. destruct (decide (k = i)) as [->|]; [done|]. apply Hbefore. lia.
  - assert (Hidx := Nat.mod_upper_bound (searchStart p + i) POOL_SIZE ltac:(lia)).
    destruct (held_insert p ((searchStart p + i) mod POOL_SIZE)%nat true
      ((((searchStart p + i) mod POOL_SIZE) + 1) mod POOL_SIZE)%nat Hp Hidx
      ltac:(apply Nat.mod_upper_bound; lia)) as [H1 H2].
    split; [done|]. split; [done|]. split; [done|]. by exists i.
Qed.

Lemma allocate_spec p :
  inv p →
  match allocate POOL_SIZE p with
  | (Some j, p') => (j < POOL_SIZE)%nat ∧ j ∉ held p ∧ inv p' ∧ held p' = {[ j ]} ∪ held p
  | (None, p') => p' = p ∧ ∀ k, (k < POOL_SIZE)%nat → k ∈ held p
  end.
Proof using Hpos.
  intros Hp. assert (H := search_spec p 0 POOL_SIZE Hp eq_refl ltac:(intros; lia)). unfold allocate.
  destruct (search POOL_SIZE p 0 POOL_SIZE) as [[j|] p'].
  - destruct H as (Hu & Hi & Hh & k & -> & _). assert (Hj := Nat.mod_upper_bound (searchStart p + k) POOL_SIZE ltac:(lia)).
    split; [done|]. split; [|done]. rewrite elem_of_held by done. rewrite Hu. by intros [_ ?].
  - destruct H as [-> H]. split; [done|]. intros k Hk. rewrite elem_of_held by done. auto.
Qed.

Lemma deallocate_spec ptr p :
  inv p → inv (deallocate POOL_SIZE ptr p) ∧
  held (deallocate POOL_SIZE ptr p) = match ptr with Some i => held p ∖ {[ i ]} | None => held p end.
Proof using Hpos.
  intros Hp. destruct ptr as [i|]; cbn [deallocate]; [|done].
  destruct (Nat.ltb_spec i POOL_SIZE).
  - destruct (held_insert p i false (searchStart p) Hp ltac:(done) (proj2 Hp)) as [H1 H2]. done.
  - split; [done|]. symmetry. apply difference_disjoint_L. intros j Hj ->%elem_of_singleton.
    apply elem_of_held in Hj as [? _]; [lia|done].
Qed.

Lemma reset_spec p : inv p → inv (reset p) ∧ held (reset p) = ∅.
Proof using Hpos.
  intros [Hl Hs]. assert (Hi : inv (reset p)) by (split; cbn; [by rewrite length_fmap|done]).
  split; [done|]. apply set_eq. intros i. rewrite (elem_of_held _ _ Hi). cbn.
  rewrite elem_of_empty. split; [|done]. intros [Hlt Hu].
  rewrite list_lookup_total_alt, list_lookup_fmap in Hu. destruct (lookup_lt_is_Some_2 (inUse p) i) as [b Hb]; [lia|]. by rewrite Hb in Hu.
Qed.
End proofs.

(** *** Runs against the abstract pool: a set of outstanding slots *)

Inductive op := Alloc | Dealloc (ptr : option nat) | Reset.

Definition exec (N : nat) (o : op) (p : t) : option nat * t :=
  match o with
  | Alloc => allocate N p
  | Dealloc ptr => (None, deallocate N ptr p)
  | Reset => (None, reset p)
  end.

Fixpoint exec_all (N : nat) (ops : list op) (p : t) : list (option nat) * t :=
  match ops with
  | [] => ([], p)
  | o :: ops => let '(r, p) := exec N o p in let '(rs, p) := exec_all N ops p in (r :: rs, p)
  end.

(** What a pool promises: an allocation takes a slot that is not
    outstanding, and is refused only when all [N] are. *)
Definition allowed (N : nat) (o : op) (out : gset nat) (r : option nat) (out' : gset nat) : Prop :=
  match o, r with
  | Alloc, Some i => (i < N)%nat ∧ i ∉ out ∧ out' = {[ i ]} ∪ out
  | Alloc, None => set_seq 0 N ⊆ out ∧ out' = out
  | Dealloc (Some i), None => out' = out ∖ {[ i ]}
  | Dealloc None, None => out' = out
  | Reset, None => out' = ∅
  | _, Some _ => False
  end.

Inductive allowed_all (N : nat) : list op → gset nat → list (option nat) → gset nat → Prop :=
  | allowed_nil out : allowed_all N [] out [] out
  | allowed_cons o ops r rs out out1 out2 :
      allowed N o out r out1 → allowed_all N ops out1 rs out2 →
      allowed_all N (o :: ops) out (r :: rs) out2.

Lemma exec_allowed N o p :
  (0 < N)%nat → inv N p →
  let '(r, p') := exec N o p in inv N p' ∧ allowed N o (held p) r (held p').
Proof.
  intros HN Hp. destruct o as [|ptr|]; cbn [exec].
  - assert (H := allocate_spec N HN p Hp). destruct (allocate N p) as [[i|] p']; cbn.
    + by destruct H as (? & ? & ? & ?).
    + destruct H as [-> H]. split; [done|]. split; [|done].
      intros i Hi%elem_of_set_seq. apply H. lia.
  - destruct (deallocate_spec N HN ptr p Hp) as [? ?]. by destruct ptr.
  - exact (reset_spec N HN p Hp).
Qed.
End SimplePool.

(** Whatever sequence of [allocate], [deallocate] and [reset] calls a
    client makes on a fresh [SimplePool] of [N > 0] slots, null and foreign
    pointers and double frees included, every allocation returns a slot of
    the array that is not outstanding, and none is refused while a slot is
    free. *)
Theorem simple_pool_refines N ops :
  (0 < N)%nat →
  let '(rs, p) := SimplePool.exec_all N ops (SimplePool.init N) in
  SimplePool.allowed_all N ops ∅ rs (SimplePool.held p).
Proof.
  intros HN.
  assert (∀ p, SimplePool.inv N p →
    let '(rs, p') := SimplePool.exec_all N ops p in
    SimplePool.allowed_all N ops (SimplePool.held p) rs (SimplePool.held p')) as Hrun.
  { induction ops as [|o ops IH]; intros p Hp; cbn [SimplePool.exec_all]; [constructor|].
    assert (H := SimplePool.exec_allowed N o p HN Hp).
    destruct (SimplePool.exec N o p) as [r p1]. destruct H as [Hp1 Hr]. specialize (IH p1 Hp1).
    destruct (SimplePool.exec_all N ops p1) as [rs p2]. by econstructor. }
  specialize (Hrun _ (SimplePool.simple_init_inv N HN)).
  assert (SimplePool.held (SimplePool.init N) = ∅) as Hempty; [|by rewrite Hempty in Hrun].
  apply set_eq. intros i. rewrite SimplePool.elem_of_held by (try apply SimplePool.simple_init_inv; done).
  split; [|set_solver]. intros [Hi Hu]. cbn in Hu. rewrite lookup_total_replicate_2 in Hu by done. done.
Qed.

(** ** [MemoryPool]: a lock-free stack of nodes *)

Module MemoryPool.
(** The [next] field of each node, the top of the free list and the counter.
    The objects themselves are the client's. *)
Record t := mk { next : list (option nat); freeList : option nat; allocatedCount : Z }.
#[global] Instance eta_t : Settable t := fun p => mk (next p) (freeList p) (allocatedCount p).

Section ops.
Context (POOL_SIZE : nat).

(** The loop the constructor and [reset] share. *)
Definition link (p : t) (i : nat) : t :=
  p <| next := <[i := freeList p]> (next p) |> <| freeList := Some i |>.

Definition init : t :=
  foldl link (mk (replicate POOL_SIZE None) None 0) (seq 0 POOL_SIZE).

Definition reset (p : t) : t :=
  foldl link (p <| freeList := None |>) (seq 0 POOL_SIZE) <| allocatedCount := 0 |>.

Definition getAllocatedCount (p : t) : Z := allocatedCount p.
Definition getAvailableCount (p : t) : Z := u64 (Z.of_nat POOL_SIZE - getAllocatedCount p).

(** *** One thread alone

    The weak compare-and-swap may fail spuriously; it does [spurious]
    times here and the loop reloads the top. *)
Fixpoint allocate (spurious : nat) (p : t) : option nat * t :=
  match freeList p with
  | None => (None, p)
  | Some node =>
      let nxt := next p !!! node in
      match spurious with
      | S spurious => allocate spurious p
      | O => (Some node, p <| freeList := nxt |> <| allocatedCount ::= λ n, u64 (n + 1) |>)
      end
  end.

Fixpoint push (spurious : nat) (node : nat) (p : t) : t :=
  let oldHead := freeList p in
  let p := p <| next := <[node := oldHead]> (next p) |> in
  match spurious with
  | S spurious => push spurious node p
  | O => p <| freeList := Some node |>
  end.

Definition deallocate (spurious : nat) (ptr : option nat) (p : t) : t :=
  match ptr with
  | None => p
  | Some node =>
      if (POOL_SIZE <=? node)%nat then p
      else push spurious node p <| allocatedCount ::= λ n, u64 (n - 1) |>
  end.

(** *** Several threads

    Each atomic access is a step of its own; the accesses of all threads
    are interleaved by a schedule.  This is the sequentially consistent
    reading: the orders the code asks for allow more. *)
Inductive call := Alloc | Dealloc (ptr : nat).

Inductive pc :=
  | Idle
  | AllocNext (node : nat)                        (** [node] loaded from [freeList] *)
  | AllocCas (node : nat) (nxt : option nat)      (** [node->next] loaded *)
  | AllocCount (node : nat)                       (** swapped *)
  | FreeLoad (node : nat)
  | FreeStore (node : nat) (oldHead : option nat)
  | FreeCas (node : nat) (oldHead : option nat)
  | FreeCount.

Record thread := mkThread { at_ : pc; todo : list call; got : list (option nat) }.

(** One step of a thread; [weak] makes a compare-and-swap that would
    succeed fail. *)
Definition step (weak : bool) (p : t) (th : thread) : t * thread :=
  let enter := λ todo,
    match freeList p with
    | Some node => (p, mkThread (AllocNext node) todo (got th))
    | None => (p, mkThread Idle todo (None :: got th))
    end in
  let goto := λ q p, (p, mkThread q (todo th) (got th)) in
  match at_ th with
  | Idle =>
      match todo th with
      | [] => (p, th)
      | Alloc :: todo => enter todo
      | Dealloc ptr :: todo =>
          if (POOL_SIZE <=? ptr)%nat then (p, mkThread Idle todo (got th))
          else (p, mkThread (FreeLoad ptr) todo (got th))
      end
  | AllocNext node => goto (AllocCas node (next p !!! node)) p
  | AllocCas node nxt =>
      if bool_decide (freeList p = Some node) && negb weak
      then goto (AllocCount node) (p <| freeList := nxt |>)
      else enter (todo th)
  | AllocCount node =>
      (p <| allocatedCount ::= λ n, u64 (n + 1) |>, mkThread Idle (todo th) (Some node :: got th))
  | FreeLoad node => goto (FreeStore node (freeList p)) p
  | FreeStore node old => goto (FreeCas node old) (p <| next := <[node := old]> (next p) |>)
  | FreeCas node old =>
      if bool_decide (freeList p = old) && negb weak
      then goto FreeCount (p <| freeList := Some node |>)
      else goto (FreeLoad node) p
  | FreeCount => goto Idle (p <| allocatedCount ::= λ n, u64 (n - 1) |>)
  end.

Fixpoint run (sched : list (nat * bool)) (p : t) (ths : list thread) : t * list thread :=
  match sched with
  | [] => (p, ths)
  | (k, weak) :: sched =>
      match ths !! k with
      | None => run sched p ths
      | Some th => let '(p, th) := step weak p th in run sched p (<[k := th]> ths)
      end
  end.
End ops.

(** *** The free list as a list of nodes *)

Fixpoint chain (nxt : list (option nat)) (top : option nat) (l : list nat) : Prop :=
  match l with
  | [] => top = None
  | i :: l => top = Some i ∧ chain nxt (nxt !!! i) l
  end.

Lemma chain_insert nxt top l i v : i ∉ l → chain nxt top l → chain (<[i := v]> nxt) top l.
Proof.
  revert top. induction l as [|j l IH]; intros top Hi; [done|]. cbn. intros [-> H]. split; [done|].
  apply not_elem_of_cons in Hi as [Hne Hi]. rewrite list_lookup_total_insert_ne by done. by apply IH.
Qed.

(** Pushing a node outside the list. *)
Lemma chain_push nxt top l i :
  (i < length nxt)%nat → i ∉ l → chain nxt top l → chain (<[i := top]> nxt) (Some i) (i :: l).
Proof.
  intros Hi Hl H. cbn. split; [done|]. rewrite list_lookup_total_insert_eq by done. by apply chain_insert.
Qed.

(** The free nodes in the order [allocate] hands them out. *)
Record repr (N : nat) (p : t) (l : list nat) : Prop := {
  repr_length : length (next p) = N;
  repr_chain : chain (next p) (freeList p) l;
  repr_nodup : NoDup l;
  repr_nodes : Forall (λ i, (i < N)%nat) l;
  repr_count : allocatedCount p = Z.of_nat N - Z.of_nat (length l)
}.

Lemma repr_short N p l : repr N p l → (length l ≤ N)%nat.
Proof.
  intros [? ? Hnd Hlt ?]. rewrite <- (length_seq N 0). apply submseteq_length, NoDup_submseteq; [done|].
  intros i Hi. rewrite elem_of_seq. apply (proj1 (Forall_forall _ _) Hlt) in Hi. lia.
Qed.

Lemma link_all n p :
  freeList p = None → (n ≤ length (next p))%nat →
  let p' := foldl link p (seq 0 n) in
  length (next p') = length (next p) ∧ chain (next p') (freeList p') (reverse (seq 0 n)) ∧
  allocatedCount p' = allocatedCount p.
Proof.
  intros Htop. induction n as [|n IH]; intros Hn; cbn zeta; [done|].
  rewrite seq_S, foldl_app, reverse_snoc. cbn [foldl].
  destruct (IH ltac:(lia)) as (H1 & H2 & H3). set (q := foldl link p (seq 0 n)) in *.
  split; [cbn; by rewrite length_insert|]. split; [|done].
  apply chain_push; [lia| |done]. rewrite elem_of_reverse, elem_of_seq. lia.
Qed.

Lemma linked N p :
  freeList p = None → length (next p) = N →
  repr N (foldl link p (seq 0 N) <| allocatedCount := 0 |>) (reverse (seq 0 N)).
Proof.
  intros Htop Hn. destruct (link_all N p Htop ltac:(lia)) as (H1 & H2 & H3).
  split; cbn; [by rewrite H1|done| | |].
  - rewrite reverse_Permutation. apply NoDup_seq.
  - apply Forall_reverse, Forall_seq. lia.
  - rewrite length_reverse, length_seq. lia.
Qed.

Lemma init_repr N : repr N (init N) (reverse (seq 0 N)).
Proof.
  set (p := mk (replicate N None) None 0).
  assert (Hn : length (next p) = N) by apply length_replicate.
  assert (H := linked N p eq_refl Hn). destruct (link_all N p eq_refl ltac:(lia)) as (_ & _ & Hc).
  change (init N) with (foldl link p (seq 0 N)). destruct (foldl link p (seq 0 N)). cbn in *.
  by rewrite Hc.
Qed.

Lemma reset_repr N p l : repr N p l → repr N (reset N p) (reverse (seq 0 N)).
Proof. intros H. apply linked; [done|]. apply H. Qed.

(** *** Calls of one thread against a stack of free nodes *)

Inductive op := AllocOp (spurious : nat) | DeallocOp (spurious : nat) (ptr : option nat) | ResetOp.

Definition exec (N : nat) (o : op) (p : t) : option nat * t :=
  match o with
  | AllocOp k => allocate k p
  | DeallocOp k ptr => (None, deallocate N k ptr p)
  | ResetOp => (None, reset N p)
  end.

(** The stack such a call leaves, where the client gives back only nodes
    it holds. *)
Definition stacked (N : nat) (o : op) (l : list nat) : option (option nat * list nat) :=
  match o, l with
  | AllocOp _, [] => Some (None, [])
  | AllocOp _, i :: l => Some (Some i, l)
  | DeallocOp _ (Some i), _ =>
      if (N <=? i)%nat then Some (None, l)
      else if bool_decide (i ∈ l) then None else Some (None, i :: l)
  | DeallocOp _ None, _ => Some (None, l)
  | ResetOp, _ => Some (None, reverse (seq 0 N))
  end.

Lemma allocate_any_spurious k p : allocate k p = allocate 0 p.
Proof. induction k as [|k IH]; [done|]. cbn [allocate]. rewrite IH. cbn. by destruct (freeList p). Qed.

Lemma push_any_spurious k i p :
  (i < length (next p))%nat →
  push k i p = p <| next := <[i := freeList p]> (next p) |> <| freeList := Some i |>.
Proof.
  revert p. induction k as [|k IH]; intros p Hi; cbn [push]; [done|].
  rewrite IH by (cbn; by rewrite length_insert). cbn. by rewrite list_insert_insert_eq.
Qed.

Lemma exec_stacked N o p l r l' :
  Z.of_nat N < 2 ^ 64 → repr N p l → stacked N o l = Some (r, l') →
  ∃ p', exec N o p = (r, p') ∧ repr N p' l'.
Proof.
  intros HN Hp. assert (Hshort := repr_short _ _ _ Hp). destruct o as [k|k [i|]|]; cbn [stacked exec]; intros Ho.
  - rewrite allocate_any_spurious. destruct Hp as [Hl Hc Hnd Hlt Hcount].
    destruct l as [|i l]; simplify_eq; cbn in Hc; cbn [allocate].
    + rewrite Hc. eexists. split; [done|]. by split.
    + destruct Hc as [-> Hc]. eexists. split; [done|]. cbn in *. inversion Hnd. inversion Hlt.
      split; cbn; [done..|]. rewrite u64_small by lia. lia.
  - unfold deallocate. destruct (Nat.leb_spec N i); simplify_eq; [by eexists|].
    case_bool_decide as Hi; simplify_eq. eexists. split; [done|].
    destruct Hp as [Hl Hc Hnd Hlt Hcount]. rewrite push_any_spurious by lia. cbn.
    split; cbn; [by rewrite length_insert|by apply chain_push; [lia| |]|by constructor|by constructor|].
    assert (length (i :: l) ≤ N)%nat.
    { eapply (repr_short N (mk (<[i := freeList p]> (next p)) (Some i) _)). split; cbn;
        [by rewrite length_insert|by apply chain_push; [lia| |]|by constructor|by constructor|done]. }
    cbn in *. rewrite u64_small by lia. lia.
  - simplify_eq. by eexists.
  - simplify_eq. eexists. split; [done|]. by eapply reset_repr.
Qed.

Fixpoint exec_all (N : nat) (ops : list op) (p : t) : list (option nat) * t :=
  match ops with
  | [] => ([], p)
  | o :: ops => let '(r, p) := exec N o p in let '(rs, p) := exec_all N ops p in (r :: rs, p)
  end.

Fixpoint stacked_all (N : nat) (ops : list op) (l : list nat) : option (list (option nat) * list nat) :=
  match ops with
  | [] => Some ([], l)
  | o :: ops => '(r, l) ← stacked N o l; '(rs, l) ← stacked_all N ops l; Some (r :: rs, l)
  end.
End MemoryPool.

(** C34: Used by one thread, the lock-free [MemoryPool] is a stack of free
    nodes: for every sequence of [allocate], [deallocate] and [reset] calls
    in which the client gives back only nodes it holds (null and foreign
    pointers aside), whatever compare-and-swaps fail spuriously, each
    [allocate] pops the node freed last and is refused only on an empty
    stack, and [getAvailableCount] is the number of free nodes. *)
Theorem memory_pool_is_a_stack N ops rs l :
  Z.of_nat N < 2 ^ 64 →
  MemoryPool.stacked_all N ops (reverse (seq 0 N)) = Some (rs, l) →
  ∃ p, MemoryPool.exec_all N ops (MemoryPool.init N) = (rs, p) ∧
    MemoryPool.repr N p l ∧ MemoryPool.getAvailableCount N p = Z.of_nat (length l).
Proof.
  intros HN. assert (H := MemoryPool.init_repr N). revert H.
  generalize (MemoryPool.init N) as p, (reverse (seq 0 N)) as l0.
  revert rs. induction ops as [|o ops IH]; intros rs p l0 Hp; cbn.
  - intros [= <- <-]. exists p. split; [done|]. split; [done|].
    unfold MemoryPool.getAvailableCount, MemoryPool.getAllocatedCount.
    rewrite (MemoryPool.repr_count _ _ _ Hp), u64_small; [lia|]. assert (H := MemoryPool.repr_short _ _ _ Hp). lia.
  - destruct (MemoryPool.stacked N o l0) as [[r l1]|] eqn:Ho; cbn; [|done].
    destruct (MemoryPool.stacked_all N ops l1) as [[rs1 l2]|] eqn:Hops; cbn; [|done]. intros [= <- <-].
    destruct (MemoryPool.exec_stacked N o p l0 r l1 HN Hp Ho) as (p1 & -> & Hp1).
    destruct (IH _ _ _ Hp1 Hops) as (p2 & -> & Hp2). by exists p2.
Qed.

(** ** Several threads on one pool *)

Module Interleaving.
Import MemoryPool.

(** The nodes a thread was given, one being counted included. *)
Definition owned (th : thread) : list nat :=
  match at_ th with AllocCount i => [i] | _ => [] end ++ omap id (got th).

Definition taken (ths : list thread) : list nat := concat (owned <$> ths).

(** A thread that only allocates, in a state it reaches while no node is
    given back. *)
Definition allocating (nxt : list (option nat)) (th : thread) : Prop :=
  Forall (λ c, c = Alloc) (todo th) ∧
  match at_ th with
  | Idle | AllocNext _ | AllocCount _ => True
  | AllocCas i n => n = nxt !!! i
  | _ => False
  end.

Lemma step_allocating N weak p th l :
  allocating (next p) th → chain (next p) (freeList p) l →
  let '(p', th') := step N weak p th in
  ∃ l', next p' = next p ∧ chain (next p) (freeList p') l' ∧ allocating (next p) th' ∧
    l' ++ owned th' ≡ₚ l ++ owned th.
Proof.
  intros [Htodo Hat] Hl. destruct th as [q td g]. cbn in Htodo, Hat.
  assert (∀ td', Forall (λ c, c = Alloc) td' → match q with AllocCount _ => False | _ => True end →
    let '(p', th') := match freeList p with
                      | Some node => (p, mkThread (AllocNext node) td' g)
                      | None => (p, mkThread Idle td' (None :: g)) end in
    ∃ l', next p' = next p ∧ chain (next p) (freeList p') l' ∧ allocating (next p) th' ∧
      l' ++ owned th' ≡ₚ l ++ owned (mkThread q td g)) as Henter.
  { intros td' Htd Hq. destruct (freeList p) as [node|] eqn:Hf; exists l; rewrite Hf; (do 3 (split; [done|]));
      by destruct q. }
  destruct q as [|i|i n|i| | | |]; cbn [step at_]; try done.
  - inversion Htodo as [|c td' -> Htd]; subst; cbn [todo].
    + exists l. split_and!; [done|done|by split|done].
    + by apply Henter.
  - exists l. split_and!; [done|done|by split|done].
  - case_bool_decide as Hf; [destruct weak|]; cbn [andb negb todo]; [by apply Henter| |by apply Henter].
    destruct l as [|j l]; [cbn in Hl; congruence|]. cbn in Hl. destruct Hl as [Hj Hl].
    simplify_eq. exists l. split_and!; [done|done|by split|].
    unfold owned. cbn. by rewrite <- Permutation_middle.
  - exists l. split_and!; [done|done|by split|done].
Qed.

Lemma taken_insert ths k th th' :
  ths !! k = Some th → ∃ rest, taken ths ≡ₚ owned th ++ rest ∧ taken (<[k := th']> ths) ≡ₚ owned th' ++ rest.
Proof.
  intros Hk. exists (taken (take k ths) ++ taken (drop (S k) ths)).
  assert (∀ th ths1 ths2, taken (ths1 ++ th :: ths2) ≡ₚ owned th ++ taken ths1 ++ taken ths2) as Hmid.
  { intros. unfold taken. rewrite fmap_app, concat_app. cbn. by rewrite !app_assoc, (Permutation_app_comm (owned _)). }
  split.
  - rewrite <- (take_drop_middle ths k th Hk) at 1. apply Hmid.
  - rewrite insert_take_drop by (by eapply lookup_lt_Some). apply Hmid.
Qed.

Lemma run_allocating N sched p ths l :
  Forall (allocating (next p)) ths → chain (next p) (freeList p) l →
  let '(p', ths') := run N sched p ths in
  ∃ l', chain (next p') (freeList p') l' ∧ l' ++ taken ths' ≡ₚ l ++ taken ths.
Proof.
  revert p ths l. induction sched as [|[k weak] sched IH]; intros p ths l Hths Hl; cbn [run]; [by exists l|].
  destruct (ths !! k) as [th|] eqn:Hk; [|by apply IH].
  assert (H := step_allocating N weak p th l (Forall_lookup_1 _ _ _ _ Hths Hk) Hl).
  destruct (step N weak p th) as [p' th']. destruct H as (l1 & Hnext & Hl1 & Hth' & Hperm).
  assert (Forall (allocating (next p')) (<[k := th']> ths)) as Hths'.
  { rewrite Hnext. by apply Forall_insert. }
  rewrite <- Hnext in Hl1. specialize (IH _ _ _ Hths' Hl1). destruct (run N sched p' (<[k := th']> ths)) as [p2 ths2].
  destruct IH as (l2 & Hl2 & Hperm2). exists l2. split; [done|]. rewrite Hperm2.
  destruct (taken_insert ths k th th' Hk) as (rest & -> & ->). by rewrite !app_assoc, Hperm.
Qed.

(** A thread about to make [n] allocations. *)
Definition allocator (n : nat) : thread := mkThread Idle (replicate n Alloc) [].

Lemma allocators_allocating nxt ns : Forall (allocating nxt) (allocator <$> ns).
Proof.
  apply Forall_fmap, Forall_true. intros n. split; [|done]. by apply Forall_replicate.
Qed.

Lemma allocators_taken ns : taken (allocator <$> ns) = [].
Proof. induction ns as [|n ns IH]; [done|]. unfold taken in *. by cbn. Qed.
End Interleaving.

(** C35: While no node is given back, the lock-free pool serves any number of
    threads: whatever their accesses' interleaving and the spurious failures
    of the compare-and-swaps, the nodes handed out and the nodes still free
    are together exactly the nodes of the pool; none is handed out twice and
    none is lost. *)
Theorem concurrent_allocation N ns sched :
  let '(p, ths) := MemoryPool.run N sched (MemoryPool.init N) (Interleaving.allocator <$> ns) in
  ∃ l, MemoryPool.chain (MemoryPool.next p) (MemoryPool.freeList p) l ∧
    NoDup (l ++ Interleaving.taken ths) ∧ l ++ Interleaving.taken ths ≡ₚ seq 0 N.
Proof.
  assert (H := Interleaving.run_allocating N sched (MemoryPool.init N) _ _
    (Interleaving.allocators_allocating _ ns) (MemoryPool.repr_chain _ _ _ (MemoryPool.init_repr N))).
  destruct (MemoryPool.run N sched _ _) as [p ths]. destruct H as (l & Hl & Hperm).
  rewrite Interleaving.allocators_taken, app_nil_r, reverse_Permutation in Hperm.
  exists l. split; [done|]. split; [|done]. rewrite Hperm. apply NoDup_seq.
Qed.

(** C36: With [deallocate] running beside [allocate] the stack suffers the ABA
    problem.  From any pool with two nodes [a], [b] on top there is an
    interleaving of a thread that allocates twice with one that allocates
    twice and gives [a] back, after which [b] is held by both: the first
    thread read [a]'s successor before the second took both nodes and pushed
    [a] again, and its compare-and-swap sees nothing of that. *)
Theorem aba_hands_out_twice N p a b l :
  MemoryPool.repr N p (a :: b :: l) →
  let ths := [MemoryPool.mkThread MemoryPool.Idle [MemoryPool.Alloc; MemoryPool.Alloc] [];
              MemoryPool.mkThread MemoryPool.Idle [MemoryPool.Alloc; MemoryPool.Alloc; MemoryPool.Dealloc a] []] in
  ∃ sched p', MemoryPool.run N sched p ths =
    (p', [MemoryPool.mkThread MemoryPool.Idle [] [Some b; Some a];
          MemoryPool.mkThread MemoryPool.Idle [] [Some b; Some a]]).
Proof.
  intros [Hlen (Hf & Hb & Hl) Hnd Hlt _]. cbn zeta.
  apply NoDup_cons in Hnd as [Hne%not_elem_of_cons _]. destruct Hne as [Hne _].
  inversion Hlt as [|? ? Ha _]; subst. destruct p as [nxt top cnt]. cbn in *. subst top.
  set (run1 := replicate 2 (0%nat, false)). set (run2 := replicate 13 (1%nat, false)).
  set (run3 := replicate 6 (0%nat, false)).
  eexists (run1 ++ run2 ++ run3), _. subst run1 run2 run3.
  assert (Hnull : (length nxt <=? a)%nat = false) by (apply Nat.leb_gt; lia).
  repeat first [progress cbn | rewrite Hb | rewrite Hnull | rewrite bool_decide_true by done
               | rewrite list_lookup_total_insert_ne by done].
  reflexivity.
Qed.

(** ** Witnesses and examples *)

Module PoolExamples.
Lemma simple_pool_refines_witness :
  let '(rs, p) := SimplePool.exec_all 2 [SimplePool.Alloc; SimplePool.Alloc; SimplePool.Alloc;
    SimplePool.Dealloc (Some 0%nat); SimplePool.Alloc] (SimplePool.init 2) in
  rs = [Some 0%nat; Some 1%nat; None; None; Some 0%nat] ∧
  SimplePool.allowed_all 2 [SimplePool.Alloc; SimplePool.Alloc; SimplePool.Alloc;
    SimplePool.Dealloc (Some 0%nat); SimplePool.Alloc] ∅ rs (SimplePool.held p).
Proof.
  split; [reflexivity|]. exact (simple_pool_refines 2 [SimplePool.Alloc; SimplePool.Alloc; SimplePool.Alloc;
    SimplePool.Dealloc (Some 0%nat); SimplePool.Alloc] ltac:(lia)).
Defined.

Definition pool_ops : list MemoryPool.op :=
  [MemoryPool.AllocOp 0; MemoryPool.AllocOp 3; MemoryPool.DeallocOp 1 (Some 2%nat);
   MemoryPool.DeallocOp 0 (Some 7%nat); MemoryPool.AllocOp 0; MemoryPool.AllocOp 0; MemoryPool.AllocOp 0].

Lemma memory_pool_is_a_stack_witness :
  ∃ p, MemoryPool.exec_all 3 pool_ops (MemoryPool.init 3) =
    ([Some 2%nat; Some 1%nat; None; None; Some 2%nat; Some 0%nat; None], p) ∧
    MemoryPool.repr 3 p [] ∧ MemoryPool.getAvailableCount 3 p = 0.
Proof.
  exact (memory_pool_is_a_stack 3 pool_ops [Some 2%nat; Some 1%nat; None; None; Some 2%nat; Some 0%nat; None] []
    ltac:(done) eq_refl).
Defined.

Lemma aba_hands_out_twice_witness :
  ∃ sched p', MemoryPool.run 3 sched (MemoryPool.init 3)
    [MemoryPool.mkThread MemoryPool.Idle [MemoryPool.Alloc; MemoryPool.Alloc] [];
     MemoryPool.mkThread MemoryPool.Idle [MemoryPool.Alloc; MemoryPool.Alloc; MemoryPool.Dealloc 2] []] =
    (p', [MemoryPool.mkThread MemoryPool.Idle [] [Some 1%nat; Some 2%nat];
          MemoryPool.mkThread MemoryPool.Idle [] [Some 1%nat; Some 2%nat]]).
Proof. exact (aba_hands_out_twice 3 (MemoryPool.init 3) 2 1 [0%nat] (MemoryPool.init_repr 3)). Defined.

(** Giving a node back twice makes the free list a cycle. *)
Example double_free_cycles :
  let p := MemoryPool.init 3 in
  let '(r1, p) := MemoryPool.allocate 0 p in
  let p := MemoryPool.deallocate 3 0 r1 (MemoryPool.deallocate 3 0 r1 p) in
  let '(r2, p) := MemoryPool.allocate 0 p in
  let '(r3, _) := MemoryPool.allocate 0 p in r2 = r3 ∧ r2 = Some 2%nat.
Proof. vm_compute. done. Qed.
End PoolExamples.
