(* ===== verification/CsvReader.v ===== *)
(** * CSV market data ([include/csv_reader.h], [src/csv_reader.cpp])

    Reading a file of quotes and trades, turning its records into messages,
    and replaying them against a clock.  A file is its bytes; instants are in
    nanoseconds. *)
From S2P Require Import Prelude Binary64 Text Message.

(** ** Records *)

Module Csv.
Inductive Type_ := QUOTE | TRADE.

(** The active member of the union. *)
Inductive Data :=
  | QuoteData (bidPrice : double) (bidQuantity : Z) (askPrice : double) (askQuantity : Z)
  | TradeData (price : double) (quantity : Z).

Record MarketDataRecord := mk { type : Type_; timestamp : Z; symbol : list Z; data : Data }.
#[global] Instance eta_MarketDataRecord : Settable MarketDataRecord := fun r =>
  mk (type r) (timestamp r) (symbol r) (data r).

Definition MarketDataRecord_init : MarketDataRecord := mk QUOTE 0 [] (QuoteData dzero 0 dzero 0).

(** The hand-written copies read the member of the union that [type] names;
    [None]: that is not the active one.  The copy and the move constructor
    differ only in what is left of the other record's symbol. *)
Definition copied (other : MarketDataRecord) : option MarketDataRecord :=
  match type other, data other with
  | QUOTE, QuoteData _ _ _ _ | TRADE, TradeData _ _ => Some (mk (type other) (timestamp other) (symbol other) (data other))
  | _, _ => None
  end.

(** Both assignments; [same] is [this == &other]. *)
Definition assigned (same : bool) (other this : MarketDataRecord) : option MarketDataRecord :=
  if negb same then
    let this := this <| type := type other |> <| timestamp := timestamp other |> <| symbol := symbol other |> in
    match type this, data other with
    | QUOTE, QuoteData bp bq ap aq => Some (this <| data := QuoteData bp bq ap aq |>)
    | TRADE, TradeData p q => Some (this <| data := TradeData p q |>)
    | _, _ => None
    end
  else Some this.
End Csv.
Notation MarketDataRecord := Csv.MarketDataRecord.

(** ** Fields of a line *)

Definition comma : Z := 44.
Definition dquote : Z := 34.
Definition is_blank (c : Z) : bool := (c =? 32) || (c =? 9).

Fixpoint drop_blanks (f : list Z) : list Z :=
  match f with c :: f' => if is_blank c then drop_blanks f' else f | [] => [] end.
(** The two [erase] calls. *)
Definition trim (f : list Z) : list Z := reverse (drop_blanks (reverse (drop_blanks f))).

(** One character: the finished fields, the current one, [inQuotes]. *)
Definition split_step (st : list (list Z) * list Z * bool) (c : Z) : list (list Z) * list Z * bool :=
  let '(fields, field, inQuotes) := st in
  if c =? dquote then (fields, field, negb inQuotes)
  else if (c =? comma) && negb inQuotes then (fields ++ [field], [], inQuotes)
  else (fields, field ++ [c], inQuotes).

Definition splitCSV (line : list Z) : list (list Z) :=
  let '(fields, field, _) := foldl split_step ([], [], false) line in
  let fields := if (length field =? 0)%nat then fields else fields ++ [field] in
  trim <$> fields.

(** ** Values *)

Definition contains (c : Z) (s : list Z) : bool := existsb (Z.eqb c) s.

Definition parseTimestamp (timeStr : list Z) : Z :=
  if contains 58 timeStr then
    let iss := Some timeStr in
    let '(hours, iss) := get_int iss 0 in
    let iss := get_char iss in
    let '(minutes, iss) := get_int iss 0 in
    let iss := get_char iss in
    let '(seconds, iss) := get_int iss 0 in
    let '(millis, iss) :=
      if contains 46 timeStr then get_int (get_char iss) 0 else (0, iss) in
    let totalMillis := u64 (hours * 3600000 + minutes * 60000 + seconds * 1000 + millis) in
    u64 (totalMillis * 1000000)
  else default 0 (stoull timeStr).

Definition parsePrice (priceStr : list Z) : double := default dzero (stod priceStr).
Definition parseQuantity (qtyStr : list Z) : Z := default 0 (u32 <$> stoul qtyStr).

(** ** [CSVReader] *)

Definition parseHeader (line : list Z) : bool := (3 <=? length (splitCSV line))%nat.

(** The record is written field by field and may be left half-filled. *)
Definition parseLine (line : list Z) (record : MarketDataRecord) : bool * MarketDataRecord :=
  let fields := splitCSV line in
  let field i := fields !!! i in
  if (length fields <? 3)%nat then (false, record) else
  let record := record <| Csv.timestamp := parseTimestamp (field 0%nat) |> in
  if bool_decide (field 1%nat = bytes "Q") || bool_decide (field 1%nat = bytes "QUOTE") then
    let record := record <| Csv.type := Csv.QUOTE |> in
    if (length fields <? 7)%nat then (false, record) else
    let record := record <| Csv.symbol := field 2%nat |> in
    (true, record <| Csv.data := Csv.QuoteData (parsePrice (field 3%nat)) (parseQuantity (field 4%nat))
                                   (parsePrice (field 5%nat)) (parseQuantity (field 6%nat)) |>)
  else if bool_decide (field 1%nat = bytes "T") || bool_decide (field 1%nat = bytes "TRADE") then
    let record := record <| Csv.type := Csv.TRADE |> in
    if (length fields <? 5)%nat then (false, record) else
    let record := record <| Csv.symbol := field 2%nat |> in
    (true, record <| Csv.data := Csv.TradeData (parsePrice (field 3%nat)) (parseQuantity (field 4%nat)) |>)
  else (false, record).

Record CSVReader := mkReader { records : list MarketDataRecord; currentIndex : nat; isLoaded : bool }.
#[global] Instance eta_CSVReader : Settable CSVReader := fun r =>
  mkReader (records r) (currentIndex r) (isLoaded r).

Definition CSVReader_init : CSVReader := mkReader [] 0 false.

(** What [std::getline] yields until the end of the file: a last line without
    a newline counts when it is not empty. *)
Fixpoint getlines (cur content : list Z) : list (list Z) :=
  match content with
  | [] => match cur with [] => [] | _ => [cur] end
  | c :: content => if c =? 10 then cur :: getlines [] content else getlines (cur ++ [c]) content
  end.

(** The loop of [loadFile]; [false] when the header is refused. *)
Fixpoint load_lines (lines : list (list Z)) (headerParsed : bool) (rs : list MarketDataRecord)
  : bool * list MarketDataRecord :=
  match lines with
  | [] => (true, rs)
  | line :: lines =>
      if (length line =? 0)%nat || (line !!! 0%nat =? 35) then load_lines lines headerParsed rs
      else if negb headerParsed then
        if negb (parseHeader line) then (false, rs) else load_lines lines true rs
      else
        let '(ok, record) := parseLine line Csv.MarketDataRecord_init in
        load_lines lines headerParsed (if ok : bool then rs ++ [record] else rs)
  end.

(** [content] is what the path names, [None] when it cannot be opened. *)
Definition loadFile (content : option (list Z)) (r : CSVReader) : bool * CSVReader :=
  match content with
  | None => (false, r)
  | Some content =>
      let '(ok, rs) := load_lines (getlines [] content) false (records r) in
      let r := r <| records := rs |> in
      if negb ok then (false, r)
      else (negb (length rs =? 0)%nat, r <| isLoaded := true |>)
  end.

Definition hasNext (r : CSVReader) : bool := (currentIndex r <? length (records r))%nat.
Definition next (r : CSVReader) : MarketDataRecord * CSVReader :=
  match records r !! currentIndex r with
  | Some record => (record, r <| currentIndex ::= S |>)
  | None => (Csv.MarketDataRecord_init, r)
  end.
Definition reset (r : CSVReader) : CSVReader := r <| currentIndex := 0%nat |>.
Definition size (r : CSVReader) : nat := length (records r).

(** *** Conversion to messages *)

(** The [memset] and [memcpy] of a symbol. *)
Definition symbol_field (s : list Z) : list Z := list_inserts 0 (take 8 s) (replicate 8 0).

(** [static_cast<int32_t>(price * 100)]. *)
Definition to_cents (price : double) : option Z := d_to_i32 (d_mul price (d_of_Z 100)).

(** [None]: undefined behaviour, a price beyond [int32_t] or a record whose
    union holds the other member. *)
Definition convertToQuoteMessage (record : MarketDataRecord) : option QuoteMessage :=
  match Csv.data record with
  | Csv.QuoteData bp bq ap aq =>
      bid ← to_cents bp; ask ← to_cents ap;
      Some (Quote.mk (symbol_field (Csv.symbol record)) (Csv.timestamp record) bq (u32 bid) aq ask)
  | _ => None
  end.

Definition convertToTradeMessage (record : MarketDataRecord) : option TradeMessage :=
  match Csv.data record with
  | Csv.TradeData p q =>
      cents ← to_cents p;
      Some (Trade.mk (symbol_field (Csv.symbol record)) (Csv.timestamp record) q cents)
  | _ => None
  end.

(** ** [CSVReplayEngine] *)

Definition MIN_INTERVAL : Z := 100 * 1000.

(** [reader] is the owned reader, [None] a null pointer. *)
Record CSVReplayEngine := mkEngine {
  reader : option CSVReader; startTime : Z; baseTimestamp : Z; replaySpeed : double;
  isPaused : bool; currentPosition : nat; lastEmitTime : Z }.
#[global] Instance eta_CSVReplayEngine : Settable CSVReplayEngine := fun e =>
  mkEngine (reader e) (startTime e) (baseTimestamp e) (replaySpeed e) (isPaused e) (currentPosition e) (lastEmitTime e).

Definition CSVReplayEngine_init (csvReader : option CSVReader) (speed : double) : CSVReplayEngine :=
  let base := match csvReader with
              | Some r => match records r with r0 :: _ => Csv.timestamp r0 | [] => 0 end
              | None => 0
              end in
  mkEngine csvReader 0 base speed false 0 0.

Definition start (now : Z) (e : CSVReplayEngine) : CSVReplayEngine :=
  e <| startTime := now |> <| lastEmitTime := now |> <| currentPosition := 0%nat |> <| isPaused := false |>.
Definition pause (e : CSVReplayEngine) : CSVReplayEngine := e <| isPaused := true |>.
Definition resume (e : CSVReplayEngine) : CSVReplayEngine := e <| isPaused := false |>.
Definition setSpeed (speed : double) (e : CSVReplayEngine) : CSVReplayEngine :=
  e <| replaySpeed := if d_lt dzero speed then speed else d_of_Z 1 |>.

Definition getTotalRecords (e : CSVReplayEngine) : nat := from_option size 0%nat (reader e).
Definition getPosition (e : CSVReplayEngine) : nat := currentPosition e.
Definition getProgress (e : CSVReplayEngine) : double :=
  if (0 <? getTotalRecords e)%nat
  then d_mul (d_div (d_of_Z (Z.of_nat (currentPosition e))) (d_of_Z (Z.of_nat (getTotalRecords e)))) (d_of_Z 100)
  else dzero.

Definition getElapsedMicros (now : Z) (e : CSVReplayEngine) : Z := u64 (Z.quot (now - startTime e) 1000).

(** [static_cast<uint64_t>(x)]; undefined out of range. *)
Definition d_to_u64 (x : double) : option Z :=
  v ← d_trunc x; if (0 <=? v) && (v <? 2 ^ 64) then Some v else None.

Definition getReplayTimestamp (originalTimestamp : Z) (e : CSVReplayEngine) : option Z :=
  let offset := u64 (originalTimestamp - baseTimestamp e) in
  scaled ← d_to_u64 (d_div (d_of_Z offset) (replaySpeed e));
  Some (u64 (baseTimestamp e + scaled)).

(** The clock is read twice: [now] for the interval, [now'] for the elapsed
    time. *)
Definition shouldEmitNow (record : MarketDataRecord) (now now' : Z) (e : CSVReplayEngine) : option bool :=
  if d_le (replaySpeed e) dzero then Some true else
  if now - lastEmitTime e <? MIN_INTERVAL then Some false else
  let elapsedMicros := getElapsedMicros now' e in
  let recordOffset := u64 (Csv.timestamp record - baseTimestamp e) in
  scaledOffset ← d_to_u64 (d_div (d_of_Z recordOffset) (replaySpeed e));
  Some (scaledOffset <=? elapsedMicros).

(** The three instants at which one call reads the clock. *)
Record Instants := mkInstants { t_interval : Z; t_elapsed : Z; t_emit : Z }.

(** The record emitted, if any; [None] outside is undefined behaviour. *)
Definition getNextMessage (now : Instants) (e : CSVReplayEngine)
  : option (option MarketDataRecord * CSVReplayEngine) :=
  match reader e with
  | None => Some (None, e)
  | Some r =>
      if isPaused e then Some (None, e) else
      match records r !! currentPosition e with
      | None => Some (None, e)
      | Some nextRecord =>
          emit ← shouldEmitNow nextRecord (t_interval now) (t_elapsed now) e;
          if emit : bool
          then Some (Some nextRecord, e <| currentPosition ::= S |> <| lastEmitTime := t_emit now |>)
          else Some (None, e)
      end
  end.

(** ** Splitting *)

(** Characters that mean nothing to the splitter. *)
Definition plain (f : list Z) : Prop := Forall (λ c, c ≠ comma ∧ c ≠ dquote) f.

(** A field as a writer may spell it: as it is, or in quotes, in which case
    commas are allowed. *)
Definition spells (text f : list Z) : Prop :=
  (text = f ∧ plain f) ∨ (text = dquote :: f ++ [dquote] ∧ Forall (λ c, c ≠ dquote) f).

Fixpoint joined (texts : list (list Z)) : list Z :=
  match texts with
  | [] => []
  | [t] => t
  | t :: ts => t ++ comma :: joined ts
  end.

Lemma split_plain fs g f : plain f → foldl split_step (fs, g, false) f = (fs, g ++ f, false).
Proof.
  intros Hf. revert g. induction Hf as [|c f [H1 H2] _ IH]; intros g; cbn; [by rewrite app_nil_r|].
  rewrite (proj2 (Z.eqb_neq c dquote)), (proj2 (Z.eqb_neq c comma)) by done. cbn. by rewrite IH, <- app_assoc.
Qed.

Lemma split_quoted fs g f :
  Forall (λ c, c ≠ dquote) f → foldl split_step (fs, g, true) f = (fs, g ++ f, true).
Proof.
  intros Hf. revert g. induction Hf as [|c f H _ IH]; intros g; cbn; [by rewrite app_nil_r|].
  rewrite (proj2 (Z.eqb_neq c dquote)) by done. rewrite andb_false_r. cbn. by rewrite IH, <- app_assoc.
Qed.

Lemma split_spelled fs text f : spells text f → foldl split_step (fs, [], false) text = (fs, f, false).
Proof.
  intros [[-> Hf] | [-> Hf]]; [by apply split_plain|].
  cbn [foldl split_step]. change (dquote =? dquote) with true. cbn [negb].
  by rewrite foldl_app, split_quoted.
Qed.

Lemma split_joined texts fs f fields :
  Forall2 spells texts fields →
  foldl split_step (fs, [], false) (joined (texts ++ [f])) =
  foldl split_step (fs ++ fields, [], false) f.
Proof.
  intros H. revert fs. induction H as [|t g texts fields Ht H IH]; intros fs; [by rewrite app_nil_r|].
  assert (Hj : joined ((t :: texts) ++ [f]) = t ++ comma :: joined (texts ++ [f])) by (by destruct texts).
  rewrite Hj, foldl_app, (split_spelled fs t g Ht). cbn [foldl split_step].
  change (comma =? dquote) with false. change ((comma =? comma) && negb false) with true. cbn [foldl].
  by rewrite IH, <- app_assoc.
Qed.

Lemma split_join texts fields :
  Forall2 spells texts fields → fields ≠ [] →
  splitCSV (joined texts) = trim <$> (if (length (List.last fields []) =? 0)%nat then removelast fields else fields).
Proof.
  intros H Hne. unfold splitCSV.
  destruct fields as [|g fields _] using rev_ind; [done|]. apply Forall2_app_inv_r in H as (ts & t' & H & Hl & ->).
  apply Forall2_cons_inv_r in Hl as (t & ? & Ht & Hnil & ->). apply Forall2_nil_inv_r in Hnil as ->.
  rewrite (split_joined _ _ _ _ H), (split_spelled _ _ _ Ht). cbn [app].
  by rewrite last_last, removelast_last.
Qed.

(** ** Files a writer produces *)

(** A quote or a trade as a writer has it: prices in cents. *)
Inductive row :=
  | QuoteRow (timestamp : Z) (symbol : list Z) (bid bidQty ask askQty : Z)
  | TradeRow (timestamp : Z) (symbol : list Z) (price quantity : Z).

Definition row_fields (r : row) : list (list Z) :=
  match r with
  | QuoteRow ts sym bid bq ask aq => [decimal ts; [81]; sym; price_text bid; decimal bq; price_text ask; decimal aq]
  | TradeRow ts sym p q => [decimal ts; [84]; sym; price_text p; decimal q]
  end.
Definition row_text (r : row) : list Z := joined (row_fields r).
Definition file_text (header : list Z) (rows : list row) : list Z :=
  header ++ 10 :: concat ((λ r, row_text r ++ [10]) <$> rows).

Definition symbol_text (sym : list Z) : Prop := plain sym ∧ 10 ∉ sym ∧ trim sym = sym.

Definition row_ok (r : row) : Prop :=
  match r with
  | QuoteRow ts sym bid bq ask aq =>
      is_u64 ts ∧ symbol_text sym ∧ 0 < bid < 2 ^ 31 ∧ is_u32 bq ∧ 0 < ask < 2 ^ 31 ∧ is_u32 aq
  | TradeRow ts sym p q => is_u64 ts ∧ symbol_text sym ∧ 0 < p < 2 ^ 31 ∧ is_u32 q
  end.

Definition header_ok (header : list Z) : Prop :=
  10 ∉ header ∧ header ≠ [] ∧ header !!! 0%nat ≠ 35 ∧ parseHeader header = true.

(** What the fields of a row are made of. *)
Definition clean (f : list Z) : Prop :=
  Forall (λ c, c ≠ comma ∧ c ≠ dquote ∧ c ≠ 10 ∧ is_blank c = false) f.

Lemma drop_blanks_id f : Forall (λ c, is_blank c = false) f → drop_blanks f = f.
Proof. destruct 1 as [|c f Hc _]; [done|]. cbn. by rewrite Hc. Qed.

Lemma trim_clean f : clean f → trim f = f.
Proof.
  intros Hf. assert (Hb : Forall (λ c, is_blank c = false) f) by (eapply Forall_impl; [exact Hf|]; by intros c (_ & _ & _ & ?)).
  unfold trim. rewrite (drop_blanks_id f Hb), drop_blanks_id by (by apply Forall_reverse).
  apply reverse_involutive.
Qed.

Lemma clean_plain f : clean f → plain f.
Proof. intros Hf. eapply Forall_impl; [exact Hf|]. by intros c (? & ? & _). Qed.

Lemma clean_no_newline f : clean f → 10 ∉ f.
Proof. intros Hf Hin. by apply (proj1 (Forall_forall _ _) Hf) in Hin as (_ & _ & ? & _). Qed.

Lemma digit_clean c : is_digit c = true → c ≠ comma ∧ c ≠ dquote ∧ c ≠ 10 ∧ is_blank c = false.
Proof.
  intros [H1 H2]%andb_true_iff. apply Z.leb_le in H1, H2. unfold comma, dquote, is_blank.
  split_and!; lia.
Qed.

Lemma decimal_clean n : 0 ≤ n < 10 ^ 20 → clean (decimal n).
Proof.
  intros Hn. destruct (decimal_digits n Hn) as (Hds & _ & _). eapply Forall_impl; [exact Hds|]. apply digit_clean.
Qed.

Lemma price_clean c : 0 < c < 2 ^ 31 → clean (price_text c).
Proof.
  intros Hc. apply Forall_app. split.
  - apply decimal_clean. split; [apply Z.div_pos; lia|]. apply Z.div_lt_upper_bound; lia.
  - assert (H1 := Z.mod_pos_bound (c / 10) 10 ltac:(lia)). assert (H2 := Z.mod_pos_bound c 10 ltac:(lia)).
    repeat constructor; try (apply digit_clean, digit_ok; lia); done.
Qed.

Lemma joined_no_newline fs : Forall (λ f, 10 ∉ f) fs → 10 ∉ joined fs.
Proof.
  induction 1 as [|f fs Hf Hfs IH]; [apply not_elem_of_nil|].
  destruct fs as [|g fs]; [done|]. cbn [joined] in *. rewrite not_elem_of_app, not_elem_of_cons. done.
Qed.

Lemma getlines_line cur l rest : 10 ∉ l → getlines cur (l ++ 10 :: rest) = (cur ++ l) :: getlines [] rest.
Proof.
  revert cur. induction l as [|c l IH]; intros cur Hl; cbn; [by rewrite app_nil_r|].
  apply not_elem_of_cons in Hl as [Hc Hl]. rewrite (proj2 (Z.eqb_neq c 10)) by done.
  by rewrite IH, <- app_assoc.
Qed.

(** What the reader makes of a row. *)
Definition row_record (r : row) : MarketDataRecord :=
  match r with
  | QuoteRow ts sym bid bq ask aq =>
      Csv.mk Csv.QUOTE ts sym (Csv.QuoteData (d_ratio false bid 100) bq (d_ratio false ask 100) aq)
  | TradeRow ts sym p q => Csv.mk Csv.TRADE ts sym (Csv.TradeData (d_ratio false p 100) q)
  end.

Lemma parse_plain_timestamp ts : is_u64 ts → parseTimestamp (decimal ts) = ts.
Proof.
  intros Hts. unfold parseTimestamp.
  assert (Hc : contains 58 (decimal ts) = false).
  { destruct (decimal_digits ts ltac:(lia)) as (Hds & _ & _). unfold contains.
    induction Hds as [|d ds Hd _ IH]; [done|]. cbn [existsb]. rewrite IH, orb_false_r. apply Z.eqb_neq.
    apply andb_true_iff in Hd as [_ Hd%Z.leb_le]. lia. }
  rewrite Hc, <- (app_nil_r (decimal ts)), stoul_decimal by done. done.
Qed.

Lemma parse_quantity n : is_u32 n → parseQuantity (decimal n) = n.
Proof.
  intros Hn. unfold parseQuantity. rewrite <- (app_nil_r (decimal n)), stoul_decimal by (done || lia).
  cbn. by apply u32_small.
Qed.

Lemma parse_price c : 0 < c < 2 ^ 31 → parsePrice (price_text c) = d_ratio false c 100.
Proof. intros Hc. unfold parsePrice. by rewrite (proj1 (stod_price c Hc)). Qed.

Lemma price_to_cents c : 0 < c < 2 ^ 31 → ∃ v, to_cents (d_ratio false c 100) = Some v ∧ c - 1 ≤ v ≤ c.
Proof. intros Hc. apply cents_truncation; [done|]. by apply stod_price. Qed.

Lemma row_facts r :
  row_ok r →
  splitCSV (row_text r) = row_fields r ∧ 10 ∉ row_text r ∧
  (length (row_text r) =? 0)%nat || (row_text r !!! 0%nat =? 35) = false.
Proof.
  intros Hr.
  assert (Hfields : Forall (λ f, plain f ∧ 10 ∉ f ∧ trim f = f) (row_fields r) ∧
            ∃ ts q fs, row_fields r = decimal ts :: fs ++ [decimal q] ∧ is_u64 ts ∧ is_u64 q).
  { assert (Hclean : ∀ f, clean f → plain f ∧ 10 ∉ f ∧ trim f = f)
      by (intros f Hf; split_and!; [by apply clean_plain|by apply clean_no_newline|by apply trim_clean]).
    destruct r as [ts sym bid bq ask aq|ts sym p q]; cbn [row_ok row_fields] in *.
    - destruct Hr as (Hts & Hs & Hb & Hbq & Ha & Haq). split.
      + repeat apply Forall_cons_2; try apply Forall_nil_2;
          first [exact Hs|apply Hclean; first [apply decimal_clean; lia|by apply price_clean|by repeat constructor]].
      + exists ts, aq, [[81]; sym; price_text bid; decimal bq; price_text ask]. split; [done|lia].
    - destruct Hr as (Hts & Hs & Hp & Hq). split.
      + repeat apply Forall_cons_2; try apply Forall_nil_2;
          first [exact Hs|apply Hclean; first [apply decimal_clean; lia|by apply price_clean|by repeat constructor]].
      + exists ts, q, [[84]; sym; price_text p]. split; [done|lia]. }
  destruct Hfields as [Hfs (ts & q & fs & Heq & Hts & Hq)]. unfold row_text.
  destruct (decimal_digits ts ltac:(lia)) as (Hds & Hne & _). destruct (decimal_digits q ltac:(lia)) as (_ & Hneq & _).
  split_and!.
  - rewrite (split_join _ (row_fields r)).
    + rewrite Heq, app_comm_cons, last_last. destruct (decimal q); [done|]. cbn [length Nat.eqb].
      rewrite app_comm_cons in Heq. rewrite <- Heq. clear Heq.
      induction Hfs as [|f gs (_ & _ & Hf) _ IH]; [done|]. cbn. by rewrite Hf, IH.
    + clear Heq. induction Hfs as [|f gs (Hf & _) _ IH]; constructor; [by left|done].
    + rewrite Heq. done.
  - apply joined_no_newline. eapply Forall_impl; [exact Hfs|]. by intros f (_ & ? & _).
  - rewrite Heq. destruct (decimal ts) as [|d ds]; [done|]. apply Forall_inv in Hds.
    apply andb_true_iff in Hds as [Hd _]. apply Z.leb_le in Hd.
    destruct fs; cbn; apply Z.eqb_neq; lia.
Qed.

Lemma parse_row r : row_ok r → parseLine (row_text r) Csv.MarketDataRecord_init = (true, row_record r).
Proof.
  intros Hr. unfold parseLine. rewrite (proj1 (row_facts r Hr)).
  destruct r as [ts sym bid bq ask aq|ts sym p q]; cbn -[parseTimestamp parsePrice parseQuantity decimal price_text] in *.
  - destruct Hr as (Hts & Hs & Hb & Hbq & Ha & Haq).
    by rewrite parse_plain_timestamp, !parse_quantity, !parse_price by done.
  - destruct Hr as (Hts & Hs & Hp & Hq). by rewrite parse_plain_timestamp, parse_quantity, parse_price by done.
Qed.

Lemma load_rows rows rs :
  Forall row_ok rows →
  load_lines (getlines [] (concat ((λ r, row_text r ++ [10]) <$> rows))) true rs = (true, rs ++ (row_record <$> rows)).
Proof.
  intros H. revert rs. induction H as [|r rows Hr _ IH]; intros rs; cbn [fmap list_fmap concat]; [by rewrite app_nil_r|].
  destruct (row_facts r Hr) as (_ & Hnl & Hnc). rewrite <- app_assoc. cbn [app]. rewrite getlines_line by done.
  cbn [app load_lines negb]. rewrite Hnc, parse_row by done. by rewrite IH, <- app_assoc.
Qed.

(** The message of a row, up to a cent lost per price. *)
Definition row_message (r : row) (record : MarketDataRecord) : Prop :=
  match r with
  | QuoteRow ts sym bid bq ask aq =>
      ∃ b a, convertToQuoteMessage record = Some (Quote.mk (symbol_field sym) ts bq b aq a) ∧
        bid - 1 ≤ b ≤ bid ∧ ask - 1 ≤ a ≤ ask
  | TradeRow ts sym p q =>
      ∃ c, convertToTradeMessage record = Some (Trade.mk (symbol_field sym) ts q c) ∧ p - 1 ≤ c ≤ p
  end.

Lemma row_converts r : row_ok r → row_message r (row_record r).
Proof.
  destruct r as [ts sym bid bq ask aq|ts sym p q]; cbn [row_ok row_message row_record].
  - intros (Hts & Hs & Hb & Hbq & Ha & Haq).
    destruct (price_to_cents bid Hb) as (b & Hb1 & Hb2). destruct (price_to_cents ask Ha) as (a & Ha1 & Ha2).
    exists b, a. cbn [convertToQuoteMessage Csv.data Csv.symbol Csv.timestamp]. rewrite Hb1, Ha1. cbn.
    by rewrite u32_small by lia.
  - intros (Hts & Hs & Hp & Hq). destruct (price_to_cents p Hp) as (c & Hc1 & Hc2).
    exists c. cbn [convertToTradeMessage Csv.data Csv.symbol Csv.timestamp]. by rewrite Hc1.
Qed.

(** C37: A file of quotes and trades is read back.  For every header of at
    least three columns and every list of rows with nanosecond timestamps and
    prices in dollars and cents up to [INT32_MAX] cents, [loadFile] yields
    one record per row in order, and the messages they convert to carry the
    row's symbol, timestamp and quantities, and its prices up to one cent:
    [price * 100] is truncated, never rounded up. *)
Theorem csv_file_roundtrip (header : list Z) (rows : list row) :
  header_ok header → Forall row_ok rows →
  ∃ r, loadFile (Some (file_text header rows)) CSVReader_init = (negb (length rows =? 0)%nat, r) ∧
    isLoaded r = true ∧ Forall2 row_message rows (records r).
Proof.
  intros (Hnl & Hne & Hnc & Hh) Hrows. unfold loadFile, file_text. rewrite getlines_line by done.
  cbn [app load_lines records CSVReader_init]. rewrite Hh.
  destruct header as [|c header]; [done|]. cbn [length Nat.eqb orb]. rewrite (proj2 (Z.eqb_neq _ 35)) by done.
  cbn [negb]. rewrite load_rows by done. cbn [app negb].
  eexists. split; [by rewrite length_fmap|]. split; [done|]. cbn.
  induction Hrows as [|r rows Hr _ IH]; constructor; [by apply row_converts|done].
Qed.

(** The splitter is a left inverse of joining.  Whatever fields are
    written, each as it is or between quotes (where it may contain commas),
    splitting the line yields the fields without their outer blanks; only an
    empty last field is lost. *)
Theorem split_csv_inverse (texts fields : list (list Z)) :
  Forall2 spells texts fields → fields ≠ [] →
  splitCSV (joined texts) =
    trim <$> (if bool_decide (List.last fields [] = []) then removelast fields else fields).
Proof.
  intros H Hne. rewrite (split_join texts fields H Hne). by destruct (List.last fields []).
Qed.

(** ** Clock times *)

(** A numeral that fits an [int], leading zeros allowed. *)
Definition numeral (ds : list Z) : Prop :=
  Forall (λ b, is_digit b = true) ds ∧ ds ≠ [] ∧ digits_value ds < 2 ^ 31.

Definition fraction_text (f : option (list Z)) : list Z := from_option (cons 46) [] f.
(** [h:m:s] or [h:m:s.f]. *)
Definition clock_text (h m s : list Z) (f : option (list Z)) : list Z :=
  h ++ 58 :: m ++ 58 :: s ++ fraction_text f.

Lemma digits_value_nonneg ds : Forall (λ b, is_digit b = true) ds → 0 ≤ digits_value ds.
Proof.
  intros H. unfold digits_value. assert (∀ v, 0 ≤ v → 0 ≤ foldl (λ v d, v * 10 + (d - 48)) v ds) as Hv; [|by apply Hv].
  induction H as [|d ds Hd _ IH]; intros v Hv; cbn; [done|]. apply IH.
  apply andb_true_iff in Hd as [Hd _]. apply Z.leb_le in Hd. lia.
Qed.

Lemma get_int_numeral ds rest old :
  numeral ds → is_digit (hd 0 rest) = false → get_int (Some (ds ++ rest)) old = (digits_value ds, Some rest).
Proof.
  intros (Hds & Hne & Hv) Hr. assert (H0 := digits_value_nonneg ds Hds).
  destruct ds as [|d ds]; [done|]. assert (Hd := Forall_inv Hds). cbn in Hd.
  unfold get_int. cbn [app]. rewrite (skip_spaces_digit d _ Hd), (scan_sign_digit d _ Hd).
  change (d :: ds ++ rest) with ((d :: ds) ++ rest). rewrite (span_digits_app _ _ Hds Hr).
  branch; [lia|]. branch; [lia|done].
Qed.

Lemma get_char_separator c rest : is_space c = false → get_char (Some (c :: rest)) = Some rest.
Proof. intros H. cbn. by rewrite H. Qed.

Lemma contains_app c a b : contains c (a ++ b) = contains c a || contains c b.
Proof. apply existsb_app. Qed.

Lemma contains_digits c ds : is_digit c = false → Forall (λ b, is_digit b = true) ds → contains c ds = false.
Proof.
  intros Hc. unfold contains. induction 1 as [|d ds Hd _ IH]; [done|]. cbn [existsb]. rewrite IH, orb_false_r.
  apply Z.eqb_neq. congruence.
Qed.

(** A time of day is converted to nanoseconds since midnight, with the
    fraction read as a whole number of milliseconds however many digits it
    has: ".5" is 5 ms, as ".005" is, not half a second. *)
Theorem clock_timestamp (h m s : list Z) (f : option (list Z)) :
  numeral h → numeral m → numeral s → (∀ ds, f = Some ds → numeral ds) →
  digits_value h < 24 → digits_value m < 60 → digits_value s < 60 →
  parseTimestamp (clock_text h m s f) =
    (((digits_value h * 60 + digits_value m) * 60 + digits_value s) * 1000 + from_option digits_value 0 f) * 1000000.
Proof.
  intros Hh Hm Hs Hf Hh24 Hm60 Hs60.
  assert (Hh0 := digits_value_nonneg h (proj1 Hh)). assert (Hm0 := digits_value_nonneg m (proj1 Hm)).
  assert (Hs0 := digits_value_nonneg s (proj1 Hs)).
  assert (Hcolon : contains 58 (clock_text h m s f) = true).
  { unfold clock_text. rewrite contains_app. cbn. by rewrite orb_true_r. }
  assert (Hdot : contains 46 (clock_text h m s f) = if f then true else false).
  { unfold clock_text. rewrite contains_app, (contains_digits 46 h) by (done || apply Hh).
    change (contains 46 (m ++ 58 :: s ++ fraction_text f) = if f then true else false).
    rewrite contains_app, (contains_digits 46 m) by (done || apply Hm).
    change (contains 46 (s ++ fraction_text f) = if f then true else false).
    rewrite contains_app, (contains_digits 46 s) by (done || apply Hs). by destruct f. }
  unfold parseTimestamp. rewrite Hcolon, Hdot. unfold clock_text.
  rewrite (get_int_numeral h) by done. rewrite get_char_separator by done.
  rewrite (get_int_numeral m) by done. rewrite get_char_separator by done.
  rewrite (get_int_numeral s) by (done || by destruct f).
  destruct f as [ds|]; cbn [fraction_text from_option].
  - assert (Hds := Hf ds eq_refl). assert (Hd0 := digits_value_nonneg ds (proj1 Hds)).
    rewrite get_char_separator by done. rewrite <- (app_nil_r ds), (get_int_numeral ds) by done. rewrite app_nil_r.
    destruct Hds as (_ & _ & Hds). rewrite (u64_small (_ + digits_value ds)), u64_small by lia. lia.
  - rewrite (u64_small (_ + 0)), u64_small by lia. lia.
Qed.

(** ** Replay *)

Lemma int_div_one n : 0 ≤ n < 2 ^ 53 → d_to_u64 (d_div (d_of_Z n) (d_of_Z 1)) = Some n.
Proof.
  intros Hn. destruct (Z.eq_dec n 0) as [->|Hn0]; [done|].
  assert (Hp := d_div_pnormal n 1 ltac:(lia) ltac:(lia)).
  assert (H1 := d_div_le n 1 n ltac:(lia) ltac:(lia) ltac:(lia) ltac:(lia)).
  assert (H2 := d_div_ge n 1 n ltac:(lia) ltac:(lia) ltac:(lia) ltac:(lia)).
  unfold d_to_u64. rewrite d_trunc_pnormal by done.
  replace (sval (d_div (d_of_Z n) (d_of_Z 1))) with (n * 2 ^ 1100) by lia.
  rewrite Z.div_mul by lia. cbn [mbind option_bind].
  destruct (Z.leb_spec 0 n); [|lia]. destruct (Z.ltb_spec n (2 ^ 64)); [done|lia].
Qed.

(** At the nominal speed of 1 a record whose timestamp is [d] nanoseconds
    after the first is held back until [d] microseconds have passed: elapsed
    microseconds are compared with an offset in nanoseconds, and a recording
    is replayed a thousand times too slowly. *)
Theorem replay_thousandfold (e : CSVReplayEngine) (r : CSVReader) (record : MarketDataRecord) (now : Instants) :
  reader e = Some r → records r !! currentPosition e = Some record → isPaused e = false →
  replaySpeed e = d_of_Z 1 →
  0 ≤ baseTimestamp e ≤ Csv.timestamp record → Csv.timestamp record - baseTimestamp e < 2 ^ 53 →
  0 ≤ t_elapsed now - startTime e < 2 ^ 64 →
  let due := (MIN_INTERVAL <=? t_interval now - lastEmitTime e) &&
             (1000 * (Csv.timestamp record - baseTimestamp e) <=? t_elapsed now - startTime e) in
  getNextMessage now e =
    Some (if due then (Some record, e <| currentPosition ::= S |> <| lastEmitTime := t_emit now |>) else (None, e)).
Proof.
  intros Hr Hrec Hp Hspeed Hbase Hoff Hel. cbn zeta. unfold getNextMessage, shouldEmitNow.
  rewrite Hr, Hp, Hrec, Hspeed. change (d_le (d_of_Z 1) dzero) with false. cbv iota.
  rewrite Z.leb_antisym. branch; [done|]. cbn [negb andb].
  rewrite (u64_small (_ - _)), int_div_one by lia. cbn [mbind option_bind].
  unfold getElapsedMicros. rewrite Z.quot_div_nonneg, u64_small by
    (first [lia | split; [apply Z.div_pos; lia|apply Z.div_lt_upper_bound; lia]]).
  set (d := Csv.timestamp record - baseTimestamp e) in *. set (t := t_elapsed now - startTime e) in *.
  replace (d <=? t / 1000) with (1000 * d <=? t); [by destruct (1000 * d <=? t)|].
  apply eq_true_iff_eq. rewrite !Z.leb_le. split; intros H.
  - apply Z.div_le_lower_bound; lia.
  - assert (Hdm := Z.mul_div_le t 1000 ltac:(lia)). lia.
Qed.

(** A sequence of calls, one per instant: the records emitted. *)
Fixpoint replay (nows : list Instants) (e : CSVReplayEngine) : option (list MarketDataRecord * CSVReplayEngine) :=
  match nows with
  | [] => Some ([], e)
  | now :: nows =>
      '(r, e) ← getNextMessage now e;
      '(rs, e) ← replay nows e;
      Some (option_list r ++ rs, e)
  end.

Lemma getNextMessage_cases now e r :
  reader e = Some r → 
  getNextMessage now e = None ∨ getNextMessage now e = Some (None, e) ∨
  ∃ record, records r !! currentPosition e = Some record ∧
    getNextMessage now e = Some (Some record, e <| currentPosition ::= S |> <| lastEmitTime := t_emit now |>).
Proof.
  intros Hr. unfold getNextMessage. rewrite Hr. destruct (isPaused e); [by auto|].
  destruct (records r !! currentPosition e) as [record|] eqn:Hrec; [|by auto].
  destruct (shouldEmitNow _ _ _ _) as [[]|]; cbn; [|by auto|by auto]. right. right. by exists record.
Qed.

(** The replay engine emits the records in the order of the file, each
    once: any sequence of calls, whatever the clock does between them, yields
    the next [k] records, and the position advances by [k]. *)
Theorem replay_in_order (nows : list Instants) (e e' : CSVReplayEngine) (r : CSVReader) (out : list MarketDataRecord) :
  reader e = Some r → replay nows e = Some (out, e') →
  out = slice (currentPosition e) (length out) (records r) ∧
  currentPosition e' = (currentPosition e + length out)%nat ∧ reader e' = Some r.
Proof.
  revert e out. induction nows as [|now nows IH]; intros e out Hr; cbn [replay].
  { intros [= <- <-]. split; [done|]. split; [cbn; lia|done]. }
  destruct (getNextMessage_cases now e r Hr) as [-> | [-> | (record & Hrec & ->)]]; cbn [mbind option_bind]; [done| |].
  - destruct (replay nows e) as [[rs e2]|] eqn:He; cbn; [|done]. intros [= <- <-]. by apply IH.
  - set (e1 := e <| currentPosition ::= S |> <| lastEmitTime := t_emit now |>).
    destruct (replay nows e1) as [[rs e2]|] eqn:He; cbn [mbind option_bind]; [|done]. intros [= <- <-].
    destruct (IH e1 rs Hr He) as (H1 & H2 & H3). cbn in H1, H2. split_and!; [|cbn; lia|done].
    cbn [option_list app length]. unfold slice. rewrite (drop_S _ record) by done. cbn [take]. f_equal. exact H1.
Qed.

(** ** Types

    A record is well typed when the active member of its union is the one its
    tag names and its numbers fit their types. *)

Definition well_typed (record : MarketDataRecord) : Prop :=
  is_u64 (Csv.timestamp record) ∧
  match Csv.type record, Csv.data record with
  | Csv.QUOTE, Csv.QuoteData _ bq _ aq => is_u32 bq ∧ is_u32 aq
  | Csv.TRADE, Csv.TradeData _ q => is_u32 q
  | _, _ => False
  end.

Lemma span_digits_digits s : Forall (λ b, is_digit b = true) (span_digits s).1.
Proof.
  induction s as [|b s IH]; [constructor|]. cbn. destruct (is_digit b) eqn:Hb; [|constructor].
  destruct (span_digits s). by constructor.
Qed.

Lemma stoul_range s v : stoul s = Some v → is_u64 v.
Proof.
  unfold stoul. destruct (scan_sign _) as [neg t]. assert (Hd := span_digits_digits t).
  destruct (span_digits t) as [ds rest]. cbn [fst] in Hd. assert (H0 := digits_value_nonneg ds Hd).
  destruct ds as [|d ds]; [done|]. rewrite Z.gtb_ltb. destruct (Z.ltb_spec ULONG_MAX (digits_value (d :: ds))) as [|Hle]; [done|].
  unfold ULONG_MAX in Hle. intros [= <-]. destruct neg; [apply u64_range|lia].
Qed.

Lemma parseTimestamp_range s : is_u64 (parseTimestamp s).
Proof.
  unfold parseTimestamp. destruct (contains 58 s).
  - repeat (destruct (get_int _ _)). case_match; apply u64_range.
  - destruct (stoul s) as [v|] eqn:Hs; [by apply stoul_range in Hs|done].
Qed.

Lemma parseQuantity_range s : is_u32 (parseQuantity s).
Proof. unfold parseQuantity. destruct (stoul s); cbn; [apply u32_range|done]. Qed.

Lemma parseLine_typed line record : parseLine line Csv.MarketDataRecord_init = (true, record) → well_typed record.
Proof.
  unfold parseLine. destruct (_ <? 3)%nat; [done|]. destruct (_ || _).
  - destruct (_ <? 7)%nat; [done|]. intros [= <-]. split; [apply parseTimestamp_range|]. split; apply parseQuantity_range.
  - destruct (_ || _); [|done]. destruct (_ <? 5)%nat; [done|]. intros [= <-].
    split; [apply parseTimestamp_range|]. apply parseQuantity_range.
Qed.

Lemma load_lines_typed lines b rs : Forall well_typed rs → Forall well_typed (load_lines lines b rs).2.
Proof.
  revert b rs. induction lines as [|line lines IH]; intros b rs Hrs; cbn [load_lines]; [done|].
  destruct (_ || _); [by apply IH|]. destruct (negb b); [destruct (negb _); [done|by apply IH]|].
  destruct (parseLine line _) as [[] record] eqn:Hp; apply IH; [|done].
  apply Forall_app. split; [done|]. apply Forall_singleton. by eapply parseLine_typed.
Qed.

(** C40: every record is what its tag says.  Whatever the file holds, the
    records of the reader are well typed; copying, moving and assigning one
    gives the same record and never reads the wrong member of the union; and
    what the replay engine hands out is well typed too, so that reading the
    member its tag names is defined. *)
Theorem records_well_typed (content : option (list Z)) (now : Instants) (e e' : CSVReplayEngine) (record : MarketDataRecord) :
  let r := (loadFile content CSVReader_init).2 in
  Forall (λ x, well_typed x ∧ Csv.copied x = Some x ∧ ∀ this, Csv.assigned false x this = Some x) (records r) ∧
  (reader e = Some r → getNextMessage now e = Some (Some record, e') → record ∈ records r ∧ well_typed record).
Proof.
  intros r. assert (Hr : Forall well_typed (records r)).
  { unfold r, loadFile. destruct content as [content|]; [|constructor].
    assert (H := load_lines_typed (getlines [] content) false [] ltac:(constructor)).
    cbn [records CSVReader_init]. destruct (load_lines _ _ _) as [[] rs]; exact H. }
  split.
  - eapply Forall_impl; [exact Hr|]. intros [ty ts sym [bp bq ap aq|p q]] Hx; (split; [exact Hx|]);
      destruct Hx as [_ Hx]; by destruct ty.
  - intros He Hn. destruct (getNextMessage_cases now e r He) as [H | [H | (record' & Hrec & H)]]; rewrite H in Hn; try done.
    injection Hn as <- <-. apply list_elem_of_lookup_2 in Hrec. split; [done|].
    by apply (proj1 (Forall_forall _ _) Hr).
Qed.

(** ** Witnesses and examples *)

Module CsvExamples.
Definition header : list Z := bytes "Timestamp,Type,Symbol,BidPrice,BidQty,AskPrice,AskQty,Price,Qty".
Definition rows : list row :=
  [QuoteRow 34200000000000 (bytes "IBM") 13995 100 14005 150; TradeRow 34200100000000 (bytes "IBM") 14000 50].

Lemma rows_ok : Forall row_ok rows.
Proof.
  repeat apply Forall_cons_2; try apply Forall_nil_2; cbn [row_ok]; split_and!; try lia;
    repeat split; try (vm_compute; reflexivity); try (by repeat constructor); by apply (bool_decide_unpack _).
Qed.

(** The file is read back; the bid of 139.95 comes out as 13994. *)
Lemma csv_file_roundtrip_witness :
  ∃ r, loadFile (Some (file_text header rows)) CSVReader_init = (true, r) ∧ Forall2 row_message rows (records r).
Proof.
  destruct (csv_file_roundtrip header rows) as (r & Hr & _ & Hm).
  - split_and!; [by apply (bool_decide_unpack _)|done|done|reflexivity].
  - exact rows_ok.
  - exists r. split; [exact Hr|exact Hm].
Defined.

Example cent_lost :
  option_map Quote.bidPrice (convertToQuoteMessage (row_record (QuoteRow 0 (bytes "IBM") 13995 100 14005 150))) = Some 13994.
Proof. vm_compute. reflexivity. Qed.

(** The trade lines of the sample file have their price and quantity in the
    last two columns, where the quote lines have none; the reader looks in
    the fourth and fifth and finds empty fields. *)
Example sample_trade_line :
  let '(ok, record) := parseLine (bytes "09:30:00.100,T,IBM,,,,,140.00,50") Csv.MarketDataRecord_init in
  ok = true ∧ Csv.data record = Csv.TradeData dzero 0.
Proof. vm_compute. done. Qed.

(** ' 1', then 'a, b' in quotes, then an empty field. *)
Lemma split_csv_inverse_witness :
  splitCSV (joined [bytes " 1"; dquote :: bytes "a, b" ++ [dquote]; []]) = [bytes "1"; bytes "a, b"].
Proof.
  apply (split_csv_inverse [bytes " 1"; dquote :: bytes "a, b" ++ [dquote]; []] [bytes " 1"; bytes "a, b"; []]); [|done].
  repeat apply Forall2_cons_2; try apply Forall2_nil_2; [left|right|left]; (split; [done|]); by apply (bool_decide_unpack _).
Defined.

Lemma clock_timestamp_witness :
  parseTimestamp (bytes "09:30:00.5") = parseTimestamp (bytes "09:30:00.005") ∧
  parseTimestamp (bytes "09:30:00.5") = 34200005000000.
Proof.
  split; [reflexivity|].
  apply (clock_timestamp (bytes "09") (bytes "30") (bytes "00") (Some (bytes "5")));
    try (intros ds [= <-]); try reflexivity; split_and!; try reflexivity; try done;
    by apply (bool_decide_unpack _).
Defined.

Definition two_quotes : CSVReader :=
  mkReader [Csv.mk Csv.QUOTE 0 [] (Csv.QuoteData dzero 0 dzero 0);
            Csv.mk Csv.QUOTE 100000000 [] (Csv.QuoteData dzero 0 dzero 0)] 0 true.
Definition engine : CSVReplayEngine :=
  start 5000000000 (CSVReplayEngine_init (Some two_quotes) (d_of_Z 1)) <| currentPosition := 1%nat |>.

(** The second quote is 100 ms after the first; after 99 s the engine still
    holds it back. *)
Lemma replay_thousandfold_witness :
  getNextMessage (mkInstants 104000000000 104000000000 104000000000) engine = Some (None, engine).
Proof.
  rewrite (replay_thousandfold engine two_quotes (Csv.mk Csv.QUOTE 100000000 [] (Csv.QuoteData dzero 0 dzero 0)));
    try reflexivity; cbn; try lia; done.
Defined.

Definition at_ (t : Z) : Instants := mkInstants t t t.
Definition instants : list Instants := [at_ 5000200000; at_ 5000210000; at_ 106000000000].

Lemma replay_in_order_witness :
  ∃ e', replay instants (engine <| currentPosition := 0%nat |>) = Some (records two_quotes, e') ∧
    currentPosition e' = 2%nat.
Proof.
  eexists. split; [reflexivity|].
  exact (proj1 (proj2 (replay_in_order instants (engine <| currentPosition := 0%nat |>) _ two_quotes
    (records two_quotes) eq_refl eq_refl))).
Defined.

(** A file with a quote and a trade: the engine's first record is a typed
    quote. *)
Definition small_file : list Z :=
  bytes "Timestamp,Type,Symbol" ++ [10] ++ bytes "5,Q,IBM,139.95,100,140.05,150" ++ [10] ++ bytes "6,T,IBM,140.00,50" ++ [10].
Definition small_reader : CSVReader := (loadFile (Some small_file) CSVReader_init).2.
Definition small_engine : CSVReplayEngine := CSVReplayEngine_init (Some small_reader) dzero.

Lemma records_well_typed_witness :
  length (records small_reader) = 2%nat ∧ Forall (λ x, Csv.copied x = Some x) (records small_reader) ∧
  ∃ record, (fst <$> getNextMessage (at_ 0) small_engine) = Some (Some record) ∧ well_typed record.
Proof.
  destruct (records_well_typed (Some small_file) (at_ 0) small_engine (small_engine <| currentPosition ::= S |> <| lastEmitTime := 0 |>)
    (hd Csv.MarketDataRecord_init (records small_reader))) as [Hall Hnext].
  split; [vm_compute; reflexivity|]. split; [eapply Forall_impl; [exact Hall|]; intros x (_ & Hx & _); exact Hx|].
  exists (hd Csv.MarketDataRecord_init (records small_reader)). split; [vm_compute; reflexivity|]. apply Hnext; vm_compute; reflexivity.
Defined.
End CsvExamples.
