(* ===== verification/Simulator.v ===== *)
(** * The market data simulator ([include/simulator.h], [src/simulator.cpp],
    [src/simulator_main.cpp])

    The server that generates quotes and trades, or replays them from a file,
    and sends them to its clients.  Random draws, clock readings and the
    answers of the socket calls are arguments.  What the kernel sees of the
    sockets is logged: [sent] and [closed]. *)
From Stdlib Require Import SpecFloat.
From Stdlib Require Strings.String.
From S2P Require Import Prelude Binary64 Text Message MessageSerializer MessageParser MessageBuffer CsvReader.

(** ** Configuration *)

Inductive MarketScenario := STEADY | TRENDING_UP | TRENDING_DOWN | VOLATILE | CSV_REPLAY.

Module SimConfig.
Record SimulatorConfig := mk {
  port : Z; symbol : list Z; scenario : MarketScenario; basePrice : double; volatility : double;
  messagesPerSecond : Z; duration : Z; csvPath : list Z; replaySpeed : double; verbose : bool }.
#[global] Instance eta_SimulatorConfig : Settable SimulatorConfig := fun c =>
  mk (port c) (symbol c) (scenario c) (basePrice c) (volatility c) (messagesPerSecond c) (duration c)
    (csvPath c) (replaySpeed c) (verbose c).

(** The default member initialisers. *)
Definition default : SimulatorConfig :=
  mk 9090 (bytes "IBM") STEADY (d_of_Z 140) (d_ratio false 2 100) 10 60 [] (d_of_Z 1) false.
End SimConfig.
Notation SimulatorConfig := SimConfig.SimulatorConfig.

(** The command line: a configuration, [exit(0)] after the help, or an
    exception of a numeric conversion that nothing catches. *)
Inductive CommandLine := Parsed (config : SimulatorConfig) | Exits | Throws.

Definition parse_scenario (scenario : list Z) (old : MarketScenario) : MarketScenario :=
  if bool_decide (scenario = bytes "steady") then STEADY
  else if bool_decide (scenario = bytes "up") then TRENDING_UP
  else if bool_decide (scenario = bytes "down") then TRENDING_DOWN
  else if bool_decide (scenario = bytes "volatile") then VOLATILE
  else if bool_decide (scenario = bytes "csv") then CSV_REPLAY
  else old.

Definition named (arg : list Z) (w : String.string) : bool := bool_decide (arg = bytes w).
Arguments named arg w%_string_scope.

(** An option with a value: [None] for another argument. *)
Definition valued_option (arg v : list Z) (c : SimulatorConfig) : option (option SimulatorConfig) :=
  if named arg "-p" || named arg "--port" then Some (n ← stoi v; Some (c <| SimConfig.port := u16 n |>))
  else if named arg "-s" || named arg "--symbol" then Some (Some (c <| SimConfig.symbol := v |>))
  else if named arg "--scenario" then Some (Some (c <| SimConfig.scenario ::= parse_scenario v |>))
  else if named arg "--price" then Some (x ← stod v; Some (c <| SimConfig.basePrice := x |>))
  else if named arg "--volatility" then Some (x ← stod v; Some (c <| SimConfig.volatility := x |>))
  else if named arg "--rate" then Some (n ← stoi v; Some (c <| SimConfig.messagesPerSecond := n |>))
  else if named arg "--duration" then Some (n ← stoi v; Some (c <| SimConfig.duration := n |>))
  else if named arg "--csv" then Some (Some (c <| SimConfig.csvPath := v |> <| SimConfig.scenario := CSV_REPLAY |>))
  else if named arg "--replay-speed" then Some (x ← stod v; Some (c <| SimConfig.replaySpeed := x |>))
  else None.

(** The loop over [argv] from the second entry on.  A last option without a
    value is skipped. *)
Fixpoint parseCommandLine (args : list (list Z)) (c : SimulatorConfig) : CommandLine :=
  match args with
  | [] => Parsed c
  | arg :: rest =>
      match rest with
      | v :: rest' =>
          match valued_option arg v c with
          | Some (Some c') => parseCommandLine rest' c'
          | Some None => Throws
          | None =>
              if named arg "-v" || named arg "--verbose"
              then parseCommandLine rest (c <| SimConfig.verbose := true |>)
              else if named arg "-h" || named arg "--help" then Exits
              else parseCommandLine rest c
          end
      | [] =>
          if named arg "-v" || named arg "--verbose"
          then Parsed (c <| SimConfig.verbose := true |>)
          else if named arg "-h" || named arg "--help" then Exits
          else Parsed c
      end
  end.

(** ** State *)

Record Simulator := mkSimulator {
  config : SimulatorConfig; csvReplayEngine : option CSVReplayEngine;
  running : bool; shouldStop : bool; serverSocket : Z; clientSockets : list Z;
  currentBid : double; currentAsk : double; sequenceNumber : Z;
  sent : list (Z * list Z);   (** (socket, bytes the kernel took), in order *)
  closed : list Z }.          (** the arguments of [close], in order *)
#[global] Instance eta_Simulator : Settable Simulator := fun s =>
  mkSimulator (config s) (csvReplayEngine s) (running s) (shouldStop s) (serverSocket s) (clientSockets s)
    (currentBid s) (currentAsk s) (sequenceNumber s) (sent s) (closed s).

(** 0.01 and its like. *)
Definition lit (n d : Z) : double := d_ratio false n d.

(** [content] is what [csvPath] names, [now] the instant the engine starts. *)
Definition Simulator_init (cfg : SimulatorConfig) (content : option (list Z)) (now : Z) : Simulator :=
  let engine :=
    match SimConfig.scenario cfg with
    | CSV_REPLAY =>
        if (length (SimConfig.csvPath cfg) =? 0)%nat then None else
        let '(ok, csvReader) := loadFile content CSVReader_init in
        if ok : bool then Some (start now (CSVReplayEngine_init (Some csvReader) (SimConfig.replaySpeed cfg)))
        else None
    | _ => None
    end in
  mkSimulator cfg engine false false (-1) []
    (d_sub (SimConfig.basePrice cfg) (lit 1 100)) (d_add (SimConfig.basePrice cfg) (lit 1 100)) 0 [] [].

(** ** Prices *)

Definition d_abs (x : double) : double := SFabs x.
Definition d_two : double := d_of_Z 2.

Definition midPrice (s : Simulator) : double := d_div (d_add (currentBid s) (currentAsk s)) d_two.

(** The common end: the two prices around a middle. *)
Definition quoteAround (mid spread : double) (s : Simulator) : Simulator :=
  s <| currentBid := d_sub mid (d_div spread d_two) |> <| currentAsk := d_add mid (d_div spread d_two) |>.

(** [x] and [y] are the two draws of the normal distribution. *)
Definition generateSteadyPrices (x y : double) (s : Simulator) : Simulator :=
  let change := d_mul x (lit 1 100) in
  let mid := d_add (midPrice s) change in
  let spread := d_add (lit 1 100) (d_mul (d_abs y) (lit 5 1000)) in
  quoteAround mid spread s.

Definition generateTrendingPrices (up : bool) (x y : double) (s : Simulator) : Simulator :=
  let trend := if up then lit 1 1000 else SFopp (lit 1 1000) in
  let noise := d_mul x (lit 1 100) in
  let mid := d_mul (midPrice s) (d_add (d_add (d_of_Z 1) trend) noise) in
  let spread := d_add (lit 1 100) (d_mul (d_abs y) (lit 5 1000)) in
  quoteAround mid spread s.

Definition generateVolatilePrices (x y : double) (s : Simulator) : Simulator :=
  let change := d_mul x (lit 2 100) in
  let mid := d_mul (midPrice s) (d_add (d_of_Z 1) change) in
  let spread := d_add (lit 1 100) (d_mul (d_abs y) (lit 2 100)) in
  quoteAround mid spread s.

(** ** Messages *)

(** What one [createQuote] or [createTrade] draws: the time and the
    quantities. *)
Record Draw := mkDraw { d_stamp : Z; d_bidQty : Z; d_askQty : Z; d_tradeQty : Z }.

Definition createQuote (d : Draw) (s : Simulator) : option QuoteMessage :=
  bid ← to_cents (currentBid s); ask ← to_cents (currentAsk s);
  Some (Quote.mk (symbol_field (SimConfig.symbol (config s))) (d_stamp d) (d_bidQty d) (u32 bid) (d_askQty d) ask).

Definition createTrade (d : Draw) (s : Simulator) : option TradeMessage :=
  price ← d_to_i32 (d_mul (d_add (currentBid s) (currentAsk s)) (d_of_Z 50));
  Some (Trade.mk (symbol_field (SimConfig.symbol (config s))) (d_stamp d) (d_tradeQty d) price).

Definition serializeQuote (quote : QuoteMessage) : list Z :=
  let n := (WireFormat.HEADER_SIZE + WireFormat.QUOTE_SIZE)%nat in
  let '(buffer, size) := serializeQuoteMessage (replicate n 0) n quote in
  if (size =? 0)%nat then [] else take size buffer.

Definition serializeTrade (trade : TradeMessage) : list Z :=
  let n := (WireFormat.HEADER_SIZE + WireFormat.TRADE_SIZE)%nat in
  let '(buffer, size) := serializeTradeMessage (replicate n 0) n trade in
  if (size =? 0)%nat then [] else take size buffer.

(** [sends] answers the [send] calls, one per socket: the number of bytes
    taken, [None] for a failure.  A short count is not looked at. *)
Definition broadcastMessage (data : list Z) (sends : Z → option nat) (s : Simulator) : Simulator :=
  let socketsCopy := clientSockets s in
  let failedSockets := filter (λ sock, sends sock = None) socketsCopy in
  s <| sent ::= λ out, out ++ omap (λ sock, k ← sends sock; Some (sock, take k data)) socketsCopy |>
    <| closed ::= λ cs, cs ++ failedSockets |>
    <| clientSockets ::= filter (λ sock, sock ∉ failedSockets) |>.

(** ** The data thread *)

(** What the world contributes to one turn of the loop. *)
Record Tick := mkTick {
  t_now : Z;                          (** the loop's clock reading *)
  t_x : double; t_y : double;         (** the draws of the price generators *)
  t_replay : Instants;                (** the clock of the replay engine *)
  t_restart : Z;                      (** and when it is started again *)
  t_draw : Draw; t_draw' : Draw;      (** of the regular and the replayed message *)
  t_sends : Z → option nat; t_sends' : Z → option nat }.

(** [None]: a price that does not fit [int32_t]. *)
Definition replayFromCSV (t : Tick) (s : Simulator) : option Simulator :=
  match csvReplayEngine s with
  | None => Some (generateSteadyPrices (t_x t) (t_y t) s)
  | Some engine =>
      '(emitted, engine) ← getNextMessage (t_replay t) engine;
      let s := s <| csvReplayEngine := Some engine |> in
      match emitted with
      | Some record =>
          match Csv.type record, Csv.data record with
          | Csv.QUOTE, Csv.QuoteData bp bq ap aq =>
              let s := s <| currentBid := bp |> <| currentAsk := ap |> in
              quote ← createQuote (t_draw' t) s;
              let quote := Quote.mk (Quote.symbol quote) (Quote.timestamp quote) bq (Quote.bidPrice quote) aq
                             (Quote.askPrice quote) in
              Some (broadcastMessage (serializeQuote quote) (t_sends' t) s)
          | Csv.TRADE, Csv.TradeData p q =>
              trade ← createTrade (t_draw' t) s;
              price ← to_cents p;
              let trade := Trade.mk (Trade.symbol trade) (Trade.timestamp trade) q price in
              Some (broadcastMessage (serializeTrade trade) (t_sends' t) s)
          | _, _ => None
          end
      | None =>
          if (getTotalRecords engine <=? getPosition engine)%nat
          then Some (s <| csvReplayEngine := Some (start (t_restart t) engine) |>) else Some s
      end
  end.

Definition generatePrices (t : Tick) (s : Simulator) : option Simulator :=
  match SimConfig.scenario (config s) with
  | STEADY => Some (generateSteadyPrices (t_x t) (t_y t) s)
  | TRENDING_UP => Some (generateTrendingPrices true (t_x t) (t_y t) s)
  | TRENDING_DOWN => Some (generateTrendingPrices false (t_x t) (t_y t) s)
  | VOLATILE => Some (generateVolatilePrices (t_x t) (t_y t) s)
  | CSV_REPLAY => replayFromCSV t s
  end.

(** The message every due turn sends, after the prices. *)
Definition sendMessage (t : Tick) (s : Simulator) : option Simulator :=
  if sequenceNumber s mod 3 =? 0 then
    trade ← createTrade (t_draw t) s;
    Some (broadcastMessage (serializeTrade trade) (t_sends t) s)
  else
    quote ← createQuote (t_draw t) s;
    Some (broadcastMessage (serializeQuote quote) (t_sends t) s).

Definition emit (t : Tick) (s : Simulator) : option Simulator :=
  s ← generatePrices t s;
  s ← sendMessage t s;
  Some (s <| sequenceNumber ::= λ n, u64 (n + 1) |>).

Definition messageInterval (s : Simulator) : Z :=
  1000000 / Z.max 1 (Z.min 10000 (SimConfig.messagesPerSecond (config s))).

(** The loop of [generateMarketData], one tick per turn. *)
Fixpoint generateMarketData (ticks : list Tick) (startTime lastMessageTime : Z) (s : Simulator) : option Simulator :=
  match ticks with
  | [] => Some s
  | t :: ticks =>
      if shouldStop s then Some s else
      if (0 <? SimConfig.duration (config s)) &&
         (SimConfig.duration (config s) <=? Z.quot (t_now t - startTime) 1000000000)
      then Some (s <| shouldStop := true |>)
      else if messageInterval s <=? Z.quot (t_now t - lastMessageTime) 1000
      then s ← emit t s; generateMarketData ticks startTime (t_now t) s
      else generateMarketData ticks startTime lastMessageTime s
  end.

(** ** Connections and life cycle *)

(** One turn of [acceptClients]: a connection, if there is one, and the
    sockets on which the peer has closed; these are forgotten, not closed. *)
Definition acceptClients (accepted : option Z) (gone : Z → bool) (s : Simulator) : Simulator :=
  let s := match accepted with Some sock => s <| clientSockets ::= λ l, l ++ [sock] |> | None => s end in
  s <| clientSockets ::= filter (λ sock, gone sock = false) |>.

Record SetupEnv := mkSetupEnv { socket_result : Z; setsockopt_ok : bool; bind_ok : bool; listen_ok : bool }.

(** A failure closes the socket but keeps its number. *)
Definition setupSocket (env : SetupEnv) (s : Simulator) : bool * Simulator :=
  let s := s <| serverSocket := socket_result env |> in
  if serverSocket s <? 0 then (false, s) else
  if negb (setsockopt_ok env) || negb (bind_ok env) || negb (listen_ok env)
  then (false, s <| closed ::= λ cs, cs ++ [serverSocket s] |>)
  else (true, s).

Definition Simulator_start (env : SetupEnv) (s : Simulator) : bool * Simulator :=
  if running s then (false, s) else
  let s := s <| shouldStop := false |> in
  let '(ok, s) := setupSocket env s in
  if negb ok then (false, s) else (true, s <| running := true |>).

Definition cleanup (s : Simulator) : Simulator :=
  let s := s <| closed ::= λ cs, cs ++ clientSockets s |> <| clientSockets := [] |> in
  if 0 <=? serverSocket s
  then s <| closed ::= λ cs, cs ++ [serverSocket s] |> <| serverSocket := -1 |> else s.

(** [joined] is what the threads do before they see the flag. *)
Definition Simulator_stop (joined : Simulator → Simulator) (s : Simulator) : Simulator :=
  let s := joined (s <| shouldStop := true |>) in
  cleanup s <| running := false |>.

(** The condition of the loop of [main]. *)
Definition main_waits (shouldExit : bool) (s : Simulator) : bool := negb shouldExit && running s.

(** [main]: [files] is the file system; [life] is what the threads do between
    the start and the moment they have seen the flag.  The destructor stops
    the simulator once more. *)
Inductive Exit := Code (status : Z) (final : option Simulator) | Aborted.

Definition main (args : list (list Z)) (files : list Z → option (list Z)) (now : Z) (env : SetupEnv)
    (life : Simulator → Simulator) : Exit :=
  match parseCommandLine args SimConfig.default with
  | Exits => Code 0 None
  | Throws => Aborted
  | Parsed config =>
      let simulator := Simulator_init config (files (SimConfig.csvPath config)) now in
      let '(ok, simulator) := Simulator_start env simulator in
      if negb ok then Code 1 (Some (Simulator_stop id simulator))
      else Code 0 (Some (Simulator_stop id (Simulator_stop life simulator)))
  end.

(** ** What a client receives *)

(** The bytes the kernel took for one socket. *)
Definition stream (s : Simulator) (sock : Z) : list Z :=
  concat (snd <$> filter (λ e, e.1 = sock) (sent s)).

(** A message about one symbol: a header and the wire form of a well-formed
    quote or trade. *)
Definition quote_message (q : QuoteMessage) : MessageHeader * list Z :=
  (Header.mk (Z.of_nat WireFormat.QUOTE_SIZE) Header.QUOTE_TYPE, quote_bytes q).
Definition trade_message (t : TradeMessage) : MessageHeader * list Z :=
  (Header.mk (Z.of_nat WireFormat.TRADE_SIZE) Header.TRADE_TYPE, trade_bytes t).

Definition about_symbol (sym : list Z) (m : MessageHeader * list Z) : Prop :=
  (∃ q, QuoteMessage_ok q ∧ Quote.symbol q = symbol_field sym ∧ m = quote_message q) ∨
  (∃ t, TradeMessage_ok t ∧ Trade.symbol t = symbol_field sym ∧ m = trade_message t).

Definition data_ok (record : MarketDataRecord) : Prop :=
  match Csv.data record with
  | Csv.QuoteData _ bq _ aq => is_u32 bq ∧ is_u32 aq
  | Csv.TradeData _ q => is_u32 q
  end.
Definition engine_ok (e : CSVReplayEngine) : Prop :=
  ∀ r, reader e = Some r → Forall data_ok (records r).

Definition draw_ok (d : Draw) : Prop :=
  is_u64 (d_stamp d) ∧ is_u32 (d_bidQty d) ∧ is_u32 (d_askQty d) ∧ is_u32 (d_tradeQty d).

(** The kernel takes every message for [sock] whole. *)
Definition takes_all (sends : Z → option nat) (sock : Z) : Prop := ∃ k, sends sock = Some k ∧ (34 ≤ k)%nat.
Definition tick_ok (sock : Z) (t : Tick) : Prop :=
  draw_ok (t_draw t) ∧ draw_ok (t_draw' t) ∧ takes_all (t_sends t) sock ∧ takes_all (t_sends' t) sock.

(** [sock] is connected, once, to a simulator whose data are of their types. *)
Record client_ok (sock : Z) (s : Simulator) : Prop := {
  co_in : sock ∈ clientSockets s;
  co_once : NoDup (clientSockets s);
  co_symbol : bytes_ok (SimConfig.symbol (config s));
  co_engine : ∀ e, csvReplayEngine s = Some e → engine_ok e
}.

(** From [s] to [s'] the socket is sent the messages [ms], and the
    configuration and the flags stay. *)
Record sends_to (sock : Z) (s s' : Simulator) (ms : list (MessageHeader * list Z)) : Prop := {
  st_stream : stream s' sock = stream s sock ++ concat (frame <$> ms);
  st_about : Forall (about_symbol (SimConfig.symbol (config s))) ms;
  st_config : config s' = config s;
  st_running : running s' = running s;
  st_stop : shouldStop s' = shouldStop s;
  st_client : client_ok sock s'
}.

Lemma sends_none sock s s' :
  sent s' = sent s → config s' = config s → running s' = running s → shouldStop s' = shouldStop s →
  client_ok sock s' → sends_to sock s s' [].
Proof. intros Hs ????. split; [unfold stream; by rewrite Hs, app_nil_r|by constructor|done..]. Qed.

Lemma sends_trans sock s1 s2 s3 ms1 ms2 :
  sends_to sock s1 s2 ms1 → sends_to sock s2 s3 ms2 → sends_to sock s1 s3 (ms1 ++ ms2).
Proof.
  intros [H1 H2 H3 H4 H5 _] [K1 K2 K3 K4 K5 K6]. rewrite H3 in K2. split; try congruence.
  - by rewrite K1, H1, fmap_app, concat_app, app_assoc.
  - by apply Forall_app.
Qed.

Lemma symbol_field_ok s : bytes_ok s → symbol_ok (symbol_field s).
Proof.
  intros Hs. unfold symbol_field, symbol_ok. split; [by rewrite length_inserts|].
  rewrite inserts_prefix by (rewrite length_take, length_replicate; lia).
  apply Forall_app. split; [by apply Forall_take|]. apply Forall_drop. by repeat constructor.
Qed.

Lemma about_frame sym m : about_symbol sym m → frame_ok m ∧ (length (frame m) ≤ 34)%nat.
Proof.
  assert (∀ m, frame_ok m → (length (frame m) ≤ 34)%nat) as Hlen by (intros; by apply length_frame).
  intros [(q & Hq & _ & ->)|(t & Ht & _ & ->)].
  - assert (frame_ok (quote_message q)) by (split; [done|]; cbn [snd quote_message]; by rewrite length_quote_bytes).
    auto.
  - assert (frame_ok (trade_message t)) by (split; [done|]; cbn [snd trade_message]; by rewrite length_trade_bytes).
    auto.
Qed.

Lemma serializeQuote_frame q : QuoteMessage_ok q → serializeQuote q = frame (quote_message q).
Proof.
  intros Hq. unfold serializeQuote. rewrite serializeQuoteMessage_bytes by (done || by rewrite length_replicate).
  cbn [Nat.eqb WireFormat.HEADER_SIZE WireFormat.QUOTE_SIZE Nat.add].
  rewrite take_app_length'; [done|]. unfold quote_frame. rewrite length_app, length_quote_bytes by done. done.
Qed.

Lemma serializeTrade_frame t : TradeMessage_ok t → serializeTrade t = frame (trade_message t).
Proof.
  intros Ht. unfold serializeTrade. rewrite serializeTradeMessage_bytes by (done || by rewrite length_replicate).
  cbn [Nat.eqb WireFormat.HEADER_SIZE WireFormat.TRADE_SIZE Nat.add].
  rewrite take_app_length'; [done|]. unfold trade_frame. rewrite length_app, length_trade_bytes by done. done.
Qed.

(** The log of one broadcast, seen from one socket. *)
Lemma broadcast_log (data : list Z) (sends : Z → option nat) (socks : list Z) (sock : Z) :
  NoDup socks → sock ∈ socks → takes_all sends sock → (length data ≤ 34)%nat →
  filter (λ e : Z * list Z, e.1 = sock) (omap (λ x, k ← sends x; Some (x, take k data)) socks) = [(sock, data)].
Proof.
  intros Hnd Hin (k & Hk & Hk34) Hdata.
  assert (Hnone : ∀ l, sock ∉ l →
            filter (λ e : Z * list Z, e.1 = sock) (omap (λ x, k ← sends x; Some (x, take k data)) l) = []).
  { induction l as [|x l IH]; intros Hl; [done|]. apply not_elem_of_cons in Hl as [Hne Hl]. cbn [omap list_omap].
    destruct (sends x) as [kx|]; cbn [mbind option_bind]; [|by apply IH]. rewrite filter_cons_False by (cbn; congruence). by apply IH. }
  induction Hnd as [|x socks Hx Hnd IH]; [by apply not_elem_of_nil in Hin|]. cbn [omap list_omap].
  destruct (decide (x = sock)) as [->|Hne].
  - rewrite Hk. cbn [mbind option_bind]. rewrite filter_cons_True by done. rewrite Hnone by done. by rewrite take_ge by lia.
  - apply elem_of_cons in Hin as [->|Hin]; [done|].
    destruct (sends x) as [kx|]; cbn [mbind option_bind]; [|by apply IH]. rewrite filter_cons_False by done. by apply IH.
Qed.

Lemma broadcast_sends sock s m sends :
  client_ok sock s → about_symbol (SimConfig.symbol (config s)) m → takes_all sends sock →
  sends_to sock s (broadcastMessage (frame m) sends s) [m].
Proof.
  intros [Hin Hnd Hsym Heng] Hm Hall. destruct (about_frame _ m Hm) as [_ Hlen]. split; [| |done..|].
  - unfold stream, broadcastMessage. cbn. rewrite filter_app, fmap_app, concat_app.
    rewrite broadcast_log by done. cbn. by rewrite app_nil_r.
  - by apply Forall_singleton.
  - split; cbn; [|by apply NoDup_filter|done|done].
    apply list_elem_of_filter. split; [|done]. rewrite list_elem_of_filter. destruct Hall as (k & Hk & _).
    rewrite Hk. by intros [? _].
Qed.

Lemma createQuote_about d s q :
  draw_ok d → bytes_ok (SimConfig.symbol (config s)) → createQuote d s = Some q →
  QuoteMessage_ok q ∧ Quote.symbol q = symbol_field (SimConfig.symbol (config s)) ∧
  Quote.bidQuantity q = d_bidQty d ∧ Quote.askQuantity q = d_askQty d.
Proof.
  intros (H1 & H2 & H3 & _) Hs. unfold createQuote.
  destruct (to_cents (currentBid s)) as [bid|]; cbn [mbind option_bind]; [|done].
  destruct (to_cents (currentAsk s)) as [ask|] eqn:Ha; cbn [mbind option_bind]; [|done]. intros [= <-].
  split; [|done]. split_and!; cbn; try done; try lia; [by apply symbol_field_ok..| | | |]; try apply u32_range;
    apply d_to_i32_range in Ha; lia.
Qed.

Lemma createTrade_about d s t :
  draw_ok d → bytes_ok (SimConfig.symbol (config s)) → createTrade d s = Some t →
  TradeMessage_ok t ∧ Trade.symbol t = symbol_field (SimConfig.symbol (config s)) ∧ Trade.quantity t = d_tradeQty d.
Proof.
  intros (H1 & _ & _ & H4) Hs. unfold createTrade.
  destruct (d_to_i32 _) as [price|] eqn:Hp; cbn [mbind option_bind]; [|done]. intros [= <-].
  apply d_to_i32_range in Hp. split; [|done]. split_and!; cbn; try lia; by apply symbol_field_ok.
Qed.

(** The regular message of a turn. *)
Definition drawn_message (d : Draw) (m : MessageHeader * list Z) : Prop :=
  (∃ q, m = quote_message q ∧ Quote.bidQuantity q = d_bidQty d ∧ Quote.askQuantity q = d_askQty d) ∨
  (∃ t, m = trade_message t ∧ Trade.quantity t = d_tradeQty d).

Lemma sendMessage_sends sock t s s' :
  client_ok sock s → tick_ok sock t → sendMessage t s = Some s' →
  ∃ m, sends_to sock s s' [m] ∧ drawn_message (t_draw t) m.
Proof.
  intros Hc (Hd & _ & Hall & _). unfold sendMessage. destruct (sequenceNumber s mod 3 =? 0).
  - destruct (createTrade (t_draw t) s) as [trade|] eqn:Ht; cbn [mbind option_bind]; [|done]. intros [= <-].
    destruct (createTrade_about _ _ _ Hd (co_symbol _ _ Hc) Ht) as (Hok & Hsym & Hq).
    exists (trade_message trade). rewrite serializeTrade_frame by done. split.
    + apply broadcast_sends; [done|right; by exists trade|done].
    + right. by exists trade.
  - destruct (createQuote (t_draw t) s) as [quote|] eqn:Ht; cbn [mbind option_bind]; [|done]. intros [= <-].
    destruct (createQuote_about _ _ _ Hd (co_symbol _ _ Hc) Ht) as (Hok & Hsym & Hb & Ha).
    exists (quote_message quote). rewrite serializeQuote_frame by done. split.
    + apply broadcast_sends; [done|left; by exists quote|done].
    + left. by exists quote.
Qed.

(** A change of prices, or of the replay engine, sends nothing. *)
Lemma client_ok_prices sock s s' :
  client_ok sock s → clientSockets s' = clientSockets s → config s' = config s →
  (∀ e, csvReplayEngine s' = Some e → engine_ok e) → client_ok sock s'.
Proof. intros [H1 H2 H3 _] Hc Hf He. split; rewrite ?Hc, ?Hf; done. Qed.

Lemma getNextMessage_engine now e r e' :
  engine_ok e → getNextMessage now e = Some (r, e') → engine_ok e' ∧ ∀ record, r = Some record → data_ok record.
Proof.
  intros He. unfold getNextMessage. destruct (reader e) as [rd|] eqn:Hr; [|by intros [= <- <-]].
  destruct (isPaused e); [by intros [= <- <-]|].
  destruct (records rd !! currentPosition e) as [record|] eqn:Hrec; [|by intros [= <- <-]].
  destruct (shouldEmitNow _ _ _ _) as [[]|]; cbn [mbind option_bind]; [|by intros [= <- <-]|done].
  intros [= <- <-]. split; [done|]. intros ? [= <-]. eapply Forall_lookup_1; [by apply He|done].
Qed.

(** The message that replays a record. *)
Definition replay_message (record : MarketDataRecord) (m : MessageHeader * list Z) : Prop :=
  match Csv.data record with
  | Csv.QuoteData bp bq ap aq =>
      ∃ q, m = quote_message q ∧ Quote.bidQuantity q = bq ∧ Quote.askQuantity q = aq ∧
        (u32 <$> to_cents bp) = Some (Quote.bidPrice q) ∧ to_cents ap = Some (Quote.askPrice q)
  | Csv.TradeData p qty =>
      ∃ t, m = trade_message t ∧ Trade.quantity t = qty ∧ to_cents p = Some (Trade.price t)
  end.

(** What a turn replays: the record that is due, in [CSV_REPLAY] with an
    engine. *)
Definition due_record (t : Tick) (s : Simulator) : option MarketDataRecord :=
  match SimConfig.scenario (config s), csvReplayEngine s with
  | CSV_REPLAY, Some e => '(r, _) ← getNextMessage (t_replay t) e; r
  | _, _ => None
  end.

Lemma replay_sends sock t s s' :
  client_ok sock s → tick_ok sock t → SimConfig.scenario (config s) = CSV_REPLAY → replayFromCSV t s = Some s' →
  ∃ ms, sends_to sock s s' ms ∧ Forall2 replay_message (option_list (due_record t s)) ms.
Proof.
  intros Hc (_ & Hd & _ & Hall) Hscen. unfold replayFromCSV, due_record. rewrite Hscen.
  destruct (csvReplayEngine s) as [e|] eqn:Heng.
  2: { intros [= <-]. exists []. split; [|constructor]. apply sends_none; try done.
       eapply client_ok_prices; [done..|]. cbn. by rewrite Heng. }
  assert (He := co_engine _ _ Hc e Heng).
  destruct (getNextMessage (t_replay t) e) as [[r e']|] eqn:Hnext; cbn [mbind option_bind]; [|done].
  destruct (getNextMessage_engine _ _ _ _ He Hnext) as [He' Hr].
  destruct r as [record|].
  2: { destruct (Nat.leb (getTotalRecords e') (getPosition e')); intros [= <-]; exists []; (split; [|constructor]);
         (apply sends_none; try done); (eapply client_ok_prices; [done..|]); cbn; by intros ? [= <-]. }
  specialize (Hr record eq_refl). unfold data_ok in Hr.
  destruct (Csv.type record), (Csv.data record) as [bp bq ap aq|p q] eqn:Hdata; try done.
  - set (s1 := s <| csvReplayEngine := Some e' |> <| currentBid := bp |> <| currentAsk := ap |>).
    assert (Hc1 : client_ok sock s1) by (eapply client_ok_prices; [done..|]; cbn; by intros ? [= <-]).
    destruct (createQuote (t_draw' t) s1) as [quote|] eqn:Hq; cbn [mbind option_bind]; [|done]. intros [= <-].
    destruct (createQuote_about _ _ _ Hd (co_symbol _ _ Hc1) Hq) as (Hok & Hsym & _).
    set (quote' := Quote.mk _ _ bq _ aq _).
    assert (Hok' : QuoteMessage_ok quote') by (destruct Hok as (? & ? & ? & ? & ? & ?), Hr; unfold quote', QuoteMessage_ok; cbn; split_and!; first [done|lia]).
    exists [quote_message quote']. rewrite (serializeQuote_frame quote') by done. split.
    + apply (sends_trans sock s s1 _ [] [_]); [by apply sends_none|].
      apply broadcast_sends; [done|left; by exists quote'|done].
    + apply Forall2_cons_2; [|constructor]. unfold replay_message. rewrite Hdata. exists quote'. split_and!; try done; revert Hq; unfold createQuote; cbn;
        destruct (to_cents bp) as [b|], (to_cents ap) as [a|]; cbn; try done; by intros [= <-].
  - set (s1 := s <| csvReplayEngine := Some e' |>).
    assert (Hc1 : client_ok sock s1) by (eapply client_ok_prices; [done..|]; cbn; by intros ? [= <-]).
    destruct (createTrade (t_draw' t) s1) as [trade|] eqn:Ht; cbn [mbind option_bind]; [|done].
    destruct (to_cents p) as [price|] eqn:Hp; cbn [mbind option_bind]; [|done]. intros [= <-].
    destruct (createTrade_about _ _ _ Hd (co_symbol _ _ Hc1) Ht) as (Hok & Hsym & _).
    set (trade' := Trade.mk _ _ q price).
    assert (Hok' : TradeMessage_ok trade').
    { destruct Hok as (? & ? & ? & ?). apply d_to_i32_range in Hp. unfold trade', TradeMessage_ok. cbn. split_and!; first [done|lia]. }
    exists [trade_message trade']. rewrite (serializeTrade_frame trade') by done. split.
    + apply (sends_trans sock s s1 _ [] [_]); [by apply sends_none|].
      apply broadcast_sends; [done|right; by exists trade'|done].
    + apply Forall2_cons_2; [|constructor]. unfold replay_message. rewrite Hdata. by exists trade'.
Qed.

Lemma emit_sends sock t s s' :
  client_ok sock s → tick_ok sock t → emit t s = Some s' →
  ∃ ms m, sends_to sock s s' (ms ++ [m]) ∧ Forall2 replay_message (option_list (due_record t s)) ms ∧
    drawn_message (t_draw t) m.
Proof.
  intros Hc Ht. unfold emit.
  destruct (generatePrices t s) as [s1|] eqn:Hgen; cbn [mbind option_bind]; [|done].
  assert (Hms : ∃ ms, sends_to sock s s1 ms ∧ Forall2 replay_message (option_list (due_record t s)) ms).
  { unfold generatePrices in Hgen. destruct (SimConfig.scenario (config s)) eqn:Hscen.
    5: by eapply replay_sends.
    all: injection Hgen as <-; exists []; unfold due_record; rewrite Hscen; (split; [|constructor]);
      (apply sends_none; try done); (eapply client_ok_prices; [done..|]; apply Hc). }
  destruct Hms as (ms & H1 & Hrep).
  destruct (sendMessage t s1) as [s2|] eqn:Hsend; cbn [mbind option_bind]; [|done]. intros [= <-].
  destruct (sendMessage_sends sock t s1 s2 (st_client _ _ _ _ H1) Ht Hsend) as (m & H2 & Hm).
  exists ms, m. split; [|done]. assert (H3 := sends_trans _ _ _ _ _ _ H1 H2).
  destruct H3 as [K1 K2 K3 K4 K5 [L1 L2 L3 L4]]. by split.
Qed.

(** A turn leaves the flag and the configuration alone, and counts one. *)
Lemma generatePrices_frame t s s' :
  generatePrices t s = Some s' → running s' = running s ∧ config s' = config s ∧ sequenceNumber s' = sequenceNumber s.
Proof.
  unfold generatePrices. destruct (SimConfig.scenario (config s)); try by intros [= <-].
  unfold replayFromCSV. destruct (csvReplayEngine s) as [e|]; [|by intros [= <-]].
  destruct (getNextMessage _ _) as [[[record|] e']|]; cbn [mbind option_bind]; [| |done].
  - destruct (Csv.type record), (Csv.data record); try done.
    + destruct (createQuote _ _); cbn [mbind option_bind]; [|done]. by intros [= <-].
    + destruct (createTrade _ _); cbn [mbind option_bind]; [|done].
      destruct (to_cents _); cbn [mbind option_bind]; [|done]. by intros [= <-].
  - destruct (Nat.leb _ _); by intros [= <-].
Qed.

Lemma sendMessage_frame t s s' :
  sendMessage t s = Some s' → running s' = running s ∧ config s' = config s ∧ sequenceNumber s' = sequenceNumber s.
Proof.
  unfold sendMessage. destruct (_ =? 0).
  - destruct (createTrade _ _); cbn [mbind option_bind]; [|done]. by intros [= <-].
  - destruct (createQuote _ _); cbn [mbind option_bind]; [|done]. by intros [= <-].
Qed.

Lemma emit_counts t s s' :
  emit t s = Some s' →
  running s' = running s ∧ config s' = config s ∧ sequenceNumber s' = u64 (sequenceNumber s + 1).
Proof.
  unfold emit. destruct (generatePrices t s) as [s1|] eqn:Hgen; cbn [mbind option_bind]; [|done].
  destruct (sendMessage t s1) as [s2|] eqn:Hsend; cbn [mbind option_bind]; [|done]. intros [= <-].
  apply generatePrices_frame in Hgen as (<- & <- & <-). apply sendMessage_frame in Hsend as (<- & <- & <-). done.
Qed.

Lemma emit_frame t s s' : emit t s = Some s' → running s' = running s ∧ config s' = config s.
Proof. intros (H1 & H2 & _)%emit_counts. done. Qed.

Lemma generate_sends sock ticks start last s s' :
  client_ok sock s → Forall (tick_ok sock) ticks → generateMarketData ticks start last s = Some s' →
  ∃ ms, stream s' sock = stream s sock ++ concat (frame <$> ms) ∧
    Forall (about_symbol (SimConfig.symbol (config s))) ms ∧ running s' = running s.
Proof.
  intros Hc Ht. revert last s Hc. induction Ht as [|t ticks Ht _ IH]; intros last s Hc; cbn [generateMarketData].
  { intros [= <-]. exists []. split; [by rewrite app_nil_r|]. by split. }
  destruct (shouldStop s). { intros [= <-]. exists []. split; [by rewrite app_nil_r|]. by split. }
  branch as H1. { intros [= <-]. exists []. split; [by rewrite app_nil_r|]. by split. }
  branch as H2; [|by apply IH].
  destruct (emit t s) as [s1|] eqn:He; cbn [mbind option_bind]; [|done]. intros Hrun.
  destruct (emit_sends sock t s s1 Hc Ht He) as (ms & m & [K1 K2 K3 K4 _ K6] & _).
  destruct (IH _ _ K6 Hrun) as (ms' & L1 & L2 & L3). exists ((ms ++ [m]) ++ ms').
  rewrite L1, K1, (fmap_app _ (ms ++ [m])), concat_app, app_assoc. rewrite K3 in L2.
  split; [done|]. split; [by apply Forall_app|congruence].
Qed.

(** The turns up to the first price that does not fit [int32_t]. *)
Lemma generate_prefix ticks startTime last s :
  ∃ k s', (k ≤ length ticks)%nat ∧ generateMarketData (take k ticks) startTime last s = Some s' ∧
    (k = length ticks ∨ generateMarketData (take (S k) ticks) startTime last s = None).
Proof.
  revert last s. induction ticks as [|t ticks IH]; intros last s; [exists 0%nat, s; cbn; auto|].
  destruct (generateMarketData (t :: ticks) startTime last s) as [s'|] eqn:Hrun.
  { exists (length (t :: ticks)), s'. rewrite firstn_all. auto. }
  cbn [generateMarketData] in Hrun. destruct (shouldStop s) eqn:Hstop; [done|].
  destruct (_ && _) eqn:Hover in Hrun; [done|]. destruct (_ <=? _) eqn:Hdue in Hrun.
  - destruct (emit t s) as [s1|] eqn:He.
    + destruct (IH (t_now t) s1) as (k & s' & Hk & Hrun' & Hend). exists (S k), s'.
      cbn [take generateMarketData length]. rewrite Hstop, Hover, Hdue, He. cbn [mbind option_bind].
      split; [lia|]. split; [done|]. destruct Hend as [->|Hend]; [by left|by right].
    + exists 0%nat, s. split; [lia|]. split; [done|]. right. cbn [take generateMarketData].
      by rewrite Hstop, Hover, Hdue, He.
  - destruct (IH last s) as (k & s' & Hk & Hrun' & Hend). exists (S k), s'.
    cbn [take generateMarketData length]. rewrite Hstop, Hover, Hdue.
    split; [lia|]. split; [done|]. destruct Hend as [->|Hend]; [by left|by right].
Qed.


(** a replay is diluted.  In a turn that replays a recorded quote or
    trade the client is sent two messages: the recorded one, and after it
    one with quantities drawn at random, which is in no recording. *)
Theorem replay_diluted (sock : Z) (t : Tick) (s s' : Simulator) (record : MarketDataRecord) :
  client_ok sock s → tick_ok sock t → due_record t s = Some record → emit t s = Some s' →
  ∃ m1 m2, stream s' sock = stream s sock ++ frame m1 ++ frame m2 ∧
    replay_message record m1 ∧ drawn_message (t_draw t) m2.
Proof.
  intros Hc Ht Hdue He. destruct (emit_sends sock t s s' Hc Ht He) as (ms & m & Hs & Hrep & Hm).
  rewrite Hdue in Hrep. cbn [option_list] in Hrep. apply Forall2_cons_inv_l in Hrep as (m1 & ? & H1 & Hnil & ->).
  apply Forall2_nil_inv_l in Hnil as ->. exists m1, m. rewrite (st_stream _ _ _ _ Hs). cbn. by rewrite app_nil_r.
Qed.

(** the requested duration does not end the program.  Once it is over the
    data thread stops for good, whatever its further turns, but [running]
    stays set, and with it the loop of [main] goes on waiting until a signal
    arrives; the accepting thread changes nothing of that. *)
Theorem duration_never_ends (ticks ticks' : list Tick) (t : Tick) (startTime last last' : Z) (s s' : Simulator)
    (accepted : option Z) (gone : Z → bool) :
  running s = true → 0 < SimConfig.duration (config s) →
  SimConfig.duration (config s) ≤ Z.quot (t_now t - startTime) 1000000000 →
  generateMarketData (ticks ++ [t]) startTime last s = Some s' →
  shouldStop s' = true ∧ generateMarketData ticks' startTime last' s' = Some s' ∧
  main_waits false (acceptClients accepted gone s') = true.
Proof.
  intros Hrun Hdur Hend Hgen.
  assert (shouldStop s' = true ∧ running s' = true) as [Hstop Hrun'].
  { revert last s Hrun Hdur Hend Hgen. induction ticks as [|u ticks IH]; intros last s Hrun Hdur Hend; cbn [app generateMarketData].
    - destruct (shouldStop s) eqn:Hs; [by intros [= <-]|].
      rewrite (proj2 (Z.ltb_lt _ _) Hdur), (proj2 (Z.leb_le _ _) Hend). by intros [= <-].
    - destruct (shouldStop s) eqn:Hs; [by intros [= <-]|]. branch; [by intros [= <-]|].
      branch; [|by apply IH]. destruct (emit u s) as [s1|] eqn:He; cbn [mbind option_bind]; [|done].
      destruct (emit_frame _ _ _ He) as (H1 & H2). apply IH; by rewrite ?H1, ?H2. }
  split; [done|]. split; [destruct ticks'; cbn; by rewrite ?Hstop|].
  unfold main_waits, acceptClients. by destruct accepted; cbn.
Qed.

(** A start that fails after [socket] closes the descriptor and keeps its
    number; the destructor's [stop] closes that number again. *)
Lemma failed_start_closes_twice (env : SetupEnv) (s : Simulator) :
  running s = false → clientSockets s = [] → 0 ≤ socket_result env →
  setsockopt_ok env && bind_ok env && listen_ok env = false →
  let '(ok, s1) := Simulator_start env s in
  ok = false ∧ closed (Simulator_stop id s1) = closed s ++ [socket_result env; socket_result env].
Proof.
  intros Hrun Hcl Hsock Hfail. unfold Simulator_start, setupSocket. rewrite Hrun. cbn [serverSocket set].
  rewrite (proj2 (Z.ltb_ge _ _) Hsock).
  replace (negb (setsockopt_ok env) || negb (bind_ok env) || negb (listen_ok env)) with true
    by (revert Hfail; by destruct (setsockopt_ok env), (bind_ok env), (listen_ok env)).
  cbn [negb]. split; [done|]. unfold Simulator_stop, cleanup. cbn. rewrite (proj2 (Z.leb_le _ _) Hsock).
  cbn. by rewrite Hcl, app_nil_r, <- app_assoc.
Qed.

(** The shutdown closes the sockets that are left, each once, although the
    simulator is stopped twice. *)
Lemma shutdown_closes_once (args : list (list Z)) (files : list Z → option (list Z)) (now : Z) (env : SetupEnv)
    (life : Simulator → Simulator) (s : Simulator) :
  (∀ s0, 0 ≤ serverSocket (life s0)) → main args files now env life = Code 0 (Some s) →
  ∃ s1, closed s = closed (life s1) ++ clientSockets (life s1) ++ [serverSocket (life s1)] ∧
    clientSockets s = [] ∧ serverSocket s = -1 ∧ running s = false.
Proof.
  intros Hlife. unfold main. destruct (parseCommandLine _ _) as [config| |]; [|done|done].
  destruct (Simulator_start _ _) as [[] s0]; cbn [negb]; [|done]. intros [= <-].
  exists (s0 <| shouldStop := true |>). unfold Simulator_stop, cleanup. cbn -[Z.leb].
  assert (H := Hlife (s0 <| shouldStop := true |>)). cbn -[Z.leb] in H.
  rewrite (proj2 (Z.leb_le _ _) H). cbn. by rewrite app_nil_r, app_assoc.
Qed.

(** ** Witnesses and examples *)

Module SimExamples.
Definition whole (_ : Z) : option nat := Some 34%nat.
Definition draw : Draw := mkDraw 1000 150 200 300.
Definition at_time (n : Z) : Tick :=
  mkTick n (d_of_Z 1) (d_of_Z 1) (mkInstants n n n) n draw draw whole whole.

Definition steady : Simulator :=
  acceptClients (Some 7) (λ _, false) (Simulator_init SimConfig.default None 0) <| running := true |>.

Lemma steady_client : client_ok 7 steady.
Proof. split; [by left|by apply (bool_decide_unpack _)|by apply (bool_decide_unpack _)|done]. Qed.

Lemma tick_whole sock n : tick_ok sock (at_time n).
Proof. split_and!; try (split_and!; done); by exists 34%nat. Qed.


(** [--price 30000000]: the first price is undefined behaviour.  So is, in the
    end, that of any rising market: without noise a price of 21 million dollars
    leaves [int32_t] within 40 turns, and the default one of 140, which grows by
    the same thousandth per turn, within 12000. *)
Definition rising (n : nat) (price : double) : Simulator :=
  Nat.iter n (generateTrendingPrices true dzero dzero)
    (Simulator_init (SimConfig.default <| SimConfig.basePrice := price |>) None 0).
Example huge_price_undefined : emit (at_time 0) (rising 0 (d_of_Z 30000000)) = None.
Proof. vm_compute. reflexivity. Qed.
Example rising_price_undefined :
  match createTrade draw (rising 0 (d_of_Z 21000000)), createTrade draw (rising 40 (d_of_Z 21000000)) with
  | Some _, None => True | _, _ => False end.
Proof. vm_compute. exact I. Qed.

(** One recorded trade of 50 at 140.00, replayed. *)
Definition recording : list Z := bytes "Timestamp,Type,Symbol
1000,T,IBM,140.00,50
".
Definition csv_config : SimulatorConfig :=
  SimConfig.default <| SimConfig.scenario := CSV_REPLAY |> <| SimConfig.csvPath := bytes "day.csv" |>.
Definition replaying : Simulator :=
  acceptClients (Some 7) (λ _, false) (Simulator_init csv_config (Some recording) 0) <| running := true |>.
Definition recorded : MarketDataRecord :=
  Csv.mk Csv.TRADE 1000 (bytes "IBM") (Csv.TradeData (d_ratio false 14000 100) 50).

Lemma replaying_client : client_ok 7 replaying.
Proof.
  split; [by left|by apply (bool_decide_unpack _)|by apply (bool_decide_unpack _)|].
  intros e He r Hr. vm_compute in He. injection He as <-. vm_compute in Hr. injection Hr as <-.
  repeat constructor; vm_compute; done.
Qed.

Lemma replay_diluted_witness :
  match emit (at_time 100000000) replaying with
  | Some s' => ∃ m1 m2, stream s' 7 = frame m1 ++ frame m2 ∧ replay_message recorded m1
  | None => False
  end.
Proof.
  destruct (emit (at_time 100000000) replaying) as [s'|] eqn:Hrun; [|vm_compute in Hrun; discriminate Hrun].
  destruct (replay_diluted 7 (at_time 100000000) replaying s' recorded) as (m1 & m2 & H & Hr & _).
  - exact replaying_client.
  - apply tick_whole.
  - vm_compute. reflexivity.
  - exact Hrun.
  - exists m1, m2. split; [exact H|exact Hr].
Defined.

(** Sixty seconds are over. *)
Definition one_minute : option Simulator := generateMarketData [at_time 60000000000] 0 0 steady.

Lemma duration_never_ends_witness :
  match one_minute with
  | Some s' => shouldStop s' = true ∧ main_waits false (acceptClients None (λ _, false) s') = true
  | None => False
  end.
Proof.
  destruct one_minute as [s'|] eqn:Hrun; [|vm_compute in Hrun; discriminate Hrun].
  assert (H1 : running steady = true) by reflexivity.
  assert (H2 : 0 < SimConfig.duration (config steady)) by reflexivity.
  assert (H3 : SimConfig.duration (config steady) ≤ Z.quot (t_now (at_time 60000000000) - 0) 1000000000)
    by (vm_compute; discriminate).
  destruct (duration_never_ends [] [] (at_time 60000000000) 0 0 0 steady s' None (λ _, false) H1 H2 H3 Hrun)
    as (K1 & _ & K2).
  split; [exact K1|exact K2].
Defined.

(** Options, an option without its value, and a value that is no number. *)
Example command_lines :
  parseCommandLine [bytes "-p"; bytes "70000"; bytes "--csv"; bytes "f"; bytes "--rate"] SimConfig.default =
    Parsed (SimConfig.default <| SimConfig.port := 4464 |> <| SimConfig.csvPath := bytes "f" |>
              <| SimConfig.scenario := CSV_REPLAY |>) ∧
  parseCommandLine [bytes "--price"; bytes "cheap"] SimConfig.default = Throws ∧
  parseCommandLine [bytes "-v"; bytes "-h"] SimConfig.default = Exits.
Proof. vm_compute. done. Qed.
End SimExamples.
