(* ===== verification/SimulatorThreads.v ===== *)
(** * The simulator's threads ([src/simulator.cpp])

    [runServer] starts two threads, [acceptClients] and [generateMarketData],
    and the main thread stops them.  They share the list of client sockets,
    under [clientSocketsMutex], and the atomic [shouldStop].  The file
    [Simulator] takes a turn of a thread as one step; here a step is one
    access to shared memory, one operation on the mutex or one system call.
    The theorems are about descriptors and the mutex in every interleaving,
    and about the end of both threads after [stop].  The last section relates
    the two models: a turn of [Simulator] is one of the interleavings. *)
From stdpp Require Import gmap.
From S2P Require Import Prelude Binary64 Message MessageSerializer CsvReader Simulator.

(** ** The private part of a turn *)

(** [replayFromCSV] up to its [broadcastMessage]: the new state and the bytes
    to send. *)
Definition replay_part (t : Tick) (s : Simulator) : option (Simulator * option (list Z)) :=
  match csvReplayEngine s with
  | None => Some (generateSteadyPrices (t_x t) (t_y t) s, None)
  | Some engine =>
      '(emitted, engine) ← getNextMessage (t_replay t) engine;
      let s := s <| csvReplayEngine := Some engine |> in
      match emitted with
      | Some record =>
          match Csv.type record, Csv.data record with
          | Csv.QUOTE, Csv.QuoteData bp bq ap aq =>
              let s := s <| currentBid := bp |> <| currentAsk := ap |> in
              quote ← createQuote (t_draw' t) s;
              let quote := Quote.mk (Quote.symbol quote) (Quote.timestamp quote) bq (Quote.bidPrice quote) aq
                             (Quote.askPrice quote) in
              Some (s, Some (serializeQuote quote))
          | Csv.TRADE, Csv.TradeData p q =>
              trade ← createTrade (t_draw' t) s;
              price ← to_cents p;
              let trade := Trade.mk (Trade.symbol trade) (Trade.timestamp trade) q price in
              Some (s, Some (serializeTrade trade))
          | _, _ => None
          end
      | None =>
          if (getTotalRecords engine <=? getPosition engine)%nat
          then Some (s <| csvReplayEngine := Some (start (t_restart t) engine) |>, None) else Some (s, None)
      end
  end.

(** The [switch] over the scenarios. *)
Definition prices_part (t : Tick) (s : Simulator) : option (Simulator * option (list Z)) :=
  match SimConfig.scenario (config s) with
  | STEADY => Some (generateSteadyPrices (t_x t) (t_y t) s, None)
  | TRENDING_UP => Some (generateTrendingPrices true (t_x t) (t_y t) s, None)
  | TRENDING_DOWN => Some (generateTrendingPrices false (t_x t) (t_y t) s, None)
  | VOLATILE => Some (generateVolatilePrices (t_x t) (t_y t) s, None)
  | CSV_REPLAY => replay_part t s
  end.

(** The message that follows the [switch]. *)
Definition message_part (t : Tick) (s : Simulator) : option (list Z) :=
  if sequenceNumber s mod 3 =? 0
  then trade ← createTrade (t_draw t) s; Some (serializeTrade trade)
  else quote ← createQuote (t_draw t) s; Some (serializeQuote quote).

(** ** States *)

Inductive thread := Accepting | Generating.
#[global] Instance thread_eq_dec : EqDecision thread.
Proof. solve_decision. Defined.

(** Where [acceptClients] is. *)
Inductive accept_pc :=
| ATest                                  (** before the loop's condition *)
| AAccept                                (** before [accept] *)
| ALock (sock : Z)                       (** a connection, before the first lock *)
| APush (sock : Z)                       (** holding it *)
| ALock'                                 (** before the second lock *)
| AScan (kept todo : list Z)             (** in [remove_if], holding it *)
| ASleep
| ADone.

(** Which of the two messages of a turn is sent. *)
Inductive phase := Replayed | Regular.

(** Where [generateMarketData] and its callees are, [t] being the turn. *)
Inductive data_pc :=
| DTest
| DClock
| DPrices (t : Tick)
| DMessage (t : Tick)
| DLock (t : Tick) (ph : phase) (data : list Z)                      (** in [broadcastMessage] *)
| DCopy (t : Tick) (ph : phase) (data : list Z)                      (** holding the lock *)
| DSends (t : Tick) (ph : phase) (data todo failed : list Z)
| DLock' (t : Tick) (ph : phase) (failed : list Z)
| DClose (t : Tick) (ph : phase) (failed : list Z)                   (** holding the lock *)
| DErase (t : Tick) (ph : phase) (sock : Z) (failed : list Z)        (** [sock] is closed *)
| DDone
| DUndefined.                            (** after a price outside [int32_t] *)

Record state := mkState {
  sim : Simulator;
  open : gset Z;                         (** the descriptors of the process *)
  owner : option thread;                 (** of [clientSocketsMutex] *)
  lastMessageTime : Z;                   (** a local variable of the data thread *)
  acc : accept_pc; dat : data_pc }.
#[global] Instance eta_state : Settable state := fun s =>
  mkState (sim s) (open s) (owner s) (lastMessageTime s) (acc s) (dat s).

(** What a step does to a descriptor. *)
Inductive event := Accepts (sock : Z) | Peeks (sock : Z) | Sends (sock : Z) | Closes (sock : Z) | Quiet.

(** The descriptor a step needs to be open. *)
Definition uses (e : event) : option Z :=
  match e with Peeks sock | Sends sock | Closes sock => Some sock | _ => None end.

(** ** Steps *)

Definition answer_of (t : Tick) (ph : phase) : Z → option nat :=
  match ph with Replayed => t_sends' t | Regular => t_sends t end.

(** After a broadcast: the regular message, or the end of the turn. *)
Definition broadcast_done (t : Tick) (ph : phase) (s : state) : state :=
  match ph with
  | Replayed => s <| dat := DMessage t |>
  | Regular => s <| sim ::= λ m, m <| sequenceNumber ::= λ n, u64 (n + 1) |> |>
                 <| lastMessageTime := t_now t |> <| dat := DTest |>
  end.

Section steps.
(** The start of the data thread; and the sockets on which [send] returns:
    the accepted sockets are blocking ones. *)
Context (startTime : Z) (returns : Z → Prop).

(** [acceptClients]. *)
Inductive accept_step (s : state) : event → state → Prop :=
| acc_stop : acc s = ATest → shouldStop (sim s) = true → accept_step s Quiet (s <| acc := ADone |>)
| acc_go : acc s = ATest → shouldStop (sim s) = false → accept_step s Quiet (s <| acc := AAccept |>)
| acc_client sock :                      (* the kernel gives out a free number *)
    acc s = AAccept → 0 ≤ sock → sock ∉ open s →
    accept_step s (Accepts sock) (s <| open ::= λ o, {[sock]} ∪ o |> <| acc := ALock sock |>)
| acc_none : acc s = AAccept → accept_step s Quiet (s <| acc := ALock' |>)
| acc_lock sock :
    acc s = ALock sock → owner s = None →
    accept_step s Quiet (s <| owner := Some Accepting |> <| acc := APush sock |>)
| acc_push sock :
    acc s = APush sock →
    accept_step s Quiet (s <| sim ::= λ m, m <| clientSockets ::= λ l, l ++ [sock] |> |>
                           <| owner := None |> <| acc := ALock' |>)
| acc_lock' :
    acc s = ALock' → owner s = None →
    accept_step s Quiet (s <| owner := Some Accepting |> <| acc := AScan [] (clientSockets (sim s)) |>)
| acc_peek (gone : bool) sock kept todo :
    acc s = AScan kept (sock :: todo) →
    accept_step s (Peeks sock) (s <| acc := AScan (if gone then kept else kept ++ [sock]) todo |>)
| acc_erase kept :
    acc s = AScan kept [] →
    accept_step s Quiet (s <| sim ::= λ m, m <| clientSockets := kept |> |> <| owner := None |> <| acc := ASleep |>)
| acc_wake : acc s = ASleep → accept_step s Quiet (s <| acc := ATest |>).

(** [generateMarketData] and [broadcastMessage]. *)
Inductive data_step (s : state) : event → state → Prop :=
| dat_stop : dat s = DTest → shouldStop (sim s) = true → data_step s Quiet (s <| dat := DDone |>)
| dat_go : dat s = DTest → shouldStop (sim s) = false → data_step s Quiet (s <| dat := DClock |>)
| dat_over t :
    dat s = DClock →
    0 < SimConfig.duration (config (sim s)) →
    SimConfig.duration (config (sim s)) ≤ Z.quot (t_now t - startTime) 1000000000 →
    data_step s Quiet (s <| sim ::= λ m, m <| shouldStop := true |> |> <| dat := DDone |>)
| dat_due t :
    dat s = DClock →
    (SimConfig.duration (config (sim s)) ≤ 0 ∨
     Z.quot (t_now t - startTime) 1000000000 < SimConfig.duration (config (sim s))) →
    messageInterval (sim s) ≤ Z.quot (t_now t - lastMessageTime s) 1000 →
    data_step s Quiet (s <| dat := DPrices t |>)
| dat_early t :
    dat s = DClock →
    (SimConfig.duration (config (sim s)) ≤ 0 ∨
     Z.quot (t_now t - startTime) 1000000000 < SimConfig.duration (config (sim s))) →
    Z.quot (t_now t - lastMessageTime s) 1000 < messageInterval (sim s) →
    data_step s Quiet (s <| dat := DTest |>)
| dat_prices t m :
    dat s = DPrices t → prices_part t (sim s) = Some (m, None) →
    data_step s Quiet (s <| sim := m |> <| dat := DMessage t |>)
| dat_replay t m data :
    dat s = DPrices t → prices_part t (sim s) = Some (m, Some data) →
    data_step s Quiet (s <| sim := m |> <| dat := DLock t Replayed data |>)
| dat_message t data :
    dat s = DMessage t → message_part t (sim s) = Some data →
    data_step s Quiet (s <| dat := DLock t Regular data |>)
| dat_undefined t :
    (dat s = DPrices t ∧ prices_part t (sim s) = None) ∨ (dat s = DMessage t ∧ message_part t (sim s) = None) →
    data_step s Quiet (s <| dat := DUndefined |>)
| dat_lock t ph data :
    dat s = DLock t ph data → owner s = None →
    data_step s Quiet (s <| owner := Some Generating |> <| dat := DCopy t ph data |>)
| dat_copy t ph data :
    dat s = DCopy t ph data →
    data_step s Quiet (s <| owner := None |> <| dat := DSends t ph data (clientSockets (sim s)) [] |>)
| dat_sent t ph data sock todo failed k :
    dat s = DSends t ph data (sock :: todo) failed → returns sock → answer_of t ph sock = Some k →
    data_step s (Sends sock) (s <| sim ::= λ m, m <| sent ::= λ l, l ++ [(sock, take k data)] |> |>
                                <| dat := DSends t ph data todo failed |>)
| dat_failed t ph data sock todo failed :
    dat s = DSends t ph data (sock :: todo) failed → returns sock → answer_of t ph sock = None →
    data_step s (Sends sock) (s <| dat := DSends t ph data todo (failed ++ [sock]) |>)
| dat_all t ph data :
    dat s = DSends t ph data [] [] → data_step s Quiet (broadcast_done t ph s)
| dat_some t ph data failed :
    dat s = DSends t ph data [] failed → failed ≠ [] → data_step s Quiet (s <| dat := DLock' t ph failed |>)
| dat_lock' t ph failed :
    dat s = DLock' t ph failed → owner s = None →
    data_step s Quiet (s <| owner := Some Generating |> <| dat := DClose t ph failed |>)
| dat_close t ph sock failed :
    dat s = DClose t ph (sock :: failed) →
    data_step s (Closes sock) (s <| sim ::= λ m, m <| closed ::= λ l, l ++ [sock] |> |>
                                 <| open ::= λ o, o ∖ {[sock]} |> <| dat := DErase t ph sock failed |>)
| dat_erase t ph sock failed :
    dat s = DErase t ph sock failed →
    data_step s Quiet (s <| sim ::= λ m, m <| clientSockets ::= filter (λ x, x ≠ sock) |> |>
                         <| dat := DClose t ph failed |>)
| dat_closed t ph :
    dat s = DClose t ph [] → data_step s Quiet (broadcast_done t ph (s <| owner := None |>)).

(** A step of either thread, or the store of [stop]. *)
Inductive step (s : state) : event → state → Prop :=
| step_accept e s' : accept_step s e s' → step s e s'
| step_data e s' : data_step s e s' → step s e s'
| step_stop : shouldStop (sim s) = false → step s Quiet (s <| sim ::= λ m, m <| shouldStop := true |> |>).

Definition stepped (s s' : state) : Prop := ∃ e, step s e s'.
Definition runs : state → state → Prop := rtc stepped.
End steps.

(** The state in which [runServer] starts the threads. *)
Definition initial (m : Simulator) (o : gset Z) (startTime : Z) : state := mkState m o None startTime ATest DTest.

(** ** What the threads hold *)

(** The descriptor the accepting thread has not listed yet. *)
Definition pending (a : accept_pc) : list Z := match a with ALock sock | APush sock => [sock] | _ => [] end.

(** The descriptors the data thread will still use. *)
Definition in_use (d : data_pc) : list Z :=
  match d with
  | DSends _ _ _ todo failed => failed ++ todo
  | DLock' _ _ failed | DClose _ _ failed | DErase _ _ _ failed => failed
  | _ => []
  end.

(** The list, without the socket that is closed but not yet erased. *)
Definition listed (d : data_pc) (socks : list Z) : list Z :=
  match d with DErase _ _ sock _ => filter (λ x, x ≠ sock) socks | _ => socks end.

Definition acc_holds (a : accept_pc) : bool := match a with APush _ | AScan _ _ => true | _ => false end.
Definition dat_holds (d : data_pc) : bool :=
  match d with DCopy _ _ _ | DClose _ _ _ | DErase _ _ _ _ => true | _ => false end.
Definition holder (a : accept_pc) (d : data_pc) : option thread :=
  if acc_holds a then Some Accepting else if dat_holds d then Some Generating else None.

(** The invariant, for the listening socket [server]. *)
Record inv (server : Z) (s : state) : Prop := {
  in_server : serverSocket (sim s) = server;
  in_socks : NoDup (clientSockets (sim s));
  in_used : NoDup (in_use (dat s));
  in_fresh : ∀ x, x ∈ pending (acc s) → x ∉ listed (dat s) (clientSockets (sim s)) ∧ x ∉ in_use (dat s);
  in_apart : server ∉ pending (acc s) ++ listed (dat s) (clientSockets (sim s)) ++ in_use (dat s);
  in_open : ∀ x, x ∈ server :: pending (acc s) ++ listed (dat s) (clientSockets (sim s)) ++ in_use (dat s) → x ∈ open s;
  in_closed : match dat s with DErase _ _ sock failed => sock ∉ failed | _ => True end;
  in_scan : match acc s with AScan kept todo => sublist (kept ++ todo) (clientSockets (sim s)) | _ => True end;
  in_owner : owner s = holder (acc s) (dat s);
  in_exclusive : acc_holds (acc s) && dat_holds (dat s) = false
}.

(** From [m] to [m'] only what the data thread keeps to itself changes. *)
Record private_change (m m' : Simulator) : Prop := {
  pc_config : config m' = config m; pc_running : running m' = running m; pc_stop : shouldStop m' = shouldStop m;
  pc_server : serverSocket m' = serverSocket m; pc_socks : clientSockets m' = clientSockets m;
  pc_sent : sent m' = sent m; pc_closed : closed m' = closed m }.

Lemma prices_private t m m' data : prices_part t m = Some (m', data) → private_change m m'.
Proof.
  unfold prices_part. destruct (SimConfig.scenario (config m)); try by intros [= <- _].
  unfold replay_part. destruct (csvReplayEngine m) as [e|]; [|by intros [= <- _]].
  destruct (getNextMessage _ _) as [[[record|] e']|]; cbn [mbind option_bind]; [| |done].
  - destruct (Csv.type record), (Csv.data record); try done.
    + destruct (createQuote _ _); cbn [mbind option_bind]; [|done]. by intros [= <- _].
    + destruct (createTrade _ _); cbn [mbind option_bind]; [|done].
      destruct (to_cents _); cbn [mbind option_bind]; [|done]. by intros [= <- _].
  - destruct (Nat.leb _ _); by intros [= <- _].
Qed.

Section invariant.
Context (startTime : Z) (returns : Z → Prop) (server : Z).
Abbreviation step := (step startTime returns).
Abbreviation runs := (runs startTime returns).

(** A step that takes up no descriptor keeps the invariant if it keeps the
    books on the mutex. *)
Lemma inv_smaller s s' :
  inv server s → serverSocket (sim s') = serverSocket (sim s) → open s' = open s →
  NoDup (clientSockets (sim s')) → NoDup (in_use (dat s')) →
  pending (acc s') ⊆ pending (acc s) →
  listed (dat s') (clientSockets (sim s')) ++ in_use (dat s') ⊆
    listed (dat s) (clientSockets (sim s)) ++ in_use (dat s) →
  match dat s' with DErase _ _ sock failed => sock ∉ failed | _ => True end →
  match acc s' with AScan kept todo => sublist (kept ++ todo) (clientSockets (sim s')) | _ => True end →
  owner s' = holder (acc s') (dat s') → acc_holds (acc s') && dat_holds (dat s') = false →
  inv server s'.
Proof.
  intros [H1 _ _ H4 H5 H6 _ _ _ _] K1 K2 K3 K4 Hp Hl K5 K6 K7 K8.
  assert (Hsub : ∀ x, x ∈ listed (dat s') (clientSockets (sim s')) ∨ x ∈ in_use (dat s') →
            x ∈ listed (dat s) (clientSockets (sim s)) ∨ x ∈ in_use (dat s)).
  { intros x. rewrite <- !elem_of_app. apply Hl. }
  constructor; try done; [congruence| | |].
  - intros x Hx. specialize (H4 x (Hp x Hx)) as [? ?]. split; intros Hin; destruct (Hsub x); auto.
  - rewrite !not_elem_of_app in *. destruct H5 as (? & ? & ?).
    split_and!; [by intros ?%Hp|intros Hin; destruct (Hsub server); auto..].
  - rewrite K2. intros x. specialize (H6 x). specialize (Hsub x). specialize (Hp x).
    rewrite elem_of_cons, !elem_of_app in *. tauto.
Qed.

Lemma listed_free d l : dat_holds d = false → listed d l = l.
Proof. by destruct d. Qed.

(** The cases in which a step shrinks or keeps what is held. *)
Ltac smaller :=
  eapply inv_smaller; [eassumption|..]; unfold holder; cbn;
  try match goal with H : acc_holds ?a = _ |- context [acc_holds ?a] => rewrite H end; try done.

Lemma accept_step_inv s e s' : inv server s → accept_step s e s' → inv server s'.
Proof.
  intros Hinv Hstep. assert (Hi := Hinv). destruct Hi as [H1 H2 H3 H4 H5 H6 H7 H8 H9 H10].
  destruct Hstep as [Hpc Hs|Hpc Hs|sock Hpc Hs Hf|Hpc|sock Hpc Hs|sock Hpc|Hpc Hs|gone sock kept todo Hpc|kept Hpc|Hpc];
    destruct s as [m o ow lm a d]; cbn in *; subst a; cbn in *; try (smaller; fail).
  - (* a free number is in no list *)
    constructor; cbn; try done.
    + intros x Hx%list_elem_of_singleton. subst x. split; intros Hin; apply Hf, H6; set_solver.
    + intros Hin. assert (server ∈ o) by (apply H6; by left). set_solver.
    + intros x. specialize (H6 x). set_solver.
  - subst ow. destruct (dat_holds d) eqn:Hd; [done|]. smaller.
  - rewrite (listed_free d) in * by done. constructor; cbn; rewrite ?(listed_free d) by done; try done.
    + apply NoDup_app. split; [done|]. split; [|by apply NoDup_singleton].
      intros x Hx ->%list_elem_of_singleton. destruct (H4 sock) as [Hn _]; [by left|]. by apply Hn.
    + intros x Hx. by apply elem_of_nil in Hx.
    + set_solver.
    + intros x Hx. apply H6. set_solver.
    + by rewrite H10.
  - subst ow. destruct (dat_holds d) eqn:Hd; [done|]. smaller.
  - smaller. destruct gone; [|by rewrite <- app_assoc]. etrans; [|exact H8]. by apply sublist_app, sublist_cons.
  - rewrite app_nil_r in H8. rewrite (listed_free d) in * by done. smaller.
    + exact (sublist_NoDup _ _ H2 H8).
    + rewrite !(listed_free d) by done. intros x. rewrite !elem_of_app. intros [Hx|Hx]; [left|by right].
      exact (elem_of_sublist _ _ _ Hx H8).
    + by rewrite H10.
Qed.

Lemma data_step_inv s e s' : inv server s → data_step startTime returns s e s' → inv server s'.
Proof.
  intros Hinv Hstep. assert (Hi := Hinv). destruct Hi as [H1 H2 H3 H4 H5 H6 H7 H8 H9 H10].
  destruct Hstep as [Hpc Hs|Hpc Hs|t Hpc Hd Ht|t Hpc Hd Ht|t Hpc Hd Ht|t m' Hpc Hp|t m' data Hpc Hp|t data Hpc Hp|
      t Hpc|t ph data Hpc Ho|t ph data Hpc|t ph data sock todo failed k Hpc Hr Hk|t ph data sock todo failed Hpc Hr Hk|
      t ph data Hpc|t ph data failed Hpc Hne|t ph failed Hpc Ho|t ph sock failed Hpc|t ph sock failed Hpc|t ph Hpc];
    destruct s as [m o ow lm a d]; cbn in *; first [subst d|destruct Hpc as [[-> Hpc]|[-> Hpc]]]; cbn in *; try (smaller; fail).
  1,2: destruct (prices_private _ _ _ _ Hp) as [_ _ _ P4 P5 _ _]; smaller; by rewrite ?P5.
  all: unfold holder in H9; cbn in H9; rewrite ?andb_true_r in H10.
  - destruct (acc_holds a) eqn:Ha; [congruence|]. smaller.
  - smaller. rewrite app_nil_r. intros x. rewrite elem_of_app. by intros [?|?].
  - assert (Hsub : sublist (failed ++ todo) (failed ++ sock :: todo)) by by apply sublist_app, sublist_cons.
    smaller; [exact (sublist_NoDup _ _ H3 Hsub)|]. intros x. rewrite !elem_of_app, elem_of_cons. tauto.
  - smaller; rewrite <- app_assoc; done.
  - destruct ph; smaller.
  - rewrite app_nil_r in *. smaller. by rewrite app_nil_r.
  - destruct (acc_holds a) eqn:Ha; [congruence|]. smaller.
  - (* no list has the number that becomes free *)
    apply NoDup_cons in H3 as [H3 H3']. constructor; cbn; try done.
    + intros x Hx. destruct (H4 x Hx) as [K1 K2]. rewrite list_elem_of_filter. set_solver.
    + rewrite !not_elem_of_app, list_elem_of_filter in *. set_solver.
    + intros x Hx. apply elem_of_difference. split.
      * apply H6. rewrite !elem_of_cons, !elem_of_app, list_elem_of_filter, ?elem_of_cons in *. tauto.
      * intros ->%elem_of_singleton. rewrite !elem_of_cons, !elem_of_app, list_elem_of_filter in Hx.
        destruct Hx as [->|[Hx|[[? _]|Hx]]]; [set_solver|destruct (H4 _ Hx); set_solver|done|done].
    + unfold holder. cbn. by rewrite H10.
  - rewrite H10 in H9. smaller; [by apply NoDup_filter|]. by destruct a.
  - destruct ph; smaller.
Qed.

Lemma thread_step_inv s e s' : inv server s → step s e s' → inv server s'.
Proof.
  intros Hinv [e' s2 Hs|e' s2 Hs|Hs]; [by eapply accept_step_inv|by eapply data_step_inv|].
  destruct Hinv as [H1 H2 H3 H4 H5 H6 H7 H8 H9 H10]. by constructor.
Qed.

Lemma runs_inv s s' : inv server s → runs s s' → inv server s'.
Proof. intros Hi. induction 1 as [|? ? ? [e He] _ IH]; [done|]. apply IH. by eapply thread_step_inv. Qed.

Lemma initial_inv m o :
  serverSocket m = server → NoDup (server :: clientSockets m) → (∀ x, x ∈ server :: clientSockets m → x ∈ o) →
  inv server (initial m o startTime).
Proof.
  intros Hs [Hn Hnd]%NoDup_cons Ho. unfold initial. constructor; cbn; rewrite ?app_nil_r; try done; [by constructor|].
  intros x Hx. by apply elem_of_nil in Hx.
Qed.
End invariant.

(** ** The end of the threads *)

(** Bounds on the steps left to each thread once [shouldStop] is set, when
    the list will not grow beyond [n]. *)
Definition accept_left (a : accept_pc) (n : nat) : nat :=
  match a with
  | ADone => 0
  | ATest => 1
  | ASleep => 2
  | AScan _ todo => 3 + length todo
  | ALock' => 4 + n
  | APush _ => 5 + n
  | ALock _ => 6 + n
  | AAccept => 7 + n
  end.

Definition broadcast_left (n : nat) : nat := 3 * n + 9.
Definition phase_left (ph : phase) (n : nat) : nat :=
  match ph with Replayed => broadcast_left n + 2 | Regular => 1 end.

Definition data_left (d : data_pc) (n : nat) : nat :=
  match d with
  | DDone | DUndefined => 0
  | DTest => 1
  | DClock => phase_left Replayed n + broadcast_left n + 2
  | DPrices _ => phase_left Replayed n + broadcast_left n + 1
  | DMessage _ => broadcast_left n + 2
  | DLock _ ph _ => phase_left ph n + 3 * n + 8
  | DCopy _ ph _ => phase_left ph n + 3 * n + 7
  | DSends _ ph _ todo failed => phase_left ph n + 3 * length todo + 2 * length failed + 6
  | DLock' _ ph failed => phase_left ph n + 2 * length failed + 5
  | DClose _ ph failed => phase_left ph n + 2 * length failed + 4
  | DErase _ ph _ failed => phase_left ph n + 2 * length failed + 5
  end.

(** The list with the connection that is about to join it. *)
Definition clients (s : state) : nat :=
  length (clientSockets (sim s)) + match acc s with AAccept | ALock _ | APush _ => 1 | _ => 0 end.

Definition steps_left (s : state) : nat := accept_left (acc s) (clients s) + data_left (dat s) (clients s).

Definition finished (s : state) : Prop := acc s = ADone ∧ (dat s = DDone ∨ dat s = DUndefined).

Section termination.
Context (startTime : Z) (returns : Z → Prop).

Lemma phase_left_mono ph n n' : (n ≤ n')%nat → (phase_left ph n ≤ phase_left ph n')%nat.
Proof. destruct ph; cbn; unfold broadcast_left; lia. Qed.

Lemma data_left_mono d n n' : (n ≤ n')%nat → (data_left d n ≤ data_left d n')%nat.
Proof. destruct d as [| | | |? []|? []|? []|? []|? []|? []| |]; cbn; unfold broadcast_left; lia. Qed.

Lemma accept_left_mono a n n' : (n ≤ n')%nat → (accept_left a n ≤ accept_left a n')%nat.
Proof. destruct a; cbn; lia. Qed.

Lemma accept_step_shrinks server s e s' :
  inv server s → accept_step s e s' → shouldStop (sim s) = true →
  shouldStop (sim s') = true ∧ dat s' = dat s ∧ (clients s' ≤ clients s)%nat ∧
  (accept_left (acc s') (clients s') < accept_left (acc s) (clients s))%nat.
Proof.
  intros Hinv Hstep Hstop. assert (Hscan := in_scan _ _ Hinv). unfold clients. destruct s as [m o ow lm a d].
  destruct Hstep; cbn in *; subst; cbn in *; rewrite ?length_app; cbn; split_and!; try done; try congruence; try lia.
  apply sublist_length in Hscan. rewrite app_nil_r in Hscan. lia.
Qed.

Lemma data_step_shrinks s e s' :
  data_step startTime returns s e s' → shouldStop (sim s) = true →
  shouldStop (sim s') = true ∧ acc s' = acc s ∧ (clients s' ≤ clients s)%nat ∧
  (data_left (dat s') (clients s') < data_left (dat s) (clients s))%nat.
Proof.
  intros Hstep Hstop. unfold clients. destruct s as [m o ow lm a d].
  destruct Hstep; cbn in *; subst; cbn in *; try congruence.
  all: try (match goal with H : prices_part _ _ = _ |- _ => destruct (prices_private _ _ _ _ H) as [_ _ P3 _ P5 _ _]; rewrite P3, P5 end).
  all: try match goal with H : _ ∨ _ |- _ => destruct H as [[? _]|[? _]]; subst end.
  all: try match goal with |- context [broadcast_done _ ?ph _] => destruct ph end.
  all: try match goal with |- context [filter ?P ?l] => assert (Hfil := length_filter P l) end.
  all: cbn; split_and!; try done; rewrite ?length_app; cbn; unfold broadcast_left; try lia.
  match goal with |- context [phase_left _ (_ + ?x)] => set (y := x) end.
  assert (phase_left ph (length (filter (λ x, x ≠ sock) (clientSockets m)) + y) ≤
          phase_left ph (length (clientSockets m) + y))%nat by (apply phase_left_mono; lia). lia.
Qed.

Lemma step_shrinks server s e s' :
  inv server s → step startTime returns s e s' → shouldStop (sim s) = true →
  shouldStop (sim s') = true ∧ (steps_left s' < steps_left s)%nat.
Proof.
  intros Hi [e' s2 Hs|e' s2 Hs|Hs] Hstop; [| |congruence]; unfold steps_left.
  - destruct (accept_step_shrinks server s e' s2 Hi Hs Hstop) as (H1 & -> & Hc & Hl). split; [done|].
    assert (H := data_left_mono (dat s) _ _ Hc). lia.
  - destruct (data_step_shrinks s e' s2 Hs Hstop) as (H1 & -> & Hc & Hl). split; [done|].
    assert (H := accept_left_mono (acc s) _ _ Hc). lia.
Qed.

Lemma nsteps_shrink server s n s' :
  inv server s → shouldStop (sim s) = true → nsteps (stepped startTime returns) n s s' →
  (n + steps_left s' ≤ steps_left s)%nat ∧ inv server s' ∧ shouldStop (sim s') = true.
Proof.
  intros Hi Hstop Hn. induction Hn as [s|n s1 s2 s3 [e He] _ IH]; [done|].
  destruct (step_shrinks server s1 e s2 Hi He Hstop) as [Hs2 Hlt].
  destruct IH as (Hle & ?); [by eapply thread_step_inv|done|]. split; [lia|done].
Qed.

(** A turn exists; its content does not matter. *)
Definition some_tick : Tick :=
  mkTick 0 dzero dzero (mkInstants 0 0 0) 0 (mkDraw 0 0 0 0) (mkDraw 0 0 0 0) (λ _, None) (λ _, None).

Lemma accept_enabled s :
  owner s = None ∨ acc_holds (acc s) = true → acc s ≠ ADone → ∃ e s', accept_step s e s'.
Proof.
  destruct s as [m o ow lm a d]; cbn. intros Ho Hd.
  destruct a as [| |sock|sock| |kept [|sock todo]| |]; try done;
    try (destruct Ho as [->|]; [|done]); try (by do 2 eexists; apply (acc_peek _ true)); try (by do 2 eexists; econstructor).
  destruct (shouldStop m) eqn:Hs; do 2 eexists; [by apply acc_stop|by apply acc_go].
Qed.

Lemma data_enabled s :
  (∀ sock, returns sock) → owner s = None ∨ dat_holds (dat s) = true → dat s ≠ DDone → dat s ≠ DUndefined →
  ∃ e s', data_step startTime returns s e s'.
Proof.
  destruct s as [m o ow lm a d]; cbn. intros Hr Ho Hd Hu.
  destruct d as [| |t|t|t ph data|t ph data|t ph data [|sock todo] failed|t ph failed|t ph [|sock failed]|t ph sock failed| |];
    try done; try (destruct Ho as [->|]; [|done]); try (by do 2 eexists; econstructor).
  - destruct (shouldStop m) eqn:Hs; do 2 eexists; [by apply dat_stop|by apply dat_go].
  - set (s := mkState _ _ _ _ _ _). set (over := Z.quot (t_now some_tick - startTime) 1000000000).
    destruct (decide (0 < SimConfig.duration (config m) ∧ SimConfig.duration (config m) ≤ over)) as [[H1 H2]|Hn].
    + do 2 eexists. by apply (dat_over _ _ s some_tick).
    + assert (SimConfig.duration (config m) ≤ 0 ∨ over < SimConfig.duration (config m)).
      { apply not_and_l in Hn as [Hn|Hn]; [left; by apply Z.nlt_ge|right; by apply Z.nle_gt]. }
      destruct (decide (messageInterval m ≤ Z.quot (t_now some_tick - lm) 1000)) as [|Hn']; do 2 eexists;
        [by apply (dat_due _ _ s some_tick)|apply (dat_early _ _ s some_tick); [done..|by apply Z.nle_gt]].
  - destruct (prices_part t m) as [[m' [data|]]|] eqn:Hp; do 2 eexists;
      [by apply (dat_replay _ _ _ t m' data)|by apply (dat_prices _ _ _ t m')|apply (dat_undefined _ _ _ t); by left].
  - destruct (message_part t m) as [data|] eqn:Hp; do 2 eexists;
      [by apply (dat_message _ _ _ t data)|apply (dat_undefined _ _ _ t); by right].
  - destruct failed as [|sock failed]; do 2 eexists; [by apply (dat_all _ _ _ t ph data)|by apply (dat_some _ _ _ t ph data)].
  - destruct (answer_of t ph sock) as [k|] eqn:Hk; do 2 eexists;
      [by apply (dat_sent _ _ _ t ph data sock todo failed k)|by apply (dat_failed _ _ _ t ph data sock todo failed)].
Qed.

(** No deadlock: a thread that waits for the mutex waits for one that can go on. *)
Lemma progress server s :
  (∀ sock, returns sock) → inv server s → finished s ∨ ∃ s', stepped startTime returns s s'.
Proof.
  intros Hr Hi. assert (Ho := in_owner _ _ Hi). unfold holder in Ho.
  assert (Hacc : owner s = None ∨ acc_holds (acc s) = true → acc s ≠ ADone → ∃ s', stepped startTime returns s s').
  { intros Hown Hd. destruct (accept_enabled s Hown Hd) as (e & s' & H). exists s', e. by apply step_accept. }
  assert (Hdat : owner s = None ∨ dat_holds (dat s) = true → dat s ≠ DDone → dat s ≠ DUndefined →
            ∃ s', stepped startTime returns s s').
  { intros Hown Hd Hu. destruct (data_enabled s Hr Hown Hd Hu) as (e & s' & H). exists s', e. by apply step_data. }
  destruct (acc_holds (acc s)) eqn:Ha; [right; apply Hacc; [auto|by intros E; rewrite E in Ha]|].
  destruct (dat_holds (dat s)) eqn:Hd; [right; apply Hdat; [auto|by intros E; rewrite E in Hd..]|].
  destruct (acc s) eqn:Hpc; try (right; by apply Hacc; [left|]).
  destruct (dat s) eqn:Hpc'; try (right; by apply Hdat; [left|..]); left; unfold finished; rewrite Hpc, Hpc'; auto.
Qed.
End termination.

(** ** The properties *)

Section properties.
Context (startTime : Z) (returns : Z → Prop).
(** The simulator when [runServer] starts: the listening socket and the
    clients are open and distinct. *)
Context (m : Simulator) (o : gset Z)
  (Hdistinct : NoDup (serverSocket m :: clientSockets m)) (Hopen : ∀ x, x ∈ serverSocket m :: clientSockets m → x ∈ o).
Abbreviation start := (initial m o startTime).
Abbreviation runs := (runs startTime returns).

Lemma reachable_inv s : runs start s → inv (serverSocket m) s.
Proof using Hdistinct Hopen. apply runs_inv. by apply initial_inv. Qed.

(** What is left to close when both threads are done. *)
Lemma finished_clean server s :
  inv server s → finished s →
  NoDup (server :: clientSockets (sim s)) ∧ ∀ x, x ∈ server :: clientSockets (sim s) → x ∈ open s.
Proof.
  intros [H1 H2 _ _ H5 H6 _ _ _ _] [Ha Hd]. rewrite Ha in H5, H6.
  assert (Hl : listed (dat s) (clientSockets (sim s)) = clientSockets (sim s)) by by destruct Hd as [-> | ->].
  rewrite Hl in H5, H6. cbn in H5, H6. rewrite not_elem_of_app in H5. destruct H5 as [H5 _]. split; [by constructor|].
  intros x Hx. apply H6. rewrite elem_of_cons, elem_of_app in *. tauto.
Qed.

(** A step of the accepting thread, or the store of [stop]. *)
Definition elsewhere (s s' : state) : Prop :=
  (∃ e, accept_step s e s') ∨ s' = s <| sim ::= λ m, m <| shouldStop := true |> |>.

(** While the data thread holds the mutex nobody else touches the list. *)
Lemma elsewhere_kept s s' :
  inv (serverSocket m) s → owner s = Some Generating → rtc elsewhere s s' →
  inv (serverSocket m) s' ∧ owner s' = Some Generating ∧ dat s' = dat s ∧ clientSockets (sim s') = clientSockets (sim s).
Proof using m returns startTime.
  intros Hi Ho Hrun. induction Hrun as [|s1 s2 s3 Hstep _ IH]; [done|].
  assert (Hi2 : inv (serverSocket m) s2).
  { destruct Hstep as [[e Hs]| ->]; [by eapply accept_step_inv|]. destruct Hi. by constructor. }
  assert (Hfree : acc_holds (acc s1) = false).
  { assert (H := in_owner _ _ Hi). unfold holder in H. destruct (acc_holds (acc s1)); congruence. }
  assert (Hkept : owner s2 = Some Generating ∧ dat s2 = dat s1 ∧ clientSockets (sim s2) = clientSockets (sim s1)).
  { destruct Hstep as [[e Hs]| ->]; [|done]. destruct Hs as [? ?|? ?|? ? ? ?|?|? ? ?|? Hpc|? ?|? ? ? ? Hpc|? Hpc|?]; try done;
      try congruence; by rewrite Hpc in Hfree. }
  destruct Hkept as (K1 & K2 & K3). destruct (IH Hi2 K1) as (L1 & L2 & L3 & L4). by rewrite L3, L4.
Qed.

(** C14: descriptors and the mutex are safe in every interleaving of the two
    threads and of [stop].  The threads never hold [clientSocketsMutex]
    together.  Whatever is peeked at, sent to or closed is open and is not
    the listening socket.  Whenever the data thread does not hold the mutex,
    the numbers in the list, and the one the accepting thread is about to add,
    are distinct, open and not the listening socket.  A socket is closed by the
    data thread, which holds the mutex and has noted the number nowhere else;
    a later connection may get the number at once, but whatever the accepting
    thread does meanwhile it cannot list it: the data thread's next step erases
    every occurrence of the number, and it still holds the mutex. *)
Theorem descriptors_safe s e s' :
  runs start s → step startTime returns s e s' →
  acc_holds (acc s) && dat_holds (dat s) = false ∧
  (∀ sock, uses e = Some sock → sock ∈ open s ∧ sock ≠ serverSocket m) ∧
  (owner s ≠ Some Generating →
     NoDup (serverSocket m :: pending (acc s) ++ clientSockets (sim s)) ∧
     ∀ sock, sock ∈ pending (acc s) ++ clientSockets (sim s) → sock ∈ open s) ∧
  (∀ sock, e = Closes sock →
     sock ∉ open s' ∧ sock ∉ pending (acc s') ∧ sock ∉ in_use (dat s') ∧ owner s' = Some Generating ∧
     ∀ s1 e1 s2, rtc elsewhere s' s1 → data_step startTime returns s1 e1 s2 →
       clientSockets (sim s2) = filter (λ x, x ≠ sock) (clientSockets (sim s')) ∧ owner s2 = Some Generating).
Proof using Hdistinct Hopen.
  intros Hrun Hstep. assert (Hi := reachable_inv s Hrun). assert (Hi' := thread_step_inv _ _ _ _ _ _ Hi Hstep).
  split; [apply Hi|].
  assert (Huses : ∀ sock, uses e = Some sock →
            sock ∈ pending (acc s) ++ listed (dat s) (clientSockets (sim s)) ++ in_use (dat s)).
  { intros sock Hu. assert (Hfree := in_exclusive _ _ Hi). destruct Hstep as [e s' Hs|e s' Hs|]; [| |done].
    - destruct Hs; try done. injection Hu as ->. rewrite listed_free by (by destruct (dat s); rewrite H in Hfree).
      assert (Hscan := in_scan _ _ Hi). rewrite H in Hscan. rewrite !elem_of_app. right; left.
      eapply elem_of_sublist; [|exact Hscan]. rewrite elem_of_app. right. by left.
    - destruct Hs; try done; injection Hu as ->; rewrite H; rewrite !elem_of_app; cbn; rewrite ?elem_of_app;
        right; right; first [right; by left|by left]. }
  split; [|split].
  - intros sock Hu%Huses. split; [apply (in_open _ _ Hi); by right|].
    intros ->. by apply (in_apart _ _ Hi).
  - intros Hown. assert (Hd : listed (dat s) (clientSockets (sim s)) = clientSockets (sim s)).
    { apply listed_free. assert (H := in_owner _ _ Hi). assert (H' := in_exclusive _ _ Hi). unfold holder in H.
      destruct (acc_holds (acc s)), (dat_holds (dat s)); done. }
    destruct Hi as [_ H2 _ H4 H5 H6 _ _ _ _]. rewrite Hd in H4, H5, H6. split.
    + constructor; [rewrite !not_elem_of_app in *; tauto|]. apply NoDup_app. split_and!; [|by intros x [? _]%H4|done].
      destruct (acc s); cbn; (apply NoDup_singleton || constructor).
    + intros sock Hin. apply H6. rewrite elem_of_cons, !elem_of_app in *. tauto.
  - intros sock ->. inversion Hstep as [? ? Hs|? ? Hs|]; subst; inversion Hs; subst.
    match goal with H : dat s = DClose _ _ (sock :: _) |- _ => rename H into Hpc end.
    assert (Ho : owner s = Some Generating).
    { assert (H' := in_owner _ _ Hi). assert (Hx := in_exclusive _ _ Hi). unfold holder in H'. rewrite Hpc in H', Hx. cbn in H', Hx.
      by destruct (acc_holds (acc s)). }
    assert (Hgone : sock ∉ open s ∖ {[sock]}) by set_solver.
    split; [exact Hgone|]. split; [|split; [|split; [done|]]].
    + intros Hin. apply Hgone, (in_open _ _ Hi'). right. apply elem_of_app. by left.
    + assert (Hc := in_closed _ _ Hi'). exact Hc.
    + intros s1 e1 s2 Helse Hdata. destruct (elsewhere_kept _ _ Hi' Ho Helse) as (_ & K1 & K2 & K3). cbn in K2, K3.
      destruct Hdata; try match goal with Hd : _ ∨ _ |- _ => by destruct Hd as [[Hd _]|[Hd _]]; rewrite K2 in Hd end;
        rewrite K2 in *; simplify_eq. cbn. by rewrite K3.
Qed.

(** C15: [stop] returns.  In any state that the threads can reach, once
    [shouldStop] is set, and if every [send] returns: the number of further
    steps is bounded, whatever the interleaving; a thread that waits for the
    mutex waits for one that can go on, so the steps lead to the end of both
    threads; and then what [cleanup] closes is open and free of duplicates. *)
Theorem stop_joins s :
  (∀ sock, returns sock) → runs start s → shouldStop (sim s) = true →
  (∀ n s', nsteps (stepped startTime returns) n s s' → (n ≤ steps_left s)%nat) ∧
  (∀ s', runs s s' → (∀ s'', ¬ stepped startTime returns s' s'') → finished s') ∧
  ∃ s', runs s s' ∧ finished s' ∧ NoDup (serverSocket m :: clientSockets (sim s')) ∧
    ∀ x, x ∈ serverSocket m :: clientSockets (sim s') → x ∈ open s'.
Proof using Hdistinct Hopen.
  intros Hr Hrun Hstop. assert (Hi := reachable_inv s Hrun). split_and!.
  - intros n s' Hn. destruct (nsteps_shrink startTime returns _ _ _ _ Hi Hstop Hn) as (H & _). lia.
  - intros s' Hrun' Hstuck. assert (Hi' := runs_inv _ _ _ _ _ Hi Hrun').
    destruct (progress startTime returns _ s' Hr Hi') as [|[s'' H]]; [done|by destruct (Hstuck s'')].
  - assert (Hex : ∃ s', runs s s' ∧ finished s').
    { clear Hrun. remember (steps_left s) as k eqn:Hk. revert s Hi Hstop Hk.
      induction k as [k IH] using lt_wf_ind. intros s Hi Hstop Hk.
      destruct (progress startTime returns _ s Hr Hi) as [|[s1 [e He]]]; [by exists s; split; [apply rtc_refl|]|].
      destruct (step_shrinks startTime returns _ _ _ _ Hi He Hstop) as [Hstop1 Hlt].
      destruct (IH (steps_left s1) ltac:(lia) s1) as (s' & Hrun & Hf); [by eapply thread_step_inv|done..|].
      exists s'. split; [|done]. eapply rtc_l; [by exists e|exact Hrun]. }
    destruct Hex as (s' & Hrun' & Hf). exists s'. split; [done|]. split; [done|].
    apply finished_clean; [|done]. by eapply runs_inv.
Qed.
End properties.

Section stuck.
Context (startTime : Z) (returns : Z → Prop).
Abbreviation runs := (runs startTime returns).

(** An open socket that nobody holds stays open: [recv] told the accepting
    thread that the peer has closed, and the socket was only forgotten. *)
Definition forgotten (sock : Z) (s : state) : Prop :=
  sock ∈ open s ∧ sock ∉ pending (acc s) ++ clientSockets (sim s) ++ in_use (dat s) ∧
  match acc s with AScan kept todo => sock ∉ kept ++ todo | _ => True end ∧
  sock ≠ serverSocket (sim s).

Lemma forgotten_step sock s e s' : forgotten sock s → step startTime returns s e s' → forgotten sock s'.
Proof.
  unfold forgotten. intros (Ho & Hn & Hscan & Hs) Hstep. rewrite !not_elem_of_app in *. destruct Hn as (Hp & Hl & Hu).
  destruct Hstep as [e s' Hst|e s' Hst|]; [| |done]; destruct s as [m o ow lm a d]; destruct Hst; cbn in *; subst; cbn in *;
    try match goal with |- context [broadcast_done _ ?ph _] => destruct ph; cbn end;
    try match goal with H : prices_part _ _ = _ |- _ => destruct (prices_private _ _ _ _ H) as [_ _ _ P4 P5 _ _]; rewrite ?P4, ?P5 end;
    try match goal with H : _ ∨ _ |- _ => destruct H as [[-> _]|[-> _]] end;
    split_and!; try done; rewrite ?list_elem_of_filter; try set_solver.
  destruct gone; set_solver.
Qed.

Lemma client_never_closed sock s s' :
  forgotten sock s → runs s s' → sock ∈ open s' ∧ sock ∉ clientSockets (sim s') ∧ sock ≠ serverSocket (sim s').
Proof.
  intros Hf Hrun. assert (Hf' : forgotten sock s').
  { induction Hrun as [|? ? ? [e He] _ IH]; [done|]. apply IH. by eapply forgotten_step. }
  destruct Hf' as (H1 & H2 & _ & H3). rewrite !not_elem_of_app in H2. tauto.
Qed.
End stuck.

(** ** A turn of [Simulator] is one of the interleavings *)

Section turns.
Context (startTime : Z) (returns : Z → Prop) (Hreturns : ∀ sock, returns sock).
Abbreviation runs := (runs startTime returns).
Abbreviation stepped := (stepped startTime returns).

Lemma data_once s e s' : data_step startTime returns s e s' → stepped s s'.
Proof using Type. intros H. exists e. by apply step_data. Qed.

Lemma accept_once s e s' : accept_step s e s' → stepped s s'.
Proof using Type. intros H. exists e. by apply step_accept. Qed.

Lemma snoc_app {A} (l : list A) x k : l ++ x :: k = (l ++ [x]) ++ k.
Proof using Type. by rewrite <- app_assoc. Qed.

(** The log of the sends, the closed sockets, and what they leave behind. *)
Definition log (l : list (Z * list Z)) (m : Simulator) : Simulator := m <| sent ::= λ k, k ++ l |>.
Definition shut (l : list Z) (m : Simulator) : Simulator :=
  m <| closed ::= λ k, k ++ l |> <| clientSockets ::= filter (λ sock, sock ∉ l) |>.

Lemma log_nil m : log [] m = m.
Proof. destruct m. unfold log. cbn. by rewrite app_nil_r. Qed.

Lemma log_log l k m : log k (log l m) = log (l ++ k) m.
Proof. unfold log. cbn. by rewrite app_assoc. Qed.

Lemma shut_nil m : shut [] m = m.
Proof.
  destruct m as [c e r st srv cs b a n sn cl]. unfold shut. cbn. rewrite app_nil_r. f_equal.
  induction cs as [|x cs IH]; [done|]. rewrite filter_cons_True by apply not_elem_of_nil. by rewrite IH.
Qed.

Lemma shut_cons sock l m :
  shut l (m <| closed ::= λ k, k ++ [sock] |> <| clientSockets ::= filter (λ x, x ≠ sock) |>) = shut (sock :: l) m.
Proof.
  unfold shut. cbn. rewrite <- app_assoc, list_filter_filter. f_equal.
  apply list_filter_iff. intros x. rewrite not_elem_of_cons. tauto.
Qed.

Lemma sends_alone t ph data todo failed m o ow lm a :
  runs (mkState m o ow lm a (DSends t ph data todo failed))
    (mkState (log (omap (λ sock, k ← answer_of t ph sock; Some (sock, take k data)) todo) m)
       o ow lm a (DSends t ph data [] (failed ++ filter (λ sock, answer_of t ph sock = None) todo))).
Proof using Hreturns.
  revert m failed. induction todo as [|sock todo IH]; intros m failed.
  { rewrite log_nil, app_nil_r. apply rtc_refl. }
  destruct (answer_of t ph sock) as [k|] eqn:Hk.
  - eapply rtc_l; [by eapply data_once, (dat_sent _ _ _ t ph data sock todo failed k)|].
    rewrite filter_cons_False by (by rewrite Hk).
    replace (omap _ (sock :: todo)) with ([(sock, take k data)] ++ omap (λ sock, k ← answer_of t ph sock; Some (sock, take k data)) todo)
      by (cbn; by rewrite Hk).
    rewrite <- log_log. apply IH.
  - eapply rtc_l; [by eapply data_once, (dat_failed _ _ _ t ph data sock todo failed)|].
    rewrite filter_cons_True by done. cbn [omap list_omap]. rewrite Hk. cbn [mbind option_bind].
    rewrite (snoc_app failed sock (filter _ todo)). apply IH.
Qed.

Lemma closes_alone t ph failed m o lm a :
  ∃ o', runs (mkState m o (Some Generating) lm a (DClose t ph failed))
    (mkState (shut failed m) o' (Some Generating) lm a (DClose t ph [])).
Proof using Type.
  revert m o. induction failed as [|sock failed IH]; intros m o.
  - exists o. rewrite shut_nil. apply rtc_refl.
  - destruct (IH (m <| closed ::= λ k, k ++ [sock] |> <| clientSockets ::= filter (λ x, x ≠ sock) |>) (o ∖ {[sock]}))
      as (o' & H). exists o'. rewrite shut_cons in H.
    eapply rtc_l; [by eapply data_once, (dat_close _ _ _ t ph sock failed)|].
    eapply rtc_l; [by eapply data_once, (dat_erase _ _ _ t ph sock failed)|]. exact H.
Qed.

(** [broadcastMessage], from its first lock to its return. *)
Lemma broadcast_alone t ph data m o lm a :
  ∃ o', runs (mkState m o None lm a (DLock t ph data))
    (broadcast_done t ph (mkState (broadcastMessage data (answer_of t ph) m) o' None lm a (DLock t ph data))).
Proof using Hreturns.
  set (failed := filter (λ sock, answer_of t ph sock = None) (clientSockets m)).
  set (m' := log (omap (λ sock, k ← answer_of t ph sock; Some (sock, take k data)) (clientSockets m)) m).
  assert (Hm : broadcastMessage data (answer_of t ph) m = shut failed m') by done.
  assert (Hsend : runs (mkState m o None lm a (DLock t ph data)) (mkState m' o None lm a (DSends t ph data [] failed))).
  { eapply rtc_l; [by eapply data_once, (dat_lock _ _ _ t ph data)|].
    eapply rtc_l; [by eapply data_once, (dat_copy _ _ _ t ph data)|]. apply sends_alone. }
  rewrite Hm. clearbody failed m'. destruct (decide (failed = [])) as [->|Hne].
  - exists o. rewrite shut_nil. etrans; [exact Hsend|].
    eapply rtc_l; [by eapply data_once, (dat_all _ _ _ t ph data)|]. destruct ph; apply rtc_refl.
  - destruct (closes_alone t ph failed m' o lm a) as (o' & Hclose). exists o'.
    etrans; [exact Hsend|].
    eapply rtc_l; [by eapply data_once, (dat_some _ _ _ t ph data failed)|].
    eapply rtc_l; [by eapply data_once, (dat_lock' _ _ _ t ph failed)|].
    etrans; [exact Hclose|].
    eapply rtc_l; [by eapply data_once, (dat_closed _ _ _ t ph)|]. destruct ph; apply rtc_refl.
Qed.

(** The private parts are those of [Simulator]. *)
Lemma prices_split t s :
  generatePrices t s =
    '(s', data) ← prices_part t s;
    Some (match data with Some data => broadcastMessage data (t_sends' t) s' | None => s' end).
Proof using Type.
  unfold generatePrices, prices_part. destruct (SimConfig.scenario (config s)); try done.
  unfold replayFromCSV, replay_part. destruct (csvReplayEngine s) as [e|]; [|done].
  destruct (getNextMessage _ _) as [[[record|] e']|]; cbn [mbind option_bind]; [| |done].
  - destruct (Csv.type record), (Csv.data record); try done.
    + by destruct (createQuote _ _).
    + destruct (createTrade _ _); cbn [mbind option_bind]; [|done]. by destruct (to_cents _).
  - by destruct (Nat.leb _ _).
Qed.

Lemma message_split t s : sendMessage t s = data ← message_part t s; Some (broadcastMessage data (t_sends t) s).
Proof using Type.
  unfold sendMessage, message_part. destruct (_ =? 0); [by destruct (createTrade _ _)|by destruct (createQuote _ _)].
Qed.

Lemma emit_alone t m m' o lm a :
  emit t m = Some m' →
  ∃ o', runs (mkState m o None lm a (DPrices t)) (mkState m' o' None (t_now t) a DTest).
Proof using Hreturns.
  unfold emit. rewrite prices_split. destruct (prices_part t m) as [[m1 data]|] eqn:Hp; cbn [mbind option_bind]; [|done].
  set (m2 := match data with Some _ => _ | None => _ end).
  assert (Hprices : ∃ o', runs (mkState m o None lm a (DPrices t)) (mkState m2 o' None lm a (DMessage t))).
  { subst m2. destruct data as [data|].
    - destruct (broadcast_alone t Replayed data m1 o lm a) as (o' & H). exists o'.
      eapply rtc_l; [by eapply data_once, (dat_replay _ _ _ t m1 data)|]. exact H.
    - exists o. eapply rtc_l; [by eapply data_once, (dat_prices _ _ _ t m1)|]. apply rtc_refl. }
  clearbody m2. destruct Hprices as (o1 & Hrun1). rewrite message_split.
  destruct (message_part t m2) as [bytes|] eqn:Hm; cbn [mbind option_bind]; [|done]. intros [= <-].
  destruct (broadcast_alone t Regular bytes m2 o1 lm a) as (o2 & Hrun2). exists o2.
  etrans; [exact Hrun1|].
  eapply rtc_l; [by eapply data_once, (dat_message _ _ _ t bytes)|]. exact Hrun2.
Qed.

Lemma data_alone ticks last m m' o a :
  generateMarketData ticks startTime last m = Some m' →
  ∃ o' last' d, runs (mkState m o None last a DTest) (mkState m' o' None last' a d) ∧ (d = DTest ∨ d = DDone).
Proof using Hreturns.
  revert last m o. induction ticks as [|t ticks IH]; intros last m o; cbn [generateMarketData].
  { intros [= <-]. exists o, last, DTest. split; [apply rtc_refl|auto]. }
  destruct (shouldStop m) eqn:Hstop; [intros [= <-]; exists o, last, DTest; split; [apply rtc_refl|auto]|].
  assert (Hgo : stepped (mkState m o None last a DTest) (mkState m o None last a DClock))
    by by eapply data_once, dat_go.
  branch as Hover.
  { intros [= <-]. exists o, last, DDone. split; [|auto]. guards. eapply rtc_l; [exact Hgo|].
    eapply rtc_l; [by eapply data_once, (dat_over _ _ _ t)|]. apply rtc_refl. }
  assert (Hnot : SimConfig.duration (config m) ≤ 0 ∨ Z.quot (t_now t - startTime) 1000000000 < SimConfig.duration (config m)).
  { apply andb_false_iff in Hover as [H|H]; guards; auto. }
  branch as Hdue; guards.
  - destruct (emit t m) as [m1|] eqn:He; cbn [mbind option_bind]; [|done]. intros Hrest.
    destruct (emit_alone t m m1 o last a He) as (o1 & Hrun1).
    destruct (IH _ _ o1 Hrest) as (o' & last' & d & Hrun2 & Hd). exists o', last', d. split; [|done].
    eapply rtc_l; [exact Hgo|]. eapply rtc_l; [by eapply data_once, (dat_due _ _ _ t)|].
    etrans; [exact Hrun1|exact Hrun2].
  - intros Hrest. destruct (IH _ _ o Hrest) as (o' & last' & d & Hrun & Hd). exists o', last', d. split; [|done].
    eapply rtc_l; [exact Hgo|]. eapply rtc_l; [by eapply data_once, (dat_early _ _ _ t)|]. exact Hrun.
Qed.

(** [remove_if] and [erase], under the second lock. *)
Lemma scan_alone gone m o lm d :
  runs (mkState m o None lm ALock' d)
    (mkState (m <| clientSockets ::= filter (λ sock, gone sock = false) |>) o None lm ASleep d).
Proof using Type.
  eapply rtc_l; [by eapply accept_once, acc_lock'|].
  assert (Hpeek : ∀ todo kept, runs (mkState m o (Some Accepting) lm (AScan kept todo) d)
            (mkState m o (Some Accepting) lm (AScan (kept ++ filter (λ sock, gone sock = false) todo) []) d)).
  { induction todo as [|sock todo IH]; intros kept; [rewrite app_nil_r; apply rtc_refl|].
    eapply rtc_l; [by eapply accept_once, (acc_peek _ (gone sock))|]. destruct (gone sock) eqn:Hg.
    - rewrite filter_cons_False by (by rewrite Hg). apply IH.
    - rewrite filter_cons_True, (snoc_app kept sock (filter _ todo)) by done. apply IH. }
  eapply rtc_r; [apply Hpeek|]. by eapply accept_once, acc_erase.
Qed.

(** The turns of [Simulator] are interleavings of these steps.  If every
    [send] returns, whatever [generateMarketData] computes turn by turn is
    reached by steps of the data thread from its loop's test, and whatever a
    turn of [acceptClients] computes is reached by steps of the accepting
    thread after its [accept], each while the other thread stands still
    without the mutex. *)
Lemma turns_are_interleavings :
  (∀ ticks last m m' o a,
     generateMarketData ticks startTime last m = Some m' →
     ∃ o' last' d, runs (mkState m o None last a DTest) (mkState m' o' None last' a d) ∧ (d = DTest ∨ d = DDone)) ∧
  (∀ accepted gone m o lm d,
     match accepted with Some sock => 0 ≤ sock ∧ sock ∉ o | None => True end →
     ∃ o', runs (mkState m o None lm AAccept d) (mkState (acceptClients accepted gone m) o' None lm ASleep d)).
Proof using Hreturns.
  split; [intros *; apply data_alone|]. intros accepted gone m o lm d Hacc.
  destruct accepted as [sock|]; unfold acceptClients.
  - exists ({[sock]} ∪ o). eapply rtc_l; [by eapply accept_once, (acc_client _ sock); [|apply Hacc..]|].
    eapply rtc_l; [by eapply accept_once, (acc_lock _ sock)|].
    eapply rtc_l; [by eapply accept_once, (acc_push _ sock)|]. apply scan_alone.
  - exists o. eapply rtc_l; [by eapply accept_once, acc_none|]. apply scan_alone.
Qed.
End turns.

(** ** Witnesses *)

Module ThreadExamples.
Import SimExamples.

Definition server : Simulator := steady <| serverSocket := 3 |>.
Definition descriptors : gset Z := {[3; 7]}.

Lemma server_distinct : NoDup (serverSocket server :: clientSockets server).
Proof. apply (bool_decide_unpack _). vm_compute. exact I. Qed.
Lemma server_open x : x ∈ serverSocket server :: clientSockets server → x ∈ descriptors.
Proof. change (x ∈ [3; 7] → x ∈ descriptors). unfold descriptors. set_solver. Qed.

(** The turn in which the one client's connection is gone. *)
Definition lost : Tick :=
  mkTick 100000000 (d_of_Z 1) (d_of_Z 1) (mkInstants 0 0 0) 0 draw draw (λ _, None) (λ _, None).
Definition priced : Simulator := generateSteadyPrices (d_of_Z 1) (d_of_Z 1) server.
Definition bytes_sent : list Z := default [] (message_part lost priced).
Definition sending : state := mkState priced descriptors None 0 ATest (DSends lost Regular bytes_sent [7] []).
Definition closing : state := mkState priced descriptors (Some Generating) 0 ATest (DClose lost Regular [7]).

Lemma runs_to_send (returns : Z → Prop) : runs 0 returns (initial server descriptors 0) sending.
Proof.
  assert (Hm : message_part lost priced = Some bytes_sent) by (vm_compute; reflexivity).
  eapply rtc_l; [by eapply data_once, dat_go|].
  eapply rtc_l; [eapply data_once, (dat_due _ _ _ lost); [done|right; vm_compute; reflexivity|vm_compute; discriminate]|].
  eapply rtc_l; [by eapply data_once, (dat_prices _ _ _ lost priced)|].
  eapply rtc_l; [by eapply data_once, (dat_message _ _ _ lost bytes_sent)|].
  eapply rtc_l; [by eapply data_once, (dat_lock _ _ _ lost Regular bytes_sent)|].
  eapply rtc_l; [by eapply data_once, (dat_copy _ _ _ lost Regular bytes_sent)|]. apply rtc_refl.
Qed.

Lemma runs_to_close : runs 0 (λ _, True) (initial server descriptors 0) closing.
Proof.
  etrans; [apply runs_to_send|].
  eapply rtc_l; [by eapply data_once, (dat_failed _ _ _ lost Regular bytes_sent 7 [] [])|].
  eapply rtc_l; [by eapply data_once, (dat_some _ _ _ lost Regular bytes_sent [7])|].
  eapply rtc_l; [by eapply data_once, (dat_lock' _ _ _ lost Regular [7])|]. apply rtc_refl.
Qed.

Lemma descriptors_safe_witness :
  7 ∈ open closing ∧ ∃ s', step 0 (λ _, True) closing (Closes 7) s' ∧ 7 ∉ open s' ∧
    ∀ s1 e1 s2, rtc elsewhere s' s1 → data_step 0 (λ _, True) s1 e1 s2 → clientSockets (sim s2) = [].
Proof.
  assert (Hclose := step_data _ _ _ _ _ (dat_close 0 (λ _, True) closing lost Regular 7 [] eq_refl)).
  destruct (descriptors_safe 0 (λ _, True) server descriptors server_distinct server_open closing _ _ runs_to_close Hclose)
    as (_ & Huse & _ & Hgone).
  split; [exact (proj1 (Huse 7 eq_refl))|]. eexists. split; [exact Hclose|].
  destruct (Hgone 7 eq_refl) as (H1 & _ & _ & _ & H2). split; [exact H1|].
  intros s1 e1 s2 Helse Hdata. rewrite (proj1 (H2 s1 e1 s2 Helse Hdata)). reflexivity.
Defined.

(** The main thread stops the simulator while the socket is being closed. *)
Definition stopping : state := closing <| sim ::= λ m, m <| shouldStop := true |> |>.

Lemma stop_joins_witness : ∃ s', runs 0 (λ _, True) stopping s' ∧ finished s'.
Proof.
  assert (Hrun : runs 0 (λ _, True) (initial server descriptors 0) stopping).
  { eapply rtc_r; [exact runs_to_close|]. exists Quiet. exact (step_stop _ _ closing eq_refl). }
  destruct (stop_joins 0 (λ _, True) server descriptors server_distinct server_open stopping (λ _, I) Hrun eq_refl)
    as (_ & _ & s' & H1 & H2 & _).
  exists s'. split; [exact H1|exact H2].
Defined.

End ThreadExamples.
