(* ===== verification/Benchmark.v ===== *)
(** * The benchmark ([src/benchmark.cpp])

    The generated messages, the measured loops, with the [...Baseline] copies
    that nothing calls, and the statistics of the latencies.  Random draws and
    clock readings are arguments.  What the program prints is in the file
    [ToolReports]. *)
From Stdlib Require Import SpecFloat.
From stdpp Require Import sorting.
From S2P Require Import Prelude Binary64 Text Metrics Message MessageParser CircularBuffer VwapSpec VwapCalculator DecisionEngine TradingSpec OrderManager.
Import SpecRun OrderManager.

(** ** Test data *)

Definition NUM_MESSAGES : nat := 10000.
Definition WARMUP_MESSAGES : nat := 1000.

(** What one round of [generateTestData] draws, and the four bytes of each
    symbol that [strcpy] does not write. *)
Record Draws := mkDraws {
  bidQty : Z; bidPx : Z; askQty : Z; tradeQty : Z; pause : Z; quoteRest : list Z; tradeRest : list Z }.

(** The ranges of the three distributions. *)
Definition Draws_ok (d : Draws) : Prop :=
  13000 ≤ bidPx d ≤ 15000 ∧ 1000000 ≤ pause d ≤ 10000000 ∧
  100 ≤ bidQty d ≤ 1000 ∧ 100 ≤ askQty d ≤ 1000 ∧ 100 ≤ tradeQty d ≤ 1000 ∧
  (length (quoteRest d) = 4%nat ∧ bytes_ok (quoteRest d)) ∧ length (tradeRest d) = 4%nat ∧ bytes_ok (tradeRest d).
#[global] Instance Draws_ok_dec d : Decision (Draws_ok d).
Proof. unfold Draws_ok. apply _. Defined.

(** The string and its terminator. *)
Definition IBM_bytes : list Z := [73; 66; 77; 0].

Fixpoint generateTestData (draws : list Draws) (timestamp : Z) : list (QuoteMessage * TradeMessage) :=
  match draws with
  | [] => []
  | d :: draws =>
      let askPrice := i32 (u32 (bidPx d + 10)) in
      let quote := Quote.mk (IBM_bytes ++ quoteRest d) timestamp (bidQty d) (u32 (bidPx d)) (askQty d) askPrice in
      (* an unsigned sum *)
      let price := i32 (u32 (Quote.bidPrice quote + askPrice) / 2) in
      let trade := Trade.mk (IBM_bytes ++ tradeRest d) timestamp (tradeQty d) price in
      (quote, trade) :: generateTestData draws (u64 (timestamp + pause d))
  end.

Definition firstTimestamp : Z := 1000000000000.

(** ** Statistics *)

Record BenchmarkResult := mkResult {
  meanLatencyUs : double; p50LatencyUs : double; p95LatencyUs : double; p99LatencyUs : double;
  maxLatencyUs : double; totalMessages : Z; throughput : double }.

(** [std::sort] by [<], on numbers that are comparable. *)
Fixpoint insert_sorted (x : double) (l : list double) : list double :=
  match l with
  | [] => [x]
  | y :: l' => if d_lt y x then y :: insert_sorted x l' else x :: l
  end.
Definition sort (l : list double) : list double := foldr insert_sorted [] l.

(** [latencies[latencies.size() * f]]: the index is a [double] converted to
    [size_t]; [None] when it is out of range. *)
Definition at_fraction (f : double) (latencies : list double) : option double :=
  i ← d_trunc (d_mul (d_of_Z (Z.of_nat (length latencies))) f);
  if i <? 0 then None else latencies !! Z.to_nat i.

Definition percent (p : Z) : double := d_ratio false p 100.

Definition calculateStats (latencies : list double) (totalTimeSeconds : double) : option BenchmarkResult :=
  let latencies := sort latencies in
  let size := d_of_Z (Z.of_nat (length latencies)) in
  let sum := foldl d_add dzero latencies in
  p50 ← at_fraction (percent 50) latencies;
  p95 ← at_fraction (percent 95) latencies;
  p99 ← at_fraction (percent 99) latencies;
  back ← last latencies;
  Some (mkResult (d_div sum size) p50 p95 p99 back (Z.of_nat (length latencies)) (d_div size totalTimeSeconds)).

(** [duration<double, std::micro>] of a number of nanoseconds. *)
Definition micros (nanos : Z) : double := d_div (d_of_Z nanos) (d_of_Z 1000).

(** ** The measured loops *)

Section loops.
Context {Q : Type} `{DequeOps VwapTradeRecord Q} (MAX_TRADES : nat) (emptyWindow : Q).

Definition IBM : list Z := take 3 IBM_bytes.

(** The [i]-th message of a loop: its trade or its quote; [elapsed i] is what
    the engine's own latency scope reads. *)
Definition calls (is_trade : nat → bool) (data : list (QuoteMessage * TradeMessage)) (elapsed : nat → Z) : list op :=
  imap (λ i d, if is_trade i then TradeOp d.2 else QuoteOp d.1 (elapsed i)) data.

(** Both loops: the calls on a new manager without a callback. *)
Definition benchmark_calls (calls : list op) (m : SystemMetrics)
    : option (list OrderMessage * (OrderManager.t Q * SystemMetrics * unit)) :=
  match init MAX_TRADES emptyWindow IBM char_B 100 5 with
  | inl manager => run_ops MAX_TRADES None calls (manager, m, tt)
  | inr _ => None
  end.

(** The loop of [benchmarkVwap]: every trade is followed by a reading. *)
Fixpoint measureVwap (trades : list TradeMessage) (s : VwapCalculator Q * SystemMetrics)
    : list double * (VwapCalculator Q * SystemMetrics) :=
  match trades with
  | [] => ([], s)
  | trade :: trades =>
      let '(calculator, m) := addTrade MAX_TRADES trade s in
      let '(vwap, calculator) := getCurrentVwap calculator in
      let '(vwaps, s) := measureVwap trades (calculator, m) in
      (vwap :: vwaps, s)
  end.

Definition benchmarkVwap (data : list (QuoteMessage * TradeMessage)) (m : SystemMetrics)
    (times : list Z) (total : double) :=
  let testTrades := snd <$> data in
  let warm := process MAX_TRADES (take WARMUP_MESSAGES testTrades) (VwapCalculator_init MAX_TRADES emptyWindow 5, m) in
  (measureVwap (drop WARMUP_MESSAGES testTrades) warm, calculateStats (micros <$> times) total).

Definition benchmarkVwapBaseline (data : list (QuoteMessage * TradeMessage)) (m : SystemMetrics)
    (times : list Z) (total : double) :=
  let testTrades := snd <$> data in
  let warm := process MAX_TRADES (take WARMUP_MESSAGES testTrades) (VwapCalculator_init MAX_TRADES emptyWindow 5, m) in
  (measureVwap (drop WARMUP_MESSAGES testTrades) warm, calculateStats (micros <$> times) total).

(** A hundred trades, then only quotes. *)
Definition benchmarkOrderManager (data : list (QuoteMessage * TradeMessage)) (elapsed : nat → Z) (m : SystemMetrics)
    (times : list Z) (total : double) :=
  (benchmark_calls (calls (λ i, (i <? 100)%nat) data elapsed) m, calculateStats (micros <$> times) total).

Definition benchmarkOrderManagerBaseline (data : list (QuoteMessage * TradeMessage)) (elapsed : nat → Z) (m : SystemMetrics)
    (times : list Z) (total : double) :=
  (benchmark_calls (calls (λ i, (i <? 100)%nat) data elapsed) m, calculateStats (micros <$> times) total).

(** Every third message is a trade. *)
Definition benchmarkEndToEnd (data : list (QuoteMessage * TradeMessage)) (elapsed : nat → Z) (m : SystemMetrics)
    (times : list Z) (total : double) :=
  (benchmark_calls (calls (λ i, (i mod 3 =? 0)%nat) data elapsed) m, calculateStats (micros <$> times) total).

Definition benchmarkEndToEndBaseline (data : list (QuoteMessage * TradeMessage)) (elapsed : nat → Z) (m : SystemMetrics)
    (times : list Z) (total : double) :=
  (benchmark_calls (calls (λ i, (i mod 3 =? 0)%nat) data elapsed) m, calculateStats (micros <$> times) total).

(** The copies measure the same code: a comparison of the two would be one of
    a program with itself. *)
Lemma baselines_are_copies data elapsed m times total :
  benchmarkVwapBaseline data m times total = benchmarkVwap data m times total ∧
  benchmarkOrderManagerBaseline data elapsed m times total = benchmarkOrderManager data elapsed m times total ∧
  benchmarkEndToEndBaseline data elapsed m times total = benchmarkEndToEnd data elapsed m times total.
Proof using Type. done. Qed.
End loops.

(** ** The statistics *)

(** Comparable numbers: zero and the positive normal numbers. *)
Definition comparable (x : double) : Prop := x = dzero ∨ pnormal x.

Lemma comparable_cases (P : double → double → Prop) :
  P dzero dzero → (∀ x, pnormal x → P dzero x) → (∀ x, pnormal x → P x dzero) →
  (∀ x y, pnormal x → pnormal y → P x y) → ∀ x y, comparable x → comparable y → P x y.
Proof. intros H1 H2 H3 H4 x y [->|Hx] [->|Hy]; auto. Qed.

Lemma d_lt_comparable x y : comparable x → comparable y → d_lt x y = (sval x <? sval y).
Proof.
  apply (comparable_cases (λ x y, d_lt x y = (sval x <? sval y))); [done| | |apply d_lt_sval]; intros z Hz;
    assert (H := pnormal_pos z Hz); symmetry; change (sval dzero) with 0.
  - rewrite (proj2 (Z.ltb_lt _ _) H). by destruct z as [|[]| |[] ? ?].
  - rewrite (proj2 (Z.ltb_ge _ _) (Z.lt_le_incl _ _ H)). by destruct z as [|[]| |[] ? ?].
Qed.

Lemma d_le_comparable x y : comparable x → comparable y → d_le x y = (sval x <=? sval y).
Proof.
  apply (comparable_cases (λ x y, d_le x y = (sval x <=? sval y))); [done| | |apply d_le_sval]; intros z Hz;
    assert (H := pnormal_pos z Hz); symmetry; change (sval dzero) with 0.
  - rewrite (proj2 (Z.leb_le _ _) (Z.lt_le_incl _ _ H)). by destruct z as [|[]| |[] ? ?].
  - rewrite (proj2 (Z.leb_gt _ _) H). by destruct z as [|[]| |[] ? ?].
Qed.

(** What one measurement contributes. *)
Lemma micros_comparable n : 0 ≤ n < 2 ^ 63 → comparable (micros n).
Proof.
  intros Hn. unfold micros. destruct (decide (n = 0)) as [->|Hne]; [by left|]. right. apply d_div_pnormal; lia.
Qed.

Definition upto (x y : double) : Prop := sval x ≤ sval y.

Lemma insert_sorted_perm x l : insert_sorted x l ≡ₚ x :: l.
Proof.
  induction l as [|y l IH]; [done|]. cbn. destruct (d_lt y x); [|done]. rewrite IH. apply perm_swap.
Qed.

Lemma sort_perm l : sort l ≡ₚ l.
Proof. induction l as [|x l IH]; [done|]. cbn. by rewrite insert_sorted_perm, IH. Qed.

Lemma insert_sorted_sorted x l :
  comparable x → Forall comparable l → StronglySorted upto l → StronglySorted upto (insert_sorted x l).
Proof.
  intros Hx Hl Hs. induction Hs as [|y l Hs IH Hy]; [by repeat constructor|].
  apply Forall_cons in Hl as [Hcy Hl]. cbn. rewrite d_lt_comparable by done.
  destruct (Z.ltb_spec (sval y) (sval x)).
  - constructor; [by apply IH|]. rewrite insert_sorted_perm. constructor; [unfold upto; lia|done].
  - constructor; [by constructor|]. constructor; [done|]. eapply Forall_impl; [exact Hy|]. unfold upto. intros; lia.
Qed.

Lemma sort_sorted l : Forall comparable l → StronglySorted upto (sort l).
Proof.
  induction 1 as [|x l Hx Hl IH]; [constructor|]. cbn. apply insert_sorted_sorted; [done| |done]. by rewrite sort_perm.
Qed.

Lemma sorted_lookup l i j x y :
  StronglySorted upto l → (i ≤ j)%nat → l !! i = Some x → l !! j = Some y → sval x ≤ sval y.
Proof.
  intros Hs. revert i j. induction Hs as [|z l Hs IH Hz]; intros i j Hij Hi Hj; [done|].
  destruct i as [|i], j as [|j]; cbn in Hi, Hj; [by simplify_eq|simplify_eq|lia|apply (IH i j); (done || lia)].
  rewrite Forall_forall in Hz. apply Hz. by eapply list_elem_of_lookup_2.
Qed.

(** The index of a percentile: in range, and within one of the exact one. *)
Lemma percent_index n p :
  0 < n < 2 ^ 31 → 0 < p < 100 →
  ∃ i, d_trunc (d_mul (d_of_Z n) (percent p)) = Some i ∧ n * p - 100 ≤ 100 * i ≤ n * p.
Proof.
  intros Hn Hp. destruct (scaled_truncation (percent p) p 100 n) as (i & Hi & H); [lia|lia|lia|nia| |].
  { apply d_ratio_rounds; lia. }
  exists i. rewrite d_mul_comm. split; [done|lia].
Qed.

Lemma at_percent l p :
  0 < Z.of_nat (length l) < 2 ^ 31 → 0 < p < 100 →
  ∃ i x, at_fraction (percent p) l = Some x ∧ l !! i = Some x ∧
    Z.of_nat (length l) * p - 100 ≤ 100 * Z.of_nat i ≤ Z.of_nat (length l) * p.
Proof.
  intros Hn Hp. destruct (percent_index _ p Hn Hp) as (i & Hi & Hr). unfold at_fraction. rewrite Hi. cbn [mbind option_bind].
  assert (0 < Z.of_nat (length l) * p < 100 * Z.of_nat (length l)) by nia.
  assert (0 ≤ i) by lia. destruct (Z.ltb_spec i 0); [lia|].
  destruct (lookup_lt_is_Some_2 l (Z.to_nat i)) as [x Hx]; [lia|].
  exists (Z.to_nat i), x. rewrite Z2Nat.id by lia. done.
Qed.

Lemma none_of (P : double → Prop) `{∀ x, Decision (P x)} l : (∀ x, x ∈ l → ¬ P x) → filter P l = [].
Proof.
  induction l as [|x l IH]; intros Hn; [done|]. rewrite filter_cons_False by (apply Hn; left).
  apply IH. intros y Hy. apply Hn. by right.
Qed.

(** How many exceed an element of a sorted list. *)
Lemma above_count l i x :
  Forall comparable l → StronglySorted upto l → l !! i = Some x →
  (length (filter (λ y, d_lt x y = true) l) ≤ length l - S i)%nat.
Proof.
  intros Hc Hs Hi. rewrite <- (take_drop (S i) l) at 1. rewrite filter_app.
  assert (Hnone : filter (λ y, d_lt x y = true) (take (S i) l) = []).
  { apply none_of. intros y Hy. apply list_elem_of_lookup in Hy as (k & Hk).
    apply lookup_take_Some in Hk as [Hk Hki]. assert (sval y ≤ sval x) by (apply (sorted_lookup l k i); (done || lia)).
    rewrite Forall_lookup in Hc. rewrite d_lt_comparable by (eapply Hc; done).
    destruct (Z.ltb_spec (sval x) (sval y)); [lia|done]. }
  rewrite Hnone. cbn. etransitivity; [apply length_filter|]. by rewrite length_drop.
Qed.

(** C39: the benchmark's statistics.  For any non-empty list of fewer than
    [2 ^ 31] measurements, in nanoseconds and not negative, every index is in range and the result reports their number; the
    percentiles and the maximum are measurements, in ascending order, none
    exceeds the maximum, and at most a hundredth of the measurements exceeds
    the 99th percentile, a twentieth the 95th, a half the 50th. *)
Theorem percentiles (times : list Z) (total : double) :
  times ≠ [] → Z.of_nat (length times) < 2 ^ 31 → Forall (λ n, 0 ≤ n < 2 ^ 63) times →
  let latencies := micros <$> times in
  let n := Z.of_nat (length times) in
  let above x := Z.of_nat (length (filter (λ y, d_lt x y = true) latencies)) in
  ∃ r, calculateStats latencies total = Some r ∧ totalMessages r = n ∧
    Forall (λ x, x ∈ latencies) [p50LatencyUs r; p95LatencyUs r; p99LatencyUs r; maxLatencyUs r] ∧
    d_le (p50LatencyUs r) (p95LatencyUs r) = true ∧ d_le (p95LatencyUs r) (p99LatencyUs r) = true ∧
    Forall (λ x, d_le x (maxLatencyUs r) = true) latencies ∧
    2 * above (p50LatencyUs r) ≤ n ∧ 20 * above (p95LatencyUs r) ≤ n ∧ 100 * above (p99LatencyUs r) ≤ n.
Proof.
  intros Hne Hlt Hall ls n above. set (s := sort ls).
  assert (Hcl : Forall comparable ls).
  { apply Forall_fmap. eapply Forall_impl; [exact Hall|]. intros k. apply micros_comparable. }
  assert (Hperm : s ≡ₚ ls) by apply sort_perm. assert (Hs : StronglySorted upto s) by by apply sort_sorted.
  assert (Hlen : length s = length times) by (rewrite Hperm; apply length_fmap).
  assert (Hc : Forall comparable s) by by rewrite Hperm.
  assert (Hpos : (0 < length times)%nat) by (destruct times; [done|cbn; lia]).
  assert (Hentry : ∀ i x, s !! i = Some x → x ∈ ls ∧ comparable x ∧ above x ≤ n - Z.of_nat i - 1).
  { intros i x Hi. assert (Hx : x ∈ s) by by eapply list_elem_of_lookup_2.
    rewrite <- Hperm. split; [done|]. split; [rewrite Forall_forall in Hc; by apply Hc|].
    unfold above. rewrite <- (filter_Permutation _ _ _ Hperm). assert (H := above_count s i x Hc Hs Hi).
    apply lookup_lt_Some in Hi. subst n. lia. }
  assert (Hle : ∀ i j x y, (i ≤ j)%nat → s !! i = Some x → s !! j = Some y → d_le x y = true).
  { intros i j x y Hij Hi Hj. rewrite d_le_comparable by (eapply Hentry; done).
    apply Z.leb_le. by apply (sorted_lookup s i j). }
  destruct (at_percent s 50) as (i50 & x50 & H50 & Hi50 & B50); [lia|lia|].
  destruct (at_percent s 95) as (i95 & x95 & H95 & Hi95 & B95); [lia|lia|].
  destruct (at_percent s 99) as (i99 & x99 & H99 & Hi99 & B99); [lia|lia|].
  destruct (lookup_lt_is_Some_2 s (pred (length s))) as [mx Hmx]; [lia|].
  rewrite Hlen in B50, B95, B99. fold n in B50, B95, B99.
  unfold calculateStats. fold s. rewrite H50, H95, H99, last_lookup, Hmx. cbn [mbind option_bind].
  eexists. split; [reflexivity|]. cbn [totalMessages p50LatencyUs p95LatencyUs p99LatencyUs maxLatencyUs].
  split; [by rewrite Hlen|]. split. { repeat constructor; by eapply Hentry. }
  split; [apply (Hle i50 i95); (done || lia)|]. split; [apply (Hle i95 i99); (done || lia)|]. split.
  { rewrite <- Hperm. apply Forall_lookup. intros k x Hk. apply (Hle k (pred (length s))); [|done..].
    apply lookup_lt_Some in Hk. lia. }
  destruct (Hentry _ _ Hi50) as (_ & _ & A50), (Hentry _ _ Hi95) as (_ & _ & A95), (Hentry _ _ Hi99) as (_ & _ & A99). lia.
Qed.

(** ** The test data *)

(** A generated pair, not before [ts]. *)
Record data_ok (lo hi : Z) (d : QuoteMessage * TradeMessage) : Prop := {
  do_quote : QuoteMessage_ok d.1 ∧ validateQuote d.1 = true;
  do_trade : TradeMessage_ok d.2;
  do_price : 13005 ≤ Trade.price d.2 ≤ 15005;
  do_quantity : 0 < Trade.quantity d.2 ≤ 1000;
  do_time : lo ≤ Trade.timestamp d.2 ≤ hi
}.

Lemma IBM_ok rest : length rest = 4%nat → bytes_ok rest → symbol_ok (IBM_bytes ++ rest).
Proof. intros Hl Hr. split; [rewrite length_app, Hl; done|]. apply Forall_app. split; [by repeat constructor|done]. Qed.

(** The [i]-th pair is at most [i] longest pauses after the first. *)
Lemma data_spaced draws ts :
  Forall Draws_ok draws → 0 ≤ ts → ts + 10000000 * Z.of_nat (length draws) < 2 ^ 63 →
  ∀ i d, generateTestData draws ts !! i = Some d → data_ok ts (ts + 10000000 * Z.of_nat i) d.
Proof.
  intros Hd. revert ts. induction Hd as [|[bq bp aq tq pau qr tr] draws Hd _ IH]; intros ts Hts Hend i d Hi; [done|].
  destruct Hd as (Hp & Hpause & Hbq & Haq & Htq & (Hql & Hqr) & Htl & Htr).
  cbn in Hp, Hpause, Hbq, Haq, Htq, Hql, Hqr, Htl, Htr. cbn [length] in Hend.
  destruct i as [|i]; cbn -[u64 u32 i32 Z.div] in Hi.
  - injection Hi as <-. rewrite (u32_small bp), (u32_small (bp + 10)), (i32_small (bp + 10)), (u32_small (bp + (bp + 10))) by lia.
    replace (bp + (bp + 10)) with ((bp + 5) * 2) by lia. rewrite Z.div_mul, i32_small by lia.
    assert (Hq : QuoteMessage_ok (Quote.mk (IBM_bytes ++ qr) ts bq bp aq (bp + 10))).
    { repeat split; cbn -[IBM_bytes app]; try lia; by apply IBM_ok. }
    constructor; cbn -[IBM_bytes app validateQuote]; try lia.
    + split; [done|]. apply validateQuote_spec; [done|]. unfold quote_valid. cbn. lia.
    + repeat split; cbn -[IBM_bytes app]; try lia; by apply IBM_ok.
  - rewrite u64_small in Hi by lia. destruct (IH (ts + pau) ltac:(lia) ltac:(lia) i d Hi) as [? ? ? ? [? ?]].
    by constructor; try lia.
Qed.

Lemma messages_bound n : (n ≤ NUM_MESSAGES)%nat → Z.of_nat n ≤ 10000.
Proof. intros H%Nat2Z.inj_le. exact H. Qed.

Lemma data_at draws i d :
  Forall Draws_ok draws → (length draws ≤ NUM_MESSAGES)%nat → generateTestData draws firstTimestamp !! i = Some d →
  data_ok firstTimestamp (firstTimestamp + 10000000 * Z.of_nat i) d.
Proof.
  intros Hd Hn%messages_bound Hi. apply (data_spaced draws firstTimestamp Hd); [done|unfold firstTimestamp; lia|done].
Qed.

Lemma length_data draws ts : length (generateTestData draws ts) = length draws.
Proof. revert ts. induction draws as [|d draws IH]; intros ts; [done|]. cbn. by rewrite IH. Qed.

(** ** The calculator benchmark reads averages of its prices *)

Section averages.
Context {Q : Type} {cap : nat} `{!DequeOps VwapTradeRecord Q} `{!Deque VwapTradeRecord Q cap}
  (Hcap : (0 < cap)%nat).
Implicit Types (c : VwapCalculator Q) (m : SystemMetrics).

Abbreviation W := (nanos 5).

(** A trade of the test data. *)
Definition test_trade (t : TradeMessage) : Prop :=
  TradeMessage_ok t ∧ 13005 ≤ Trade.price t ≤ 15005 ∧ 0 < Trade.quantity t ≤ 1000.

Definition untouched (s : Spec.t) : Prop := Spec.last s = 0 ∧ Spec.pv s = 0 ∧ Spec.volume s = 0.

(** A calculator that was fed test trades; [room] bounds what it still takes. *)
Record fed (room : Z) c (s : Spec.t) : Prop := {
  fd_refines : refines W c s;
  fd_inv : spec_inv cap s;
  fd_priced : priced 13005 15005 s;
  fd_window : untouched s ∨ Spec.window s ≠ [];
  fd_room : Spec.pv s + room ≤ 2 ^ 51
}.

Lemma window_volume s : spec_inv cap s → Spec.window s ≠ [] → 0 < Spec.volume s.
Proof using Type.
  clear Hcap. intros [Hrec _ _ [Hlost _] _ _ _ _] Hw. unfold Spec.volume. destruct (Spec.window s) as [|r w]; [done|].
  apply Forall_cons in Hrec as [Hr Hrec]. assert (0 ≤ sum_of quantity w).
  { apply sum_of_nonneg. eapply Forall_impl; [exact Hrec|]. unfold record_ok. intros; lia. }
  unfold record_ok in Hr. rewrite sum_of_cons. lia.
Qed.

(** The first test trade is taken, and later ones leave the window filled. *)
Lemma test_trade_fills s t :
  test_trade t → untouched s ∨ Spec.window s ≠ [] → Spec.window (Spec.add cap W s t) ≠ [].
Proof using Type.
  clear Hcap. intros (Ht & Hp & Hq) Hw. destruct (spec_add_cases cap W s t) as [[Hr ->]|[_ ->]].
  - destruct Hw as [(Hl & Hpv & Hv)|]; [|done]. exfalso. revert Hr. unfold rejects, Spec.invalid, Spec.late, Spec.overflows.
    rewrite Hl, Hpv, Hv. cbn [negb andb Z.eqb]. rewrite !orb_true_iff. unfold UINT64_MAX. intros Hr. guards. nia.
  - assert (H := accept_keeps cap W s t (nanos_nonneg 5 ltac:(lia)) (proj1 (proj1 (proj2 Ht)))).
    intros E. rewrite E in H. by apply elem_of_nil in H.
Qed.

Lemma fed_trade room c s m t :
  fed (Z.max 0 (trade_pv t) + room) c s → test_trade t → 0 ≤ room →
  fed room (addTrade cap t (c, m)).1 (Spec.add cap W s t) ∧ Spec.window (Spec.add cap W s t) ≠ [].
Proof using Hcap.
  intros [Hr Hs Hp Hw Hroom] Ht Hnn. assert (Hf := test_trade_fills s t Ht Hw). destruct Ht as (Hok & Hpr & Hq).
  assert (HW := nanos_nonneg 5 ltac:(lia)). destruct (addTrade_step Hcap W c s t m HW Hr Hs Hok) as (Hr' & Hs' & _).
  assert (Hpv := pv_offered cap W s t Hcap HW Hs Hok).
  split; [|done]. constructor; [done..|by apply priced_add|by right|lia].
Qed.

(** What the loop reads: the reference average after each trade. *)
Fixpoint reference_vwaps (s : Spec.t) (trades : list TradeMessage) : list double :=
  match trades with
  | [] => []
  | t :: trades =>
      let s := Spec.add cap W s t in
      d_div (d_of_Z (Spec.pv s)) (d_of_Z (Spec.volume s)) :: reference_vwaps s trades
  end.

Lemma fed_average room c s :
  fed room c s → Spec.window s ≠ [] → 0 ≤ room →
  vwap_value c = d_div (d_of_Z (Spec.pv s)) (d_of_Z (Spec.volume s)) ∧
  d_le (d_of_Z 13005) (vwap_value c) = true ∧ d_le (vwap_value c) (d_of_Z 15005) = true.
Proof using Hcap.
  intros [Hr Hs Hp _ Hroom] Hw Hnn. assert (HV := window_volume s Hs Hw). split.
  - rewrite (vwap_value_spec _ _ _ Hr). destruct (Z.eqb_spec (Spec.volume s) 0); [lia|done].
  - apply (vwap_value_bounds Hcap W c s); try done; rewrite ?(refines_volume _ _ _ Hr), ?(refines_pv _ _ _ Hr); lia.
Qed.

Lemma measure_reads trades c s m :
  Forall test_trade trades → fed (offered_pv trades) c s →
  (measureVwap cap trades (c, m)).1 = reference_vwaps s trades ∧
  Forall (λ v, d_le (d_of_Z 13005) v = true ∧ d_le v (d_of_Z 15005) = true) (reference_vwaps s trades).
Proof using Hcap.
  intros Ht. revert c s m. induction Ht as [|t trades Ht _ IH]; intros c s m Hf; [by split|].
  rewrite offered_cons in Hf. assert (Hnn := offered_nonneg trades). cbn [measureVwap reference_vwaps].
  destruct (fed_trade _ c s m t Hf Ht Hnn) as [Hf' Hw]. destruct (addTrade cap t (c, m)) as [c1 m1]. cbn [fst] in Hf'.
  destruct (fed_average _ _ _ Hf' Hw Hnn) as [Hv Hb].
  destruct (refresh_refines W c1 _ (fd_refines _ _ _ Hf')) as [Hr2 Hv2].
  destruct (getCurrentVwap c1) as [vwap c2]. cbn [fst snd] in Hr2, Hv2. subst vwap.
  destruct (IH c2 (Spec.add cap W s t) m1) as [Hm Hall]; [by destruct Hf'|].
  destruct (measureVwap cap trades (c2, m1)) as [vwaps sm]. cbn [fst] in Hm |- *. subst vwaps.
  rewrite Hv in Hb |- *. split; [done|by constructor].
Qed.

Lemma process_fed trades room c s m :
  Forall test_trade trades → 0 ≤ room → fed (offered_pv trades + room) c s →
  fed room (process cap trades (c, m)).1 (run cap W s trades).
Proof using Hcap.
  intros Ht Hnn. revert c s m. induction Ht as [|t trades Ht _ IH]; intros c s m Hf; [done|].
  rewrite offered_cons, <- Z.add_assoc in Hf. assert (Hoff := offered_nonneg trades).
  destruct (fed_trade _ c s m t Hf Ht ltac:(lia)) as [Hf' _].
  change (process cap (t :: trades) (c, m)) with (process cap trades (addTrade cap t (c, m))).
  change (run cap W s (t :: trades)) with (run cap W (Spec.add cap W s t) trades).
  destruct (addTrade cap t (c, m)) as [c1 m1]. by apply IH.
Qed.

Context (empty : Q) (Hempty : dq_inv empty) (Hnil : dq_list empty = []).

(** The calculator benchmark: whatever the draws, the readings are the
    reference averages, and all lie in the range of the generated prices. *)
Lemma vwap_benchmark_reads draws (m : SystemMetrics) (times : list Z) (total : double) :
  Forall Draws_ok draws → (length draws ≤ NUM_MESSAGES)%nat →
  let trades := snd <$> generateTestData draws firstTimestamp in
  let vwaps := (benchmarkVwap cap empty (generateTestData draws firstTimestamp) m times total).1.1 in
  vwaps = reference_vwaps (run cap W Spec.init (take WARMUP_MESSAGES trades)) (drop WARMUP_MESSAGES trades) ∧
  Forall (λ v, d_le (d_of_Z 13005) v = true ∧ d_le v (d_of_Z 15005) = true) vwaps.
Proof using Hcap Hempty Hnil.
  intros Hd Hn trades vwaps. assert (Hb := messages_bound _ Hn).
  assert (Ht : Forall test_trade trades).
  { apply Forall_fmap, Forall_lookup. intros i d Hi. by destruct (data_at draws i d Hd Hn Hi). }
  assert (Hfit : offered_pv trades ≤ 2 ^ 51).
  { transitivity (15005000 * Z.of_nat (length trades)); [|unfold trades; rewrite length_fmap, length_data; lia].
    apply offered_bound. eapply Forall_impl; [exact Ht|]. intros t (_ & Hp & Hq). unfold trade_pv. nia. }
  rewrite <- (take_drop WARMUP_MESSAGES trades) in Hfit, Ht. apply Forall_app in Ht as [Ht1 Ht2].
  rewrite offered_app in Hfit. unfold vwaps, benchmarkVwap. cbn [fst]. fold trades.
  assert (Hinit : fed (offered_pv (take WARMUP_MESSAGES trades) + offered_pv (drop WARMUP_MESSAGES trades))
      (VwapCalculator_init cap empty 5) Spec.init).
  { constructor; [by apply init_refines; [..|lia]|apply spec_init_inv|apply priced_init|by left|].
    change (Spec.pv Spec.init) with 0. lia. }
  assert (Hf := process_fed _ _ _ _ m Ht1 (offered_nonneg _) Hinit).
  destruct (process cap _ _) as [c m1]. cbn [fst] in Hf.
  by destruct (measure_reads (drop WARMUP_MESSAGES trades) c _ m1 Ht2 Hf) as [-> ?].
Qed.
End averages.

(** ** The order benchmark measures a manager that never trades *)

Section idle.
Context {Q : Type} {cap : nat} `{!DequeOps VwapTradeRecord Q} `{!Deque VwapTradeRecord Q cap}
  (Hcap : (0 < cap)%nat).
Implicit Types (o : OrderManager.t Q) (m : SystemMetrics).

Abbreviation W := (nanos 5).
Abbreviation state_of trades := (run cap W Spec.init trades).

(** A manager before its first window, and the trades it has seen. *)
Record idle (T : Z) (trades : list TradeMessage) o : Prop := {
  id_inv : om_inv (cap := cap) IBM char_B 100 5 trades [] o;
  id_trades : Forall TradeMessage_ok trades;
  id_young : young T (state_of trades);
  id_waits : currentState o = State.WAITING_FOR_FIRST_WINDOW
}.

Lemma idle_check T trades o : idle T trades o → hasCompleteWindow (vwapCalculator o) = false.
Proof.
  intros Hi. unfold hasCompleteWindow.
  rewrite (rf_complete _ _ _ (om_calc _ _ _ _ _ _ _ (id_inv _ _ _ Hi))), (yg_complete _ _ (id_young _ _ _ Hi)). done.
Qed.

Lemma idle_trade T trades o m t :
  idle T trades o → TradeMessage_ok t → T ≤ Trade.timestamp t < T + W →
  idle T (trades ++ [t]) (processTrade cap t (o, m)).1.
Proof using Hcap.
  intros [Hinv Htr Hyoung Hwait] Ht Hts. assert (Hpos : 0 ≤ Trade.timestamp t) by apply Ht.
  assert (Hy : young T (state_of (trades ++ [t]))) by (rewrite run_snoc; by apply young_add).
  split; [|apply Forall_app_2; [done|by constructor]|done|].
  - by apply (processTrade_inv Hcap).
  - rewrite processTrade_waits; [done|].
    assert (H := addTrade_step Hcap W _ _ t m (nanos_nonneg 5 ltac:(lia)) (om_calc _ _ _ _ _ _ _ Hinv)
      (om_spec _ _ _ _ _ _ _ Hinv) Ht). destruct H as (Hr & _).
    unfold hasCompleteWindow. rewrite (rf_complete _ _ _ Hr), <- run_snoc, (yg_complete _ _ Hy). done.
Qed.

Lemma idle_quote T trades o m q elapsed :
  idle T trades o → Spec.pv (state_of trades) ≤ 2 ^ 51 → QuoteMessage_ok q → validateQuote q = true →
  ∃ o' m', processQuote (World := unit) None q elapsed (o, m, tt) = Some (None, (o', m', tt)) ∧ idle T trades o'.
Proof using Hcap.
  intros Hi Hpv Hok Hval. assert (Hchk := check_waits o (idle_check _ _ _ Hi)). destruct Hi as [Hinv Htr Hyoung Hwait].
  destruct (processQuote_step Hcap (World := unit) None _ _ _ _ _ _ o m tt q elapsed Hinv
    (run_positive Hcap 5 trades ltac:(lia) Htr) Hpv Hok Hval) as (o' & m' & Hq & Hinv' & _ & Hst & _).
  rewrite Hchk in Hq, Hinv', Hst.
  assert (Hv : decide_quote (decisionEngine o) q (vwap_value (vwapCalculator o)) = Wait).
  { unfold decide_quote. rewrite decide_True; [done|]. destruct (om_state _ _ _ _ _ _ _ Hinv) as [_ [_ Hs]].
    destruct (decide (DecisionEngine.currentState (decisionEngine o) = WAITING_FOR_FIRST_WINDOW)) as [|Hn]; [done|].
    specialize (Hs Hn). congruence. }
  rewrite Hv in Hq, Hinv'. exists o', m'. split; [exact Hq|]. split; [done..|congruence].
Qed.

(** A call that the idle manager answers without an order. *)
Definition early (T : Z) (c : op) : Prop :=
  op_ok c ∧ match c with TradeOp t => T ≤ Trade.timestamp t < T + W | QuoteOp _ _ => True end.

Lemma idle_run T ops trades o m :
  idle T trades o → Forall (early T) ops → Spec.pv (state_of trades) + offered_pv (trades_of ops) ≤ 2 ^ 51 →
  ∃ s, run_ops (World := unit) cap None ops (o, m, tt) = Some ([], s).
Proof using Hcap.
  intros Hi Hops. revert trades o m Hi. induction Hops as [|[q elapsed|t] ops [Hc Ht] Hops IH]; intros trades o m Hi Hpv;
    cbn [run_ops trades_of omap list_omap] in *.
  - by eexists.
  - destruct Hc as [Hok Hval]. assert (Hoff := offered_nonneg (trades_of ops)).
    destruct (idle_quote T trades o m q elapsed Hi) as (o' & m' & -> & Hi'); [unfold trades_of in *; lia|done..|].
    cbn [mbind option_bind]. destruct (IH trades o' m' Hi' Hpv) as (s & ->). by exists s.
  - assert (Hi' := idle_trade T trades o m t Hi Hc Ht). destruct (processTrade cap t (o, m)) as [o' m'].
    apply (IH _ o' m' Hi'). fold (trades_of ops) in Hpv. rewrite offered_cons in Hpv.
    assert (Hb := pv_offered cap W _ t Hcap (nanos_nonneg 5 ltac:(lia)) (om_spec _ _ _ _ _ _ _ (id_inv _ _ _ Hi)) Hc).
    rewrite run_snoc. lia.
Qed.

Lemma calls_lookup is_trade data elapsed i :
  calls is_trade data elapsed !! i =
    (λ d : QuoteMessage * TradeMessage, if is_trade i then TradeOp d.2 else QuoteOp d.1 (elapsed i)) <$> data !! i.
Proof. apply list_lookup_imap. Qed.

Lemma calls_ok is_trade draws elapsed :
  Forall Draws_ok draws → (length draws ≤ NUM_MESSAGES)%nat →
  Forall op_ok (calls is_trade (generateTestData draws firstTimestamp) elapsed).
Proof.
  intros Hd Hlen. apply Forall_lookup. intros i c Hc. rewrite calls_lookup in Hc.
  apply fmap_Some in Hc as (d & Hi & ->).
  destruct (data_at draws i d Hd Hlen Hi). by destruct (is_trade i).
Qed.

(** The value of the trades stays far below the bound of the manager. *)
Lemma calls_fit is_trade draws elapsed :
  Forall Draws_ok draws → (length draws ≤ NUM_MESSAGES)%nat →
  offered_pv (trades_of (calls is_trade (generateTestData draws firstTimestamp) elapsed)) ≤ 2 ^ 51.
Proof.
  intros Hd Hlen. assert (Hn := messages_bound _ Hlen). set (data := generateTestData draws firstTimestamp).
  assert (Hb : Forall (λ t, 0 ≤ trade_pv t ≤ 15005000) (trades_of (calls is_trade data elapsed))).
  { apply Forall_forall. intros t (c & Hc & Ht)%list_elem_of_omap. apply list_elem_of_lookup in Hc as (i & Hc).
    rewrite calls_lookup in Hc. apply fmap_Some in Hc as (d & Hi & ->).
    destruct (data_at draws i d Hd Hlen Hi) as [_ _ Hp Hq _].
    destruct (is_trade i); [|done]. injection Ht as <-. unfold trade_pv. nia. }
  assert (Hl : (length (trades_of (calls is_trade data elapsed)) ≤ length draws)%nat).
  { unfold trades_of. etransitivity; [apply length_omap_le|]. unfold calls. rewrite length_imap. unfold data. by rewrite length_data. }
  revert Hb Hl. generalize (trades_of (calls is_trade data elapsed)) as ts. intros ts Hb Hl.
  assert (H := offered_bound _ ts Hb).
  lia.
Qed.

Context (empty : Q) (Hempty : dq_inv empty) (Hnil : dq_list empty = []).
Context (draws : list Draws) (Hdraws : Forall Draws_ok draws) (Hcount : (length draws ≤ NUM_MESSAGES)%nat).
Abbreviation data := (generateTestData draws firstTimestamp).

(** the order benchmark never measures an order.  Whatever the random
    draws, the hundred trades it starts with span less than the window of
    five seconds, so the window is never complete and every measured quote
    is turned away at the first test of the engine: the loop returns, and no
    call has produced an order. *)
Theorem order_benchmark_is_idle (elapsed : nat → Z) (m : SystemMetrics) (times : list Z) (total : double) :
  ∃ s, (benchmarkOrderManager cap empty data elapsed m times total).1 = Some ([], s).
Proof using Hcap Hempty Hnil Hdraws Hcount.
  unfold benchmarkOrderManager, benchmark_calls. cbn [fst].
  destruct (init cap empty IBM char_B 100 5) as [o|] eqn:Hinit; [|done].
  apply (idle_run firstTimestamp _ []).
  - split; [by apply (init_inv Hcap empty)|constructor|apply young_init|by injection Hinit as <-].
  - apply Forall_lookup. intros i c Hc. split.
    { eapply Forall_lookup_1; [by apply (calls_ok (λ i, (i <? 100)%nat) draws elapsed)|exact Hc]. }
    rewrite calls_lookup in Hc. apply fmap_Some in Hc as (d & Hi & ->). destruct (Nat.ltb_spec i 100); [|done].
    destruct (data_at draws i d Hdraws Hcount Hi) as [_ _ _ _ Ht]. unfold nanos in *. lia.
  - assert (H := calls_fit (λ i, (i <? 100)%nat) draws elapsed Hdraws Hcount). change (Spec.pv (state_of [])) with 0. lia.
Qed.

(** The end-to-end loop sends the orders of the reference trader. *)
Lemma end_to_end_orders (elapsed : nat → Z) (m : SystemMetrics) (times : list Z) (total : double) :
  let loop := calls (λ i, (i mod 3 =? 0)%nat) data elapsed in
  ∃ s, (benchmarkEndToEnd cap empty data elapsed m times total).1 =
    Some ((trade_all cap W IBM char_B 100 DEFAULT_COOLDOWN (events_of loop) Trading_init).1, s).
Proof using Hcap Hempty Hnil Hdraws Hcount.
  intros loop. unfold benchmarkEndToEnd, benchmark_calls. cbn [fst].
  destruct (init cap empty IBM char_B 100 5) as [o|] eqn:Hinit; [|done].
  destruct (run_from_init Hcap empty Hempty Hnil (World := unit) None tt IBM char_B 100 5 ltac:(lia) o Hinit loop)
    with (m := m) as (o' & m' & Hr & _).
  - by apply calls_ok.
  - by apply calls_fit.
  - unfold loop, calls. rewrite length_imap, length_data. assert (H := messages_bound _ Hcount). lia.
  - eexists. exact Hr.
Qed.
End idle.

(** ** Examples *)

Module Examples.
#[local] Existing Instances VwapCalculator.Examples.small_ops VwapCalculator.Examples.small_deque.

Definition times : list Z := [5000; 1000; 9000; 0; 2000].

Lemma percentiles_witness :
  ∃ r, calculateStats (micros <$> times) (d_of_Z 1) = Some r ∧ totalMessages r = 5 ∧
    d_le (p50LatencyUs r) (p95LatencyUs r) = true.
Proof.
  destruct (percentiles times (d_of_Z 1)) as (r & H1 & H2 & _ & H3 & _).
  - discriminate.
  - reflexivity.
  - repeat constructor; lia.
  - exists r. split; [exact H1|]. split; [exact H2|exact H3].
Defined.

(** The middle of five measurements, and the largest three times. *)
Example five_times :
  match calculateStats (micros <$> times) (d_of_Z 1) with
  | Some r => (p50LatencyUs r, p95LatencyUs r, p99LatencyUs r, maxLatencyUs r) =
              (d_of_Z 2, d_of_Z 9, d_of_Z 9, d_of_Z 9)
  | None => False
  end.
Proof. vm_compute. reflexivity. Qed.

(** Without measurements the first index is out of range. *)
Example no_times : calculateStats [] (d_of_Z 1) = None.
Proof. reflexivity. Qed.

Definition draw : Draws := mkDraws 200 14000 300 400 5000000 [0; 0; 0; 0] [7; 7; 7; 7].
Abbreviation draws := (replicate 150 draw).

Lemma draws_ok : Forall Draws_ok draws.
Proof. apply Forall_replicate. apply (bool_decide_unpack _). reflexivity. Defined.
Lemma draws_count : (length draws ≤ NUM_MESSAGES)%nat.
Proof. apply Nat.leb_le. reflexivity. Defined.

Lemma order_benchmark_is_idle_witness :
  ∃ s, (benchmarkOrderManager VwapCalculator.Examples.MAX_TRADES VwapCalculator.Examples.empty
          (generateTestData draws firstTimestamp) (λ _, 10) SystemMetrics_init times (d_of_Z 1)).1 = Some ([], s).
Proof.
  exact (order_benchmark_is_idle VwapCalculator.Examples.pos VwapCalculator.Examples.empty
    VwapCalculator.Examples.empty_inv eq_refl draws draws_ok draws_count (λ _, 10) SystemMetrics_init times (d_of_Z 1)).
Defined.
End Examples.
