(* ===== verification/ToolReports.v ===== *)
(** * What the tools print

    The output of the reader of recordings ([src/csv_reader.cpp]), the
    simulator ([src/simulator.cpp], [src/simulator_main.cpp]) and the
    benchmark ([src/benchmark.cpp]), in the manner of [Reports]: a definition
    appends to the streams what the code of its name writes in the state it
    finds.  The last sections are about the lines of a simulator that runs
    verbosely and about the verdict of the benchmark. *)
From Stdlib Require Strings.String.
From S2P Require Import Prelude Binary64 Text Console Metrics Message CircularBuffer VwapCalculator OrderManager Reports.
From S2P Require Import CsvReader Simulator.
From S2P Require Trader Benchmark.
#[local] Open Scope console_scope.

(** ** The reader *)

Module CsvOutput.
Definition loadFile (filePath : list Z) (content : option (list Z)) (r : CSVReader) (con : console) : console :=
  match content with
  | None => con <| cerr ::= λ os, os << "Failed to open CSV file: " << filePath << Endl |>
  | Some content =>
      let '(ok, rs) := load_lines (getlines [] content) false (records r) in
      if negb ok then con <| cerr ::= λ os, os << "Failed to parse CSV header" << Endl |>
      else con <| cout ::= λ os, os << "Loaded " << length rs << " records from " << filePath << Endl |>
  end.
End CsvOutput.

(** ** The simulator *)

Module SimulatorOutput.
Definition printUsage (programName : list Z) (os : ostream) : ostream :=
  os << "Usage: " << programName << " [options]" << Char 10
     << "Options:" << Char 10
     << "  -p, --port PORT          Server port (default: 9090)" << Char 10
     << "  -s, --symbol SYMBOL      Stock symbol (default: IBM)" << Char 10
     << "  --scenario TYPE          Market scenario: steady, up, down, volatile, csv" << Char 10
     << "  --price PRICE           Base price (default: 140.00)" << Char 10
     << "  --volatility VOL        Price volatility (default: 0.02)" << Char 10
     << "  --rate MSGS_PER_SEC     Message rate (default: 10)" << Char 10
     << "  --duration SECONDS      Run duration, 0 for infinite (default: 60)" << Char 10
     << "  --csv FILE              CSV file for replay" << Char 10
     << "  --replay-speed SPEED    CSV replay speed multiplier (default: 1.0)" << Char 10
     << "  -v, --verbose           Verbose output" << Char 10
     << "  -h, --help              Show this help" << Char 10.

(** The constructor. *)
Definition init (cfg : SimulatorConfig) (content : option (list Z)) (con : console) : console :=
  match SimConfig.scenario cfg with
  | CSV_REPLAY =>
      if (length (SimConfig.csvPath cfg) =? 0)%nat then con else
      let con := CsvOutput.loadFile (SimConfig.csvPath cfg) content CSVReader_init con in
      let '(ok, csvReader) := loadFile content CSVReader_init in
      if ok : bool then
        con <| cout ::= λ os, os << "CSV replay engine initialized with "
                                 << getTotalRecords (CSVReplayEngine_init (Some csvReader) (SimConfig.replaySpeed cfg))
                                 << " records" << Endl |>
      else con <| cerr ::= λ os, os << "Failed to load CSV file: " << SimConfig.csvPath cfg << Endl |>
  | _ => con
  end.

Definition setupSocket (env : SetupEnv) (s : Simulator) (con : console) : console :=
  if socket_result env <? 0 then con <| cerr ::= λ os, os << "Failed to create socket" << Endl |> else
  if negb (setsockopt_ok env) then con <| cerr ::= λ os, os << "Failed to set socket options" << Endl |> else
  if negb (bind_ok env) then
    con <| cerr ::= λ os, os << "Failed to bind to port " << SimConfig.port (config s) << Endl |> else
  if negb (listen_ok env) then con <| cerr ::= λ os, os << "Failed to listen on socket" << Endl |> else
  if SimConfig.verbose (config s) then
    con <| cout ::= λ os, os << "Simulator listening on port " << SimConfig.port (config s) << Endl |>
  else con.

Definition start (env : SetupEnv) (s : Simulator) (con : console) : console :=
  if running s then con else setupSocket env s con.

(** The address of the client is the kernel's. *)
Definition acceptClients (accepted : option (list Z * Z)) (s : Simulator) (os : ostream) : ostream :=
  match accepted with
  | Some (addr, port) =>
      if SimConfig.verbose (config s) then os << "Client connected from " << addr << ":" << port << Endl else os
  | None => os
  end.

(** The sending changes none of the members that are printed. *)
Definition broadcastMessage (s : Simulator) (os : ostream) : ostream :=
  if SimConfig.verbose (config s) && (sequenceNumber s mod 10 =? 0)%Z then
    os << "Sent message #" << sequenceNumber s
       << " (Bid: " << currentBid s
       << ", Ask: " << currentAsk s << ")" << Endl
  else os.

Definition replayFromCSV (t : Tick) (s : Simulator) (con : console) : option console :=
  let verbose := SimConfig.verbose (config s) in
  let symbol := SimConfig.symbol (config s) in
  match csvReplayEngine s with
  | None =>
      Some (if verbose then
              con <| cerr ::= λ os, os << "CSV replay engine not initialized, falling back to steady prices" << Endl |>
            else con)
  | Some engine =>
      '(emitted, engine) ← getNextMessage (t_replay t) engine;
      match emitted with
      | Some record =>
          match Csv.type record, Csv.data record with
          | Csv.QUOTE, Csv.QuoteData bp _ ap _ =>
              let s := s <| currentBid := bp |> <| currentAsk := ap |> in
              let con := con <| cout ::= broadcastMessage s |> in
              Some (if verbose then
                      con <| cout ::= λ os, os << "[CSV] Quote: " << symbol
                                               << " Bid: $" << currentBid s
                                               << " Ask: $" << currentAsk s
                                               << " Progress: " << getProgress engine << "%"
                                               << Endl |>
                    else con)
          | Csv.TRADE, Csv.TradeData p q =>
              let con := con <| cout ::= broadcastMessage s |> in
              Some (if verbose then
                      con <| cout ::= λ os, os << "[CSV] Trade: " << symbol
                                               << " Price: $" << p
                                               << " Qty: " << q
                                               << Endl |>
                    else con)
          | _, _ => None
          end
      | None =>
          Some (if ((getTotalRecords engine <=? getPosition engine)%nat && verbose)%bool then
                  con <| cout ::= λ os, os << "CSV replay completed, restarting..." << Endl |>
                else con)
      end
  end.

(** One turn that is due: the replay, then the line of the regular message,
    printed at the prices that the replay or the generator has set. *)
Definition emit (t : Tick) (s : Simulator) (con : console) : option console :=
  con ← match SimConfig.scenario (config s) with CSV_REPLAY => replayFromCSV t s con | _ => Some con end;
  s ← generatePrices t s;
  Some (con <| cout ::= broadcastMessage s |>).

Fixpoint generateMarketData (ticks : list Tick) (startTime lastMessageTime : Z) (s : Simulator) (con : console)
  : option console :=
  match ticks with
  | [] => Some con
  | t :: ticks =>
      if shouldStop s then Some con else
      if ((0 <? SimConfig.duration (config s)) &&
          (SimConfig.duration (config s) <=? Z.quot (t_now t - startTime) 1000000000))%bool
      then Some con
      else if messageInterval s <=? Z.quot (t_now t - lastMessageTime) 1000
      then
        con ← emit t s con;
        s ← Simulator.emit t s;
        generateMarketData ticks startTime (t_now t) s con
      else generateMarketData ticks startTime lastMessageTime s con
  end.

Definition signalHandler (shouldExit : bool) (signal : Z) (con : console) : bool * console :=
  if (signal =? Trader.SIGINT) || (signal =? Trader.SIGTERM)
  then (true, con <| cout ::= λ os, os << ln "Shutting down simulator..." << Endl |>)
  else (shouldExit, con).

Definition scenario_name (scenario : MarketScenario) : list Z :=
  match scenario with
  | STEADY => bytes "Steady"
  | TRENDING_UP => bytes "Trending Up"
  | TRENDING_DOWN => bytes "Trending Down"
  | VOLATILE => bytes "Volatile"
  | CSV_REPLAY => bytes "CSV Replay"
  end.

Definition print_header (config : SimulatorConfig) (os : ostream) : ostream :=
  let os := os << "Starting Market Data Simulator" << Char 10
               << "  Port: " << SimConfig.port config << Char 10
               << "  Symbol: " << SimConfig.symbol config << Char 10
               << "  Scenario: " << scenario_name (SimConfig.scenario config) in
  let os := os << ln "  Base Price: $" << SimConfig.basePrice config
               << ln "  Rate: " << SimConfig.messagesPerSecond config << " msgs/sec"
               << ln "  Duration: " in
  let os := if SimConfig.duration config =? 0 then os << "Infinite (press Ctrl+C to stop)"
            else os << SimConfig.duration config << " seconds" in
  os << [10; 10].

(** [main]: [life] is what the threads and the signal handler print while
    [main] waits; [None] after an exception, with what was printed before it
    lost from sight. *)
Definition main (programName : list Z) (args : list (list Z)) (files : list Z → option (list Z)) (now : Z)
    (env : SetupEnv) (life : console → console) : option console :=
  match parseCommandLine args SimConfig.default with
  | Exits => Some (console_init <| cout ::= printUsage programName |>)
  | Throws => None
  | Parsed config =>
      let content := files (SimConfig.csvPath config) in
      let con := init config content console_init in
      let simulator := Simulator_init config content now in
      let con := con <| cout ::= print_header config |> in
      let con := start env simulator con in
      let '(ok, _) := Simulator_start env simulator in
      if negb ok then Some (con <| cerr ::= λ os, os << "Failed to start simulator" << Endl |>) else
      let con := con <| cout ::= λ os, os << "Simulator is running. Waiting for connections..." << Endl |> in
      Some (life con <| cout ::= λ os, os << "Simulator stopped." << Endl |>)
  end.
End SimulatorOutput.

(** ** The benchmark *)

Module BenchmarkOutput.
Import Benchmark.

Definition printResult (name : list Z) (result : BenchmarkResult) (os : ostream) : ostream :=
  os << ln "" << name << " Performance:" << Endl
     << "  Mean latency:    " << Fixed << Setprecision 3 << meanLatencyUs result << " µs" << Endl
     << "  P50 latency:     " << p50LatencyUs result << " µs" << Endl
     << "  P95 latency:     " << p95LatencyUs result << " µs" << Endl
     << "  P99 latency:     " << p99LatencyUs result << " µs" << Endl
     << "  Max latency:     " << maxLatencyUs result << " µs" << Endl
     << "  Throughput:      " << Fixed << Setprecision 1 << d_div (throughput result) (d_of_Z 1000000)
     << " M msg/sec" << Endl.

Definition printMetric (name : list Z) (original optimized : double) (os : ostream) : ostream :=
  let improvement := d_mul (d_div (d_sub original optimized) original) (d_of_Z 100) in
  os << Left << Setw 15 << name << " | "
     << Right << Setw 9 << Fixed << Setprecision 2 << original << " | "
     << Setw 9 << optimized << " | "
     << Setw 10 << improvement << "%" << Endl.

Definition printThroughput (name : list Z) (original optimized : double) (os : ostream) : ostream :=
  let improvement := d_mul (d_div (d_sub optimized original) original) (d_of_Z 100) in
  os << Left << Setw 15 << name << " | "
     << Right << Setw 9 << Fixed << Setprecision 0 << original << " | "
     << Setw 9 << optimized << " | "
     << Setw 10 << Setprecision 1 << improvement << "%" << Endl.

Definition printComparison (name : list Z) (original optimized : BenchmarkResult) (os : ostream) : ostream :=
  let os := os << ln "" << name << " Comparison:" << Endl
               << "Metric          | Original  | Optimized | Improvement" << Endl
               << "----------------|-----------|-----------|-------------" << Endl in
  let os := printMetric (bytes "Mean (µs)") (meanLatencyUs original) (meanLatencyUs optimized) os in
  let os := printMetric (bytes "P50 (µs)") (p50LatencyUs original) (p50LatencyUs optimized) os in
  let os := printMetric (bytes "P95 (µs)") (p95LatencyUs original) (p95LatencyUs optimized) os in
  let os := printMetric (bytes "P99 (µs)") (p99LatencyUs original) (p99LatencyUs optimized) os in
  let os := printMetric (bytes "Max (µs)") (maxLatencyUs original) (maxLatencyUs optimized) os in
  printThroughput (bytes "Throughput") (throughput original) (throughput optimized) os.

Definition printSummary (os : ostream) : ostream :=
  os << ln "=========================================" << Endl
     << "      PERFORMANCE FEATURES SUMMARY" << Endl
     << "=========================================" << Endl
     << "✓ Stack-based message types eliminate allocations" << Endl
     << "✓ Circular buffer for VWAP maintains O(1) operations" << Endl
     << "✓ Memory pools reduce allocation overhead" << Endl
     << "✓ Move semantics prevent unnecessary copies" << Endl
     << "✓ Cached VWAP values reduce redundant calculations" << Endl
     << "✓ Batch processing for expired trades" << Endl
     << ln "Target: <1ms end-to-end latency ✓ ACHIEVED" << Endl
     << "=========================================" << Endl.

Definition NUM_ALLOCS : Z := 100000.

(** The vectors are freed as they are made; what is left is the time.
    [None]: a number of operations beyond [size_t]. *)
Definition benchmarkMemoryAllocations (nanos : Z) (os : ostream) : option ostream :=
  let dynamicTimeUs := micros nanos in
  ops ← d_to_u64 (d_div (d_of_Z NUM_ALLOCS) (d_div dynamicTimeUs (d_of_Z 1000000)));
  Some (os << "Allocation Type    | Time (µs) | Ops/sec" << Endl
           << "-------------------|-----------|----------" << Endl
           << "Dynamic (new/del)  | " << Setw 9 << Fixed << Setprecision 2
           << d_div dynamicTimeUs (d_of_Z NUM_ALLOCS) << " | "
           << Setw 8 << ops << Endl).

(** What the manager prints during a loop. *)
Section loops.
Context {moved : MovedString} {Q : Type} `{DequeOps VwapTradeRecord Q} (MAX_TRADES : nat) (emptyWindow : Q).

Fixpoint prints_ops (ops : list OrderManager.op) (s : OrderManager.t Q * SystemMetrics * unit) (os : ostream) : option ostream :=
  match ops with
  | [] => Some os
  | OrderManager.QuoteOp q elapsed :: ops =>
      let '(o, m, w) := s in
      let os := ManagerOutput.processQuote q elapsed (o, m) os in
      '(_, s) ← OrderManager.processQuote None q elapsed s;
      prints_ops ops s os
  | OrderManager.TradeOp trade :: ops =>
      let '(o, m, w) := s in
      let os := ManagerOutput.processTrade MAX_TRADES trade (o, m) os in
      let '(o, m) := OrderManager.processTrade MAX_TRADES trade (o, m) in
      prints_ops ops (o, m, w) os
  end.

(** A manager's life in a benchmark: its constructor, then the calls. *)
Definition prints_calls (calls : list OrderManager.op) (m : SystemMetrics) (os : ostream) : option ostream :=
  match OrderManager.init MAX_TRADES emptyWindow IBM char_B 100 5 with
  | inl manager => prints_ops calls (manager, m, tt) (ManagerOutput.init IBM char_B 100 5 os)
  | inr _ => None
  end.

(** The clock readings of the three measured loops and of the allocations, and
    what the engine's latency scopes read in each order loop. *)
Record Readings := mkReadings {
  r_vwap : list Z; r_order : list Z; r_e2e : list Z;
  r_vwap_total : double; r_order_total : double; r_e2e_total : double;
  r_alloc : Z; r_elapsed : nat → Z; r_elapsed' : nat → Z }.

Definition section_title (number_and_name rule : String.string) (os : ostream) : ostream :=
  os << ln number_and_name << Endl << rule << Endl.
Arguments section_title (number_and_name rule)%_string_scope.

Definition runAllBenchmarks (data : list (QuoteMessage * TradeMessage)) (r : Readings) (m : SystemMetrics) (os : ostream)
  : option ostream :=
  let os := os << ln "=========================================" << Endl
               << "    VWAP Trading System Performance" << Endl
               << "           Benchmark Results" << Endl
               << "=========================================" << Endl in
  let os := section_title "1. VWAP CALCULATOR PERFORMANCE" "-------------------------------" os in
  let '((_, (_, m)), result) := benchmarkVwap MAX_TRADES emptyWindow data m (r_vwap r) (r_vwap_total r) in
  vwapResult ← result;
  let os := printResult (bytes "VWAP Calculation") vwapResult os in
  let os := section_title "2. ORDER MANAGER PERFORMANCE" "-----------------------------" os in
  let '(run, result) := benchmarkOrderManager MAX_TRADES emptyWindow data (r_elapsed r) m (r_order r) (r_order_total r) in
  os ← prints_calls (calls (λ i, (i <? 100)%nat) data (r_elapsed r)) m os;
  '(_, (_, m, _)) ← run;
  orderResult ← result;
  let os := printResult (bytes "Order Processing") orderResult os in
  let os := section_title "3. MEMORY ALLOCATION PERFORMANCE" "---------------------------------" os in
  os ← benchmarkMemoryAllocations (r_alloc r) os;
  let os := section_title "4. END-TO-END LATENCY" "----------------------" os in
  let '(run, result) := benchmarkEndToEnd MAX_TRADES emptyWindow data (r_elapsed' r) m (r_e2e r) (r_e2e_total r) in
  os ← prints_calls (calls (λ i, (i mod 3 =? 0)%nat) data (r_elapsed' r)) m os;
  '(_, _) ← run;
  e2eResult ← result;
  let os := printResult (bytes "End-to-End") e2eResult os in
  Some (printSummary os).
End loops.
End BenchmarkOutput.

(** ** The lines of a verbose simulator *)

Import SimulatorOutput.

(** The line for message [n] at the prices [p]. *)
Definition sent_line (n : Z) (p : double * double) : list Z :=
  bytes "Sent message #" ++ signed_digits n ++ bytes " (Bid: " ++ general_text 6 p.1 ++ bytes ", Ask: " ++
  general_text 6 p.2 ++ bytes ")" ++ [10].

(** A stream in its initial format. *)
Definition default_format (os : ostream) : Prop := width os = 0 ∧ precision os = 6%nat ∧ fixedfield os = false.

(** [os'] is [os] and the text [s]. *)
Definition gains (os : ostream) (s : list Z) (os' : ostream) : Prop :=
  text os' = text os ++ s ∧ (default_format os → default_format os').

Lemma broadcastMessage_line s os :
  default_format os → SimConfig.verbose (config s) = true →
  gains os (if sequenceNumber s mod 10 =? 0 then sent_line (sequenceNumber s) (currentBid s, currentAsk s) else [])
    (broadcastMessage s os).
Proof.
  destruct os as [t w p f l]. intros (Hw & Hp & Hf) Hv. cbn in Hw, Hp, Hf. subst. unfold broadcastMessage. rewrite Hv. cbn [andb].
  destruct (_ =? 0); [|by split; [rewrite app_nil_r|]]. autorewrite with console. split; [|done]. cbn [text].
  unfold sent_line. by rewrite <- !app_assoc.
Qed.

(** The multiples of ten among the numbers of the messages. *)
Definition tenths (from count : Z) : list Z := filter (λ n, n mod 10 = 0) (seqZ from count).

Lemma tenths_next n k : 0 ≤ k → tenths n (1 + k) = (if n mod 10 =? 0 then [n] else []) ++ tenths (n + 1) k.
Proof.
  intros Hk. unfold tenths. rewrite (seqZ_cons n (1 + k)) by lia. replace (Z.pred (1 + k)) with k by lia. rewrite filter_cons.
  replace (Z.succ n) with (n + 1) by lia. destruct (Z.eqb_spec (n mod 10) 0); by case_decide.
Qed.

(** One turn that makes up its prices. *)
Lemma emit_line t s s' con con' :
  SimConfig.scenario (config s) ≠ CSV_REPLAY → SimConfig.verbose (config s) = true → default_format (cout con) →
  Simulator.emit t s = Some s' → emit t s con = Some con' →
  ∃ prices, gains (cout con) (if sequenceNumber s mod 10 =? 0 then sent_line (sequenceNumber s) prices else []) (cout con').
Proof.
  intros Hsc Hv Hcon _. unfold emit. destruct (match SimConfig.scenario (config s) with CSV_REPLAY => _ | _ => _ end) as [con1|] eqn:Hc;
    cbn [mbind option_bind]; [|done].
  assert (con1 = con) as -> by (destruct (SimConfig.scenario (config s)); congruence).
  destruct (generatePrices t s) as [s2|] eqn:Hg; cbn [mbind option_bind]; [|done]. intros [= <-].
  apply generatePrices_frame in Hg as (_ & Hcfg & Hseq). exists (currentBid s2, currentAsk s2). rewrite <- Hseq.
  apply broadcastMessage_line; [done|by rewrite Hcfg].
Qed.

(** The text of a run: one line for every tenth number from [from] on. *)
Definition announces (from count : Z) (os os' : ostream) : Prop :=
  ∃ prices, length prices = length (tenths from count) ∧
    gains os (concat (zip_with sent_line (tenths from count) prices)) os'.

Lemma announces_none n os : announces n (n - n) os os.
Proof. exists []. rewrite Z.sub_diag. split; [done|]. by split; [rewrite app_nil_r|]. Qed.

Lemma announces_next n k p os os1 os2 :
  0 ≤ k → gains os (if n mod 10 =? 0 then sent_line n p else []) os1 → announces (n + 1) k os1 os2 →
  announces n (1 + k) os os2.
Proof.
  intros Hk [Ht Hf] (prices & Hl & Ht' & Hf'). exists ((if n mod 10 =? 0 then [p] else []) ++ prices).
  rewrite tenths_next by done. split; [rewrite !length_app, Hl; by destruct (_ =? 0)|]. split; [|by auto].
  rewrite Ht', Ht, <- app_assoc. by destruct (_ =? 0).
Qed.

(** A simulator that makes up its prices and runs verbosely announces every
    tenth message, once: in a run of the data thread during which the number
    goes from [sequenceNumber s] to [sequenceNumber s'], a line is printed for
    every multiple of ten in between, in order, and nothing else. *)
Lemma sent_lines (ticks : list Tick) (startTime last : Z) (s s' : Simulator) (con con' : console) :
  SimConfig.scenario (config s) ≠ CSV_REPLAY → SimConfig.verbose (config s) = true → default_format (cout con) →
  0 ≤ sequenceNumber s → sequenceNumber s + Z.of_nat (length ticks) < 2 ^ 64 →
  Simulator.generateMarketData ticks startTime last s = Some s' →
  generateMarketData ticks startTime last s con = Some con' →
  sequenceNumber s ≤ sequenceNumber s' ∧
  announces (sequenceNumber s) (sequenceNumber s' - sequenceNumber s) (cout con) (cout con').
Proof.
  revert last s con. induction ticks as [|t ticks IH]; intros last s con Hsc Hv Hcon Hn Hlen;
    cbn [generateMarketData Simulator.generateMarketData].
  { intros [= <-] [= <-]. split; [lia|apply announces_none]. }
  destruct (shouldStop s). { intros [= <-] [= <-]. split; [lia|apply announces_none]. }
  cbn [length] in Hlen. destruct (_ && _). { intros [= <-] [= <-]. split; [cbn; lia|apply (announces_none (sequenceNumber s))]. }
  destruct (messageInterval s <=? _); [|apply IH; (done || lia)].
  destruct (Simulator.emit t s) as [s1|] eqn:He; cbn [mbind option_bind]; [|by destruct (emit t s con)].
  destruct (emit t s con) as [con1|] eqn:Hp; cbn [mbind option_bind]; [|done]. intros Hrun Hout.
  destruct (emit_line t s s1 con con1 Hsc Hv Hcon He Hp) as [p Hline].
  apply emit_counts in He as (_ & Hcfg & Hseq). rewrite u64_small in Hseq by lia.
  destruct (IH (t_now t) s1 con1) as (Hle & Hrest); [by rewrite Hcfg|by rewrite Hcfg|by apply (proj2 Hline)|lia|lia|done|done|].
  split; [lia|]. replace (sequenceNumber s' - sequenceNumber s) with (1 + (sequenceNumber s' - sequenceNumber s1)) by lia.
  rewrite Hseq in Hrest at 1. eapply announces_next; [lia|exact Hline|exact Hrest].
Qed.

(** ** The verdict of the benchmark *)

Import BenchmarkOutput.

Definition verdict : list Z := text (printSummary ostream_init).

Lemma printResult_width name result os : width (printResult name result os) = 0.
Proof. reflexivity. Qed.

Lemma printSummary_text os : width os = 0 → text (printSummary os) = text os ++ verdict.
Proof.
  destruct os as [t w p f l]. cbn [width]. intros ->. unfold printSummary, verdict, ostream_init.
  autorewrite with console. cbn [text]. by rewrite <- !app_assoc.
Qed.

(** The benchmark reports its target of a millisecond as achieved whatever it
    has measured: a run that ends prints the same summary at its end. *)
Lemma verdict_is_fixed {moved : MovedString} {Q} `{DequeOps VwapTradeRecord Q} (MAX_TRADES : nat) (emptyWindow : Q)
    (data : list (QuoteMessage * TradeMessage)) (r : Readings) (m : SystemMetrics) (os os' : ostream) :
  runAllBenchmarks MAX_TRADES emptyWindow data r m os = Some os' → ∃ measured, text os' = measured ++ verdict.
Proof.
  unfold runAllBenchmarks. destruct (Benchmark.benchmarkVwap _ _ _ _ _ _) as [[vwaps [c m1]] [vwapResult|]]; [|done].
  destruct (Benchmark.benchmarkOrderManager _ _ _ _ _ _ _) as [run orderResult]. cbn [mbind option_bind].
  destruct (prints_calls _ _ _ _ _) as [os1|]; [|done]. cbn [mbind option_bind]. destruct run as [[orders [[o m2] w]]|]; [|done].
  cbn [mbind option_bind]. destruct orderResult as [orderResult|]; [|done]. cbn [mbind option_bind].
  destruct (benchmarkMemoryAllocations _ _) as [os2|]; [|done]. cbn [mbind option_bind].
  destruct (Benchmark.benchmarkEndToEnd _ _ _ _ _ _ _) as [run e2eResult].
  destruct (prints_calls _ _ _ _ _) as [os3|]; [|done]. cbn [mbind option_bind]. destruct run as [[orders' s']|]; [|done].
  cbn [mbind option_bind]. destruct e2eResult as [e2eResult|]; [|done]. cbn [mbind option_bind]. intros [= <-].
  eexists. by apply printSummary_text.
Qed.

(** ** Examples *)

Module ToolExamples.
Import SimExamples.

(** A replaying simulator broadcasts twice in a turn, and prints its tenth
    line twice: the sequence number is counted once. *)
Definition verbose (s : Simulator) : Simulator := s <| config ::= λ c, c <| SimConfig.verbose := true |> |>.
Example replayed_line_twice :
  (text ∘ cout) <$> emit (at_time 1000000000) (verbose replaying) console_init =
    Some (bytes "Sent message #0 (Bid: 139.99, Ask: 140.01)" ++ [10] ++
          bytes "[CSV] Trade: IBM Price: $140 Qty: 50" ++ [10] ++
          bytes "Sent message #0 (Bid: 139.99, Ask: 140.01)" ++ [10]).
Proof. vm_compute. reflexivity. Qed.

(** Every latency is two seconds, and the target of a millisecond is
    reported as achieved. *)
#[local] Existing Instances VwapCalculator.Examples.small_ops VwapCalculator.Examples.small_deque libstdcxx_moved.
Definition slow : Readings :=
  let times := replicate 5 2000000000 in
  mkReadings times times times (d_of_Z 10) (d_of_Z 10) (d_of_Z 10) 1000000000 (λ _, 0) (λ _, 0).
Abbreviation slow_run :=
  (runAllBenchmarks VwapCalculator.Examples.MAX_TRADES VwapCalculator.Examples.empty
    (Benchmark.generateTestData (replicate 5 Benchmark.Examples.draw) Benchmark.firstTimestamp) slow SystemMetrics_init
    ostream_init).
Example slow_run_achieved : ∃ os measured, slow_run = Some os ∧ text os = measured ++ verdict.
Proof.
  assert (Hends : match slow_run with Some _ => true | None => false end = true) by (vm_compute; reflexivity).
  destruct slow_run as [os|] eqn:Hrun; [|discriminate Hends].
  destruct (verdict_is_fixed _ _ _ _ _ _ _ Hrun) as [measured H]. exists os, measured. split; [reflexivity|exact H].
Qed.

(** The exit of a simulator that cannot bind its port. *)
Example port_in_use :
  (text ∘ cerr) <$> SimulatorOutput.main (bytes "sim") [] (λ _, None) 0 (mkSetupEnv 3 true false true) id =
    Some (bytes "Failed to bind to port 9090" ++ [10] ++ bytes "Failed to start simulator" ++ [10]).
Proof. vm_compute. reflexivity. Qed.
End ToolExamples.
