(* ===== verification/RepositoryTests.v ===== *)
(** * The repository's own tests ([src/tests/])

    The deterministic tests of the calculator, of the order manager, of the
    parser and serializer and of the message buffer, replayed on the model
    with the capacity of the code (10000 trades): an [Example] per test, named
    after it, whose statement is what the test checks.  Most of them hold.
    Where the program does something else than its test asks for, the example
    states what it does, and its comment says that the test fails.  Not here
    are the tests that need sockets, threads, clocks or random data, those
    with thousands of trades, and those that call what this commit does not
    have ([header.reserved] but for its arithmetic, [runtime_config.h],
    [symbol_intern.h], an [evaluateQuote] with an output parameter). *)
From Stdlib Require Import SpecFloat.
From stdpp Require Import strings.
From S2P Require Import Prelude Binary64 Text Metrics Message MessageSerializer MessageParser MessageBuffer CircularBuffer VwapSpec VwapCalculator DecisionEngine TradingSpec OrderManager.
Import WireFormat.

(** ** Helpers of the tests *)

Definition NS : Z := 1000000000.
Definition baseTime : Z := 1000 * NS.
Definition name (s : list Z) : list Z := take 8 (s ++ replicate 8 0).
Definition TEST : list Z := [84; 69; 83; 84].
Definition IBM : list Z := [73; 66; 77].
Definition createTrade (ts qty px : Z) : TradeMessage := Trade.mk (name TEST) ts qty px.
Definition createQuote (ts bid bidQty ask askQty : Z) : QuoteMessage := Quote.mk (name TEST) ts bidQty bid askQty ask.

(** A decimal literal, and [compareDouble] with a tolerance. *)
Definition lit (n d : Z) : double := d_ratio false n d.
Definition near (x expected tolerance : double) : bool := d_lt (SFabs (d_sub x expected)) tolerance.
Definition cent : double := lit 1 100.

Definition calculator (windowSeconds : Z) (trades : list TradeMessage) : VwapCalculator VwapWindowBuffer :=
  (process VwapWindowBuffer_capacity trades
     (VwapCalculator_init VwapWindowBuffer_capacity (CircularBuffer.init VwapWindowBuffer_capacity) windowSeconds,
      SystemMetrics_init)).1.
Definition vwap (c : VwapCalculator VwapWindowBuffer) : double := (getCurrentVwap c).1.
Definition tradeCount (c : VwapCalculator VwapWindowBuffer) : nat := dq_size (tradeWindow c).

(** A manager, and one after a sequence of calls with the orders these
    returned. *)
Definition made (side maxSize windowSeconds : Z) : OrderManager.t VwapWindowBuffer + string :=
  OrderManager.init VwapWindowBuffer_capacity (CircularBuffer.init VwapWindowBuffer_capacity) TEST side maxSize windowSeconds.
Definition manager (side maxSize windowSeconds : Z) (ops : list OrderManager.op)
  : option (list OrderMessage * OrderManager.t VwapWindowBuffer) :=
  match made side maxSize windowSeconds with
  | inl o =>
      match OrderManager.run_ops VwapWindowBuffer_capacity (World := unit) None ops (o, SystemMetrics_init, tt) with
      | Some (orders, (o, _, _)) => Some (orders, o)
      | None => None
      end
  | inr _ => None
  end.
Definition traded (ts qty px : Z) : OrderManager.op := OrderManager.TradeOp (createTrade ts qty px).
Definition quoted_ (ts bid bidQty ask askQty : Z) : OrderManager.op :=
  OrderManager.QuoteOp (createQuote ts bid bidQty ask askQty) 0.

(** What the tests look at: of the orders, side, price and quantity. *)
Definition seen (o : OrderMessage) : Z * Z * Z := (Order.side o, Order.price o, Order.quantity o).
Definition orders (run : option (list OrderMessage * OrderManager.t VwapWindowBuffer)) : option (list (Z * Z * Z)) :=
  match run with Some (os, _) => Some (map seen os) | None => None end.
Definition state (run : option (list OrderMessage * OrderManager.t VwapWindowBuffer)) : option OrderManager.State.t :=
  match run with Some (_, o) => Some (OrderManager.currentState o) | None => None end.

(** ** [test_vwap.cpp], [test_vwap_window.cpp] *)

Example testBasicVwapCalculation :
  near (vwap (calculator 30 [createTrade (1 * NS) 100 13900; createTrade (2 * NS) 200 13950; createTrade (3 * NS) 150 13925]))
    (lit 1393056 100) cent = true.
Proof. vm_compute. reflexivity. Qed.

Example testSlidingWindow :
  near (vwap (calculator 2 [createTrade baseTime 100 14000; createTrade (baseTime + NS) 200 14100;
                            createTrade (baseTime + 2500000000) 300 14200])) (d_of_Z 14160) cent = true.
Proof. vm_compute. reflexivity. Qed.

Example testEmptyWindow : vwap (calculator 1 []) = dzero.
Proof. vm_compute. reflexivity. Qed.

Example testSingleTrade : near (vwap (calculator 30 [createTrade NS 100 14500])) (d_of_Z 14500) cent = true.
Proof. vm_compute. reflexivity. Qed.

Example testWindowCompletion :
  hasCompleteWindow (calculator 1 [createTrade baseTime 100 14000]) = false ∧
  hasCompleteWindow (calculator 1 [createTrade baseTime 100 14000; createTrade (baseTime + NS) 100 14000]) = true.
Proof. vm_compute. done. Qed.

Definition invalid := calculator 30 [createTrade NS 100 14000; createTrade (2 * NS) 0 14000; createTrade (3 * NS) 100 0;
                                     createTrade (4 * NS) 100 (-100)].
Example testInvalidTrades : tradeCount invalid = 1%nat ∧ near (vwap invalid) (d_of_Z 14000) cent = true.
Proof. vm_compute. done. Qed.

Example testOverflowProtection : vwap (calculator 30 [createTrade NS 1000000 100000]) = d_of_Z 100000.
Proof. vm_compute. reflexivity. Qed.

Example testPrecision :
  near (vwap (calculator 30 [createTrade NS 100 13901; createTrade (2 * NS) 100 13902; createTrade (3 * NS) 100 13903]))
    (d_of_Z 13902) cent = true.
Proof. vm_compute. reflexivity. Qed.

Example testContinuousWindow :
  near (vwap (calculator 2 ((λ i, createTrade (baseTime + Z.of_nat i * NS) 100 (14000 + Z.of_nat i * 10)) <$> seq 0 5)))
    (d_of_Z 14030) cent = true.
Proof. vm_compute. reflexivity. Qed.

(** The trade on the boundary does not push anything out; the average is that
    of all three. *)
Example testBoundaryExclusion :
  let c := calculator 1 [createTrade (NS + 10) 100 10000; createTrade (NS + 900000000) 100 20000; createTrade (2 * NS) 100 30000] in
  tradeCount c = 3%nat ∧ d_to_i32 (vwap c) = Some 20000.
Proof. vm_compute. done. Qed.

Definition large := [createTrade 1000 2 2000000000; createTrade 2000 2 2000000000; createTrade 3000 (2 ^ 32 - 1) (2 ^ 31 - 1)].
Example testOverflowRejection :
  let c := calculator 10 large in d_lt dzero (vwap c) = true ∧ rejectedTrades (calculator 10 (take 2 large)) <=? rejectedTrades c = true.
Proof. vm_compute. done. Qed.

(** ** [test_vwap_accuracy.cpp] *)

Example known_input_output_1 :
  near (vwap (calculator 10 [createTrade NS 100 10000; createTrade (2 * NS) 100 10200; createTrade (3 * NS) 100 10400]))
    (d_of_Z 10200) cent = true.
Proof. vm_compute. reflexivity. Qed.

(** Fails.  The test expects 10175; the average of 200 at 10000, 100 at 10500
    and 300 at 10200 is 6110000 / 600 = 10183.33, and this is what the
    calculator gives. *)
Definition known_2 := calculator 10 [createTrade NS 200 10000; createTrade (2 * NS) 100 10500; createTrade (3 * NS) 300 10200].
Example known_input_output_2 :
  near (vwap known_2) (d_of_Z 10175) cent = false ∧ near (vwap known_2) (lit 1018333 100) cent = true.
Proof. vm_compute. done. Qed.

Example fractional_penny_precision :
  near (vwap (calculator 10 [createTrade NS 333 10001; createTrade (2 * NS) 667 10002])) (lit 10001667 1000) (lit 1 1000) = true.
Proof. vm_compute. reflexivity. Qed.

Example large_volume_test :
  near (vwap (calculator 10 [createTrade NS 1000000 10000; createTrade (2 * NS) 2000000 10100; createTrade (3 * NS) 3000000 10200]))
    (lit 1013333 100) (d_of_Z 1) = true.
Proof. vm_compute. reflexivity. Qed.

Definition slid := [createTrade baseTime 100 10000; createTrade (baseTime + NS) 100 10200; createTrade (baseTime + 3 * NS) 100 10400].
Example window_sliding_accuracy :
  near (vwap (calculator 2 (take 2 slid))) (d_of_Z 10100) cent = true ∧ near (vwap (calculator 2 slid)) (d_of_Z 10300) cent = true.
Proof. vm_compute. done. Qed.

(** Ten trades, half a second apart: nothing leaves the window of five. *)
Definition updates := (λ i, createTrade (baseTime + Z.of_nat i * 500000000) (100 * Z.of_nat i) (10000 + Z.of_nat i * 10)) <$> seq 1 10.
Definition weighted (trades : list TradeMessage) : double :=
  d_div (d_of_Z (Zsum ((λ t, Trade.quantity t * Trade.price t) <$> trades))) (d_of_Z (Zsum (Trade.quantity <$> trades))).
Example continuous_updates :
  Forall (λ i, near (vwap (calculator 5 (take i updates))) (weighted (take i updates)) (d_of_Z 1) = true) (seq 1 10).
Proof. repeat constructor; vm_compute; reflexivity. Qed.

Example price_volatility_handling :
  near (vwap (calculator 10 [createTrade baseTime 100 10000; createTrade (baseTime + NS) 100 15000;
                             createTrade (baseTime + 2 * NS) 100 8000; createTrade (baseTime + 3 * NS) 100 12000]))
    (d_of_Z 11250) cent = true.
Proof. vm_compute. reflexivity. Qed.

(** ** [test_vwap_delta_eviction.cpp] *)

(** Fails.  The test takes the first of its three trades to be out of the
    window, and expects 10160; the window is two seconds and the trades span
    one, so all three count: 6080000 / 600 = 10133.33. *)
Definition delta := calculator 2 [createTrade (10 * NS + 100) 100 10000; createTrade (10 * NS + 500000000) 200 10100;
                                  createTrade (11 * NS + 100) 300 10200].
Example delta_eviction :
  tradeCount delta = 3%nat ∧ d_to_i32 (d_add (vwap delta) (lit 1 2)) = Some 10133 ∧
  near (vwap delta) (lit 1013333 100) cent = true.
Proof. vm_compute. done. Qed.

(** ** [test_window_timing.cpp] *)

Example First_Trade_Starts_Window :
  let ts := [createTrade baseTime 100 10000; createTrade (baseTime + 4999999999) 100 10100; createTrade (baseTime + 5 * NS) 100 10200] in
  (λ i, hasCompleteWindow (calculator 5 (take i ts))) <$> [0; 1; 2; 3]%nat = [false; false; false; true].
Proof. vm_compute. reflexivity. Qed.

Example Window_Slides_Correctly :
  let ts := (λ t, createTrade (baseTime + t * 100000000) 100 (10000 + t)) <$> [0; 10; 20; 35; 50] in
  (λ i, tradeCount (calculator 3 (take i ts))) <$> [3; 4; 5]%nat = [3; 3; 3]%nat.
Proof. vm_compute. reflexivity. Qed.

Example Exact_Window_Boundary :
  let ts := [createTrade baseTime 100 10000; createTrade (baseTime + 2 * NS) 100 10100; createTrade (baseTime + 2 * NS + 1) 100 10200] in
  (λ i, tradeCount (calculator 2 (take i ts))) <$> [2; 3]%nat = [2; 2]%nat.
Proof. vm_compute. reflexivity. Qed.

Example No_Trades_Before_Window :
  let run := manager char_B 100 5 [quoted_ baseTime 9900 100 9950 200] in
  orders run = Some [] ∧ state run = Some OrderManager.State.WAITING_FOR_FIRST_WINDOW.
Proof. vm_compute. done. Qed.

Definition transition := [traded baseTime 100 10000; traded (baseTime + 1900000000) 100 10000; traded (baseTime + 2 * NS) 100 10000].
Example Window_Completion_Transition :
  (λ i, state (manager char_B 100 2 (take i transition))) <$> [1; 2; 3]%nat =
  [Some OrderManager.State.WAITING_FOR_FIRST_WINDOW; Some OrderManager.State.WAITING_FOR_FIRST_WINDOW;
   Some OrderManager.State.READY_TO_TRADE].
Proof. vm_compute. reflexivity. Qed.

Definition periods : list TradeMessage :=
  (λ i, createTrade (baseTime + (i / 2) * 2 * NS + (i mod 2) * 500000000) 100 (10000 + (i / 2) * 100)) <$> (Z.of_nat <$> seq 0 10).
Example Multiple_Window_Periods : Forall (λ i, tradeCount (calculator 1 (take i periods)) ≤ 2)%nat (seq 1 10).
Proof. repeat constructor; vm_compute; lia. Qed.

(** Fails.  The test expects the trade of the fourth call, which is older than
    the third, to count (10112.5); [addTrade] rejects it. *)
Definition unordered := (λ x, createTrade (baseTime + x.1 * 1000000) 100 x.2) <$>
  [(0, 10000); (1000, 10100); (2000, 10200); (1500, 10150)].
Example Timestamp_Ordering :
  near (vwap (calculator 5 unordered)) (lit 101125 10) cent = false ∧ near (vwap (calculator 5 unordered)) (d_of_Z 10100) cent = true ∧
  rejectedTrades (calculator 5 unordered) = 1.
Proof. vm_compute. done. Qed.

Example Window_Duration_Accuracy :
  (λ w, let ts := [createTrade baseTime 100 10000; createTrade (baseTime + w * NS - 1) 100 10100;
                   createTrade (baseTime + w * NS + 1) 100 10200] in
        (tradeCount (calculator w (take 2 ts)), tradeCount (calculator w ts))) <$> [1; 5; 10; 30; 60] = replicate 5 (2, 2)%nat.
Proof. vm_compute. reflexivity. Qed.

Example Gap_in_Trading_Activity :
  let c := calculator 2 [createTrade baseTime 100 10000; createTrade (baseTime + NS) 100 10100; createTrade (baseTime + 10 * NS) 100 10500] in
  tradeCount c = 1%nat ∧ near (vwap c) (d_of_Z 10500) cent = true.
Proof. vm_compute. done. Qed.

(** The test allows 30, one more or one less: the trade exactly three seconds
    old counts, so there are 31. *)
Example Continuous_Trading :
  tradeCount (calculator 3 ((λ i, createTrade (baseTime + Z.of_nat i * 100000000) 10 10000) <$> seq 0 100)) = 31%nat.
Proof. vm_compute. reflexivity. Qed.

(** ** [test_order_manager.cpp] *)

Definition twice : list OrderManager.op := [traded baseTime 100 14000; traded (baseTime + NS) 100 14000].
Definition thrice : list OrderManager.op :=
  [traded baseTime 100 14000; traded (baseTime + 500000000) 100 14000; traded (baseTime + NS) 100 14000].
Definition at_ (ms : Z) : Z := baseTime + ms * 1000000.

Example testWaitingForVwapWindow :
  let run := manager char_B 100 2 [quoted_ NS 13900 50 13850 75] in
  orders run = Some [] ∧ state run = Some OrderManager.State.WAITING_FOR_FIRST_WINDOW.
Proof. vm_compute. done. Qed.

Example testVwapWindowCompletion :
  state (manager char_B 100 1 (take 1 twice)) = Some OrderManager.State.WAITING_FOR_FIRST_WINDOW ∧
  state (manager char_B 100 1 twice) = Some OrderManager.State.READY_TO_TRADE.
Proof. vm_compute. done. Qed.

Example testBuyOrderTrigger : orders (manager char_B 100 1 (thrice ++ [quoted_ (at_ 1500) 13900 50 13950 75])) = Some [(char_B, 13950, 75)].
Proof. vm_compute. reflexivity. Qed.

Example testSellOrderTrigger : orders (manager char_S 100 1 (thrice ++ [quoted_ (at_ 1500) 14050 80 14100 90])) = Some [(char_S, 14050, 80)].
Proof. vm_compute. reflexivity. Qed.

Example testMaxOrderSizeLimit : orders (manager char_B 50 1 (twice ++ [quoted_ (at_ 1500) 13900 50 13950 200])) = Some [(char_B, 13950, 50)].
Proof. vm_compute. reflexivity. Qed.

Example testUnfavorablePrice : orders (manager char_B 100 1 (twice ++ [quoted_ (at_ 1500) 13900 50 14050 75])) = Some [].
Proof. vm_compute. reflexivity. Qed.

Example testOrderHistory :
  orders (manager char_B 100 1 (twice ++ [quoted_ (at_ 1500) 13900 50 13950 75; quoted_ (at_ 2000) 13850 60 13900 80])) =
  Some [(char_B, 13950, 75); (char_B, 13900, 80)].
Proof. vm_compute. reflexivity. Qed.

Example testSlidingVwapWindow :
  near (vwap (calculator 2 ((λ i, createTrade (baseTime + Z.of_nat i * NS) 100 (14000 + Z.of_nat i * 100)) <$> seq 0 4)))
    (d_of_Z 14200) cent = true.
Proof. vm_compute. reflexivity. Qed.

Example testStateContinuity :
  (λ i, state (manager char_S 100 1 (take i (twice ++ [quoted_ (at_ 1500) 14050 80 14100 90])))) <$> [2; 3]%nat =
  [Some OrderManager.State.READY_TO_TRADE; Some OrderManager.State.READY_TO_TRADE].
Proof. vm_compute. reflexivity. Qed.

(** ** [test_order_triggering.cpp], [test_order_size.cpp] *)

(** [setupVwap] makes five trades in 0.8 seconds, and no two of them are one
    window (1 or 2 seconds) apart: the window never completes, so no order is
    ever sent.  The tests that ask for none hold; those that ask for one fail,
    whatever the sizes and prices: six of the first file, eight of the second. *)
Definition setupVwap : list OrderManager.op := (λ i, traded (baseTime + Z.of_nat i * 200000000) 100 10000) <$> seq 0 5.

Example No_Trigger :
  orders (manager char_B 1000 1 (setupVwap ++ [quoted_ (at_ 1500) 9900 100 10000 200])) = Some [] ∧
  orders (manager char_B 1000 1 (setupVwap ++ [quoted_ (at_ 1500) 9900 100 10050 200])) = Some [] ∧
  orders (manager char_S 1000 1 (setupVwap ++ [quoted_ (at_ 1500) 10000 150 10100 200])) = Some [] ∧
  orders (manager char_S 1000 1 (setupVwap ++ [quoted_ (at_ 1500) 9950 150 10100 200])) = Some [].
Proof. vm_compute. done. Qed.

(** Fails: the test asks for an order at 9950. *)
Example Buy_Order_Ask_below_VWAP :
  let run := manager char_B 1000 1 (setupVwap ++ [quoted_ (at_ 1500) 9900 100 9950 200]) in
  orders run = Some [] ∧ state run = Some OrderManager.State.WAITING_FOR_FIRST_WINDOW.
Proof. vm_compute. done. Qed.

(** Fails: the test asks for an order at 10050. *)
Example Sell_Order_Bid_above_VWAP :
  orders (manager char_S 1000 1 (setupVwap ++ [quoted_ (at_ 1500) 10050 150 10100 200])) = Some [].
Proof. vm_compute. reflexivity. Qed.

(** Fails: the test asks for five orders. *)
Example Multiple_Orders_in_Sequence :
  orders (manager char_B 1000 1
    (setupVwap ++ ((λ i, quoted_ (baseTime + (Z.of_nat i + 2) * NS) 9900 100 (9950 - Z.of_nat i * 10) 200) <$> seq 0 5))) = Some [].
Proof. vm_compute. reflexivity. Qed.

(** Fails: the tests ask for an order of the smaller of the two sizes.
    (With a sixth trade, which completes the window, that is what comes.) *)
Definition sized (complete : bool) (x : Z * Z) : option (list (Z * Z * Z)) :=
  orders (manager char_B x.1 1
    (setupVwap ++ (if complete then [traded (baseTime + NS) 100 10000] else []) ++ [quoted_ (at_ 1500) 9900 100 9950 x.2])).
Definition sizes : list (Z * Z) := [(500, 500); (300, 1000); (1000, 250); (1, 10000); (1000000, 5000)].
Example Order_Size :
  sized false <$> sizes = replicate 5 (Some []) ∧
  sized true <$> sizes = (λ x, Some [(char_B, 9950, Z.min x.1 x.2)]) <$> sizes.
Proof. vm_compute. done. Qed.

Example Zero_Max_Size_Validation :
  made char_B 0 1 = inr "Max order size must be positive"%string.
Proof. vm_compute. reflexivity. Qed.

(** ** [test_edge_cases.cpp] *)

Example Zero_Quantity_or_Negative_Price :
  Forall (λ t, let c := calculator 5 [createTrade (1000 * NS) 100 10000; t] in vwap c = d_of_Z 10000 ∧ tradeCount c = 1%nat)
    [createTrade (2000 * NS) 0 20000; createTrade (2000 * NS) 100 0; createTrade (2000 * NS) 100 (-5000)].
Proof. repeat constructor. Qed.

Example Maximum_Values :
  let ts := [createTrade (1000 * NS) (2 ^ 32 - 1) 10000; createTrade (2000 * NS) 100 (2 ^ 31 - 1)] in
  near (vwap (calculator 5 (take 1 ts))) (d_of_Z 10000) (d_of_Z 1) = true ∧ d_lt dzero (vwap (calculator 5 ts)) = true.
Proof. vm_compute. done. Qed.

Example Minimum_Positive_Values : vwap (calculator 5 [createTrade (1000 * NS) 1 1]) = d_of_Z 1.
Proof. vm_compute. reflexivity. Qed.

(** Fails: the test asks for an order.  The ten trades are 0.6 seconds apart,
    the window is five seconds long, and 0.6 does not divide 5: the window
    never completes.  (The symbol has nothing to do with it.) *)
Example Empty_Symbol :
  let run := manager char_B 100 5
    (((λ i, traded (baseTime + Z.of_nat i * 600000000) 100 10000) <$> seq 0 10) ++ [quoted_ (baseTime + 6 * NS) 9900 100 9950 200]) in
  orders run = Some [] ∧ state run = Some OrderManager.State.WAITING_FOR_FIRST_WINDOW.
Proof. vm_compute. done. Qed.

(** The rest of "Maximum Symbol Length" is [Buy_Order_Ask_below_VWAP]: it
    fails, by the same five trades. *)
Example Zero_Bid_Ask_Quantities : orders (manager char_B 100 1 (setupVwap ++ [quoted_ (at_ 1500) 9900 100 9950 0])) = Some [].
Proof. vm_compute. reflexivity. Qed.

Example All_Trades_Expired :
  let c := calculator 1 [createTrade baseTime 100 10000; createTrade (at_ 500) 100 10100; createTrade (baseTime + 5 * NS) 100 15000] in
  vwap c = d_of_Z 15000 ∧ tradeCount c = 1%nat.
Proof. vm_compute. done. Qed.

Example Timestamp_Zero : vwap (calculator 5 [createTrade 0 100 10000]) = d_of_Z 10000.
Proof. vm_compute. reflexivity. Qed.

Example Invalid_Order_Side :
  made 88 100 5 = inr "Side must be 'B' or 'S'"%string.
Proof. vm_compute. reflexivity. Qed.

Example Overflow_Protection :
  vwap (calculator 10 ((λ i, createTrade (baseTime + Z.of_nat i * 1000000) 1000000 2000000) <$> seq 0 100)) = d_of_Z 2000000.
Proof. vm_compute. reflexivity. Qed.

(** ** [test_protocol.cpp], [test_parser.cpp], [test_network_resilience.cpp], [test_stress.cpp] *)

Definition IBM_name : list Z := [73; 66; 77; 0; 0; 0; 0; 0].

Example testQuoteParsing :
  parseQuote (IBM_name ++ [0; 126; 149; 170; 120; 212; 237; 21; 100; 0; 0; 0; 73; 54; 0; 0; 200; 0; 0; 0; 74; 54; 0; 0]) 32 =
  Some (Quote.mk IBM_name 1580152659000000000 100 13897 200 13898).
Proof. vm_compute. reflexivity. Qed.

Example testTradeParsing :
  parseTrade (IBM_name ++ [1; 126; 149; 170; 120; 212; 237; 21; 50; 0; 0; 0; 75; 54; 0; 0]) 24 =
  Some (Trade.mk IBM_name 1580152659000000001 50 13899).
Proof. vm_compute. reflexivity. Qed.

Example testOrderBuilding :
  serializeOrder (replicate 25 0) 25 (Order.mk IBM_name 1580152659000000002 75 13896 char_B [0; 0; 0]) =
  (IBM_name ++ [2; 126; 149; 170; 120; 212; 237; 21; 66; 75; 0; 0; 0; 72; 54; 0; 0], 25%nat).
Proof. vm_compute. reflexivity. Qed.

Example testHeaderParsing : parseHeader [32; 1; 0] 3 = Some (Header.mk 32 1).
Proof. vm_compute. reflexivity. Qed.

(** The message of this test has a header of three bytes; the program's has
    two, and the last byte stays in the buffer. *)
Definition completeMessage : list Z := [32; 1; 0] ++ IBM_name ++ replicate 8 0 ++ [100; 0; 0; 0] ++ replicate 4 0 ++ [200; 0; 0; 0] ++ replicate 4 0.
Definition fresh : MessageBuffer := MessageBuffer_init (replicate (Z.to_nat BUFFER_SIZE) 0).
Definition extracted (b : MessageBuffer) : ExtractResult * MessageBuffer :=
  let '(r, _, _, b) := extractMessage b (replicate 64 0) in (r, b).
Example testMessageBuffer :
  let b1 := (extracted (append fresh completeMessage).2).2 in
  let b2 := (append (clear b1) (take 10 completeMessage)).2 in
  let b3 := (append (extracted b2).2 (drop 10 completeMessage)).2 in
  ((extracted (append fresh completeMessage).2).1, availableBytes b1, (extracted b2).1, (extracted b3).1) =
  (SUCCESS, 1, NEED_MORE_DATA, SUCCESS).
Proof. vm_compute. reflexivity. Qed.

Example testInvalidMessages :
  validateHeader (Header.mk 32 99) = false ∧ validateQuote (Quote.mk IBM_name 0 0 100 100 101) = false ∧
  validateOrder (Order.mk IBM_name 0 100 100 88 [0; 0; 0]) = false.
Proof. vm_compute. done. Qed.

Example testTradeRoundTrip :
  let t := Trade.mk IBM_name 999999 250 13990 in
  let '(buf, n) := serializeTradeMessage (replicate 26 0) 26 t in
  n = 26%nat ∧ parseHeader buf 26 = Some (Header.mk 24 2) ∧ parseTrade (drop 2 buf) 24 = Some t.
Proof. vm_compute. done. Qed.

Example testInvalidHeaderType :
  parseHeader [32; 99] 2 = Some (Header.mk 32 99) ∧ validateHeader (Header.mk 32 99) = false.
Proof. vm_compute. done. Qed.

(** "Partial Message Handling". *)
Example Partial_Message_Handling :
  let q := quote_frame (createQuote 1000000000 10000 100 10050 200) in
  let b := (append fresh (take 29 q)).2 in
  ((extracted b).1, (extracted (append (extracted b).2 (drop 29 q)).2).1) = (NEED_MORE_DATA, SUCCESS).
Proof. vm_compute. reflexivity. Qed.

(** "Receive Buffer Management". *)
Example Receive_Buffer_Management :
  let ms := (λ i, createTrade (1000000000 + Z.of_nat i) 100 (10000 + Z.of_nat i)) <$> seq 0 10 in
  let b := foldl (λ b t, (append b (trade_frame t)).2) fresh ms in
  List.length (extract_all 20 b).1 = 10%nat.
Proof. vm_compute. reflexivity. Qed.

(** Fails (and does not compile: it sets [header.reserved]).  "Message Buffer
    Overflow" appends 10000 trades, 26 bytes each, before it reads any, and
    asks for 10000 messages.  The buffer has room for 2520 of them and 16
    bytes more. *)
Example Message_Buffer_Overflow : BUFFER_SIZE = 2520 * 26 + 16 ∧ 10000 * 26 > BUFFER_SIZE.
Proof. vm_compute. done. Qed.

(** ** [test_binary_protocol.cpp] *)

(** Fails.  "Endianness Conversion" writes the fields with [htonl], most
    significant byte first; the parser reads them the other way round. *)
Definition be (n : nat) (v : Z) : list Z := rev (le_bytes n v).
Example Endianness_Conversion :
  parseQuote (name TEST ++ be 8 1000000000000 ++ be 4 100 ++ be 4 9950 ++ be 4 200 ++ be 4 10050) 32 =
  Some (Quote.mk (name TEST) 4685933471334400 1677721600 3727032320 3355443200 1109852160).
Proof. vm_compute. reflexivity. Qed.

Example Parser_Round_Trip :
  let q := Quote.mk (take 8 ([71; 79; 79; 71] ++ replicate 8 0)) 9876543210 1500 150000 2000 150100 in
  parseQuote (quote_bytes q) 32 = Some q.
Proof. vm_compute. reflexivity. Qed.

Example Invalid_Message_Handling : parseQuote (replicate 10 255) 10 = None.
Proof. vm_compute. reflexivity. Qed.
